(* ===== verification/_CoqProject ===== *)
-Q . S2P
Prelude.v
GoLib.v
GoFloat.v
GoRound.v
GoTime.v
GoDate.v
GoDateText.v
GoUrl.v
GoMux.v
GoNumber.v
GoDecimal.v
Domain.v
Telemetry.v
ConfigError.v
PipelineConfig.v
GoJson.v
GoJsonPrint.v
GoFloatText.v
GoJsonValue.v
GoQuote.v
GoJsonString.v
GoStrings.v
GoJsonSound.v
GoJsonText.v
GoJsonStruct.v
GoJsonDecode.v
ConfigJson.v
Store.v
Broker.v
Replay.v
Connector.v
Sse.v
Loadgen.v
WebSocket.v
Pipeline.v
Dedup.v
Middleware.v
Builder.v
Restart.v
Validate.v
Redact.v
Supervisor.v
Source.v
ConfigSound.v
Poller.v
Webhook.v
Grpc.v
Sessions.v
Manager.v
Writes.v
Handlers.v
ManagerInv.v
ManagerSpec.v
Locking.v
LockingSpec.v
RestoreSpec.v
HandlersSpec.v
ErrorText.v
ApiJson.v
Service.v
ReadBack.v
Linked.v
Generation.v
