(* ===== verification/Prelude.v ===== *)
(** * Nephtys: a verification library for the stream connector

    Nephtys is a Go service that ingests streams of events (from WebSocket, SSE, a
    polled REST endpoint, a webhook or a gRPC client stream), passes each through a
    configurable pipeline, and publishes it to NATS JetStream.  Streams are managed
    over HTTP and their configurations kept in a JetStream key-value bucket.  The
    sources are under src/; this library translates them into executable
    definitions and proves what each part promises.

    ** The parts and their files

    The standard library the program leans on is modelled first, as far as the
    program uses it:
    - [GoLib]: integers at their width, bytes, [strconv], [strings];
      [GoFloat]: IEEE doubles; [GoRound]: rounding to nearest gives back every finite
      double; [GoNumber]: their decimal text; [GoDecimal]: the shortest decimal
      identifies its double; [GoTime]: durations and their syntax; [GoDate],
      [GoDateText]: reading and printing RFC 3339; [GoUrl]: net/url; [GoMux]: the
      patterns of [ServeMux] and what they serve; [GoStrings]: [TrimSpace], [ToLower];
    - encoding/json: [GoJson] (the scanner), [GoJsonPrint], [GoFloatText] (the text a
      finite double is printed as reads back as that double), [GoJsonValue] (values of
      [any]), [GoQuote] (the text of [%q] and of a duration), [GoJsonString] (escapes
      and UTF-8), [GoJsonSound] (what is scanned can be printed and scanned again),
      [GoJsonText] (raw messages), [GoJsonStruct]
      (structs by their tags: the classes [Struct] and [StructLaws]), [GoJsonDecode]
      (what decoding yields: the class [StructSound]).

    The program, bottom up:
    - [Domain] (internal/domain): events, configurations, statuses;
      [Telemetry] (internal/telemetry): the metric vectors as maps;
      [ConfigError]: validation errors as values;
    - [PipelineConfig], [Pipeline], [Dedup], [Middleware], [Builder]
      (internal/pipeline): validation, the handler chain in state-passing style, each
      middleware, and the chain a configuration builds;
    - [Generation] (generation.go, batch.go): publishers, the batch worker and
      [Retire] as goroutines over a lock, a channel and a buffer; one step per
      blocking point, any interleaving;
    - [ConfigJson] (event.go, validate.go): every configuration's members by its tags,
      strict decoding; [Store] (internal/store/kv.go) over the class [KeyValue], with
      what can be said of a bucket whose refused writes may have been made ([tracks]);
      [Broker] (internal/broker/nats.go);
    - [Connector], [Sse], [WebSocket], [Poller], [Webhook], [Grpc], [Source]
      (internal/connector): constructors, [Open], [Run], [Close] and what is read
      from each protocol; [Sessions] puts the five behind the one contract;
    - [ConfigSound]: what the API decodes, completed with its defaults, can be stored;
    - [Restart], [Supervisor] (restart.go and the supervising goroutine of
      manager.go): a step per action of one stream's goroutine;
    - [Validate], [Redact] (validate.go, redact.go); [Manager] (manager.go): the state
      of the manager as the record [mstate], one field per Go map, and a function per
      operation; two more fields say what is known of the store, [acked] what the
      writes it has acknowledged amount to and [in_doubt] those it has refused;
      [ManagerInv], [ManagerSpec], [RestoreSpec]: its invariants and
      theorems; [Writes]: what each transition writes to the metrics, as data;
      [Locking], [LockingSpec]: [Remove] and [StopAll] step by step, with what runs
      while they hold the lock;
    - [Handlers] (auth.go, server.go, handlers.go, health.go): authentication, routes
      and handlers over [mstate]; [HandlersSpec]: what the API guarantees; [ErrorText]:
      the messages of the errors, and what they name; [ApiJson]: the text of the
      responses and what a client decodes from it;
    - [Service] (internal/config, cmd/nephtys): settings, the command line, start and
      stop, and histories of the manager under the API; [ReadBack]: where the API
      finds a stream and what it answers there; [Linked]: the same over a
      bucket, where every call the manager makes on its store is made on the bucket
      and answered by it;
    - [Replay] (docs/replay/consumer.go): the consumer that reads events back;
      [Loadgen] (docs/benchmarks/power/loadgen.go): the generator benchmarks feed the
      SSE connector from.

    ** What the theorems show

    - The manager: in every state any history reaches its maps agree, ports are held
      once, no pipeline generation leaks or is retired under a running stream, and what
      the store has acknowledged describes what runs ([manager_consistent], [no_generation_leaks], the lemma
      [store_describes_running]); each operation does all it says or nothing
      in the process, and a write the store refuses is in doubt
      ([refused_registration_leaves_nothing], [update_commits_or_rolls_back],
      [removal_is_complete]); [restore_recovers_all].
    - Its lock: [Remove] and [StopAll] wait with the lock held while supervisors and
      updates go on, and are atomic all the same ([locked_operations_are_atomic]); the
      lock is always released, within a number of steps that is given
      ([lock_is_released]).
    - Composition: the HTTP API runs over the manager and the manager over the bucket
      ([Linked]).  A write the bucket refuses may have been made all the same, or be
      made later; but for such writes the bucket holds the documents of exactly the
      manager's map ([bucket_mirrors_manager]); what a successful response says was
      stored or deleted was, and any other than a 503 leaves the bucket alone
      ([responses_are_durable]); a second process started on what the first one stored
      lists every stream the first one did, but for refused writes
      ([restart_recovers_the_service]); what was
      created is served at its path until somebody addresses it
      ([created_stream_is_served]); the API and
      [--config-check] accept the same documents (the lemma [config_check_agrees]);
      statuses say
      what happened ([creation_status], [update_status], [readiness_follows_broker]),
      and the message of a refused configuration names the field at fault
      ([refusals_name_the_fault]);
      what is accepted can be stored ([accepted_documents_are_stored]);
      nothing gets past authentication but the probes and the metrics, which are public
      ([unauthenticated_requests_change_nothing]).
    - Generations: retirement ends under every schedule and loses no accepted event;
      batches are bounded.
    - Supervisors: budgets, cancellation, the Open/Run/Close protocol, reported status.
    - Data: [config_roundtrip], for every configuration whose numbers are finite and
      not a negative zero; [published_event_is_replayed], [publish_carries_content],
      [sse_frames_roundtrip], [store_implements_map].
    - Both ends of a connection: [loadgen_feeds_connector] runs the connector's read
      loop on what the load generator writes.
    - Sources: [configured_source_conforms] for all five, and for each what it
      publishes and answers.
    - Pipeline: deduplication refines an abstract LRU, thresholds work per group,
      transforms project, a validated configuration builds.
    - What the API serves: two managers that differ only in secrets answer the same
      bytes to every request that changes nothing ([answers_reveal_no_secrets]), and a
      client reads back what the manager knows, bytes that are not UTF-8 in an error
      replaced ([stream_document_decodes]).
    A few theorems record behaviour the authors may not want; they are named in the
    findings of the manifest.

    ** Conventions

    A Go call that may fail returns [result] (here) or [option]; [Err] holds a
    constructor per error the code distinguishes, with the arguments of its format, and
    [ErrorText] has the messages.
    Strings and byte slices are [string]; an [int] is a [Z] with [wrap64] where it can
    overflow; a map is a [gmap].  What lies outside the repository is an argument:
    the answers of listeners, the store, the broker and the clock, the peer's bytes, the
    reasons other packages give in their errors.  The theorems about the manager and
    the API hold whatever the messages say, and take them as arguments ([error_text],
    [open_text]); the text promhttp makes of the registry and the standard library's own
    pages are arguments too ([exposition], [page]).  [KeyValue] has its laws
    ([KeyValueLaws]): a write that is acknowledged has been made, and one that fails has
    been made or not.  Two instances satisfy them, a map that always answers and a
    bucket whose writes time out, with or without effect ([flaky]).  Fuel appears in the JSON
    scanner and printer ([json_fuel] is a bound on the length of the input, and the
    lemmas of [GoJsonText] show more changes nothing), in [trim_left] and the like (the
    length of the string), and in [update_run] (a call takes at most four steps, and
    [UpdatePipeline_returns] shows five are enough); other loops are structural or are
    step relations with a termination theorem.

    ** Approximations

    - [Register] and [Restore] are one step each: they hold the lock throughout and
      wait for nobody.  An update is four separate steps.  [Remove] and [StopAll] are
      one step each in [Manager], given what the supervisors they wait for still do;
      [locked_operations_are_atomic] justifies that.
    - A request is one step, but for what its [env] brings in from elsewhere: the order
      in which Go ranges over the map of streams ([e_rank]), and, for the status a
      creation reports after it has let go of the lock, the state the manager is in by
      then ([e_later]).
    - [setStatus] is one step of the supervisor, although it writes the status and then
      four gauges one by one, and a scrape can fall between any two of them;
      [status_writes] lists them and [supervisor_reports_status] says what can be seen in
      between.  The other calls that touch several series ([DeleteStreamSeries], the
      counters of a publish) are one step as well: theorems about the metrics speak of
      the moments when no such call is under way.
    - A write the bucket has refused can land at any later moment while the process
      runs ([step_lands], [lk_lands]); a new process starts on the bucket as it is then,
      and nothing of the old one's lands afterwards.
    - Requests are in origin form.
    - Whether an identifier with letters outside ASCII names a wildcard of a pattern is
      an argument ([wide_name]).
    - A session's trace lists the calls of [ready] and [publish] in order; a webhook's
      handlers publish at most once each, so any order of requests is an interleaving,
      and gRPC clients interleave by [interleaving].
    - A negative zero under [omitempty] is left out of a document and so reads back as
      a zero: theorems about what is stored assume that the documents sent hold none
      ([document_ok]).
    - The load generator writes the events of one tick without another request coming
      between them.
    - [to_lower] folds ASCII letters, which is all that comparing with an ASCII word
      needs here.

    ** Not modelled

    Generated gRPC stubs, log records, the delivery of signals, the parsing of flags,
    HTTP and WebSocket transports, TLS, the text of the metric exposition, timeouts and the NATS
    client's own reconnection: generated code, I/O, or the work of libraries. *)

From Stdlib Require Import ZArith Lia.
From stdpp Require Import base tactics list strings gmap.

#[local] Open Scope Z_scope.

(** ** Results: a Go call that returns a value or an error *)

Inductive result (E A : Type) : Type :=
| Ok (a : A)
| Err (e : E).
Arguments Ok {E A} a.
Arguments Err {E A} e.

#[export] Instance result_eq_dec {E A} `{EqDecision E, EqDecision A} :
  EqDecision (result E A).
Proof. solve_decision. Defined.

#[export] Instance result_ret {E} : MRet (result E) := fun _ a => Ok a.
#[export] Instance result_bind {E} : MBind (result E) := fun _ _ f r =>
  match r with Ok a => f a | Err e => Err e end.
#[export] Instance result_fmap {E} : FMap (result E) := fun _ _ f r =>
  match r with Ok a => Ok (f a) | Err e => Err e end.

Definition res_map_err {E F A} (g : E -> F) (r : result E A) : result F A :=
  match r with Ok a => Ok a | Err e => Err (g e) end.

Definition is_ok {E A} (r : result E A) : bool :=
  match r with Ok _ => true | Err _ => false end.

(** [fail_if b e] is Go's [if b { return e }]: bind it before the code that
    follows the early return. *)
Definition fail_if {E} (b : bool) (e : E) : result E unit :=
  if b then Err e else Ok tt.

Lemma bind_ok {E A B} (r : result E A) (f : A -> result E B) b :
  (r ≫= f) = Ok b <-> exists a, r = Ok a /\ f a = Ok b.
Proof. destruct r; unfold mbind; simpl; naive_solver. Qed.

Lemma seq_ok {E A} (r : result E unit) (k : result E A) a :
  (r;; k) = Ok a <-> r = Ok tt /\ k = Ok a.
Proof. destruct r as [[]|]; unfold mbind; simpl; naive_solver. Qed.

Lemma fail_if_ok {E} (b : bool) (e : E) : fail_if b e = Ok tt <-> b = false.
Proof. destruct b; simpl; naive_solver. Qed.

Lemma fail_if_err {E} (b : bool) (e e' : E) :
  fail_if b e = Err e' <-> b = true /\ e' = e.
Proof. destruct b; simpl; naive_solver. Qed.

Lemma is_ok_true {E A} (r : result E A) : is_ok r = true <-> exists a, r = Ok a.
Proof. destruct r; simpl; naive_solver. Qed.


Create Rewrite HintDb result.
#[export] Hint Rewrite @bind_ok @seq_ok @fail_if_ok @fail_if_err @is_ok_true : result.

(** Turns a hypothesis about a chain of early returns into one fact per guard. *)
Ltac res_simpl := autorewrite with result in *; destruct_and?; simplify_eq/=.

(** ** Booleans *)

Lemma andb_true_iff_prop (a b : bool) : a && b = true <-> a = true /\ b = true.
Proof. destruct a, b; naive_solver. Qed.

Lemma bool_decide_eq_iff {P Q : Prop} `{Decision P, Decision Q} :
  (P <-> Q) -> bool_decide P = bool_decide Q.
Proof. intros. by apply bool_decide_ext. Qed.

(** ** Lists *)

(** Every prefix length of [l]: used to reason on loops that stop early. *)
Lemma Forall_concat_iff {A} (P : A -> Prop) (ls : list (list A)) :
  Forall P (concat ls) <-> Forall (Forall P) ls.
Proof.
  induction ls as [|l ls IH]; simpl; [done|].
  rewrite Forall_app, IH, Forall_cons. done.
Qed.

Lemma filter_ext_in {A} (P Q : A -> Prop) `{!forall x, Decision (P x), !forall x, Decision (Q x)} (l : list A) :
  (forall x, x ∈ l -> P x <-> Q x) -> filter P l = filter Q l.
Proof.
  induction l as [|x l IH]; intros HPQ; [done|]. rewrite !filter_cons.
  rewrite IH by (intros y Hy; apply HPQ; by right).
  repeat case_decide; try done; exfalso; assert (P x <-> Q x) by (apply HPQ; by left); tauto.
Qed.

Lemma filter_all {A} (P : A -> Prop) `{!forall x, Decision (P x)} (l : list A) :
  (forall x, x ∈ l -> P x) -> filter P l = l.
Proof.
  induction l as [|x l IH]; intros HP; [done|]. rewrite filter_cons, IH by (intros; apply HP; by right).
  rewrite decide_True; [done|]. apply HP. by left.
Qed.

Lemma filter_fmap {A B} (f : A -> B) (P : B -> Prop) `{!forall x, Decision (P x)} (l : list A) :
  filter P (f <$> l) = f <$> filter (fun x => P (f x)) l.
Proof.
  induction l as [|x l IH]; [done|]. csimpl. rewrite !filter_cons, IH. by case_decide.
Qed.

Lemma NoDup_fmap_eq {A B} (f : A -> B) (l : list A) x y :
  NoDup (f <$> l) -> x ∈ l -> y ∈ l -> f x = f y -> x = y.
Proof.
  induction l as [|z l IH]; csimpl; [set_solver|].
  rewrite NoDup_cons, !elem_of_cons. intros [Hz Hl] [->|Hx] [->|Hy] E; try done; [..|by apply IH].
  - destruct Hz. rewrite E. by apply list_elem_of_fmap_2.
  - destruct Hz. rewrite <- E. by apply list_elem_of_fmap_2.
Qed.

(** A computation known to succeed is the success of its result: concrete runs are
    checked by evaluating one boolean. *)
Definition is_some {A} (o : option A) : bool := match o with Some _ => true | None => false end.

Lemma some_default {A} (d : A) (o : option A) : is_some o = true -> o = Some (default d o).
Proof. by destruct o. Qed.

Definition ends_ok {E A} (o : option (result E unit * A)) : bool :=
  match o with Some (Ok _, _) => true | _ => false end.

Lemma ok_default {E A} (d : A) (o : option (result E unit * A)) :
  ends_ok o = true -> o = Some (Ok tt, default d (snd <$> o)).
Proof. by destruct o as [[[[]|e] a]|]. Qed.

Lemma is_some_true {A} (o : option A) : is_some o = true -> is_Some o.
Proof. destruct o; [by eexists|done]. Qed.

Lemma ok_snd {E A} (p : result E unit * A) : is_ok p.1 = true -> p = (Ok tt, p.2).
Proof. by destruct p as [[[]|e] a]. Qed.

Lemma err_snd {E A B} (e : E) (p : result E A * B) : p.1 = Err e -> p = (Err e, p.2).
Proof. destruct p as [r b]. simpl. by intros ->. Qed.

Lemma snoc_inj {A} (l1 l2 : list A) x1 x2 :
  l1 ++ [x1] = l2 ++ [x2] -> l1 = l2 /\ x1 = x2.
Proof. intros H. apply app_inj_tail in H. done. Qed.

(** ** Transition systems

    Reachability as the reflexive transitive closure, growing at the end: the
    natural scheme for invariants. *)
Section Reach.
Context {S : Type} (step : S -> S -> Prop).

Inductive reach (s0 : S) : S -> Prop :=
| reach_refl : reach s0 s0
| reach_step s s' : reach s0 s -> step s s' -> reach s0 s'.

Lemma reach_trans s0 s1 s2 : reach s0 s1 -> reach s1 s2 -> reach s0 s2.
Proof. intros H1. induction 1; eauto using reach_step. Qed.

Lemma reach_one s s' : step s s' -> reach s s'.
Proof. eauto using reach_refl, reach_step. Qed.

(** An inductive invariant holds of every reachable state. *)
Lemma reach_invariant (I : S -> Prop) s0 :
  I s0 -> (forall s s', I s -> step s s' -> I s') ->
  forall s, reach s0 s -> I s.
Proof. intros H0 Hstep s. induction 1; eauto. Qed.

(** Invariants may be proved one on top of another. *)
Lemma reach_invariant2 (I J : S -> Prop) s0 :
  (forall s, reach s0 s -> I s) ->
  J s0 -> (forall s s', I s -> J s -> step s s' -> J s') ->
  forall s, reach s0 s -> J s.
Proof. intros HI H0 Hstep s. induction 1; eauto. Qed.

(** A property of one state kept by each step, from any point on. *)
Lemma reach_stable (P : S -> Prop) s s' :
  (forall a b, P a -> step a b -> P b) -> reach s s' -> P s -> P s'.
Proof. intros Hs Hr Hp. induction Hr; eauto. Qed.
End Reach.
#[export] Hint Resolve reach_refl reach_one : core.

(** Runs of a deterministic machine over a script of inputs. *)
Section Script.
Context {S I : Type} (f : S -> I -> S).

Lemma foldl_invariant (P : S -> Prop) s l :
  P s -> (forall s i, P s -> P (f s i)) -> P (foldl f s l).
Proof. intros H0 Hs. revert s H0. induction l; simpl; eauto. Qed.
End Script.
