(* ===== verification/GoLib.v ===== *)
(** * Go's integers, bytes and strings

    The parts of the Go language and of packages [strconv], [strings] and
    [regexp] that the program uses, as executable functions.  A Go [string] (and
    a [[]byte]) is Rocq's [string]: a sequence of bytes.  An [int] or [int64] is
    a [Z] in [-2^63, 2^63) with its wrap-around written out. *)

From Stdlib Require Import ZArith Lia Ascii.
From stdpp Require Import base tactics list strings.
From S2P Require Import Prelude.

#[local] Open Scope Z_scope.

(** ** 64-bit integers *)

Definition max_int64 : Z := 2 ^ 63 - 1.
Definition min_int64 : Z := - 2 ^ 63.

Definition in_int64 (z : Z) : bool := (min_int64 <=? z) && (z <=? max_int64).

(** Two's complement truncation: what [+], [-] and [*] do on overflow. *)
Definition wrap64 (z : Z) : Z := (z + 2 ^ 63) mod 2 ^ 64 - 2 ^ 63.

Lemma in_int64_spec z : in_int64 z = true <-> min_int64 <= z <= max_int64.
Proof. unfold in_int64. rewrite andb_true_iff. lia. Qed.

Lemma wrap64_id z : min_int64 <= z <= max_int64 -> wrap64 z = z.
Proof.
  unfold wrap64, min_int64, max_int64. intros H.
  rewrite Z.mod_small; lia.
Qed.

Lemma wrap64_range z : min_int64 <= wrap64 z <= max_int64.
Proof.
  unfold wrap64, min_int64, max_int64.
  pose proof (Z.mod_pos_bound (z + 2 ^ 63) (2 ^ 64)). lia.
Qed.

(** ** Bytes *)

Definition byte_val (c : ascii) : Z := Z.of_N (N_of_ascii c).
Definition byte_of (z : Z) : ascii := ascii_of_N (Z.to_N z).

Lemma byte_val_range c : 0 <= byte_val c < 256.
Proof. unfold byte_val. pose proof (N_ascii_bounded c). lia. Qed.

Lemma byte_val_of z : 0 <= z < 256 -> byte_val (byte_of z) = z.
Proof. intros H. unfold byte_val, byte_of. rewrite N_ascii_embedding; lia. Qed.

Lemma byte_of_val c : byte_of (byte_val c) = c.
Proof. unfold byte_val, byte_of. rewrite N2Z.id. apply ascii_N_embedding. Qed.

Definition between (lo hi : Z) (c : ascii) : bool :=
  (lo <=? byte_val c) && (byte_val c <=? hi).

Definition is_digit : ascii -> bool := between 48 57.
Definition is_upper : ascii -> bool := between 65 90.
Definition is_lower : ascii -> bool := between 97 122.
Definition is_alpha (c : ascii) : bool := is_upper c || is_lower c.
Definition digit_val (c : ascii) : Z := byte_val c - 48.

(** [strings.ToLower] on one ASCII byte. *)
Definition lower_byte (c : ascii) : ascii :=
  if is_upper c then byte_of (byte_val c + 32) else c.

(** ** Strings as byte sequences *)

Fixpoint str_length (s : string) : Z :=
  match s with EmptyString => 0 | String _ s' => 1 + str_length s' end.

Fixpoint str_forallb (f : ascii -> bool) (s : string) : bool :=
  match s with EmptyString => true | String c s' => f c && str_forallb f s' end.

Fixpoint str_map (f : ascii -> ascii) (s : string) : string :=
  match s with EmptyString => EmptyString | String c s' => String (f c) (str_map f s') end.

Definition str_is_empty (s : string) : bool :=
  match s with EmptyString => true | _ => false end.

Definition str_eqb (s t : string) : bool := bool_decide (s = t).

(** [strings.HasPrefix] and [strings.TrimPrefix] at once: the rest of [s] after
    [p], when [p] is a prefix. *)
Fixpoint cut_prefix (p s : string) : option string :=
  match p, s with
  | EmptyString, _ => Some s
  | String a p', String b s' => if bool_decide (a = b) then cut_prefix p' s' else None
  | String _ _, EmptyString => None
  end.

Definition has_prefix (p s : string) : bool := bool_decide (is_Some (cut_prefix p s)).

(** [strings.Cut] on a one-byte separator: the part before it, and the part
    after when the separator occurs. *)
Fixpoint cut (sep : ascii) (s : string) : string * option string :=
  match s with
  | EmptyString => (EmptyString, None)
  | String c s' =>
      if bool_decide (c = sep) then (EmptyString, Some s')
      else let '(a, b) := cut sep s' in (String c a, b)
  end.

(** [strings.Split] on a one-byte separator; never empty. *)
Fixpoint split (sep : ascii) (s : string) : list string :=
  match s with
  | EmptyString => [EmptyString]
  | String c s' =>
      if bool_decide (c = sep) then EmptyString :: split sep s'
      else match split sep s' with
           | [] => [String c EmptyString]
           | w :: ws => String c w :: ws
           end
  end.

(** [strings.Join] with a one-byte separator. *)
Fixpoint join (sep : ascii) (ws : list string) : string :=
  match ws with
  | [] => EmptyString
  | [w] => w
  | w :: ws' => (w +:+ String sep (join sep ws'))%string
  end.

Fixpoint no_byte (b : ascii) (s : string) : Prop :=
  match s with EmptyString => True | String c s' => c <> b /\ no_byte b s' end.

Lemma str_app_cons c (s t : string) : (String c s +:+ t = String c (s +:+ t))%string.
Proof. reflexivity. Qed.

Lemma str_app_nil (t : string) : ("" +:+ t = t)%string.
Proof. reflexivity. Qed.
Create Rewrite HintDb gostr.
#[export] Hint Rewrite str_app_cons str_app_nil : gostr.

Lemma str_app_assoc (a b c : string) : ((a +:+ b) +:+ c = a +:+ (b +:+ c))%string.
Proof. induction a as [|x a IH]; autorewrite with gostr; [done|]. by rewrite IH. Qed.

Lemma str_app_empty_r (a : string) : (a +:+ "" = a)%string.
Proof. induction a as [|x a IH]; autorewrite with gostr; [done|]. by rewrite IH. Qed.

Lemma str_length_nonneg s : 0 <= str_length s.
Proof. induction s; simpl; lia. Qed.

Lemma str_length_app s t : str_length (s +:+ t)%string = str_length s + str_length t.
Proof.
  induction s as [|c s IH]; autorewrite with gostr; [done|]. simpl. lia.
Qed.

Lemma str_forallb_app f s t :
  str_forallb f (s +:+ t)%string = str_forallb f s && str_forallb f t.
Proof.
  induction s as [|c s IH]; autorewrite with gostr; [done|]. simpl. rewrite IH.
  by destruct (f c).
Qed.

Lemma split_nonempty sep s : split sep s <> [].
Proof. destruct s; simpl; [done|]. case_bool_decide; [done|]. by destruct (split sep s). Qed.

(** Splitting and joining on the same separator is the identity. *)
Lemma join_split sep s : join sep (split sep s) = s.
Proof.
  induction s as [|c s IH]; [done|]. simpl. case_bool_decide as Hc.
  - subst. destruct (split sep s) as [|w ws] eqn:E; [by destruct (split_nonempty sep s)|].
    change (join sep ("" :: w :: ws)) with ("" +:+ String sep (join sep (w :: ws)))%string.
    rewrite IH. done.
  - destruct (split sep s) as [|w ws] eqn:E; [by destruct (split_nonempty sep s)|].
    rewrite <- IH. destruct ws; done.
Qed.

Lemma split_pieces sep s : Forall (no_byte sep) (split sep s).
Proof.
  induction s as [|c s IH]; simpl; [repeat constructor|].
  case_bool_decide as Hc; [by constructor|].
  destruct (split sep s); [by repeat constructor|].
  apply Forall_cons in IH as [H1 H2]. by constructor.
Qed.

(** ** [strconv.Atoi] and [strconv.Itoa] *)

Fixpoint parse_digits (acc : Z) (s : string) : option Z :=
  match s with
  | EmptyString => Some acc
  | String c s' => if is_digit c then parse_digits (acc * 10 + digit_val c) s' else None
  end.

(** An optional sign. *)
Definition cut_sign (s : string) : bool * string :=
  match s with
  | String c t =>
      if bool_decide (c = "-"%char) then (true, t)
      else if bool_decide (c = "+"%char) then (false, t) else (false, s)
  | EmptyString => (false, s)
  end.

(** [Atoi] accepts a sign, then decimal digits, in the range of [int]; callers
    only test its error for nil, so [None] stands for every one of them. *)
Definition atoi (s : string) : option Z :=
  let '(neg, body) := cut_sign s in
  if str_is_empty body then None
  else match parse_digits 0 body with
       | None => None
       | Some n =>
           let v := if neg then - n else n in
           if in_int64 v then Some v else None
       end.

Definition digit_char (d : Z) : ascii := byte_of (48 + d).

Fixpoint udigits (fuel : nat) (n : Z) (acc : string) : string :=
  match fuel with
  | O => acc
  | S f =>
      let acc' := String (digit_char (n mod 10)) acc in
      if n / 10 =? 0 then acc' else udigits f (n / 10) acc'
  end.

(** Every step divides by ten, so one unit of fuel per bit is enough. *)
Definition utoa (n : Z) : string := udigits (S (Z.to_nat (Z.log2 n))) n EmptyString.

Definition itoa (z : Z) : string :=
  if z <? 0 then String "-" (utoa (- z)) else utoa z.

Lemma digit_char_ok d : 0 <= d < 10 ->
  is_digit (digit_char d) = true /\ digit_val (digit_char d) = d.
Proof.
  intros H. unfold is_digit, between, digit_val, digit_char.
  rewrite byte_val_of by lia. split; lia.
Qed.

Lemma parse_udigits fuel n acc :
  0 <= n < 2 ^ Z.of_nat fuel -> (0 < fuel)%nat ->
  parse_digits 0 (udigits fuel n acc) = parse_digits n acc.
Proof.
  revert n acc. induction fuel as [|f IH]; intros n acc Hn Hf; [lia|].
  cbn [udigits]. destruct (digit_char_ok (n mod 10)) as [Hd Hv].
  { apply Z.mod_pos_bound. lia. }
  pose proof (Z.div_mod n 10 ltac:(lia)) as Hdm.
  destruct (Z.eqb_spec (n / 10) 0) as [E|E].
  - cbn [parse_digits]. rewrite Hd, Hv. f_equal. lia.
  - assert (1 <= n / 10) by (pose proof (Z.div_pos n 10); lia).
    rewrite Nat2Z.inj_succ, Z.pow_succ_r in Hn by lia.
    assert (n / 10 < 2 ^ Z.of_nat f).
    { apply Z.div_lt_upper_bound; lia. }
    destruct f; [simpl in *; lia|].
    rewrite IH by lia. cbn [parse_digits]. rewrite Hd, Hv. f_equal. lia.
Qed.

Lemma parse_utoa n : 0 <= n -> parse_digits 0 (utoa n) = Some n.
Proof.
  intros Hn. unfold utoa. rewrite parse_udigits; [done| |lia].
  split; [lia|]. rewrite Nat2Z.inj_succ, Z2Nat.id by apply Z.log2_nonneg.
  destruct (Z.eq_dec n 0) as [->|]; [simpl; lia|]. apply Z.log2_spec. lia.
Qed.

Lemma udigits_shape fuel n acc : 0 <= n -> (0 < fuel)%nat ->
  exists c s, udigits fuel n acc = String c s /\ is_digit c = true.
Proof.
  revert n acc. induction fuel as [|f IH]; intros n acc Hn Hf; [lia|].
  cbn [udigits]. destruct (digit_char_ok (n mod 10)) as [Hd _].
  { apply Z.mod_pos_bound. lia. }
  destruct (Z.eqb_spec (n / 10) 0); [eauto|].
  destruct f; [cbn [udigits]; eauto|]. apply IH; [apply Z.div_pos|]; lia.
Qed.

Lemma is_digit_no_sign c : is_digit c = true -> c <> "-"%char /\ c <> "+"%char.
Proof. intros H. split; intros ->; vm_compute in H; done. Qed.

Lemma atoi_utoa n : 0 <= n <= max_int64 -> atoi (utoa n) = Some n.
Proof.
  intros Hn. unfold atoi, utoa.
  destruct (udigits_shape (S (Z.to_nat (Z.log2 n))) n "") as (c & s & E & Hd); [lia..|].
  destruct (is_digit_no_sign c Hd) as [H1 H2].
  pose proof (parse_utoa n) as Hp. unfold utoa in Hp. rewrite E in *.
  cbn [cut_sign]. rewrite !bool_decide_false by done. cbn [str_is_empty].
  rewrite Hp by lia. destruct (in_int64 n) eqn:Hi; [done|].
  assert (in_int64 n = true) by (apply in_int64_spec; unfold min_int64, max_int64 in *; lia).
  congruence.
Qed.

(** Printing a 64-bit integer and reading it back is the identity. *)
Lemma atoi_itoa z : in_int64 z = true -> atoi (itoa z) = Some z.
Proof.
  intros Hz. pose proof Hz as Hr. apply in_int64_spec in Hr.
  unfold itoa. destruct (Z.ltb_spec z 0) as [Hneg|Hpos].
  - unfold atoi. cbn [cut_sign]. rewrite bool_decide_true by done.
    destruct (udigits_shape (S (Z.to_nat (Z.log2 (- z)))) (- z) "") as (c & s & E & _); [lia..|].
    pose proof (parse_utoa (- z)) as Hp. unfold utoa in *. rewrite E in *. cbn [str_is_empty].
    rewrite Hp by lia. rewrite Z.opp_involutive, Hz. done.
  - apply atoi_utoa. lia.
Qed.

Lemma itoa_inj z1 z2 :
  in_int64 z1 = true -> in_int64 z2 = true -> itoa z1 = itoa z2 -> z1 = z2.
Proof.
  intros H1 H2 E. apply atoi_itoa in H1, H2. rewrite E in H1. congruence.
Qed.

Lemma atoi_range s z : atoi s = Some z -> in_int64 z = true.
Proof.
  unfold atoi. destruct (cut_sign s) as [neg body].
  destruct (str_is_empty body); [done|].
  destruct (parse_digits 0 body) as [n|]; [|done].
  destruct (in_int64 (if neg then - n else n)) eqn:E; [|done]. naive_solver.
Qed.
