(* ===== verification/GoFloat.v ===== *)
(** * Go's [float64]

    IEEE 754 binary64 with round-to-nearest-even, and the functions of package
    [math] the program calls.  A finite value is an exact dyadic number
    [(-1)^neg * man * 2^exp]; every arithmetic operation computes the exact
    rational result and rounds it once with [fround].  Comparisons are exact. *)

From Stdlib Require Import ZArith Lia.
From stdpp Require Import base tactics.
From S2P Require Import Prelude GoLib.

#[local] Open Scope Z_scope.

Inductive float64 : Type :=
| FNaN
| FInf (neg : bool)
| FFin (neg : bool) (man exp : Z).

#[export] Instance float64_eq_dec : EqDecision float64.
Proof. solve_decision. Defined.

(** ** Rounding *)

(** floor(log2 (n / d)) for positive [n] and [d]. *)
Definition ratio_log2 (n d : Z) : Z :=
  let k := Z.log2 n - Z.log2 d in
  if (if 0 <=? k then d * 2 ^ k <=? n else d <=? n * 2 ^ (- k)) then k else k - 1.

(** Quotient rounded to nearest, ties to even. *)
Definition div_even (n d : Z) : Z :=
  let q := n / d in
  let r := n mod d in
  match 2 * r ?= d with
  | Lt => q
  | Gt => q + 1
  | Eq => if Z.even q then q else q + 1
  end.

(** The float nearest to [n / d] ([n >= 0], [d > 0]): 53 significant bits, the
    exponent bounded below by -1074 (subnormals), infinity above 2^1024. *)
Definition fround (neg : bool) (n d : Z) : float64 :=
  if n =? 0 then FFin neg 0 0
  else
    let e := Z.max (ratio_log2 n d - 52) (-1074) in
    let m := if 0 <=? e then div_even n (d * 2 ^ e) else div_even (n * 2 ^ (- e)) d in
    if m =? 0 then FFin neg 0 0
    else
      let '(m, e) := if m =? 2 ^ 53 then (2 ^ 52, e + 1) else (m, e) in
      if 971 <? e then FInf neg else FFin neg m e.

(** [float64(z)] for an integer [z]. *)
Definition f_of_Z (z : Z) : float64 := fround (z <? 0) (Z.abs z) 1.

(** ** Exact values and comparison *)

Definition smant (neg : bool) (m : Z) : Z := if neg then - m else m.

(** Exact comparison of two dyadic numbers, brought to the smaller exponent. *)
Definition dyadic_cmp (n1 : bool) (m1 e1 : Z) (n2 : bool) (m2 e2 : Z) : comparison :=
  let e := Z.min e1 e2 in
  smant n1 m1 * 2 ^ (e1 - e) ?= smant n2 m2 * 2 ^ (e2 - e).

(** [None] when either side is NaN: every comparison operator is then false. *)
Definition fcmp (x y : float64) : option comparison :=
  match x, y with
  | FNaN, _ | _, FNaN => None
  | FInf a, FInf b => Some (if bool_decide (a = b) then Eq else if a then Lt else Gt)
  | FInf a, FFin _ _ _ => Some (if a then Lt else Gt)
  | FFin _ _ _, FInf b => Some (if b then Gt else Lt)
  | FFin n1 m1 e1, FFin n2 m2 e2 => Some (dyadic_cmp n1 m1 e1 n2 m2 e2)
  end.

Definition flt (x y : float64) : bool := bool_decide (fcmp x y = Some Lt).
Definition feq (x y : float64) : bool := bool_decide (fcmp x y = Some Eq).
Definition fle (x y : float64) : bool := flt x y || feq x y.
Definition fgt (x y : float64) : bool := flt y x.
Definition fge (x y : float64) : bool := fle y x.

(** ** Arithmetic *)

Definition fneg (x : float64) : float64 :=
  match x with
  | FNaN => FNaN
  | FInf a => FInf (negb a)
  | FFin a m e => FFin (negb a) m e
  end.

(** [math.Abs] *)
Definition fabs (x : float64) : float64 :=
  match x with
  | FNaN => FNaN
  | FInf _ => FInf false
  | FFin _ m e => FFin false m e
  end.

(** [m * 2^e] rounded. *)
Definition fround_dyadic (neg : bool) (m e : Z) : float64 :=
  if 0 <=? e then fround neg (m * 2 ^ e) 1 else fround neg m (2 ^ (- e)).

Definition fadd (x y : float64) : float64 :=
  match x, y with
  | FNaN, _ | _, FNaN => FNaN
  | FInf a, FInf b => if bool_decide (a = b) then FInf a else FNaN
  | FInf a, _ => FInf a
  | _, FInf b => FInf b
  | FFin n1 m1 e1, FFin n2 m2 e2 =>
      let e := Z.min e1 e2 in
      let s := smant n1 m1 * 2 ^ (e1 - e) + smant n2 m2 * 2 ^ (e2 - e) in
      if s =? 0 then FFin (n1 && n2) 0 0
      else fround_dyadic (s <? 0) (Z.abs s) e
  end.

Definition fsub (x y : float64) : float64 := fadd x (fneg y).

Definition fmul (x y : float64) : float64 :=
  match x, y with
  | FNaN, _ | _, FNaN => FNaN
  | FInf a, FInf b => FInf (xorb a b)
  | FInf a, FFin b m _ => if m =? 0 then FNaN else FInf (xorb a b)
  | FFin a m _, FInf b => if m =? 0 then FNaN else FInf (xorb a b)
  | FFin n1 m1 e1, FFin n2 m2 e2 => fround_dyadic (xorb n1 n2) (m1 * m2) (e1 + e2)
  end.

Definition fdiv (x y : float64) : float64 :=
  match x, y with
  | FNaN, _ | _, FNaN => FNaN
  | FInf _, FInf _ => FNaN
  | FInf a, FFin b _ _ => FInf (xorb a b)
  | FFin a _ _, FInf b => FFin (xorb a b) 0 0
  | FFin n1 m1 e1, FFin n2 m2 e2 =>
      let neg := xorb n1 n2 in
      if m2 =? 0 then (if m1 =? 0 then FNaN else FInf neg)
      else
        let e := e1 - e2 in
        if 0 <=? e then fround neg (m1 * 2 ^ e) m2 else fround neg m1 (m2 * 2 ^ (- e))
  end.

(** [math.Min] *)
Definition fmin (x y : float64) : float64 :=
  match x, y with
  | FInf true, _ | _, FInf true => FInf true
  | FNaN, _ | _, FNaN => FNaN
  | FFin a 0 _, FFin _ 0 _ => if a then x else y
  | _, _ => if flt x y then x else y
  end.

(** Truncation toward zero of a finite value. *)
Definition ftrunc (neg : bool) (m e : Z) : Z :=
  smant neg (if 0 <=? e then m * 2 ^ e else m / 2 ^ (- e)).

(** [int64(x)].  The language leaves an out-of-range conversion to the
    implementation; on amd64 it yields the minimum integer. *)
Definition f_to_int64 (x : float64) : Z :=
  match x with
  | FFin a m e =>
      let t := ftrunc a m e in
      if in_int64 t then t else min_int64
  | _ => min_int64
  end.

(** ** [math.Pow] for a finite positive base and a non-negative integer exponent

    The square-and-multiply loop of Go's [math.Pow] on the [Frexp] mantissa;
    these are the only arguments the program passes. *)

(** [math.Frexp]: a mantissa in [1/2, 1) and its exponent. *)
Definition frexp (x : float64) : float64 * Z :=
  match x with
  | FFin a m e =>
      if m =? 0 then (x, 0)
      else let k := Z.log2 m + 1 in (fround a m (2 ^ k), e + k)
  | _ => (x, 0)
  end.

(** [math.Ldexp] *)
Definition ldexp (x : float64) (n : Z) : float64 :=
  match x with
  | FFin a m e => fround_dyadic a m (e + n)
  | _ => x
  end.

Definition f_half : float64 := FFin false (2 ^ 52) (-53).
Definition f_one : float64 := FFin false (2 ^ 52) (-52).

Fixpoint pow_loop (fuel : nat) (i : Z) (x1 : float64) (xe : Z) (a1 : float64) (ae : Z)
  : float64 * Z :=
  match fuel with
  | O => (a1, ae)
  | S f =>
      if i =? 0 then (a1, ae)
      else if (xe <? - 2 ^ 12) || (2 ^ 12 <? xe) then (a1, ae + xe)
      else
        let '(a1, ae) := if Z.odd i then (fmul a1 x1, ae + xe) else (a1, ae) in
        let x1 := fmul x1 x1 in
        let xe := 2 * xe in
        let '(x1, xe) := if flt x1 f_half then (fadd x1 x1, xe - 1) else (x1, xe) in
        pow_loop f (i / 2) x1 xe a1 ae
  end.

(** The exponent is an [int64] once [Modf] has split it, so 64 rounds of
    halving reach zero. *)
Definition fpow (x y : float64) : float64 :=
  if feq y (f_of_Z 0) || feq x f_one then f_one
  else if feq y f_one then x
  else match x, y with
       | FFin _ _ _, FFin ny my ey =>
           let yi := ftrunc ny my ey in
           if 2 ^ 63 <=? yi then (if flt (fabs x) f_one then f_of_Z 0 else FInf false)
           else
             let '(x1, xe) := frexp x in
             let '(a1, ae) := pow_loop 64 yi x1 xe f_one 0 in
             ldexp a1 ae
       | _, _ => FNaN
       end.

(** Evaluated against the values Go prints. *)
Example fpow_two_ten : fpow (f_of_Z 2) (f_of_Z 10) = f_of_Z 1024.
Proof. vm_compute. reflexivity. Qed.
Example fadd_tenths :
  fadd (fdiv (f_of_Z 1) (f_of_Z 10)) (fdiv (f_of_Z 2) (f_of_Z 10))
  = FFin false 5404319552844596 (-54).
Proof. vm_compute. reflexivity. Qed.
Example fpow_overflow : fpow (f_of_Z 2) (f_of_Z 5000) = FInf false.
Proof. vm_compute. reflexivity. Qed.

(** ** Facts *)

Definition finite (x : float64) : Prop := match x with FFin _ _ _ => True | _ => False end.

Lemma div_even_exact n d : 0 < d -> n mod d = 0 -> div_even n d = n / d.
Proof.
  intros Hd Hm. unfold div_even. rewrite Hm.
  destruct (Z.compare_spec (2 * 0) d); lia.
Qed.

Lemma ratio_log2_one n : 0 < n -> ratio_log2 n 1 = Z.log2 n.
Proof.
  intros Hn. unfold ratio_log2. change (Z.log2 1) with 0. rewrite Z.sub_0_r.
  pose proof (Z.log2_nonneg n). pose proof (Z.log2_spec n Hn).
  rewrite (proj2 (Z.leb_le 0 (Z.log2 n))) by lia.
  rewrite (proj2 (Z.leb_le _ _)) by lia. reflexivity.
Qed.

(** Integers below 2^53 are represented exactly. *)
Lemma f_of_Z_pos z : 0 < z < 2 ^ 53 ->
  f_of_Z z = FFin false (z * 2 ^ (52 - Z.log2 z)) (Z.log2 z - 52).
Proof.
  intros Hz. unfold f_of_Z, fround.
  rewrite (proj2 (Z.ltb_ge z 0)), Z.abs_eq by lia.
  rewrite (proj2 (Z.eqb_neq z 0)), ratio_log2_one by lia.
  pose proof (Z.log2_nonneg z).
  assert (Z.log2 z <= 52) by (assert (Z.log2 z < 53) by (apply Z.log2_lt_pow2; lia); lia).
  rewrite Z.max_l by lia.
  assert (Hlt : z * 2 ^ (52 - Z.log2 z) < 2 ^ 53).
  { pose proof (Z.log2_spec z ltac:(lia)) as [_ Hs].
    replace (2 ^ 53) with (2 ^ Z.succ (Z.log2 z) * 2 ^ (52 - Z.log2 z)).
    - apply Z.mul_lt_mono_pos_r; [apply Z.pow_pos_nonneg; lia|done].
    - rewrite <- Z.pow_add_r by lia. f_equal. lia. }
  assert (0 < z * 2 ^ (52 - Z.log2 z)) by (apply Z.mul_pos_pos; [lia|apply Z.pow_pos_nonneg; lia]).
  assert (Hm : (if 0 <=? Z.log2 z - 52 then div_even z (1 * 2 ^ (Z.log2 z - 52))
          else div_even (z * 2 ^ (- (Z.log2 z - 52))) 1) = z * 2 ^ (52 - Z.log2 z)).
  { destruct (Z.leb_spec 0 (Z.log2 z - 52)).
    - replace (Z.log2 z) with 52 by lia. rewrite div_even_exact; rewrite ?Z.mod_1_r; try lia.
      change (1 * 2 ^ (52 - 52)) with 1. rewrite Z.div_1_r. lia.
    - rewrite div_even_exact; rewrite ?Z.mod_1_r, ?Z.div_1_r; try lia. f_equal. f_equal. lia. }
  rewrite Hm. rewrite (proj2 (Z.eqb_neq _ 0)), (proj2 (Z.eqb_neq _ (2 ^ 53))) by lia.
  rewrite (proj2 (Z.ltb_ge _ _)) by lia. reflexivity.
Qed.

Lemma ftrunc_f_of_Z z : 0 < z < 2 ^ 53 ->
  ftrunc false (z * 2 ^ (52 - Z.log2 z)) (Z.log2 z - 52) = z.
Proof.
  intros Hz. unfold ftrunc, smant. pose proof (Z.log2_nonneg z).
  assert (Z.log2 z <= 52) by (assert (Z.log2 z < 53) by (apply Z.log2_lt_pow2; lia); lia).
  destruct (Z.leb_spec 0 (Z.log2 z - 52)).
  - replace (Z.log2 z) with 52 by lia. simpl. lia.
  - replace (- (Z.log2 z - 52)) with (52 - Z.log2 z) by lia.
    apply Z.div_mul. apply Z.pow_nonzero; lia.
Qed.

(** Truncation follows the exact order of non-negative finite values. *)
Lemma ftrunc_mono m1 e1 m2 e2 : 0 <= m1 -> 0 <= m2 ->
  dyadic_cmp false m1 e1 false m2 e2 <> Gt ->
  ftrunc false m1 e1 <= ftrunc false m2 e2.
Proof.
  intros H1 H2 Hc. unfold dyadic_cmp, smant in Hc. set (e := Z.min e1 e2) in *.
  assert (Hle : m1 * 2 ^ (e1 - e) <= m2 * 2 ^ (e2 - e)) by (apply Z.compare_le_iff; done).
  assert (Hf : forall m k, 0 <= m -> e <= k ->
            ftrunc false m k =
            (if 0 <=? e then (m * 2 ^ (k - e)) * 2 ^ e else (m * 2 ^ (k - e)) / 2 ^ (- e))).
  { intros m k Hm Hk. unfold ftrunc, smant.
    destruct (Z.leb_spec 0 e), (Z.leb_spec 0 k); try lia.
    - rewrite <- Z.mul_assoc, <- Z.pow_add_r by lia. do 2 f_equal. lia.
    - rewrite <- (Z.div_mul (m * 2 ^ k) (2 ^ (- e))) by (apply Z.pow_nonzero; lia).
      rewrite <- Z.mul_assoc, <- Z.pow_add_r by lia. repeat f_equal; lia.
    - replace (- e) with ((k - e) + (- k)) by lia.
      rewrite Z.pow_add_r by lia.
      rewrite <- Z.div_div by (first [apply Z.pow_nonzero|apply Z.pow_pos_nonneg]; lia).
      rewrite Z.div_mul by (apply Z.pow_nonzero; lia). done. }
  rewrite (Hf m1 e1), (Hf m2 e2) by (try done; unfold e; lia).
  destruct (0 <=? e) eqn:E.
  - apply Z.mul_le_mono_nonneg_r; [apply Z.pow_nonneg; lia|done].
  - apply Z.div_le_mono; [apply Z.pow_pos_nonneg; lia|done].
Qed.

Lemma ftrunc_nonneg m e : 0 <= m -> 0 <= ftrunc false m e.
Proof.
  intros. unfold ftrunc, smant. destruct (Z.leb_spec 0 e).
  - apply Z.mul_nonneg_nonneg; [done|apply Z.pow_nonneg; lia].
  - apply Z.div_pos; [done|apply Z.pow_pos_nonneg; lia].
Qed.

Lemma flt_nan_l y : flt FNaN y = false.
Proof. done. Qed.

Lemma fge_nan_l y : fge FNaN y = false.
Proof. unfold fge, fle, flt, feq. by destruct y. Qed.

Lemma fsub_nan_r x : fsub x FNaN = FNaN.
Proof. by destruct x. Qed.

(** Not negative (or NaN): closed under rounding, multiplication and division. *)
Definition fnonneg (x : float64) : Prop :=
  match x with
  | FFin n m _ => n = false /\ 0 <= m
  | FInf n => n = false
  | FNaN => True
  end.

Lemma div_even_nonneg n d : 0 <= n -> 0 < d -> 0 <= div_even n d.
Proof.
  intros Hn Hd. unfold div_even. pose proof (Z.div_pos n d Hn Hd).
  destruct (_ ?= _); [destruct (Z.even _)|..]; lia.
Qed.

Lemma fround_nonneg n d : 0 <= n -> 0 < d -> fnonneg (fround false n d).
Proof.
  intros Hn Hd. unfold fround. destruct (n =? 0); [done|].
  set (e := Z.max _ _). set (m := if 0 <=? e then _ else _).
  assert (Hm : 0 <= m).
  { unfold m. destruct (Z.leb_spec 0 e).
    - apply div_even_nonneg; [done|]. apply Z.mul_pos_pos; [done|apply Z.pow_pos_nonneg; lia].
    - apply div_even_nonneg; [|done]. apply Z.mul_nonneg_nonneg; [done|apply Z.pow_nonneg; lia]. }
  destruct (m =? 0); [done|]. destruct (m =? 2 ^ 53); case_match; simpl; try done; lia.
Qed.

Lemma fround_dyadic_nonneg m e : 0 <= m -> fnonneg (fround_dyadic false m e).
Proof.
  intros Hm. unfold fround_dyadic. destruct (Z.leb_spec 0 e); apply fround_nonneg; lia.
Qed.

Lemma f_of_Z_nonneg z : 0 <= z -> fnonneg (f_of_Z z).
Proof.
  intros Hz. unfold f_of_Z. rewrite (proj2 (Z.ltb_ge z 0)), Z.abs_eq by lia.
  by apply fround_nonneg.
Qed.

Lemma fmul_nonneg x y : fnonneg x -> fnonneg y -> fnonneg (fmul x y).
Proof.
  destruct x as [|a|a m e], y as [|b|b m' e']; simpl; try done; intros; destruct_and?; subst;
    simpl; try done; try (destruct (_ =? 0); done).
  apply fround_dyadic_nonneg. apply Z.mul_nonneg_nonneg; done.
Qed.

Lemma fdiv_nonneg x y : fnonneg x -> fnonneg y -> fnonneg (fdiv x y).
Proof.
  destruct x as [|a|a m e], y as [|b|b m' e']; simpl; try done; intros; destruct_and?; subst;
    simpl; try done.
  destruct (Z.eqb_spec m' 0); [destruct (_ =? 0); done|].
  assert (0 < m') by lia.
  destruct (Z.leb_spec 0 (e - e')); apply fround_nonneg; try done.
  - apply Z.mul_nonneg_nonneg; [done|apply Z.pow_nonneg; lia].
  - apply Z.mul_pos_pos; [lia|apply Z.pow_pos_nonneg; lia].
Qed.

(** ** Lower bounds

    Rounding never takes a value below a representable number it was not below:
    [above x M E] says that the positive float [x] is at least [M * 2^E]. *)

(** [M * 2^E <= m * 2^e], compared after scaling by a large enough power. *)
Definition dle (M E m e : Z) : Prop :=
  forall K, 0 <= E + K -> 0 <= e + K -> M * 2 ^ (E + K) <= m * 2 ^ (e + K).

Definition above (x : float64) (M E : Z) : Prop :=
  match x with
  | FFin n m e => n = false /\ 0 < m /\ dle M E m e
  | FInf n => n = false
  | FNaN => False
  end.

Lemma pow2_pos k : 0 <= k -> 0 < 2 ^ k.
Proof. intros. by apply Z.pow_pos_nonneg. Qed.

Lemma dle_intro M E m e K :
  0 <= E + K -> 0 <= e + K -> M * 2 ^ (E + K) <= m * 2 ^ (e + K) -> dle M E m e.
Proof.
  intros HE He Hle J HEJ HeJ.
  destruct (Z.le_ge_cases K J) as [H|H].
  - replace (E + J) with ((E + K) + (J - K)) by lia.
    replace (e + J) with ((e + K) + (J - K)) by lia.
    rewrite (Z.pow_add_r 2 (E + K)), (Z.pow_add_r 2 (e + K)), !Z.mul_assoc by lia.
    apply Z.mul_le_mono_nonneg_r; [|done]. pose proof (pow2_pos (J - K)). lia.
  - replace (E + K) with ((E + J) + (K - J)) in Hle by lia.
    replace (e + K) with ((e + J) + (K - J)) in Hle by lia.
    rewrite (Z.pow_add_r 2 (E + J)), (Z.pow_add_r 2 (e + J)), !Z.mul_assoc in Hle by lia.
    apply Z.mul_le_mono_pos_r in Hle; [done|]. apply pow2_pos. lia.
Qed.

Lemma dle_shift M E m e k : dle M E m e -> dle M (E + k) m (e + k).
Proof.
  intros H K HE He. specialize (H (k + K)).
  replace (E + k + K) with (E + (k + K)) by lia. replace (e + k + K) with (e + (k + K)) by lia.
  apply H; lia.
Qed.

Lemma dle_trans M1 E1 M2 E2 M3 E3 : dle M1 E1 M2 E2 -> dle M2 E2 M3 E3 -> dle M1 E1 M3 E3.
Proof.
  intros H1 H2. apply (dle_intro _ _ _ _ (Z.max (- E1) (Z.max (- E2) (- E3)))); [lia..|].
  etrans; [apply H1; lia|]. apply H2; lia.
Qed.

Lemma dle_pow E1 E2 : E1 <= E2 -> dle 1 E1 1 E2.
Proof.
  intros H. apply (dle_intro _ _ _ _ (Z.max (- E1) (- E2))); [lia..|].
  rewrite !Z.mul_1_l. apply Z.pow_le_mono_r; lia.
Qed.

Lemma dle_mul M1 E1 m1 e1 k m2 e2 : 0 <= M1 ->
  dle M1 E1 m1 e1 -> dle 1 k m2 e2 -> dle M1 (E1 + k) (m1 * m2) (e1 + e2).
Proof.
  intros H0 H1 H2.
  set (A := Z.max (- E1) (- e1)). set (B := Z.max (- k) (- e2)).
  apply (dle_intro _ _ _ _ (A + B)); [lia..|].
  replace (E1 + k + (A + B)) with ((E1 + A) + (k + B)) by lia.
  replace (e1 + e2 + (A + B)) with ((e1 + A) + (e2 + B)) by lia.
  rewrite (Z.pow_add_r 2 (E1 + A)), (Z.pow_add_r 2 (e1 + A)) by lia.
  pose proof (H1 A ltac:(lia) ltac:(lia)) as L1. pose proof (H2 B ltac:(lia) ltac:(lia)) as L2.
  rewrite Z.mul_1_l in L2.
  replace (m1 * m2 * (2 ^ (e1 + A) * 2 ^ (e2 + B))) with ((m1 * 2 ^ (e1 + A)) * (m2 * 2 ^ (e2 + B)))
    by lia.
  rewrite Z.mul_assoc. apply Z.mul_le_mono_nonneg; [|done| |done].
  - apply Z.mul_nonneg_nonneg; [done|]. pose proof (pow2_pos (E1 + A)). lia.
  - pose proof (pow2_pos (k + B)). lia.
Qed.

Lemma above_weaken x M E M' E' : dle M' E' M E -> above x M E -> above x M' E'.
Proof. destruct x; simpl; [done..|]. intros H (? & ? & ?). eauto using dle_trans. Qed.

Lemma div_even_ge n d c : 0 < d -> c * d <= n -> c <= div_even n d.
Proof.
  intros Hd Hc. assert (c <= n / d) by (apply Z.div_le_lower_bound; lia).
  unfold div_even. destruct (_ ?= _); [destruct (Z.even _)|..]; lia.
Qed.

(** The exponent estimate is the exact one: [2^k <= n / d < 2^(k+1)]. *)
Lemma ratio_log2_le n d K : 0 < n -> 0 < d -> 0 <= K -> 0 <= ratio_log2 n d + K ->
  d * 2 ^ (ratio_log2 n d + K) <= n * 2 ^ K.
Proof.
  intros Hn Hd HK. unfold ratio_log2. set (k := Z.log2 n - Z.log2 d).
  pose proof (Z.log2_spec n Hn) as [Ln _]. pose proof (Z.log2_spec d Hd) as [_ Ld].
  pose proof (Z.log2_nonneg n). pose proof (Z.log2_nonneg d).
  destruct (Z.leb_spec 0 k) as [Hk|Hk].
  - destruct (Z.leb_spec (d * 2 ^ k) n) as [Hle|_]; intros H1.
    + rewrite Z.pow_add_r, Z.mul_assoc by lia. apply Z.mul_le_mono_nonneg_r; [|done].
      pose proof (pow2_pos K). lia.
    + etrans; [|apply Z.mul_le_mono_nonneg_r; [pose proof (pow2_pos K); lia|exact Ln]].
      rewrite <- Z.pow_add_r by lia.
      etrans; [apply Z.mul_le_mono_nonneg_r, Z.lt_le_incl, Ld; apply Z.pow_nonneg; lia|].
      rewrite <- Z.pow_add_r by lia. apply Z.pow_le_mono_r; unfold k; lia.
  - destruct (Z.leb_spec d (n * 2 ^ (- k))) as [Hle|_]; intros H1.
    + assert (2 ^ K = 2 ^ (- k) * 2 ^ (k + K)) as ->
        by (rewrite <- Z.pow_add_r by lia; f_equal; lia).
      rewrite Z.mul_assoc.
      apply Z.mul_le_mono_nonneg_r; [|done]. pose proof (pow2_pos (k + K)). lia.
    + etrans; [|apply Z.mul_le_mono_nonneg_r; [pose proof (pow2_pos K); lia|exact Ln]].
      rewrite <- Z.pow_add_r by lia.
      etrans; [apply Z.mul_le_mono_nonneg_r, Z.lt_le_incl, Ld; apply Z.pow_nonneg; lia|].
      rewrite <- Z.pow_add_r by lia. apply Z.pow_le_mono_r; unfold k; lia.
Qed.

(** Rounding a ratio that is at least the representable number [M * 2^E]. *)
(** The mantissa [fround] rounds to is at least what lies below the ratio. *)
Lemma rounded_ge n d e c :
  0 < d -> 0 <= c -> (forall J, 0 <= J -> 0 <= e + J -> c * d * 2 ^ (e + J) <= n * 2 ^ J) ->
  c <= (if 0 <=? e then div_even n (d * 2 ^ e) else div_even (n * 2 ^ (- e)) d).
Proof.
  intros Hd Hc H. destruct (Z.leb_spec 0 e) as [He|He].
  - apply div_even_ge; [apply Z.mul_pos_pos; [done|by apply pow2_pos]|].
    specialize (H 0 ltac:(lia) ltac:(lia)). rewrite Z.add_0_r in H. lia.
  - apply div_even_ge; [done|]. specialize (H (- e) ltac:(lia) ltac:(lia)).
    replace (e + - e) with 0 in H by lia. lia.
Qed.

Lemma fround_above n d M E K :
  0 < n -> 0 < d -> 0 < M < 2 ^ 53 -> -1074 <= E -> 0 <= K -> 0 <= E + K ->
  M * 2 ^ (E + K) * d <= n * 2 ^ K -> above (fround false n d) M E.
Proof.
  intros Hn Hd HM HE HK HEK Hle. unfold fround.
  rewrite (proj2 (Z.eqb_neq n 0)) by lia.
  set (L := ratio_log2 n d). set (e := Z.max (L - 52) (-1074)).
  set (m := if 0 <=? e then div_even n (d * 2 ^ e) else div_even (n * 2 ^ (- e)) d).
  pose proof (fun c => rounded_ge n d e c Hd) as Hm. fold m in Hm.
  assert (Hab : 0 < m /\ dle M E m e).
  { destruct (Z.le_gt_cases e E) as [HeE|HeE].
    - assert (M * 2 ^ (E - e) <= m) as Hlow.
      { apply Hm; [apply Z.mul_nonneg_nonneg; [lia|]; apply Z.pow_nonneg; lia|].
        intros J HJ HeJ. set (X := Z.max J K).
        apply (Z.mul_le_mono_pos_r _ _ (2 ^ X)); [by apply pow2_pos; lia|].
        assert (M * 2 ^ (E - e) * d * 2 ^ (e + J) * 2 ^ X = M * 2 ^ (E + K) * d * 2 ^ (J + X - K)) as ->.
        { transitivity (M * d * (2 ^ (E - e) * 2 ^ (e + J) * 2 ^ X)); [lia|].
          transitivity (M * d * (2 ^ (E + K) * 2 ^ (J + X - K))); [|lia].
          rewrite <- !Z.pow_add_r by lia. do 2 f_equal. lia. }
        replace (n * 2 ^ J * 2 ^ X) with (n * 2 ^ K * 2 ^ (J + X - K)).
        - apply Z.mul_le_mono_nonneg_r; [apply Z.pow_nonneg; lia|done].
        - rewrite <- !Z.mul_assoc, <- !Z.pow_add_r by lia. do 2 f_equal. lia. }
      assert (0 < M * 2 ^ (E - e)) by (apply Z.mul_pos_pos; [lia|apply pow2_pos; lia]).
      split; [lia|]. apply (dle_intro _ _ _ _ (- e)); [lia..|].
      replace (e + - e) with 0 by lia. replace (E + - e) with (E - e) by lia. lia.
    - assert (e = L - 52) as Ee by lia.
      assert (2 ^ 52 <= m) as Hlow.
      { apply Hm; [lia|]. intros J HJ HeJ.
        pose proof (ratio_log2_le n d J Hn Hd HJ) as HL. fold L in HL.
        replace (L + J) with (52 + (e + J)) in HL by lia.
        rewrite Z.pow_add_r in HL by lia. lia. }
      split; [lia|]. apply (dle_intro _ _ _ _ (- E)); [lia..|].
      replace (E + - E) with 0 by lia. change (2 ^ 0) with 1.
      assert (2 <= 2 ^ (e + - E)) by (apply (Z.pow_le_mono_r 2 1); lia).
      assert (2 ^ 52 * 2 <= m * 2 ^ (e + - E)) by (apply Z.mul_le_mono_nonneg; lia). lia. }
  destruct Hab as [Hpos Hab]. rewrite (proj2 (Z.eqb_neq m 0)) by lia.
  destruct (Z.eqb_spec m (2 ^ 53)) as [Em|_].
  - destruct (971 <? e + 1); [done|]. simpl. split_and!; [done..|].
    eapply dle_trans; [exact Hab|]. rewrite Em.
    apply (dle_intro _ _ _ _ (- e)); [lia..|]. replace (e + - e) with 0 by lia.
    replace (e + 1 + - e) with 1 by lia. lia.
  - destruct (971 <? e); done.
Qed.

Lemma fround_dyadic_above m e M E :
  0 < m -> 0 < M < 2 ^ 53 -> -1074 <= E -> dle M E m e -> above (fround_dyadic false m e) M E.
Proof.
  intros Hm HM HE H. unfold fround_dyadic. destruct (Z.leb_spec 0 e) as [He|He].
  - apply (fround_above _ _ _ _ (Z.max 0 (- E))); [|lia|done|done|lia|lia|].
    + apply Z.mul_pos_pos; [done|by apply pow2_pos].
    + rewrite Z.mul_1_r, <- Z.mul_assoc, <- Z.pow_add_r by lia. apply H; lia.
  - apply (fround_above _ _ _ _ (Z.max (- e) (- E))); [done| |done|done|lia|lia|].
    + apply pow2_pos. lia.
    + set (K := Z.max (- e) (- E)). specialize (H K ltac:(lia) ltac:(lia)).
      replace (m * 2 ^ K) with (m * 2 ^ (e + K) * 2 ^ (- e)).
      * apply Z.mul_le_mono_nonneg_r; [apply Z.pow_nonneg; lia|done].
      * rewrite <- Z.mul_assoc, <- Z.pow_add_r by lia. do 2 f_equal. lia.
Qed.

(** Multiplying by a float that is at least [2^k]. *)
Lemma fmul_above x y M E k :
  0 < M < 2 ^ 53 -> -1074 <= E + k -> above x M E -> above y 1 k -> above (fmul x y) M (E + k).
Proof.
  intros HM HE. destruct x as [|a|a m e], y as [|b|b m' e']; simpl; try done.
  - intros -> ->. done.
  - intros -> (-> & Hm & _). by rewrite (proj2 (Z.eqb_neq _ _)) by lia.
  - intros (-> & Hm & _) ->. by rewrite (proj2 (Z.eqb_neq _ _)) by lia.
  - intros (-> & Hm & H1) (-> & Hm' & H2). apply fround_dyadic_above; try done.
    + by apply Z.mul_pos_pos.
    + apply dle_mul; try done. lia.
Qed.

(** Doubling. *)
Lemma fadd_self_above x k : -1075 <= k -> above x 1 k -> above (fadd x x) 1 (k + 1).
Proof.
  intros Hk. destruct x as [|a|a m e]; simpl; [done|by intros ->|].
  intros (-> & Hm & H). rewrite Z.min_id, Z.sub_diag. simpl. rewrite Z.mul_1_r.
  rewrite (proj2 (Z.eqb_neq _ _)), (proj2 (Z.ltb_ge _ _)), Z.abs_eq by lia.
  apply fround_dyadic_above; try lia. intros K HK He.
  specialize (H (K + 1) ltac:(lia)).
  destruct (Z.eq_dec (e + K) (-1)); [lia|].
  rewrite Z.mul_1_l in *. replace (k + 1 + K) with (k + (K + 1)) by lia.
  etrans; [apply H; lia|]. replace (e + (K + 1)) with ((e + K) + 1) by lia.
  rewrite Z.pow_add_r by lia. lia.
Qed.

(** A number of the format: a mantissa is a magnitude. *)
Definition fnumber (x : float64) : Prop :=
  match x with FFin _ m _ => 0 <= m | FInf _ => True | FNaN => False end.

Lemma above_number x M E : above x M E -> fnumber x.
Proof. destruct x; simpl; [done..|lia]. Qed.

Lemma above_not_flt x m e :
  fnumber x -> 0 < m -> flt x (FFin false m e) = false -> above x m e.
Proof.
  intros Hx Hm Hlt. unfold flt in Hlt. apply bool_decide_eq_false in Hlt.
  destruct x as [|a|a m1 e1]; simpl in *; [done|by destruct a|].
  unfold dyadic_cmp, smant in Hlt. set (e0 := Z.min e1 e) in *.
  pose proof (pow2_pos (e1 - e0) ltac:(lia)) as P1. pose proof (pow2_pos (e - e0) ltac:(lia)) as P2.
  assert (0 < m * 2 ^ (e - e0)) by (by apply Z.mul_pos_pos).
  destruct (Z.compare_spec ((if a then - m1 else m1) * 2 ^ (e1 - e0)) (m * 2 ^ (e - e0)))
    as [Ec|Ec|Ec]; [|done|].
  all: destruct a; [exfalso; assert (- m1 * 2 ^ (e1 - e0) <= 0) by (apply Z.mul_nonpos_nonneg; lia); lia|].
  all: split_and!; [done|apply (Z.mul_pos_cancel_r _ (2 ^ (e1 - e0))); lia|].
  all: apply (dle_intro _ _ _ _ (- e0)); [lia..|].
  all: replace (e + - e0) with (e - e0) by lia; replace (e1 + - e0) with (e1 - e0) by lia; lia.
Qed.

(** The loop of [math.Pow] on a mantissa that is at least 1/2, with an exponent
    that is at least 1: every factor it multiplies in is at least 1. *)
Lemma pow_loop_above fuel : forall i x1 xe a1 ae k,
  above x1 1 (-1) -> 1 <= xe -> 0 <= k <= ae -> k + Z.of_nat fuel <= 1000 -> above a1 1 (- k) ->
  let '(a, b) := pow_loop fuel i x1 xe a1 ae in exists j, 0 <= j <= b /\ j <= 1000 /\ above a 1 (- j).
Proof.
  induction fuel as [|fuel IH]; intros i x1 xe a1 ae k Hx Hxe Hk Hf Ha; cbn [pow_loop].
  { exists k. lia || (split_and!; [lia..|done]). }
  destruct (i =? 0); [exists k; split_and!; [lia..|done]|].
  destruct (_ || _); [exists k; split_and!; [lia..|done]|].
  assert (Ha' : exists k', 0 <= k' /\ k' + Z.of_nat fuel <= 1000 /\
    let '(a, b) := if Z.odd i then (fmul a1 x1, ae + xe) else (a1, ae) in
    k' <= b /\ above a 1 (- k')).
  { destruct (Z.odd i).
    - exists (k + 1). split_and!; [lia..|]. replace (- (k + 1)) with (- k + -1) by lia.
      apply fmul_above; try done; lia.
    - exists k. split_and!; [lia..|done]. }
  destruct Ha' as (k' & Hk' & Hf' & Ha').
  destruct (if Z.odd i then _ else _) as [a b]. destruct Ha' as [Hb Ha'].
  assert (Hx2 : above (fmul x1 x1) 1 (-1 + -1)) by (apply fmul_above; try done; lia).
  destruct (flt (fmul x1 x1) f_half) eqn:Hlt.
  - apply (IH _ _ _ _ _ k'); [|lia|lia|lia|done].
    apply (fadd_self_above _ (-2)); [lia|done].
  - apply (IH _ _ _ _ _ k'); [|lia|lia|lia|done].
    unfold f_half in Hlt. apply above_not_flt in Hlt; [|by eapply above_number|done].
    eapply above_weaken; [|exact Hlt]. apply (dle_intro _ _ _ _ 53); [lia..|]. vm_compute. discriminate.
Qed.

(** A power of a number that is at least one is at least one, whatever its
    factors round to. *)
Lemma fpow_above_one x y : above x 1 0 -> finite x -> finite y -> above (fpow x y) 1 0.
Proof.
  intros Hx Hfx Hfy. unfold fpow.
  assert (above f_one 1 0) as H1.
  { simpl. split_and!; [done..|]. apply (dle_intro _ _ _ _ 52); [lia..|]. vm_compute. discriminate. }
  destruct (_ || _); [done|]. destruct (feq y f_one); [done|].
  destruct x as [|a|a m e]; [done..|]. destruct y as [|ny|ny my ey]; [done..|].
  destruct Hx as (-> & Hm & Hx).
  destruct (2 ^ 63 <=? _).
  { destruct (flt _ _) eqn:Hlt; [|done]. exfalso. unfold flt in Hlt.
    apply bool_decide_eq_true in Hlt. simpl in Hlt. injection Hlt as Hlt.
    unfold dyadic_cmp, smant in Hlt. apply Z.compare_lt_iff in Hlt.
    set (e0 := Z.min e (-52)) in *. specialize (Hx (- e0) ltac:(lia) ltac:(lia)).
    replace (0 + - e0) with (52 + (-52 - e0)) in Hx by lia. rewrite Z.pow_add_r in Hx by lia.
    replace (e + - e0) with (e - e0) in Hx by lia.
    rewrite Z.mul_1_l in Hx. by apply Z.lt_nge in Hlt. }
  unfold frexp. rewrite (proj2 (Z.eqb_neq m 0)) by lia. set (k := Z.log2 m + 1).
  assert (0 <= Z.log2 m) as Hl by apply Z.log2_nonneg.
  assert (Hxe : 1 <= e + k).
  { pose proof (Z.log2_spec m Hm) as [_ Hlt]. destruct (Z.le_gt_cases 1 (e + k)) as [|Hgt]; [done|].
    specialize (Hx (- e)). replace (e + - e) with 0 in Hx by lia.
    assert (2 ^ Z.succ (Z.log2 m) <= 2 ^ (0 + - e)) by (apply Z.pow_le_mono_r; lia). lia. }
  assert (Hh : above (fround false m (2 ^ k)) 1 (-1)).
  { apply (fround_above _ _ _ _ 1); [lia|apply pow2_pos; lia|lia..|].
    replace (-1 + 1) with 0 by lia. unfold k.
    rewrite Z.pow_add_r by lia. pose proof (Z.log2_spec m Hm) as [H _]. lia. }
  pose proof (pow_loop_above 64 (ftrunc ny my ey) _ _ f_one 0 0 Hh Hxe ltac:(lia) ltac:(lia) H1) as Hp.
  destruct (pow_loop _ _ _ _ _ _) as [a1 ae]. destruct Hp as (j & Hj & Hj' & Ha).
  destruct a1 as [|a|a m1 e1]; simpl in *; [done..|]. destruct Ha as (-> & Hm1 & Ha).
  apply fround_dyadic_above; try lia.
  eapply dle_trans; [apply (dle_pow 0 (- j + ae)); lia|]. by apply dle_shift.
Qed.

(** A float at least the integer [z] truncates to at least [z]. *)
Lemma dle_trunc m e z : dle z 0 m e -> z <= ftrunc false m e.
Proof.
  intros H. unfold ftrunc, smant. destruct (Z.leb_spec 0 e) as [He|He].
  - specialize (H 0 ltac:(lia) ltac:(lia)). rewrite !Z.add_0_r in H. change (2 ^ 0) with 1 in H. lia.
  - apply Z.div_le_lower_bound; [apply pow2_pos; lia|].
    specialize (H (- e) ltac:(lia) ltac:(lia)). replace (e + - e) with 0 in H by lia.
    change (2 ^ 0) with 1 in H. replace (0 + - e) with (- e) in H by lia. lia.
Qed.

Lemma f_of_Z_above z : 0 < z < 2 ^ 53 -> above (f_of_Z z) z 0.
Proof.
  intros Hz. rewrite f_of_Z_pos by done. pose proof (Z.log2_nonneg z).
  assert (Z.log2 z < 53) by (apply Z.log2_lt_pow2; lia).
  split_and!; [done|apply Z.mul_pos_pos; [lia|apply pow2_pos; lia]|].
  apply (dle_intro _ _ _ _ 52); [lia..|].
  rewrite <- Z.mul_assoc, <- Z.pow_add_r by lia. apply Z.eq_le_incl. do 2 f_equal. lia.
Qed.

(** The smaller of a number and an exact integer, converted back. *)
Lemma fmin_to_int64 x lo hi :
  0 < lo <= hi -> hi < 2 ^ 53 -> above x lo 0 -> lo <= f_to_int64 (fmin x (f_of_Z hi)) <= hi.
Proof.
  intros Hlo Hhi Hx.
  assert (Hmax : f_to_int64 (f_of_Z hi) = hi).
  { rewrite f_of_Z_pos by lia. unfold f_to_int64. rewrite ftrunc_f_of_Z by lia.
    rewrite (proj2 (in_int64_spec hi)); [done|]. unfold min_int64, max_int64. lia. }
  rewrite f_of_Z_pos in * by lia.
  assert (0 < hi * 2 ^ (52 - Z.log2 hi)) as Hmm.
  { assert (Z.log2 hi < 53) by (apply Z.log2_lt_pow2; lia).
    apply Z.mul_pos_pos; [lia|apply pow2_pos; lia]. }
  pose proof (ftrunc_f_of_Z hi ltac:(lia)) as Htr.
  revert Hmm Htr Hmax. generalize (hi * 2 ^ (52 - Z.log2 hi)) (Z.log2 hi - 52). intros mm em Hmm Htr Hmax.
  destruct x as [|a|a m e]; [done| |].
  { simpl in Hx. subst. change (fmin _ _) with (FFin false mm em).
    lia. }
  destruct Hx as (-> & Hm & Hx). destruct m as [|m|m]; [lia| |lia]. cbn [fmin].
  destruct (flt _ _) eqn:Hlt; [|lia].
  apply dle_trunc in Hx. unfold flt in Hlt. apply bool_decide_eq_true in Hlt. injection Hlt as Hlt.
  assert (ftrunc false (Z.pos m) e <= hi) as Hup.
  { rewrite <- Htr. apply ftrunc_mono; [lia..|]. by rewrite Hlt. }
  unfold f_to_int64. rewrite (proj2 (in_int64_spec _)); [lia|].
  unfold min_int64, max_int64. lia.
Qed.

Lemma f_of_Z_finite z : Z.abs z < 2 ^ 64 -> finite (f_of_Z z).
Proof.
  intros Hz. unfold f_of_Z, fround. destruct (Z.eqb_spec (Z.abs z) 0); [done|].
  rewrite ratio_log2_one by lia.
  assert (Z.log2 (Z.abs z) < 64) by (apply Z.log2_lt_pow2; lia).
  set (e := Z.max _ _). set (m := if 0 <=? e then _ else _).
  destruct (m =? 0); [done|]. destruct (m =? 2 ^ 53).
  - by rewrite (proj2 (Z.ltb_ge 971 (e + 1))) by lia.
  - by rewrite (proj2 (Z.ltb_ge 971 e)) by lia.
Qed.

Lemma fgt_zero_not_feq x : fgt x (f_of_Z 0) = true -> feq x (f_of_Z 0) = false.
Proof.
  unfold fgt, flt, feq. rewrite bool_decide_eq_true, bool_decide_eq_false.
  change (f_of_Z 0) with (FFin false 0 0). destruct x as [|[]|s m e]; simpl; try done.
  unfold dyadic_cmp. rewrite (Z.min_comm 0 e). intros [= Hlt] [= Heq].
  by destruct (smant s m * 2 ^ (e - Z.min e 0)).
Qed.
