(* ===== verification/GoRound.v ===== *)
(** * Go's [float64]: which decimals round to which float

    [fround] determined by its result: a ratio closer to a float of the format
    than half the distance to its neighbours is rounded to that float, and equal
    ratios round alike. *)

From Stdlib Require Import ZArith Lia.
From stdpp Require Import base tactics.
From S2P Require Import Prelude GoLib GoFloat.

#[local] Open Scope Z_scope.

(** ** The binary exponent of a ratio *)

Lemma ratio_log2_lt n d K : 0 < n -> 0 < d -> 0 <= K -> 0 <= ratio_log2 n d + 1 + K ->
  n * 2 ^ K < d * 2 ^ (ratio_log2 n d + 1 + K).
Proof.
  intros Hn Hd HK. unfold ratio_log2. set (k := Z.log2 n - Z.log2 d).
  pose proof (Z.log2_spec n Hn) as [_ Ln]. pose proof (Z.log2_spec d Hd) as [Ld _].
  pose proof (Z.log2_nonneg n). pose proof (Z.log2_nonneg d). pose proof (pow2_pos K HK) as PK.
  assert (Hbig : 0 <= k + 1 + K -> n * 2 ^ K < d * 2 ^ (k + 1 + K)).
  { intros H1. eapply Z.lt_le_trans; [apply Z.mul_lt_mono_pos_r; [exact PK|exact Ln]|].
    etrans; [|apply Z.mul_le_mono_nonneg_r; [apply Z.pow_nonneg; lia|exact Ld]].
    rewrite <- !Z.pow_add_r by lia. apply Z.pow_le_mono_r; unfold k; lia. }
  destruct (Z.leb_spec 0 k) as [Hk|Hk].
  - destruct (Z.leb_spec (d * 2 ^ k) n) as [_|Hlt]; intros H1; [by apply Hbig|].
    replace (k - 1 + 1 + K) with (k + K) by lia. rewrite Z.pow_add_r by lia.
    rewrite Z.mul_assoc. by apply Z.mul_lt_mono_pos_r.
  - destruct (Z.leb_spec d (n * 2 ^ (- k))) as [_|Hlt]; intros H1; [by apply Hbig|].
    replace (k - 1 + 1 + K) with (k + K) in * by lia.
    assert (2 ^ K = 2 ^ (- k) * 2 ^ (k + K)) as -> by (rewrite <- Z.pow_add_r by lia; f_equal; lia).
    rewrite Z.mul_assoc. apply Z.mul_lt_mono_pos_r; [by apply pow2_pos; lia|done].
Qed.

(** Both sides of a comparison may be scaled by a power of two. *)
Lemma scale_le n d L K K' : 0 <= K -> 0 <= L + K -> K <= K' ->
  d * 2 ^ (L + K) <= n * 2 ^ K <-> d * 2 ^ (L + K') <= n * 2 ^ K'.
Proof.
  intros HK HL HKK. replace (L + K') with ((L + K) + (K' - K)) by lia.
  replace (2 ^ K') with (2 ^ K * 2 ^ (K' - K)) by (rewrite <- Z.pow_add_r by lia; f_equal; lia).
  rewrite (Z.pow_add_r 2 (L + K)), !Z.mul_assoc by lia. apply Z.mul_le_mono_pos_r, pow2_pos. lia.
Qed.

Lemma ratio_log2_unique n d L K : 0 < n -> 0 < d -> 0 <= K -> 0 <= L + K ->
  d * 2 ^ (L + K) <= n * 2 ^ K -> n * 2 ^ K < d * 2 ^ (L + 1 + K) -> ratio_log2 n d = L.
Proof.
  intros Hn Hd HK HL H1 H2. set (r := ratio_log2 n d).
  destruct (Z.lt_trichotomy r L) as [Hlt|[?|Hgt]]; [|done|]; exfalso.
  - set (K' := Z.max K (- (r + 1))).
    pose proof (ratio_log2_lt n d K' Hn Hd ltac:(lia) ltac:(fold r; lia)) as H. fold r in H.
    apply (scale_le n d L K K') in H1; [|lia..].
    assert (d * 2 ^ (r + 1 + K') <= d * 2 ^ (L + K')); [|lia].
    apply Z.mul_le_mono_nonneg_l; [lia|]. apply Z.pow_le_mono_r; lia.
  - pose proof (ratio_log2_le n d K Hn Hd ltac:(lia) ltac:(fold r; lia)) as H. fold r in H.
    assert (d * 2 ^ (L + 1 + K) <= d * 2 ^ (r + K)); [|lia].
    apply Z.mul_le_mono_nonneg_l; [lia|]. apply Z.pow_le_mono_r; lia.
Qed.

(** ** The quotient *)

Lemma div_even_near n d c : 0 < d -> 2 * Z.abs (n - c * d) < d -> div_even n d = c.
Proof.
  intros Hd Hc. unfold div_even. destruct (Z.le_gt_cases 0 (n - c * d)) as [H|H].
  - assert (n / d = c) as -> by (symmetry; apply (Z.div_unique n d c (n - c * d)); lia).
    assert (n mod d = n - c * d) as -> by (symmetry; apply (Z.mod_unique n d c (n - c * d)); lia).
    rewrite (proj2 (Z.compare_lt_iff _ _)) by lia. done.
  - assert (n / d = c - 1) as -> by (symmetry; apply (Z.div_unique n d (c - 1) (n - c * d + d)); lia).
    assert (n mod d = n - c * d + d) as -> by (symmetry; apply (Z.mod_unique n d (c - 1) (n - c * d + d)); lia).
    rewrite (proj2 (Z.compare_gt_iff _ _)) by lia. lia.
Qed.

Lemma div_even_scale n d c : 0 < d -> 0 < c -> div_even (n * c) (d * c) = div_even n d.
Proof.
  intros Hd Hc. unfold div_even. rewrite Z.div_mul_cancel_r, Z.mul_mod_distr_r by lia.
  rewrite Z.mul_assoc, <- (Zmult_compare_compat_r _ d c) by lia. done.
Qed.

(** The mantissa [fround] computes at the exponent [e]. *)
Definition mantissa_at (e n d : Z) : Z :=
  if 0 <=? e then div_even n (d * 2 ^ e) else div_even (n * 2 ^ (- e)) d.

Lemma mantissa_at_scaled e n d K : 0 < d -> 0 <= K -> 0 <= e + K ->
  mantissa_at e n d = div_even (n * 2 ^ K) (d * 2 ^ (e + K)).
Proof.
  intros Hd HK HeK. unfold mantissa_at. destruct (Z.leb_spec 0 e) as [He|He].
  - rewrite Z.pow_add_r, Z.mul_assoc by lia. symmetry. apply div_even_scale.
    + apply Z.mul_pos_pos; [done|by apply pow2_pos].
    + by apply pow2_pos.
  - replace (2 ^ K) with (2 ^ (- e) * 2 ^ (e + K)) by (rewrite <- Z.pow_add_r by lia; f_equal; lia).
    rewrite Z.mul_assoc. symmetry. apply div_even_scale; [done|by apply pow2_pos].
Qed.

Lemma fround_unfold neg n d : 0 < n ->
  fround neg n d =
    (let e := Z.max (ratio_log2 n d - 52) (-1074) in
     let m := mantissa_at e n d in
     if m =? 0 then FFin neg 0 0
     else let '(m, e) := if m =? 2 ^ 53 then (2 ^ 52, e + 1) else (m, e) in
          if 971 <? e then FInf neg else FFin neg m e).
Proof. intros Hn. unfold fround. by rewrite (proj2 (Z.eqb_neq n 0)) by lia. Qed.

(** Equal ratios round alike. *)
Lemma fround_scale neg n d c : 0 <= n -> 0 < d -> 0 < c -> fround neg (n * c) (d * c) = fround neg n d.
Proof.
  intros Hn Hd Hc. destruct (Z.eq_dec n 0) as [->|Hne]; [done|].
  assert (0 < n * c) by (apply Z.mul_pos_pos; lia). assert (0 < d * c) by (apply Z.mul_pos_pos; lia).
  rewrite !fround_unfold by lia.
  assert (Hr : ratio_log2 (n * c) (d * c) = ratio_log2 n d).
  { set (r := ratio_log2 n d). set (K := Z.max 0 (- r)).
    pose proof (ratio_log2_le n d K ltac:(lia) Hd ltac:(lia) ltac:(fold r; lia)) as H1.
    pose proof (ratio_log2_lt n d K ltac:(lia) Hd ltac:(lia) ltac:(fold r; lia)) as H2. fold r in H1, H2.
    apply (ratio_log2_unique _ _ _ K); [lia..| |].
    - apply (Z.mul_le_mono_pos_r _ _ c) in H1; lia.
    - apply (Z.mul_lt_mono_pos_r c) in H2; lia. }
  rewrite Hr. assert (Hm : forall e, mantissa_at e (n * c) (d * c) = mantissa_at e n d); [|by cbv zeta; rewrite !Hm].
  intros e. unfold mantissa_at. destruct (0 <=? e) eqn:He.
  - rewrite <- (div_even_scale n (d * 2 ^ e) c); [f_equal; lia| |done].
    apply Z.mul_pos_pos; [done|apply pow2_pos; lia].
  - rewrite <- (div_even_scale (n * 2 ^ (- e)) d c); [f_equal; lia|done..].
Qed.

Lemma fround_ratio neg n d n' d' : 0 <= n -> 0 < d -> 0 <= n' -> 0 < d' -> n * d' = n' * d ->
  fround neg n d = fround neg n' d'.
Proof.
  intros. rewrite <- (fround_scale neg n d d'), <- (fround_scale neg n' d' d) by done. f_equal; lia.
Qed.

Lemma fround_neg n d : fround true n d = fneg (fround false n d).
Proof.
  unfold fround. destruct (n =? 0); [done|]. set (e := Z.max _ _). set (m := if 0 <=? e then _ else _).
  destruct (m =? 0); [done|]. destruct (m =? 2 ^ 53); by case_match.
Qed.

(** ** The numbers of the format *)

(** A finite value as [fround] leaves it: normalised, the exponent in range; zero
    has the exponent zero. *)
Definition canonical (x : float64) : bool :=
  match x with
  | FFin _ m e =>
      (m =? 0) && (e =? 0)
      || (0 <? m) && (m <? 2 ^ 53) && (-1074 <=? e) && (e <=? 971) && ((2 ^ 52 <=? m) || (e =? -1074))
  | _ => false
  end.

Lemma canonical_pos neg m e : 0 < m ->
  canonical (FFin neg m e) = true <->
  m < 2 ^ 53 /\ -1074 <= e <= 971 /\ (2 ^ 52 <= m \/ e = -1074).
Proof. intros Hm. unfold canonical. rewrite orb_true_iff, !andb_true_iff, orb_true_iff. lia. Qed.

(** A ratio nearer to [m * 2^e] than to the middle of the gaps on both its sides;
    below a power of two the gap is half as wide. *)
Lemma fround_near neg m e n d K :
  0 < m -> canonical (FFin neg m e) = true -> 0 < n -> 0 < d -> 0 <= K -> 1 <= e + K ->
  2 * Z.abs (n * 2 ^ K - m * (d * 2 ^ (e + K))) < d * 2 ^ (e + K) ->
  (m = 2 ^ 52 -> 4 * (m * (d * 2 ^ (e + K)) - n * 2 ^ K) < d * 2 ^ (e + K)) ->
  fround neg n d = FFin neg m e.
Proof.
  intros Hm Hc Hn Hd HK HeK Hnear Hquarter. apply canonical_pos in Hc as (Hlt & He & Hnorm); [|done].
  rewrite fround_unfold by done. set (A := n * 2 ^ K) in *. set (B := d * 2 ^ (e + K)) in *.
  assert (HB : 0 < B) by (apply Z.mul_pos_pos; [done|apply pow2_pos; lia]).
  assert (Hpow : forall j, 0 <= j -> d * 2 ^ (e + j + K) = B * 2 ^ j).
  { intros j Hj. unfold B. rewrite <- Z.mul_assoc, <- Z.pow_add_r by lia. do 2 f_equal. lia. }
  assert (Hr : forall L, 0 <= L -> B * 2 ^ L <= A -> A < B * 2 ^ (L + 1) -> ratio_log2 n d = e + L).
  { intros L HL H1 H2. apply (ratio_log2_unique _ _ _ K); [lia..| |].
    - rewrite Hpow by lia. exact H1.
    - replace (e + L + 1 + K) with (e + (L + 1) + K) by lia. rewrite Hpow by lia. exact H2. }
  assert (Hmant : mantissa_at e n d = m).
  { rewrite (mantissa_at_scaled e n d K) by lia. apply div_even_near; [exact HB|]. exact Hnear. }
  assert (Hdone : Z.max (ratio_log2 n d - 52) (-1074) = e ->
    (let e := Z.max (ratio_log2 n d - 52) (-1074) in
     let m := mantissa_at e n d in
     if m =? 0 then FFin neg 0 0
     else let '(m, e) := if m =? 2 ^ 53 then (2 ^ 52, e + 1) else (m, e) in
          if 971 <? e then FInf neg else FFin neg m e) = FFin neg m e).
  { intros ->. cbv zeta. rewrite Hmant, (proj2 (Z.eqb_neq m 0)), (proj2 (Z.eqb_neq m (2 ^ 53))) by lia.
    by rewrite (proj2 (Z.ltb_ge 971 e)) by lia. }
  destruct (Z.le_gt_cases (B * 2 ^ 52) A) as [Hup|Hlow].
  - apply Hdone. rewrite (Hr 52) by (lia || (assert ((m + 1) * B <= 2 ^ 53 * B) by (apply Z.mul_le_mono_nonneg_r; lia); lia)). lia.
  - destruct (Z.eq_dec e (-1074)) as [Ee|Ne].
    + apply Hdone. enough (ratio_log2 n d < e + 52) by lia.
      destruct (Z.lt_ge_cases (ratio_log2 n d) (e + 52)) as [|Hge]; [done|]. exfalso.
      pose proof (ratio_log2_le n d K Hn Hd HK ltac:(lia)) as H. fold A in H.
      assert (d * 2 ^ (e + 52 + K) <= d * 2 ^ (ratio_log2 n d + K)).
      { apply Z.mul_le_mono_nonneg_l; [lia|]. apply Z.pow_le_mono_r; lia. }
      rewrite Hpow in * by lia. lia.
    + assert (m = 2 ^ 52) as Em.
      { destruct (Z.le_gt_cases m (2 ^ 52)); [lia|].
        assert ((2 ^ 52 + 1) * B <= m * B) by (apply Z.mul_le_mono_nonneg_r; lia). lia. }
      specialize (Hquarter Em). cbv zeta. rewrite (Hr 51) by (subst m; lia).
      rewrite Z.max_l by lia. replace (e + 51 - 52) with (e - 1) by lia.
      assert (HB2 : 2 * (d * 2 ^ (e - 1 + K)) = B).
      { unfold B. replace (e + K) with (1 + (e - 1 + K)) by lia. rewrite (Z.pow_add_r 2 1) by lia. lia. }
      assert (mantissa_at (e - 1) n d = 2 ^ 53) as ->.
      { rewrite (mantissa_at_scaled (e - 1) n d K) by lia. fold A. apply div_even_near; [lia|]. subst m. lia. }
      rewrite Z.eqb_refl. change (2 ^ 53 =? 0) with false. cbv iota.
      replace (e - 1 + 1) with e by lia. rewrite (proj2 (Z.ltb_ge 971 e)) by lia. by rewrite Em.
Qed.

(** What [fround] returns is of the format, or too large for it. *)
Lemma div_even_le n d c : 0 < d -> n <= c * d -> div_even n d <= c.
Proof.
  intros Hd Hc. assert (n / d <= c) by (apply Z.div_le_upper_bound; lia).
  destruct (Z.eq_dec (n / d) c) as [E|]; [|unfold div_even; destruct (_ ?= _); [destruct (Z.even _)|..]; lia].
  pose proof (Z.div_mod n d ltac:(lia)). pose proof (Z.mod_pos_bound n d Hd).
  rewrite (div_even_near n d c); lia.
Qed.

Lemma fround_canonical neg n d : 0 <= n -> 0 < d ->
  fround neg n d = FInf neg \/ canonical (fround neg n d) = true.
Proof.
  intros Hn Hd. destruct (Z.eq_dec n 0) as [->|Hne]; [by right|]. rewrite fround_unfold by lia. cbv zeta.
  set (L := ratio_log2 n d). set (e := Z.max (L - 52) (-1074)). set (K := Z.max 0 (- e) + Z.max 0 (- L)).
  set (B := d * 2 ^ (e + K)).
  assert (HB : 0 < B) by (apply Z.mul_pos_pos; [done|apply pow2_pos; lia]).
  assert (Hpow : forall j, 0 <= j -> d * 2 ^ (e + j + K) = B * 2 ^ j).
  { intros j Hj. unfold B. rewrite <- Z.mul_assoc, <- Z.pow_add_r by lia. do 2 f_equal. lia. }
  rewrite (mantissa_at_scaled e n d K) by lia. fold B. set (m := div_even (n * 2 ^ K) B).
  assert (Hup : m <= 2 ^ 53).
  { apply div_even_le; [done|].
    pose proof (ratio_log2_lt n d K ltac:(lia) Hd ltac:(lia) ltac:(fold L; lia)) as H. fold L in H.
    assert (d * 2 ^ (L + 1 + K) <= d * 2 ^ (e + 53 + K)).
    { apply Z.mul_le_mono_nonneg_l; [lia|]. apply Z.pow_le_mono_r; lia. }
    rewrite Hpow in * by lia. lia. }
  assert (Hlow : 2 ^ 52 <= m \/ e = -1074).
  { destruct (Z.eq_dec e (-1074)) as [|Ne]; [by right|left]. apply div_even_ge; [done|].
    pose proof (ratio_log2_le n d K ltac:(lia) Hd ltac:(lia) ltac:(fold L; lia)) as H. fold L in H.
    replace (L + K) with (e + 52 + K) in H by lia. rewrite Hpow in H by lia. lia. }
  assert (0 <= m) by (apply div_even_nonneg; [apply Z.mul_nonneg_nonneg; [done|apply Z.pow_nonneg; lia]|done]).
  destruct (Z.eqb_spec m 0) as [|Hm]; [by right|].
  destruct (Z.eqb_spec m (2 ^ 53)); [destruct (Z.ltb_spec 971 (e + 1))|destruct (Z.ltb_spec 971 e)];
    first [by left|right; apply canonical_pos; lia].
Qed.
