(* ===== verification/GoTime.v ===== *)
(** * Go's [time.Duration] and [time.Time]

    A [Duration] is an [int64] count of nanoseconds; an instant is a [Z] of
    nanoseconds on the process's monotonic clock.  [ParseDuration] follows the
    loop of package [time], including its [uint64] accumulator and the [float64]
    arithmetic it uses for fractions. *)

From Stdlib Require Import ZArith Lia Ascii.
From stdpp Require Import base tactics strings list option.
From S2P Require Import Prelude GoLib GoFloat.

#[local] Open Scope Z_scope.

Definition nanosecond : Z := 1.
Definition microsecond : Z := 1000 * nanosecond.
Definition millisecond : Z := 1000 * microsecond.
Definition second : Z := 1000 * millisecond.
Definition minute : Z := 60 * second.
Definition hour : Z := 60 * minute.

(** [t.Sub(u)]: the difference, saturated at the ends of [Duration]. *)
Definition time_sub (t u : Z) : Z := Z.max min_int64 (Z.min max_int64 (t - u)).

(** ** [time.ParseDuration] *)

(** [leadingInt]: consumes decimal digits; [None] on overflow of 1<<63. *)
Fixpoint leading_int (x : Z) (s : string) : option (Z * string) :=
  match s with
  | String c s' =>
      if is_digit c then
        if 2 ^ 63 / 10 <? x then None
        else
          let x' := x * 10 + digit_val c in
          if 2 ^ 63 <? x' then None else leading_int x' s'
      else Some (x, s)
  | EmptyString => Some (x, s)
  end.

(** [leadingFraction]: consumes digits, keeping only those that fit. *)
Fixpoint leading_fraction (x : Z) (scale : float64) (overflow : bool) (s : string)
  : Z * float64 * string :=
  match s with
  | String c s' =>
      if is_digit c then
        if overflow then leading_fraction x scale true s'
        else if (2 ^ 63 - 1) / 10 <? x then leading_fraction x scale true s'
        else
          let y := x * 10 + digit_val c in
          if 2 ^ 63 <? y then leading_fraction x scale true s'
          else leading_fraction y (fmul scale (f_of_Z 10)) false s'
      else (x, scale, s)
  | EmptyString => (x, scale, s)
  end.

(** The unit name: everything up to the next digit or dot. *)
Fixpoint unit_name (s : string) : string * string :=
  match s with
  | String c s' =>
      if is_digit c || bool_decide (c = "."%char) then (EmptyString, s)
      else let '(u, r) := unit_name s' in (String c u, r)
  | EmptyString => (EmptyString, EmptyString)
  end.

(** The two spellings of micro: U+00B5 and U+03BC followed by [s]. *)
Definition micro_sign : string := String (byte_of 194) (String (byte_of 181) "s").
Definition greek_mu : string := String (byte_of 206) (String (byte_of 188) "s").

Definition unit_map (u : string) : option Z :=
  if str_eqb u "ns" then Some nanosecond
  else if str_eqb u "us" then Some microsecond
  else if str_eqb u micro_sign then Some microsecond
  else if str_eqb u greek_mu then Some microsecond
  else if str_eqb u "ms" then Some millisecond
  else if str_eqb u "s" then Some second
  else if str_eqb u "m" then Some minute
  else if str_eqb u "h" then Some hour
  else None.

(** One [number unit] component: its value in nanoseconds and the rest. *)
Definition duration_component (s : string) : option (Z * string) :=
  match s with
  | EmptyString => None
  | String c _ =>
      if negb (bool_decide (c = "."%char) || is_digit c) then None
      else
        '(v, s1) ← leading_int 0 s;
        let pre := negb (str_eqb s1 s) in
        let '(f, scale, s2, post) :=
          match s1 with
          | String d t =>
              if bool_decide (d = "."%char) then
                let '(f, scale, r) := leading_fraction 0 (f_of_Z 1) false t in
                (f, scale, r, negb (str_eqb r t))
              else (0, f_of_Z 1, s1, false)
          | EmptyString => (0, f_of_Z 1, s1, false)
          end in
        if negb pre && negb post then None
        else
          let '(u, rest) := unit_name s2 in
          if str_is_empty u then None
          else
            unit ← unit_map u;
            if 2 ^ 63 / unit <? v then None
            else
              let v := v * unit in
              if 0 <? f then
                let v := v + match fmul (f_of_Z f) (fdiv (f_of_Z unit) scale) with
                             | FFin n m e => ftrunc n m e
                             | _ => 0
                             end in
                if 2 ^ 63 <? v then None else Some (v, rest)
              else Some (v, rest)
  end.

(** The loop over components; every component consumes at least one byte. *)
Fixpoint duration_loop (fuel : nat) (d : Z) (s : string) : option Z :=
  match s with
  | EmptyString => Some d
  | _ =>
      match fuel with
      | O => None
      | S f =>
          '(v, rest) ← duration_component s;
          let d := d + v in
          if 2 ^ 63 <? d then None else duration_loop f d rest
      end
  end.

Definition parse_duration (s : string) : option Z :=
  let '(neg, body) := cut_sign s in
  if str_eqb body "0" then Some 0
  else if str_is_empty body then None
  else
    d ← duration_loop (String.length body) 0 body;
    if neg then Some (- d)
    else if 2 ^ 63 - 1 <? d then None else Some d.

Example parse_duration_mixed : parse_duration "1h15m30.918s" = Some 4530918000000.
Proof. vm_compute. reflexivity. Qed.
Example parse_duration_half : parse_duration "-1.5h" = Some (-5400000000000).
Proof. vm_compute. reflexivity. Qed.
Example parse_duration_space : parse_duration "5 m" = None.
Proof. vm_compute. reflexivity. Qed.
Example parse_duration_no_unit : parse_duration "100" = None.
Proof. vm_compute. reflexivity. Qed.

(** ** Bounds: what [ParseDuration] accepts is an [int64] *)

Lemma leading_int_nonneg x s v r : 0 <= x -> leading_int x s = Some (v, r) -> 0 <= v.
Proof.
  revert x. induction s as [|c s IH]; cbn [leading_int]; intros x Hx H; [naive_solver|].
  destruct (is_digit c) eqn:Hd; [|naive_solver].
  destruct (2 ^ 63 / 10 <? x); [done|].
  destruct (2 ^ 63 <? _); [done|]. eapply IH; [|done].
  unfold is_digit, between in Hd. unfold digit_val. lia.
Qed.

Lemma leading_fraction_nonneg x scale b s v sc r :
  0 <= x -> fnonneg scale -> leading_fraction x scale b s = (v, sc, r) ->
  0 <= v /\ fnonneg sc.
Proof.
  revert x scale b. induction s as [|c s IH]; cbn [leading_fraction];
    intros x scale b Hx Hs H; [naive_solver|].
  destruct (is_digit c) eqn:Hd; [|naive_solver].
  destruct b; [by eapply IH|]. destruct (_ <? x); [by eapply IH|].
  destruct (2 ^ 63 <? _); [by eapply IH|]. eapply IH; [| |done].
  - unfold is_digit, between in Hd. unfold digit_val. lia.
  - apply fmul_nonneg; [done|]. by apply f_of_Z_nonneg.
Qed.

Lemma unit_map_pos u n : unit_map u = Some n -> 0 < n.
Proof.
  unfold unit_map. intros H. repeat case_match; simplify_eq; try done; vm_compute; reflexivity.
Qed.

Lemma duration_component_nonneg s v r : duration_component s = Some (v, r) -> 0 <= v.
Proof.
  unfold duration_component. intros H. destruct s as [|c s]; [done|].
  case_match; [done|].
  apply bind_Some in H as ([w s1] & Hw & H).
  apply leading_int_nonneg in Hw; [|lia].
  destruct (match s1 with EmptyString => _ | String d t => _ end) as [[[f sc] s2] post] eqn:Hf.
  assert (0 <= f /\ fnonneg sc) as [Hf0 Hsc].
  { assert (Hd : 0 <= 0 /\ fnonneg (f_of_Z 1)) by (split; [lia|by apply f_of_Z_nonneg]).
    destruct s1 as [|d t]; [by injection Hf as <- <- <- <-|].
    destruct (bool_decide (d = "."%char)); [|by injection Hf as <- <- <- <-].
    destruct (leading_fraction _ _ _ t) as [[f' sc'] r'] eqn:E. simplify_eq.
    eapply leading_fraction_nonneg; [| |done]; [lia|by apply f_of_Z_nonneg]. }
  case_match; [done|]. destruct (unit_name s2) as [u rest].
  destruct (str_is_empty u); [done|].
  apply bind_Some in H as (n & Hn & H). apply unit_map_pos in Hn.
  destruct (_ <? w); [done|].
  assert (0 <= w * n) by (apply Z.mul_nonneg_nonneg; lia).
  destruct (Z.ltb_spec 0 f); [|naive_solver].
  assert (Hp : fnonneg (fmul (f_of_Z f) (fdiv (f_of_Z n) sc))).
  { apply fmul_nonneg, fdiv_nonneg; try done; apply f_of_Z_nonneg; lia. }
  destruct (fmul _ _) as [| |a m e]; simpl in Hp; destruct (_ <? _); simplify_eq; try lia.
  destruct Hp as [-> Hm]. pose proof (ftrunc_nonneg m e Hm). lia.
Qed.

Lemma duration_loop_range fuel d s v :
  0 <= d <= 2 ^ 63 -> duration_loop fuel d s = Some v -> 0 <= v <= 2 ^ 63.
Proof.
  revert d s. induction fuel as [|f IH]; intros d s Hd H;
    (destruct s as [|c s]; [cbn in H; simplify_eq; done|]); [done|].
  cbn [duration_loop] in H. apply bind_Some in H as ([w r] & Hw & H).
  apply duration_component_nonneg in Hw.
  destruct (Z.ltb_spec (2 ^ 63) (d + w)); [done|]. eapply IH; [|done]. lia.
Qed.

Lemma parse_duration_range s d : parse_duration s = Some d -> in_int64 d = true.
Proof.
  unfold parse_duration. intros H. apply in_int64_spec. unfold min_int64, max_int64.
  destruct (cut_sign s) as [neg body].
  destruct (str_eqb body "0"); [simplify_eq; lia|].
  destruct (str_is_empty body); [done|].
  apply bind_Some in H as (v & Hv & H). apply duration_loop_range in Hv; [|lia].
  destruct neg; [simplify_eq; lia|]. destruct (Z.ltb_spec (2 ^ 63 - 1) v); simplify_eq; lia.
Qed.

(** ** The loop consumes its input *)

Lemma leading_int_suffix x s v r :
  leading_int x s = Some (v, r) -> (String.length r <= String.length s)%nat.
Proof.
  revert x. induction s as [|c s IH]; cbn [leading_int]; intros x H; [naive_solver|].
  destruct (is_digit c); [|naive_solver].
  repeat (case_match; [done|]). apply IH in H. simpl. lia.
Qed.
