(* ===== verification/GoDate.v ===== *)
(** * Package time: instants in RFC 3339

    [time.Parse] with the layout [2006-01-02T15:04:05Z07:00], chunk by chunk, and
    the civil calendar behind it.  An instant is a number of nanoseconds since the
    Unix epoch, of any size. *)

From Stdlib Require Import ZArith Lia Ascii.
From stdpp Require Import base tactics option strings list.
From S2P Require Import Prelude GoLib GoTime.

#[local] Open Scope Z_scope.

Definition is_leap (year : Z) : bool :=
  (year mod 4 =? 0) && (negb (year mod 100 =? 0) || (year mod 400 =? 0)).

Definition days_in (month year : Z) : Z :=
  if month =? 2 then (if is_leap year then 29 else 28)
  else if (month =? 4) || (month =? 6) || (month =? 9) || (month =? 11) then 30 else 31.

(** The days before the first of January of [year], and before a month of it,
    counting from the epoch. *)
Definition days_before_year (year : Z) : Z :=
  let y := year - 1 in 365 * year + y / 4 - y / 100 + y / 400 - 719527.

Fixpoint days_before_month (n : nat) (year : Z) : Z :=
  match n with
  | O => 0
  | S n' => days_before_month n' year + days_in (Z.of_nat (S n')) year
  end.

Definition civil_days (year month day : Z) : Z :=
  days_before_year year + days_before_month (Z.to_nat (month - 1)) year + (day - 1).

(** ** Parsing *)

(** [getnum]: two digits, or one where the chunk is not of fixed width. *)
Definition getnum (fixed : bool) (s : string) : option (Z * string) :=
  match s with
  | String a s1 =>
      if is_digit a then
        match s1 with
        | String b s2 =>
            if is_digit b then Some (digit_val a * 10 + digit_val b, s2)
            else if fixed then None else Some (digit_val a, s1)
        | EmptyString => if fixed then None else Some (digit_val a, s1)
        end
      else None
  | EmptyString => None
  end.

Definition skip_byte (c : ascii) (s : string) : option string :=
  match s with String d s' => if bool_decide (d = c) then Some s' else None | EmptyString => None end.

Definition in_range (lo hi : Z) (p : Z * string) : option (Z * string) :=
  if (lo <=? p.1) && (p.1 <=? hi) then Some p else None.

Definition get_year (s : string) : option (Z * string) :=
  match s with
  | String a (String b (String c (String d s'))) =>
      y ← parse_digits 0 (String a (String b (String c (String d EmptyString)))); Some (y, s')
  | _ => None
  end.

(** A fraction the layout does not ask for: a comma or a period, then digits, of
    which nine count. *)
Fixpoint frac_digits (n : nat) (acc : Z) (s : string) : Z * string :=
  match s with
  | String c s' =>
      if is_digit c then
        match n with
        | O => frac_digits O acc s'
        | S n' => frac_digits n' (acc * 10 + digit_val c) s'
        end
      else (acc * 10 ^ Z.of_nat n, s)
  | EmptyString => (acc * 10 ^ Z.of_nat n, s)
  end.

Definition get_fraction (s : string) : Z * string :=
  match s with
  | String c (String d _ as s') =>
      if (bool_decide (c = "."%char) || bool_decide (c = ","%char)) && is_digit d
      then frac_digits 9 0 s' else (0, s)
  | _ => (0, s)
  end.

(** Seconds east of UTC: [Z], or a sign, hours and minutes.  The bounds admit 24
    hours and 60 minutes, as the library's do. *)
Definition get_zone (s : string) : option (Z * string) :=
  match s with
  | String z s' =>
      if bool_decide (z = "Z"%char) then Some (0, s')
      else
        '(hr, s1) ← getnum true s' ≫= in_range 0 24;
        s2 ← skip_byte ":" s1;
        '(mm, s3) ← getnum true s2 ≫= in_range 0 60;
        let off := (hr * 60 + mm) * 60 in
        if bool_decide (z = "+"%char) then Some (off, s3)
        else if bool_decide (z = "-"%char) then Some (- off, s3) else None
  | EmptyString => None
  end.

Definition parse_rfc3339 (s : string) : option Z :=
  '(year, s) ← get_year s;
  s ← skip_byte "-" s;
  '(month, s) ← getnum true s ≫= in_range 1 12;
  s ← skip_byte "-" s;
  '(day, s) ← getnum true s;
  s ← skip_byte "T" s;
  '(hour, s) ← getnum false s ≫= in_range 0 23;
  s ← skip_byte ":" s;
  '(min, s) ← getnum true s ≫= in_range 0 59;
  s ← skip_byte ":" s;
  '(sec, s) ← getnum true s ≫= in_range 0 59;
  let '(nsec, s) := get_fraction s in
  '(off, s) ← get_zone s;
  if negb (str_is_empty s) then None
  else if (day <? 1) || (days_in month year <? day) then None
  else Some ((civil_days year month day * 86400 + hour * 3600 + min * 60 + sec - off) * second + nsec).

Example rfc3339_ok : parse_rfc3339 <$>
    ["1970-01-01T00:00:00Z"; "2026-09-08T06:00:00Z"; "2026-09-08T06:00:00+02:00"; "2000-02-29T23:59:59.5Z";
     "2026-09-08T6:00:00,25Z"; "1969-12-31T23:59:59.999999999Z"; "2100-02-29T00:00:00Z"; "2026-13-01T00:00:00Z";
     "2026-09-08 06:00:00Z"; "2026-09-08T06:00:00"; "2026-09-08T06:00:00ZZ"; "0000-01-01T00:00:00Z"]%string
  = [Some 0; Some 1788847200000000000; Some 1788840000000000000; Some 951868799500000000;
     Some 1788847200250000000; Some (-1); None; None; None; None; None; Some (-62167219200000000000)].
Proof. vm_compute. reflexivity. Qed.
