(* ===== verification/GoDateText.v ===== *)
(** * Package time: printing instants

    [Time.Format] of a UTC instant with the layout RFC3339Nano, and that
    [time.Parse] reads it back: the year, the month and the day of a number of days,
    and a fraction without its trailing zeros. *)

From Stdlib Require Import ZArith Lia Ascii.
From stdpp Require Import base tactics option strings list.
From S2P Require Import Prelude GoLib GoTime GoDate.

#[local] Open Scope Z_scope.

(** ** The calendar *)

(** The year a day is in: an estimate that is at most one off. *)
Definition year_of (days : Z) : Z :=
  let y := (days + 719527) * 400 / 146097 in
  if days <? days_before_year y then y - 1
  else if days_before_year (y + 1) <=? days then y + 1 else y.

(** The month and the day, from [month] on. *)
Fixpoint month_day (fuel : nat) (month year rest : Z) : Z * Z :=
  match fuel with
  | O => (month, rest + 1)
  | S f => if rest <? days_in month year then (month, rest + 1)
           else month_day f (month + 1) year (rest - days_in month year)
  end.

Definition civil_date (days : Z) : Z * Z * Z :=
  let year := year_of days in
  let '(month, day) := month_day 11 1 year (days - days_before_year year) in
  (year, month, day).

Lemma days_before_year_bounds y :
  146097 * y - 1000 <= 400 * (days_before_year y + 719527) <= 146097 * y + 1000.
Proof.
  unfold days_before_year.
  pose proof (Z.div_mod (y - 1) 4 ltac:(lia)). pose proof (Z.mod_pos_bound (y - 1) 4 ltac:(lia)).
  pose proof (Z.div_mod (y - 1) 100 ltac:(lia)). pose proof (Z.mod_pos_bound (y - 1) 100 ltac:(lia)).
  pose proof (Z.div_mod (y - 1) 400 ltac:(lia)). pose proof (Z.mod_pos_bound (y - 1) 400 ltac:(lia)).
  lia.
Qed.

Lemma year_of_spec days : days_before_year (year_of days) <= days < days_before_year (year_of days + 1).
Proof.
  unfold year_of. set (y := (days + 719527) * 400 / 146097).
  pose proof (Z.div_mod ((days + 719527) * 400) 146097 ltac:(lia)) as Hd.
  pose proof (Z.mod_pos_bound ((days + 719527) * 400) 146097 ltac:(lia)) as Hm. fold y in Hd.
  pose proof (days_before_year_bounds (y - 1)). pose proof (days_before_year_bounds (y + 1 + 1)).
  destruct (Z.ltb_spec days (days_before_year y)).
  - replace (y - 1 + 1) with y by lia. lia.
  - destruct (Z.leb_spec (days_before_year (y + 1)) days); lia.
Qed.

Lemma year_length y : days_before_year (y + 1) - days_before_year y = days_before_month 12 y.
Proof.
  assert (Hm : days_before_month 12 y = 337 + days_in 2 y) by (cbn [days_before_month]; unfold days_in; simpl; lia).
  rewrite Hm. unfold days_before_year, days_in. simpl. replace (y + 1 - 1) with y by lia.
  unfold is_leap.
  pose proof (Z.div_mod y 4 ltac:(lia)). pose proof (Z.mod_pos_bound y 4 ltac:(lia)).
  pose proof (Z.div_mod y 100 ltac:(lia)). pose proof (Z.mod_pos_bound y 100 ltac:(lia)).
  pose proof (Z.div_mod y 400 ltac:(lia)). pose proof (Z.mod_pos_bound y 400 ltac:(lia)).
  pose proof (Z.div_mod (y - 1) 4 ltac:(lia)). pose proof (Z.mod_pos_bound (y - 1) 4 ltac:(lia)).
  pose proof (Z.div_mod (y - 1) 100 ltac:(lia)). pose proof (Z.mod_pos_bound (y - 1) 100 ltac:(lia)).
  pose proof (Z.div_mod (y - 1) 400 ltac:(lia)). pose proof (Z.mod_pos_bound (y - 1) 400 ltac:(lia)).
  destruct (Z.eqb_spec (y mod 4) 0), (Z.eqb_spec (y mod 100) 0), (Z.eqb_spec (y mod 400) 0); simpl; lia.
Qed.

Lemma days_in_bounds m y : 28 <= days_in m y <= 31.
Proof. unfold days_in. repeat case_match; lia. Qed.

Lemma days_before_month_S n y : days_before_month (S n) y = days_before_month n y + days_in (Z.of_nat (S n)) y.
Proof. done. Qed.

(** From the month [n + 1] on. *)
Lemma month_day_spec fuel : forall n y rest, (n + S fuel = 12)%nat ->
  0 <= rest < days_before_month 12 y - days_before_month n y ->
  let '(m, d) := month_day fuel (Z.of_nat (S n)) y rest in
  1 <= m <= 12 /\ 1 <= d <= days_in m y /\
  days_before_month (Z.to_nat (m - 1)) y + (d - 1) = days_before_month n y + rest.
Proof.
  induction fuel as [|f IH]; intros n y rest Hn Hr.
  - assert (n = 11%nat) as -> by lia. cbn [month_day]. rewrite (days_before_month_S 11) in Hr.
    change (Z.to_nat (Z.of_nat 12 - 1)) with 11%nat. change (Z.of_nat 12) with 12 in *. lia.
  - cbn [month_day]. destruct (Z.ltb_spec rest (days_in (Z.of_nat (S n)) y)) as [Hlt|Hge].
    + replace (Z.to_nat (Z.of_nat (S n) - 1)) with n by lia. lia.
    + replace (Z.of_nat (S n) + 1) with (Z.of_nat (S (S n))) by lia.
      pose proof (days_before_month_S n y) as Hs.
      specialize (IH (S n) y (rest - days_in (Z.of_nat (S n)) y) ltac:(lia)).
      destruct (month_day f _ y _) as [m d]. destruct IH as (? & ? & E); [lia|]. split; [lia|]. split; [lia|]. lia.
Qed.

(** The date of a day is a date of the calendar, and the day of that date. *)
Lemma civil_date_spec days :
  let '(y, m, d) := civil_date days in
  1 <= m <= 12 /\ 1 <= d <= days_in m y /\ civil_days y m d = days.
Proof.
  unfold civil_date. pose proof (year_of_spec days) as Hy. set (y := year_of days) in *.
  pose proof (year_length y) as Hl.
  pose proof (month_day_spec 11 0 y (days - days_before_year y) eq_refl) as H. change (Z.of_nat 1) with 1 in H.
  destruct (month_day 11 1 y _) as [m d]. destruct H as (Hm & Hd & E).
  - cbn [days_before_month]. cbn [days_before_month] in Hl. lia.
  - split; [done|]. split; [done|]. unfold civil_days. cbn [days_before_month] in E. lia.
Qed.

(** ** The text *)

Definition two (n : Z) (s : string) : string := String (digit_char (n / 10)) (String (digit_char (n mod 10)) s).
Definition four (n : Z) (s : string) : string := two (n / 100) (two (n mod 100) s).

(** The digits of a fraction of [10 ^ n], without the zeros it ends in. *)
Fixpoint frac_text (n : nat) (v : Z) (s : string) : string :=
  if v =? 0 then s
  else match n with
       | O => s
       | S k => String (digit_char (v / 10 ^ Z.of_nat k)) (frac_text k (v mod 10 ^ Z.of_nat k) s)
       end.

(** [Format(time.RFC3339Nano)] in UTC, for years of four digits. *)
Definition format_rfc3339nano (t : Z) : string :=
  let secs := t / second in
  let nsec := t mod second in
  let '(y, m, d) := civil_date (secs / 86400) in
  let tod := secs mod 86400 in
  four y (String "-" (two m (String "-" (two d (String "T"
    (two (tod / 3600) (String ":" (two (tod / 60 mod 60) (String ":" (two (tod mod 60)
      (if (nsec =? 0)%Z then "Z" else String "." (frac_text 9 nsec "Z"))))))))))))%string.

Example format_ok : format_rfc3339nano <$> [0; 1788847200250000000; -1; 951868799500000000; 1]
  = ["1970-01-01T00:00:00Z"; "2026-09-08T06:00:00.25Z"; "1969-12-31T23:59:59.999999999Z"; "2000-02-29T23:59:59.5Z";
     "1970-01-01T00:00:00.000000001Z"]%string.
Proof. vm_compute. reflexivity. Qed.

(** ** Reading it back *)

Lemma getnum_two fixed n s : 0 <= n < 100 -> getnum fixed (two n s) = Some (n, s).
Proof.
  intros Hn. unfold two, getnum.
  destruct (digit_char_ok (n / 10)) as [H1 E1]; [split; [apply Z.div_pos; lia|apply Z.div_lt_upper_bound; lia]|].
  destruct (digit_char_ok (n mod 10)) as [H2 E2]; [apply Z.mod_pos_bound; lia|].
  rewrite H1, H2, E1, E2. pose proof (Z.div_mod n 10 ltac:(lia)). do 2 f_equal. lia.
Qed.

Lemma get_year_four y s : 0 <= y < 10000 -> get_year (four y s) = Some (y, s).
Proof.
  intros Hy. unfold four, two, get_year. cbn [parse_digits].
  pose proof (Z.div_mod y 100 ltac:(lia)). pose proof (Z.mod_pos_bound y 100 ltac:(lia)).
  assert (0 <= y / 100 < 100) by (split; [apply Z.div_pos; lia|apply Z.div_lt_upper_bound; lia]).
  assert (Hd : forall n, 0 <= n < 100 -> 0 <= n / 10 < 10 /\ 0 <= n mod 10 < 10 /\ n = 10 * (n / 10) + n mod 10).
  { intros n Hn. split; [split; [apply Z.div_pos; lia|apply Z.div_lt_upper_bound; lia]|].
    split; [apply Z.mod_pos_bound; lia|apply Z.div_mod; lia]. }
  destruct (Hd (y / 100)) as (A1 & A2 & A3); [done|]. destruct (Hd (y mod 100)) as (B1 & B2 & B3); [done|].
  destruct (digit_char_ok _ A1) as [-> ->]. destruct (digit_char_ok _ A2) as [-> ->].
  destruct (digit_char_ok _ B1) as [-> ->]. destruct (digit_char_ok _ B2) as [-> ->].
  cbn [mbind option_bind]. do 2 f_equal. lia.
Qed.

Lemma frac_digits_text n : forall v acc, 0 <= v < 10 ^ Z.of_nat n ->
  frac_digits n acc (frac_text n v "Z") = (acc * 10 ^ Z.of_nat n + v, "Z"%string).
Proof.
  induction n as [|n IH]; intros v acc Hv; cbn [frac_text].
  - change (10 ^ Z.of_nat 0) with 1 in Hv. destruct (Z.eqb_spec v 0); [|lia]. subst v.
    cbn [frac_digits]. change (is_digit "Z") with false. cbv iota. f_equal. lia.
  - destruct (Z.eqb_spec v 0) as [->|Hz].
    + cbn [frac_digits]. change (is_digit "Z") with false. cbv iota. f_equal. lia.
    + cbn [frac_digits]. rewrite Nat2Z.inj_succ, Z.pow_succ_r in Hv |- * by lia.
      set (p := 10 ^ Z.of_nat n) in *. assert (0 < p) by (apply Z.pow_pos_nonneg; lia).
      destruct (digit_char_ok (v / p)) as [-> ->]; [split; [apply Z.div_pos; lia|apply Z.div_lt_upper_bound; lia]|].
      rewrite IH by (apply Z.mod_pos_bound; lia). f_equal. fold p. pose proof (Z.div_mod v p ltac:(lia)). lia.
Qed.

Lemma get_fraction_text nsec : 0 <= nsec < second ->
  get_fraction (if (nsec =? 0)%Z then "Z" else String "." (frac_text 9 nsec "Z"))%string = (nsec, "Z"%string).
Proof.
  intros Hn. destruct (Z.eqb_spec nsec 0) as [->|Hz]; [done|].
  pose proof (frac_digits_text 9 nsec 0 Hn) as Hf. rewrite Z.mul_0_l, Z.add_0_l in Hf.
  unfold get_fraction. destruct (frac_text 9 nsec "Z") as [|c s] eqn:E.
  - cbn [frac_digits] in Hf. by injection Hf as ?.
  - assert (is_digit c = true) as ->; [|done]. cbn [frac_text] in E.
    rewrite (proj2 (Z.eqb_neq nsec 0) Hz) in E. injection E as <- _.
    apply digit_char_ok. unfold second, millisecond, microsecond, nanosecond in Hn.
    split; [apply Z.div_pos; lia|apply Z.div_lt_upper_bound; lia].
Qed.

Lemma in_range_ok lo hi n (s : string) : lo <= n <= hi -> in_range lo hi (n, s) = Some (n, s).
Proof. intros Hn. unfold in_range. cbn [fst]. rewrite (proj2 (Z.leb_le _ _)), (proj2 (Z.leb_le _ _)) by lia. done. Qed.

(** The years [Format] prints with four digits. *)
Definition printable_year (t : Z) : bool := let '(y, _, _) := civil_date (t / second / 86400) in (0 <=? y) && (y <=? 9999).

(** What is printed is read back, to the nanosecond. *)
Lemma rfc3339_roundtrip t : printable_year t = true -> parse_rfc3339 (format_rfc3339nano t) = Some t.
Proof.
  unfold printable_year, format_rfc3339nano, parse_rfc3339.
  pose proof (civil_date_spec (t / second / 86400)) as Hc.
  destruct (civil_date (t / second / 86400)) as [[y m] d]. destruct Hc as (Hm & Hd & E).
  rewrite andb_true_iff, !Z.leb_le. intros Hy. set (tod := t / second mod 86400).
  assert (Htod : 0 <= tod < 86400) by (apply Z.mod_pos_bound; lia).
  pose proof (days_in_bounds m y).
  assert (0 <= tod / 3600 <= 23) by (split; [apply Z.div_pos; lia|apply Z.lt_succ_r, Z.div_lt_upper_bound; lia]).
  pose proof (Z.mod_pos_bound (tod / 60) 60 ltac:(lia)). pose proof (Z.mod_pos_bound tod 60 ltac:(lia)).
  assert (Hns : 0 <= t mod second < second) by (apply Z.mod_pos_bound; done).
  rewrite get_year_four by lia. cbn [mbind option_bind skip_byte]. rewrite bool_decide_true by done.
  cbn [mbind option_bind]. rewrite getnum_two by lia. cbn [mbind option_bind]. rewrite in_range_ok by lia.
  cbn [mbind option_bind skip_byte]. rewrite bool_decide_true by done.
  cbn [mbind option_bind]. rewrite getnum_two by lia. cbn [mbind option_bind skip_byte]. rewrite bool_decide_true by done.
  cbn [mbind option_bind]. rewrite getnum_two by lia. cbn [mbind option_bind]. rewrite in_range_ok by lia.
  cbn [mbind option_bind skip_byte]. rewrite bool_decide_true by done.
  cbn [mbind option_bind]. rewrite getnum_two by lia. cbn [mbind option_bind]. rewrite in_range_ok by lia.
  cbn [mbind option_bind skip_byte]. rewrite bool_decide_true by done.
  cbn [mbind option_bind]. rewrite getnum_two by lia. cbn [mbind option_bind]. rewrite in_range_ok by lia.
  cbn [mbind option_bind]. rewrite get_fraction_text by done. cbn [get_zone]. rewrite bool_decide_true by done.
  cbn [mbind option_bind str_is_empty negb].
  rewrite (proj2 (Z.ltb_ge d 1)), (proj2 (Z.ltb_ge (days_in m y) d)) by lia. cbn [orb]. rewrite E. f_equal.
  pose proof (Z.div_mod t second ltac:(done)). pose proof (Z.div_mod (t / second) 86400 ltac:(lia)) as Hday. fold tod in Hday.
  pose proof (Z.div_mod tod 60 ltac:(lia)). pose proof (Z.div_mod (tod / 60) 60 ltac:(lia)).
  assert (tod / 60 / 60 = tod / 3600) by (rewrite Z.div_div by lia; done).
  replace (t / second / 86400 * 86400 + tod / 3600 * 3600 + (tod / 60) mod 60 * 60 + tod mod 60 - 0) with (t / second) by lia.
  lia.
Qed.

(** An instant of 64 bits is in such a year. *)
Lemma int64_printable t : in_int64 t = true -> printable_year t = true.
Proof.
  rewrite in_int64_spec. unfold min_int64, max_int64. intros Ht. unfold printable_year, civil_date.
  set (days := t / second / 86400). assert (Hd : -106752 <= days <= 106752).
  { unfold days, second, millisecond, microsecond, nanosecond.
    split; [repeat (apply Z.div_le_lower_bound; [lia|]); lia|].
    apply Z.lt_succ_r. repeat (apply Z.div_lt_upper_bound; [lia|]). lia. }
  pose proof (year_of_spec days). set (y := year_of days) in *.
  pose proof (days_before_year_bounds y). pose proof (days_before_year_bounds (y + 1)).
  destruct (month_day 11 1 y _). apply andb_true_iff. rewrite !Z.leb_le. lia.
Qed.
