(* ===== verification/GoUrl.v ===== *)
(** * Package net/url: [Parse] and [URL.String]

    The parser of the standard library (Go 1.25.0), step by step: fragment, scheme,
    query, opaque part, authority, path, with the percent-decoding of each
    component.  Errors carry no data here: no caller looks inside them. *)

From Stdlib Require Import ZArith Lia Ascii.
From stdpp Require Import base tactics list strings option.
From S2P Require Import Prelude GoLib.

#[local] Open Scope Z_scope.

(** ** Helpers of package strings *)

(** [strings.LastIndex] with a one-byte separator, as the two parts around it. *)
Fixpoint cut_last (sep : ascii) (s : string) : option (string * string) :=
  match s with
  | EmptyString => None
  | String c s' =>
      match cut_last sep s' with
      | Some (a, b) => Some (String c a, b)
      | None => if bool_decide (c = sep) then Some (EmptyString, s') else None
      end
  end.

Fixpoint str_contains (b : ascii) (s : string) : bool :=
  match s with EmptyString => false | String c s' => bool_decide (c = b) || str_contains b s' end.

Fixpoint str_count (b : ascii) (s : string) : Z :=
  match s with
  | EmptyString => 0
  | String c s' => (if bool_decide (c = b) then 1 else 0) + str_count b s'
  end.

(** [strings.HasSuffix(s, b)], with the string before it. *)
Fixpoint cut_last_byte (b : ascii) (s : string) : option string :=
  match s with
  | EmptyString => None
  | String c EmptyString => if bool_decide (c = b) then Some EmptyString else None
  | String c s' => String c <$> cut_last_byte b s'
  end.

(** The first occurrence of [p]: what precedes it and what starts with it. *)
Fixpoint find_sub (p s : string) : option (string * string) :=
  if has_prefix p s then Some (EmptyString, s)
  else match s with
       | EmptyString => None
       | String c s' => '(a, b) ← find_sub p s'; Some (String c a, b)
       end.

Definition one_of (cs : string) (c : ascii) : bool := str_contains c cs.

(** ** Percent encoding *)

Inductive encoding : Type :=
| encodePath | encodeHost | encodeZone | encodeUserPassword | encodeFragment.

#[export] Instance encoding_eq_dec : EqDecision encoding.
Proof. solve_decision. Defined.

Definition ishex (c : ascii) : bool := is_digit c || between 97 102 c || between 65 70 c.

Definition unhex (c : ascii) : Z :=
  if is_digit c then byte_val c - 48
  else if between 97 102 c then byte_val c - 87 else byte_val c - 55.

Definition dquote : ascii := byte_of 34.

(** The characters legal in a host as written: sub-delims, colon, brackets and
    the three that browsers let through. *)
Definition host_char (c : ascii) : bool := one_of "!$&'()*+,;=:[]<>" c || bool_decide (c = dquote).

Definition shouldEscape (c : ascii) (mode : encoding) : bool :=
  if is_alpha c || is_digit c then false
  else if (bool_decide (mode = encodeHost) || bool_decide (mode = encodeZone)) && host_char c
  then false
  else if one_of "-_.~" c then false
  else
    let reserved := one_of "$&+,/:;=?@" c in
    match mode with
    | encodePath => if reserved then bool_decide (c = "?"%char) else true
    | encodeUserPassword => if reserved then one_of "@/?:" c else true
    | encodeFragment => if reserved then false else negb (one_of "!()*" c)
    | encodeHost | encodeZone => true
    end.

(** Whether the escape [%ab] is allowed in this component. *)
Definition escape_allowed (a b : ascii) (mode : encoding) : bool :=
  let is25 := bool_decide (a = "2"%char) && bool_decide (b = "5"%char) in
  match mode with
  | encodeHost => negb ((unhex a <? 8) && negb is25)
  | encodeZone =>
      let v := Z.lor (Z.shiftl (unhex a) 4) (unhex b) in
      negb (negb is25 && negb (v =? 32) && shouldEscape (byte_of v) encodeHost)
  | _ => true
  end.

Definition raw_allowed (c : ascii) (mode : encoding) : bool :=
  match mode with
  | encodeHost | encodeZone => negb ((byte_val c <? 128) && shouldEscape c mode)
  | _ => true
  end.

(** Checks and decodes in one pass; the code checks in a first pass and decodes
    in a second. *)
Fixpoint unescape (s : string) (mode : encoding) : option string :=
  match s with
  | EmptyString => Some EmptyString
  | String c s' =>
      if bool_decide (c = "%"%char) then
        match s' with
        | String a (String b s'') =>
            if ishex a && ishex b && escape_allowed a b mode then
              r ← unescape s'' mode;
              Some (String (byte_of (Z.lor (Z.shiftl (unhex a) 4) (unhex b))) r)
            else None
        | _ => None
        end
      else if raw_allowed c mode then r ← unescape s' mode; Some (String c r)
      else None
  end.

Definition upper_hex (d : Z) : ascii := if d <? 10 then byte_of (48 + d) else byte_of (55 + d).

Fixpoint escape (s : string) (mode : encoding) : string :=
  match s with
  | EmptyString => EmptyString
  | String c s' =>
      if shouldEscape c mode then
        String "%" (String (upper_hex (Z.shiftr (byte_val c) 4))
          (String (upper_hex (Z.land (byte_val c) 15)) (escape s' mode)))
      else String c (escape s' mode)
  end.

(** ** The parts of a URL *)

Record Userinfo : Type := mkUserinfo { ui_username : string; ui_password : option string }.

Record URL : Type := mkURL {
  u_Scheme : string;
  u_Opaque : string;
  u_User : option Userinfo;
  u_Host : string;
  u_Path : string;
  u_RawPath : string;
  u_OmitHost : bool;
  u_ForceQuery : bool;
  u_RawQuery : string;
  u_Fragment : string;
  u_RawFragment : string
}.

Definition stringContainsCTLByte (s : string) : bool :=
  negb (str_forallb (fun c => negb ((byte_val c <? 32) || (byte_val c =? 127))) s).

(** [getScheme]: [None] is the error for a leading colon.  [first] tells the
    first byte from the others. *)
Fixpoint scheme_loop (first : bool) (s : string) : option (option (string * string)) :=
  match s with
  | EmptyString => Some None
  | String c s' =>
      let continue_ :=
        r ← scheme_loop false s';
        Some ('(a, b) ← r; Some (String c a, b)) in
      if is_alpha c then continue_
      else if is_digit c || one_of "+-." c then (if first then Some None else continue_)
      else if bool_decide (c = ":"%char) then (if first then None else Some (Some (EmptyString, s')))
      else Some None
  end.

Definition getScheme (rawURL : string) : option (string * string) :=
  match scheme_loop true rawURL with
  | None => None
  | Some None => Some (EmptyString, rawURL)
  | Some (Some (scheme, rest)) => Some (scheme, rest)
  end.

Definition validOptionalPort (port : string) : bool :=
  match port with
  | EmptyString => true
  | String c s => bool_decide (c = ":"%char) && str_forallb is_digit s
  end.

Definition validUserinfo (s : string) : bool :=
  str_forallb (fun c => is_alpha c || is_digit c || one_of "-._:~!$&'()*+,;=%@" c) s.

Definition parseHost (host : string) : option string :=
  if has_prefix "[" host then
    '(before, colonPort) ← cut_last "]" host;
    if negb (validOptionalPort colonPort) then None
    else match find_sub "%25" before with
         | Some (h1, zone) =>
             host1 ← unescape h1 encodeHost;
             host2 ← unescape zone encodeZone;
             host3 ← unescape (String "]" colonPort) encodeHost;
             Some (host1 +:+ host2 +:+ host3)%string
         | None => unescape host encodeHost
         end
  else
    match cut_last ":" host with
    | Some (_, port) =>
        if negb (validOptionalPort (String ":" port)) then None else unescape host encodeHost
    | None => unescape host encodeHost
    end.

Definition parseAuthority (authority : string) : option (option Userinfo * string) :=
  match cut_last "@" authority with
  | None => host ← parseHost authority; Some (None, host)
  | Some (userinfo, hostpart) =>
      host ← parseHost hostpart;
      if negb (validUserinfo userinfo) then None
      else match cut ":" userinfo with
           | (_, None) =>
               u ← unescape userinfo encodeUserPassword; Some (Some (mkUserinfo u None), host)
           | (username, Some password) =>
               u ← unescape username encodeUserPassword;
               p ← unescape password encodeUserPassword;
               Some (Some (mkUserinfo u (Some p)), host)
           end
  end.

(** [setPath] and [setFragment]: the decoded form, and the raw one when the
    default encoding does not give it back. *)
Definition set_encoded (p : string) (mode : encoding) : option (string * string) :=
  path ← unescape p mode;
  Some (path, if str_eqb p (escape path mode) then EmptyString else p).

(** [parse(rawURL, false)] *)
Definition parse_nofrag (rawURL : string) : option URL :=
  if stringContainsCTLByte rawURL then None
  else if str_eqb rawURL "*" then
    Some (mkURL EmptyString EmptyString None EmptyString "*" EmptyString false false EmptyString
            EmptyString EmptyString)
  else
    '(scheme, rest) ← getScheme rawURL;
    let scheme := str_map lower_byte scheme in
    let '(rest, force, query) :=
      match cut_last_byte "?" rest with
      | Some r => if str_count "?" rest =? 1 then (r, true, EmptyString)
                  else let '(a, b) := cut "?" rest in (a, false, default EmptyString b)
      | None => let '(a, b) := cut "?" rest in (a, false, default EmptyString b)
      end in
    let rooted := has_prefix "/" rest in
    if negb rooted && negb (str_is_empty scheme) then
      Some (mkURL scheme rest None EmptyString EmptyString EmptyString false force query
              EmptyString EmptyString)
    else if negb rooted && str_contains ":" (cut "/" rest).1 then None
    else
      let authority := (negb (str_is_empty scheme) || negb (has_prefix "///" rest))
                       && has_prefix "//" rest in
      '(user, host, rest, omit) ←
        match cut_prefix "//" rest with
        | Some body =>
            if authority then
              let '(auth, path) :=
                match cut "/" body with
                | (a, Some p) => (a, String "/" p)
                | (a, None) => (a, EmptyString)
                end in
              '(user, host) ← parseAuthority auth;
              Some (user, host, path, false)
            else Some (None, EmptyString, rest, negb (str_is_empty scheme) && rooted)
        | None => Some (None, EmptyString, rest, negb (str_is_empty scheme) && rooted)
        end;
      '(path, rawpath) ← set_encoded rest encodePath;
      Some (mkURL scheme EmptyString user host path rawpath omit force query EmptyString EmptyString).

Definition url_parse (rawURL : string) : option URL :=
  let '(u, frag) := cut "#" rawURL in
  url ← parse_nofrag u;
  let frag := default EmptyString frag in
  if str_is_empty frag then Some url
  else
    '(f, rf) ← set_encoded frag encodeFragment;
    Some (mkURL (u_Scheme url) (u_Opaque url) (u_User url) (u_Host url) (u_Path url) (u_RawPath url)
            (u_OmitHost url) (u_ForceQuery url) (u_RawQuery url) f rf).

(** ** Printing *)

Definition validEncoded (s : string) (mode : encoding) : bool :=
  str_forallb (fun c => one_of "!$&'()*+,;=:@[]%" c || negb (shouldEscape c mode)) s.

(** [EscapedPath] and [EscapedFragment] *)
Definition escaped (raw decoded : string) (mode : encoding) : string :=
  if negb (str_is_empty raw) && validEncoded raw mode
     && bool_decide (unescape raw mode = Some decoded)
  then raw
  else match mode with
       | encodePath => if str_eqb decoded "*" then "*" else escape decoded mode
       | _ => escape decoded mode
       end.

Definition userinfo_string (ui : Userinfo) : string :=
  match ui_password ui with
  | None => escape (ui_username ui) encodeUserPassword
  | Some p => escape (ui_username ui) encodeUserPassword
              +:+ String ":" (escape p encodeUserPassword)
  end%string.

(** The buffer of [URL.String] up to the path. *)
Definition authority_string (u : URL) : string :=
  let scheme := if str_is_empty (u_Scheme u) then EmptyString else (u_Scheme u +:+ ":")%string in
  if negb (str_is_empty (u_Scheme u)) || negb (str_is_empty (u_Host u)) || bool_decide (is_Some (u_User u))
  then
    if u_OmitHost u && str_is_empty (u_Host u) && bool_decide (u_User u = None) then scheme
    else
      (scheme
       +:+ (if negb (str_is_empty (u_Host u)) || negb (str_is_empty (u_Path u))
               || bool_decide (is_Some (u_User u)) then "//" else EmptyString)
       +:+ (match u_User u with Some ui => userinfo_string ui +:+ "@" | None => EmptyString end)
       +:+ (if str_is_empty (u_Host u) then EmptyString else escape (u_Host u) encodeHost))%string
  else scheme.

#[export] Instance Userinfo_eq_dec : EqDecision Userinfo.
Proof. solve_decision. Defined.

Definition url_string (u : URL) : string :=
  ((if negb (str_is_empty (u_Opaque u)) then
      (if str_is_empty (u_Scheme u) then EmptyString else u_Scheme u +:+ ":") +:+ u_Opaque u
    else
      let auth := authority_string u in
      let path := escaped (u_RawPath u) (u_Path u) encodePath in
      let auth := if negb (str_is_empty path) && negb (has_prefix "/" path)
                     && negb (str_is_empty (u_Host u)) then auth +:+ "/" else auth in
      let auth := if str_is_empty auth && str_contains ":" (cut "/" path).1 then "./" else auth in
      auth +:+ path)
   +:+ (if u_ForceQuery u || negb (str_is_empty (u_RawQuery u)) then String "?" (u_RawQuery u)
        else EmptyString)
   +:+ (if str_is_empty (u_Fragment u) then EmptyString
        else String "#" (escaped (u_RawFragment u) (u_Fragment u) encodeFragment)))%string.

Definition roundtrip (s : string) : option string := url_string <$> url_parse s.

Example parse_wss : (fun u => (u_Scheme u, u_Host u, u_Path u, u_RawQuery u))
    <$> url_parse "WSS://user:pw@feed.example.com:9443/ws/v1?token=x#frag"
  = Some ("wss", "feed.example.com:9443", "/ws/v1", "token=x")%string.
Proof. vm_compute. reflexivity. Qed.
Example parse_no_host : u_Host <$> url_parse "http:///path" = Some EmptyString.
Proof. vm_compute. reflexivity. Qed.
Example parse_opaque : u_Opaque <$> url_parse "mailto:a@b" = Some "a@b"%string.
Proof. vm_compute. reflexivity. Qed.
Example parse_bad_port : url_parse "http://h:80a/" = None.
Proof. vm_compute. reflexivity. Qed.
Example parse_bad_escape : url_parse "http://h/%zz" = None.
Proof. vm_compute. reflexivity. Qed.
Example parse_colon_segment : url_parse "1a:b/c" = None.
Proof. vm_compute. reflexivity. Qed.
Example string_roundtrips :
  roundtrip <$> ["http://a.b/c%2Fd?x=%zz"; "//h/p"; "https://[fe80::1%25en0]:8080/"; "a b"; "http://h"]
  = [Some "http://a.b/c%2Fd?x=%zz"; Some "//h/p"; Some "https://[fe80::1%25en0]:8080/"; Some "a%20b";
     Some "http://h"]%string.
Proof. vm_compute. reflexivity. Qed.
