(* ===== verification/GoMux.v ===== *)
(** * net/http: ServeMux

    The patterns of [ServeMux] as Go 1.22 reads them, the conflicts that make a
    registration panic, and which pattern serves a request.  The routing tree is kept
    as the list of its patterns: a node is what remains of the patterns that go
    through it, so that looking a child up is keeping the patterns whose next segment
    has its key. *)

From Stdlib Require Import ZArith Lia Ascii.
From stdpp Require Import base tactics option strings list.
From S2P Require Import Prelude GoLib GoUrl.

#[local] Open Scope Z_scope.

(** ** Paths *)

(** [path.Clean] of a rooted path, on its segments. *)
Fixpoint clean_segments (acc segs : list string) : list string :=
  match segs with
  | [] => reverse acc
  | s :: segs' =>
      if str_is_empty s || str_eqb s "." then clean_segments acc segs'
      else if str_eqb s ".." then clean_segments (tail acc) segs'
      else clean_segments (s :: acc) segs'
  end.

Definition ends_in_slash (p : string) : bool := bool_decide (is_Some (cut_last_byte "/" p)).

Definition cleanPath (p : string) : string :=
  let p := if has_prefix "/" p then p else String "/" p in
  let np := String "/" (join "/" (clean_segments [] (split "/" p))) in
  if ends_in_slash p && negb (str_eqb np "/") then (np +:+ "/")%string else np.

(** A segment that does not decode is matched as it is. *)
Definition path_unescape (s : string) : string := default s (unescape s encodePath).

(** The segments of a rooted path, escaped; an empty last one is a trailing slash. *)
Definition raw_segments (path : string) : list string :=
  if str_is_empty path then [] else tail (split "/" path).

(** [firstSegment]: a trailing slash is a segment of its own. *)
Definition first_segment (raw : string) (rest : list string) : string :=
  if str_is_empty raw && match rest with [] => true | _ => false end then "/" else path_unescape raw.

(** ** Patterns *)

(** [{$}] is a literal slash. *)
Inductive segment : Type :=
| SLit (s : string)
| SWild (name : string)
| SMulti (name : string).

Record pattern : Type := mkPattern { pt_method : string; pt_host : string; pt_segments : list segment }.

Section Parse.
(** Whether a name with letters outside ASCII is an identifier. *)
Variable wide_name : string -> bool.

Definition letter (c : ascii) : bool := is_alpha c || bool_decide (c = "_"%char).

(** [isValidWildcardName]. *)
Definition valid_name (s : string) : bool :=
  if str_forallb (fun c => byte_val c <? 128) s then
    match s with
    | EmptyString => false
    | String c s' => letter c && str_forallb (fun c => letter c || is_digit c) s'
    end
  else wide_name s.

Definition has_brace (s : string) : bool := negb (str_forallb (fun c => negb (bool_decide (c = "{"%char))) s).

(** [strings.CutSuffix]. *)
Definition cut_suffix (suffix s : string) : string * bool :=
  let n := (String.length s - String.length suffix)%nat in
  if (String.length suffix <=? String.length s)%nat && str_eqb (String.substring n (String.length suffix) s) suffix
  then (String.substring 0 n s, true) else (s, false).

Fixpoint parse_segments (seen parts : list string) : option (list segment) :=
  match parts with
  | [] => Some []
  | part :: rest =>
      let last := match rest with [] => true | _ => false end in
      if last && str_is_empty part then Some [SMulti EmptyString]
      else if negb (has_brace part) then cons (SLit (path_unescape part)) <$> parse_segments seen rest
      else
        inner ← cut_prefix "{" part;
        name ← cut_last_byte "}" inner;
        if str_eqb name "$" then (if last then Some [SLit "/"] else None)
        else
          let '(name, multi) := cut_suffix "..." name in
          if (multi && negb last) || str_is_empty name || negb (valid_name name) || bool_decide (name ∈ seen) then None
          else cons (if multi then SMulti name else SWild name) <$> parse_segments (name :: seen) rest
  end.

(** [httpguts.IsTokenRune]. *)
Definition token_char (c : ascii) : bool := is_alpha c || is_digit c || one_of "!#$%&'*+-.^_`|~" c.

Definition blank (c : ascii) : bool := bool_decide (c = " "%char) || bool_decide (byte_val c = 9).

(** What is before the first blank, and what follows it. *)
Fixpoint cut_blank (s : string) : string * option string :=
  match s with
  | EmptyString => (EmptyString, None)
  | String c s' =>
      if blank c then (EmptyString, Some s') else let '(a, b) := cut_blank s' in (String c a, b)
  end.

Fixpoint skip_blanks (s : string) : string :=
  match s with
  | String c s' => if blank c then skip_blanks s' else s
  | EmptyString => EmptyString
  end.

(** [parsePattern]; the reason of an error is not kept. *)
Definition parsePattern (s : string) : option pattern :=
  let '(method, rest) := match cut_blank s with
                         | (m, Some rest) => (m, skip_blanks rest)
                         | (_, None) => (EmptyString, s)
                         end in
  if negb (str_forallb token_char method) then None
  else
    match cut "/" rest with
    | (host, Some path) =>
        if has_brace host then None
        else if negb (str_is_empty method) && negb (str_eqb method "CONNECT")
                && negb (str_eqb (String "/" path) (cleanPath (String "/" path))) then None
        else mkPattern method host <$> parse_segments [] (split "/" path)
    | (_, None) => None
    end.
End Parse.

Definition no_wide (_ : string) : bool := false.

Example patterns_ok :
  parsePattern no_wide <$> ["GET /v1/streams/{id}"; "/webhook"; "/"; "/a/{$}"; "/a/{rest...}"; "h/%61/b/"; "/a//b"]%string
  = [Some (mkPattern "GET" "" [SLit "v1"; SLit "streams"; SWild "id"]); Some (mkPattern "" "" [SLit "webhook"]);
     Some (mkPattern "" "" [SMulti ""]); Some (mkPattern "" "" [SLit "a"; SLit "/"]);
     Some (mkPattern "" "" [SLit "a"; SMulti "rest"]); Some (mkPattern "" "h" [SLit "a"; SLit "b"; SMulti ""]);
     Some (mkPattern "" "" [SLit "a"; SLit ""; SLit "b"])]%string /\
  Forall (fun s => parsePattern no_wide s = None)
    ["/{"; "/a{b}"; "/{}"; "/{a}/{a}"; "/{a...}/b"; "/a b"; "GET /a/../b"; ""; "x"; "{h}/"; "/{$}/a"]%string.
Proof. split; [vm_compute; reflexivity|]. repeat constructor; vm_compute; reflexivity. Qed.

(** ** Conflicts *)

Inductive relationship : Type := Equivalent | MoreGeneral | MoreSpecific | Disjoint | Overlaps.

#[export] Instance relationship_eq_dec : EqDecision relationship.
Proof. solve_decision. Defined.

Definition combineRelationships (r1 r2 : relationship) : relationship :=
  match r1, r2 with
  | Equivalent, _ => r2
  | Disjoint, _ => Disjoint
  | Overlaps, Disjoint => Disjoint
  | Overlaps, _ => Overlaps
  | _, Equivalent => r1
  | MoreGeneral, MoreSpecific | MoreSpecific, MoreGeneral => Overlaps
  | _, _ => r2
  end.

Definition compareMethods (m1 m2 : string) : relationship :=
  if str_eqb m1 m2 then Equivalent
  else if str_is_empty m1 then MoreGeneral
  else if str_is_empty m2 then MoreSpecific
  else if str_eqb m1 "GET" && str_eqb m2 "HEAD" then MoreGeneral
  else if str_eqb m2 "GET" && str_eqb m1 "HEAD" then MoreSpecific
  else Disjoint.

Definition compareSegments (s1 s2 : segment) : relationship :=
  match s1, s2 with
  | SMulti _, SMulti _ => Equivalent
  | SMulti _, _ => MoreGeneral
  | _, SMulti _ => MoreSpecific
  | SWild _, SWild _ => Equivalent
  | SWild _, SLit s => if str_eqb s "/" then Disjoint else MoreGeneral
  | SLit s, SWild _ => if str_eqb s "/" then Disjoint else MoreSpecific
  | SLit a, SLit b => if str_eqb a b then Equivalent else Disjoint
  end.

Definition last_multi (segs : list segment) : bool :=
  match last segs with Some (SMulti _) => true | _ => false end.

(** The loop of [comparePaths], and what follows it. *)
Fixpoint compare_segments (rel : relationship) (segs1 segs2 : list segment) : relationship :=
  match segs1, segs2 with
  | [], [] => rel
  | s1 :: segs1', s2 :: segs2' =>
      match combineRelationships rel (compareSegments s1 s2) with
      | Disjoint => Disjoint
      | rel =>
          match segs1', segs2' with
          | [], _ :: _ => match s1 with SMulti _ => combineRelationships rel MoreGeneral | _ => Disjoint end
          | _ :: _, [] => match s2 with SMulti _ => combineRelationships rel MoreSpecific | _ => Disjoint end
          | _, _ => compare_segments rel segs1' segs2'
          end
      end
  | _, _ => Disjoint
  end.

Definition comparePaths (p1 p2 : list segment) : relationship :=
  if negb (bool_decide (length p1 = length p2)) && negb (last_multi p1) && negb (last_multi p2) then Disjoint
  else compare_segments Equivalent p1 p2.

Definition conflictsWith (p1 p2 : pattern) : bool :=
  str_eqb (pt_host p1) (pt_host p2) &&
  match compareMethods (pt_method p1) (pt_method p2) with
  | Disjoint => false
  | mrel => match combineRelationships mrel (comparePaths (pt_segments p1) (pt_segments p2)) with
            | Equivalent | Overlaps => true
            | _ => false
            end
  end.

(** ** Serving *)

Section Mux.
Context {H : Type}.

(** The patterns that were registered, with their handlers. *)
Definition ServeMux : Type := list (pattern * H).

(** [HandleFunc]; [None] is the panic of a pattern that does not parse or conflicts
    with one that is there. *)
Definition handle (wide_name : string -> bool) (s : string) (h : H) (mux : ServeMux) : option ServeMux :=
  p ← parsePattern wide_name s;
  if existsb (fun ph => conflictsWith p ph.1) mux then None else Some (mux ++ [(p, h)]).

(** A node of the tree: for each pattern through it, the segments that are left. *)
Definition node : Type := list (list segment * (pattern * H)).

(** The key a segment is kept under in its parent. *)
Definition seg_key (s : segment) : option string :=
  match s with SLit s => Some s | SWild _ => Some EmptyString | SMulti _ => None end.

Definition findChild (key : string) (n : node) : node :=
  omap (fun sp => match sp.1 with
                  | s :: segs => if bool_decide (seg_key s = Some key) then Some (segs, sp.2) else None
                  | [] => None
                  end) n.

Definition leaf (n : node) : option (pattern * H) :=
  snd <$> head (filter (fun sp => sp.1 = []) n).

Definition is_multi (segs : list segment) : bool :=
  match segs with [SMulti _] => true | _ => false end.

Definition multiChild (n : node) : option (pattern * H) :=
  snd <$> head (filter (fun sp => is_multi sp.1 = true) n).

(** The first of two matches that there is. *)
Definition or_else {A} (a b : option A) : option A := match a with Some _ => a | None => b end.

(** [matchPath]: the pattern, and what its wildcards matched. *)
Fixpoint matchPath (raws : list string) (n : node) (matches : list string)
  : option (pattern * H * list string) :=
  match raws with
  | [] => (fun ph => (ph, matches)) <$> leaf n
  | raw :: rest =>
      let seg := first_segment raw rest in
      or_else (matchPath rest (findChild seg n) matches)
        (or_else (if str_eqb seg "/" then None else matchPath rest (findChild EmptyString n) (matches ++ [seg]))
           ((fun ph => (ph, match last (pt_segments ph.1) with
                            | Some (SMulti EmptyString) => matches
                            | _ => matches ++ [path_unescape (join "/" raws)]
                            end)) <$> multiChild n))
  end.

(** The root of the patterns for a host and a method. *)
Definition root (host method : string) (mux : ServeMux) : node :=
  omap (fun ph => if str_eqb (pt_host ph.1) host && str_eqb (pt_method ph.1) method
                  then Some (pt_segments ph.1, ph) else None) mux.

Definition match_method (host method path : string) (mux : ServeMux) : option (pattern * H * list string) :=
  let raws := raw_segments path in
  or_else (matchPath raws (root host method mux) [])
    (or_else (if str_eqb method "HEAD" then matchPath raws (root host "GET" mux) [] else None)
       (matchPath raws (root host EmptyString mux) [])).

(** [routingNode.match]: patterns with the host first. *)
Definition mux_match (host method path : string) (mux : ServeMux) : option (pattern * H * list string) :=
  or_else (if str_is_empty host then None else match_method host method path mux)
    (match_method EmptyString method path mux).

Definition exactMatch (found : option (pattern * H * list string)) (path : string) : bool :=
  match found with
  | None => false
  | Some (p, _, _) =>
      if negb (last_multi (pt_segments p)) then true
      else if negb (str_is_empty path) && negb (ends_in_slash path) then false
      else Z.of_nat (length (pt_segments p)) =? str_count "/" path
  end.

(** Whether the path is that of a tree, written without its slash. *)
Definition redirects_to_tree (host method path : string) (mux : ServeMux) : bool :=
  negb (exactMatch (mux_match host method path mux) path) && negb (ends_in_slash path) &&
  exactMatch (mux_match host method (path +:+ "/")%string mux) (path +:+ "/")%string.

(** The patterns of a method that match a path, for the answer 405. *)
Definition matches_any_method (host path : string) (mux : ServeMux) : bool :=
  existsb (fun ph => negb (str_is_empty (pt_method ph.1)) &&
    existsb (fun h => is_some (matchPath (raw_segments path) (root h (pt_method ph.1) mux) []))
      ((if str_is_empty host then [] else [host]) ++ [EmptyString])) mux.

Inductive mux_answer : Type :=
| MRedirect
| MNotFound
| MMethodNotAllowed
| MServe (p : pattern) (h : H) (matches : list string).

(** [findHandler], for a request in origin form: [path] is the escaped path of its
    URL. *)
Definition findHandler (host method path : string) (mux : ServeMux) : mux_answer :=
  let clean := if str_eqb method "CONNECT" then path else cleanPath path in
  if redirects_to_tree host method clean mux then MRedirect
  else if negb (str_eqb clean path) then MRedirect
  else match mux_match host method clean mux with
       | Some (p, h, matches) => MServe p h matches
       | None =>
           if matches_any_method host clean mux
              || (negb (ends_in_slash clean) && matches_any_method host (clean +:+ "/")%string mux)
           then MMethodNotAllowed else MNotFound
       end.
End Mux.

Arguments ServeMux : clear implicits.
Arguments node : clear implicits.
Arguments mux_answer : clear implicits.

(** [Request.PathValue]: the match of the wildcard with that name. *)
Definition wild_names (segs : list segment) : list string :=
  omap (fun s => match s with
                 | SWild n => Some n
                 | SMulti n => if str_is_empty n then None else Some n
                 | SLit _ => None
                 end) segs.

Definition PathValue (p : pattern) (matches : list string) (name : string) : string :=
  default EmptyString
    (i ← fst <$> list_find (fun n => n = name) (wild_names (pt_segments p)); matches !! i).

(** [HandleFunc] of several patterns in turn. *)
Definition handle_all {H} (wide_name : string -> bool) (routes : list (string * H)) : option (ServeMux H) :=
  foldl (fun mux sh => m ← mux; handle wide_name sh.1 sh.2 m) (Some []) routes.

(** ** What a mux serves *)

(** Whether a segment of a pattern takes a segment of a path: a literal takes itself,
    a wildcard anything but a trailing slash. *)
Definition seg_takes (seg : string) (s : segment) : bool :=
  match seg_key s with
  | Some key => str_eqb key seg || (str_is_empty key && negb (str_eqb seg "/"))
  | None => false
  end.

Fixpoint takes (raws : list string) (segs : list segment) : bool :=
  match raws, segs with
  | [], [] => true
  | raw :: rest, s :: segs' =>
      (seg_takes (first_segment raw rest) s && takes rest segs') || is_multi segs
  | _, _ => false
  end.

Section Matching.
Context {H : Type}.
Implicit Types (n : node H) (mux : ServeMux H).

Lemma head_filter_some {A} (P : A -> Prop) `{!forall x, Decision (P x)} l x :
  head (filter P l) = Some x -> x ∈ l /\ P x.
Proof.
  intros Hh. assert (x ∈ filter P l) as Hx by (destruct (filter P l); [done|]; injection Hh as ->; by left).
  apply list_elem_of_filter in Hx. tauto.
Qed.

Lemma head_filter_is {A} (P : A -> Prop) `{!forall x, Decision (P x)} l x :
  x ∈ l -> P x -> is_Some (head (filter P l)).
Proof.
  intros Hx HP. assert (x ∈ filter P l) as Hf by (by apply list_elem_of_filter).
  destruct (filter P l); [by apply elem_of_nil in Hf|by eexists].
Qed.

Lemma findChild_in key n segs ph :
  (segs, ph) ∈ findChild key n <-> exists s, seg_key s = Some key /\ (s :: segs, ph) ∈ n.
Proof.
  unfold findChild. rewrite list_elem_of_omap. split.
  - intros ([ss ph'] & Hin & Hs). simpl in Hs. destruct ss as [|s ss]; [done|]. case_bool_decide; [|done].
    injection Hs as <- <-. by exists s.
  - intros (s & Hk & Hin). exists (s :: segs, ph). split; [done|]. simpl. by rewrite bool_decide_true.
Qed.

Lemma is_multi_takes raws segs : is_multi segs = true -> raws <> [] -> takes raws segs = true.
Proof. destruct segs as [|s segs], raws as [|raw rest]; try done. intros Hm _. cbn [takes]. by rewrite Hm, orb_true_r. Qed.

Lemma matchPath_sound raws : forall n ms ph ms', matchPath raws n ms = Some (ph, ms') ->
  exists segs, (segs, ph) ∈ n /\ takes raws segs = true.
Proof.
  induction raws as [|raw rest IH]; intros n ms ph ms' Hm; cbn [matchPath] in Hm.
  - apply fmap_Some in Hm as (ph1 & Hl & [= <- <-]). unfold leaf in Hl.
    apply fmap_Some in Hl as ([segs ph1] & Hh & ->). apply head_filter_some in Hh as [Hin Hs]. simpl in *. subst.
    by exists [].
  - set (seg := first_segment raw rest) in *.
    destruct (matchPath rest (findChild seg n) ms) as [[ph1 ms1]|] eqn:E1.
    { injection Hm as -> ->. apply IH in E1 as (segs & Hin & Ht). apply findChild_in in Hin as (s & Hk & Hin).
      exists (s :: segs). split; [done|]. cbn [takes]. fold seg. unfold seg_takes. rewrite Hk, Ht.
      unfold str_eqb. by rewrite bool_decide_true. }
    destruct (if str_eqb seg "/" then None else _) as [[ph1 ms1]|] eqn:E2.
    { injection Hm as -> ->. destruct (str_eqb seg "/") eqn:Es; [done|].
      apply IH in E2 as (segs & Hin & Ht). apply findChild_in in Hin as (s & Hk & Hin).
      exists (s :: segs). split; [done|]. cbn [takes]. fold seg. unfold seg_takes. rewrite Hk, Ht, Es.
      by rewrite orb_true_r. }
    cbn [or_else] in Hm. apply fmap_Some in Hm as (ph1 & Hl & [= <- _]). unfold multiChild in Hl.
    apply fmap_Some in Hl as ([segs ph1] & Hh & ->). apply head_filter_some in Hh as [Hin Hs]. simpl in *.
    exists segs. split; [done|]. by apply (is_multi_takes (raw :: rest)).
Qed.

Lemma or_else_some {A} (a b : option A) : is_Some a \/ is_Some b -> is_Some (or_else a b).
Proof. destruct a; [by eexists|]. intros [[? [=]]|Hb]; done. Qed.

Lemma matchPath_complete raws : forall n ms segs ph, (segs, ph) ∈ n -> takes raws segs = true ->
  is_Some (matchPath raws n ms).
Proof.
  induction raws as [|raw rest IH]; intros n ms segs ph Hin Ht; cbn [matchPath].
  - destruct segs; [|done]. apply fmap_is_Some. unfold leaf. apply fmap_is_Some.
    by apply (head_filter_is _ _ ([], ph)).
  - set (seg := first_segment raw rest). destruct segs as [|s segs]; [done|]. cbn [takes] in Ht. fold seg in Ht.
    apply orb_true_iff in Ht as [Ht|Hm].
    + apply andb_true_iff in Ht as [Hs Ht]. unfold seg_takes in Hs. destruct (seg_key s) as [key|] eqn:Hk; [|done].
      apply orb_true_iff in Hs as [Hs|Hs].
      * apply bool_decide_eq_true in Hs as ->. apply or_else_some. left. eapply IH; [|exact Ht].
        apply findChild_in. by exists s.
      * apply andb_true_iff in Hs as [He Hs]. apply negb_true_iff in Hs. rewrite Hs.
        apply or_else_some. right. apply or_else_some. left. eapply IH; [|exact Ht].
        apply findChild_in. exists s. split; [|done]. destruct key; done.
    + apply or_else_some. right. apply or_else_some. right. apply fmap_is_Some. unfold multiChild. apply fmap_is_Some.
      by apply (head_filter_is _ _ (s :: segs, ph)).
Qed.

Lemma root_in host method mux segs ph :
  (segs, ph) ∈ root host method mux <->
  ph ∈ mux /\ pt_host ph.1 = host /\ pt_method ph.1 = method /\ segs = pt_segments ph.1.
Proof.
  unfold root. rewrite list_elem_of_omap. split.
  - intros (ph1 & Hin & Hs). destruct (str_eqb _ _ && _) eqn:E; [|done]. injection Hs as <- <-.
    apply andb_true_iff in E as [E1 E2]. apply bool_decide_eq_true in E1, E2. done.
  - intros (Hin & <- & <- & ->). exists ph. split; [done|]. unfold str_eqb. by rewrite !bool_decide_true.
Qed.

(** The methods a pattern serves. *)
Definition method_serves (pattern method : string) : bool :=
  str_is_empty pattern || str_eqb pattern method || (str_eqb pattern "GET" && str_eqb method "HEAD").

Lemma match_method_sound host method path mux ph ms : match_method host method path mux = Some (ph, ms) ->
  ph ∈ mux /\ pt_host ph.1 = host /\ method_serves (pt_method ph.1) method = true /\
  takes (raw_segments path) (pt_segments ph.1) = true.
Proof.
  assert (Hgo : forall m, method_serves m method = true -> forall ph ms,
    matchPath (raw_segments path) (root host m mux) [] = Some (ph, ms) ->
    ph ∈ mux /\ pt_host ph.1 = host /\ method_serves (pt_method ph.1) method = true /\
    takes (raw_segments path) (pt_segments ph.1) = true).
  { clear ph ms. intros m Hm ph ms Hp. apply matchPath_sound in Hp as (segs & Hin & Ht).
    apply root_in in Hin as (Hin & Hh & Hme & ->). rewrite Hme. done. }
  unfold match_method.
  destruct (matchPath _ (root host method mux) _) as [[ph1 ms1]|] eqn:E1.
  { intros [= -> ->]. eapply Hgo; [|exact E1]. unfold method_serves, str_eqb. by rewrite (bool_decide_true (method = method)), orb_true_r. }
  destruct (if str_eqb method "HEAD" then _ else None) as [[ph1 ms1]|] eqn:E2.
  { destruct (str_eqb method "HEAD") eqn:Eh; [|done]. intros [= -> ->]. eapply Hgo; [|exact E2].
    unfold method_serves. rewrite Eh. by rewrite orb_true_r. }
  intros E3. by eapply Hgo; [|exact E3].
Qed.

Lemma match_method_complete host method path mux ph : ph ∈ mux -> pt_host ph.1 = host ->
  method_serves (pt_method ph.1) method = true -> takes (raw_segments path) (pt_segments ph.1) = true ->
  is_Some (match_method host method path mux).
Proof.
  intros Hin Hh Hm Ht. unfold match_method.
  assert (Hgo : forall m, pt_method ph.1 = m -> is_Some (matchPath (raw_segments path) (root host m mux) [])).
  { intros m Hpm. eapply matchPath_complete; [|exact Ht]. by apply root_in. }
  unfold method_serves in Hm. rewrite !orb_true_iff, andb_true_iff in Hm. destruct Hm as [[Hm|Hm]|[Hm1 Hm2]].
  - apply or_else_some. right. apply or_else_some. right. apply Hgo. by destruct (pt_method ph.1).
  - apply or_else_some. left. apply Hgo. by apply bool_decide_eq_true in Hm.
  - apply or_else_some. right. apply or_else_some. left. rewrite Hm2. apply Hgo. by apply bool_decide_eq_true in Hm1.
Qed.

Lemma mux_match_sound host method path mux ph ms : mux_match host method path mux = Some (ph, ms) ->
  ph ∈ mux /\ (pt_host ph.1 = EmptyString \/ pt_host ph.1 = host) /\
  method_serves (pt_method ph.1) method = true /\ takes (raw_segments path) (pt_segments ph.1) = true.
Proof.
  unfold mux_match. destruct (if str_is_empty host then None else _) as [[ph1 ms1]|] eqn:E1.
  - destruct (str_is_empty host); [done|]. intros [= -> ->]. apply match_method_sound in E1. tauto.
  - cbn [or_else]. intros E2. apply match_method_sound in E2. tauto.
Qed.

(** A request that is served is served by a pattern of its host and method that
    takes its path, which was clean. *)
Lemma findHandler_sound host method path mux p h ms : findHandler host method path mux = MServe p h ms ->
  (p, h) ∈ mux /\ method_serves (pt_method p) method = true /\ takes (raw_segments path) (pt_segments p) = true /\
  (method <> "CONNECT"%string -> cleanPath path = path).
Proof.
  unfold findHandler. set (clean := if str_eqb method "CONNECT" then path else cleanPath path).
  destruct (redirects_to_tree _ _ _ _); [done|]. destruct (negb (str_eqb clean path)) eqn:Ec; [done|].
  apply negb_false_iff, bool_decide_eq_true in Ec.
  destruct (mux_match host method clean mux) as [[[p1 h1] ms1]|] eqn:E; [|by destruct (_ || _)].
  intros [= -> -> ->]. rewrite Ec in E. apply mux_match_sound in E as (Hin & _ & Hm & Ht). split_and!; try done.
  intros Hne. unfold clean in Ec. unfold str_eqb in Ec. by rewrite bool_decide_false in Ec.
Qed.

(** A host matters only to patterns that name one. *)
Lemma root_other_host host method mux : Forall (fun ph => pt_host ph.1 = EmptyString) mux -> host <> EmptyString ->
  root host method mux = [].
Proof.
  intros Hf Hne. destruct (root host method mux) as [|[segs ph] l] eqn:E; [done|]. exfalso.
  assert (Hin : (segs, ph) ∈ root host method mux) by (rewrite E; by left). apply root_in in Hin as (Hin & Hh & _).
  rewrite Forall_forall in Hf. specialize (Hf _ Hin). congruence.
Qed.

Lemma matchPath_nil raws : forall ms, matchPath raws ([] : node H) ms = None.
Proof. induction raws as [|raw rest IH]; intros ms; [done|]. cbn [matchPath]. by rewrite !IH; destruct (str_eqb _ _). Qed.

Lemma mux_match_host host method path mux : Forall (fun ph => pt_host ph.1 = EmptyString) mux ->
  mux_match host method path mux = mux_match EmptyString method path mux.
Proof.
  intros Hf. unfold mux_match. cbn [str_is_empty or_else]. destruct (decide (host = EmptyString)) as [->|Hne]; [done|].
  unfold match_method at 1. rewrite !root_other_host, !matchPath_nil by done.
  destruct host; [done|]. cbn [str_is_empty]. by destruct (str_eqb method "HEAD").
Qed.

Lemma existsb_ext_all {A} (f g : A -> bool) l : (forall x, f x = g x) -> existsb f l = existsb g l.
Proof. intros Hfg. induction l as [|x l IH]; [done|]. cbn [existsb]. by rewrite Hfg, IH. Qed.

Lemma matches_any_host host path mux : Forall (fun ph => pt_host ph.1 = EmptyString) mux ->
  matches_any_method host path mux = matches_any_method EmptyString path mux.
Proof.
  intros Hf. unfold matches_any_method. destruct (decide (host = EmptyString)) as [->|Hne]; [done|].
  apply existsb_ext_all. intros ph. f_equal. destruct host as [|c host]; [done|]. cbn [str_is_empty app existsb].
  by rewrite root_other_host, matchPath_nil by done.
Qed.

Lemma findHandler_host host method path mux : Forall (fun ph => pt_host ph.1 = EmptyString) mux ->
  findHandler host method path mux = findHandler EmptyString method path mux.
Proof.
  intros Hf. unfold findHandler, redirects_to_tree. by rewrite !(mux_match_host host), !(matches_any_host host) by done.
Qed.

(** ** A mux of one pattern *)

Lemma takes_length raws : forall segs, takes raws segs = true -> (length segs <= length raws)%nat.
Proof.
  induction raws as [|raw rest IH]; intros [|s segs] Ht; try done; cbn [length].
  cbn [takes] in Ht. apply orb_true_iff in Ht as [Ht|Hm].
  - apply andb_true_iff in Ht as [_ Ht]. apply IH in Ht. lia.
  - destruct s, segs; try done. cbn [length]. lia.
Qed.

Lemma str_count_app b s t : str_count b (s +:+ t)%string = str_count b s + str_count b t.
Proof. induction s as [|c s IH]; [done|]. rewrite str_app_cons. cbn [str_count]. rewrite IH. lia. Qed.

Lemma str_count_nonneg b s : 0 <= str_count b s.
Proof. induction s as [|c s IH]; [done|]. cbn [str_count]. case_bool_decide; lia. Qed.

Lemma split_count sep s : length (split sep s) = S (Z.to_nat (str_count sep s)).
Proof.
  induction s as [|c s IH]; [done|]. simpl. pose proof (str_count_nonneg sep s). case_bool_decide; simpl.
  - rewrite IH. f_equal. lia.
  - destruct (split sep s) as [|w ws] eqn:E; [by apply split_nonempty in E|]. simpl in *. lia.
Qed.

Lemma raw_segments_length path : Z.of_nat (length (raw_segments path)) = str_count "/" path.
Proof.
  unfold raw_segments. destruct path as [|c path]; [done|]. cbn [str_is_empty].
  pose proof (split_count "/" (String c path)) as Hs. pose proof (str_count_nonneg "/" (String c path)).
  destruct (split "/" (String c path)) as [|w ws]; simpl in *; lia.
Qed.

Definition served (a : mux_answer H) : bool := match a with MServe _ _ _ => true | _ => false end.

Section Single.
Context (p : pattern) (h : H) (Hhost : pt_host p = EmptyString) (Hmethod : pt_method p = EmptyString).

Lemma mux_match_single host method path : takes (raw_segments path) (pt_segments p) = true ->
  exists ms, mux_match host method path [(p, h)] = Some (p, h, ms).
Proof.
  intros Ht. assert (is_Some (mux_match host method path [(p, h)])) as [[[p1 h1] ms] Hm].
  { unfold mux_match. apply or_else_some. right. apply (match_method_complete _ _ _ _ (p, h)); [by left|done| |done].
    cbn [fst]. unfold method_serves. by rewrite Hmethod. }
  pose proof (mux_match_sound _ _ _ _ _ _ Hm) as (Hin & _). apply list_elem_of_singleton in Hin as [= -> ->].
  by exists ms.
Qed.

Lemma redirects_single host method path : takes (raw_segments path) (pt_segments p) = true ->
  redirects_to_tree host method path [(p, h)] = false.
Proof.
  intros Ht. unfold redirects_to_tree. destruct (mux_match_single host method path Ht) as [ms ->]. cbn [exactMatch].
  destruct (last_multi (pt_segments p)) eqn:El; [|done]. cbn [negb].
  destruct (ends_in_slash path) eqn:Es; [by rewrite andb_false_r|]. apply andb_false_iff. right.
  destruct (mux_match host method (path +:+ "/")%string [(p, h)]) as [[[p2 h2] ms2]|] eqn:E2; [|done].
  apply mux_match_sound in E2 as (Hin & _). apply list_elem_of_singleton in Hin as [= -> ->].
  cbn [exactMatch]. rewrite El. cbn [negb]. case_match; [done|].
  apply takes_length in Ht. pose proof (raw_segments_length path) as Hr.
  rewrite str_count_app. change (str_count "/" "/") with 1. lia.
Qed.

(** A mux of one pattern, for any host and method, serves the clean paths that the
    pattern takes and no other. *)
Lemma findHandler_single host method path : method <> "CONNECT"%string ->
  served (findHandler host method path [(p, h)])
  = bool_decide (cleanPath path = path) && takes (raw_segments path) (pt_segments p).
Proof.
  intros Hne. destruct (bool_decide (cleanPath path = path) && takes (raw_segments path) (pt_segments p)) eqn:E.
  - apply andb_true_iff in E as [Hc Ht]. apply bool_decide_eq_true in Hc. unfold findHandler.
    assert (str_eqb method "CONNECT" = false) as -> by (by apply bool_decide_eq_false).
    rewrite Hc, redirects_single by done. unfold str_eqb. rewrite bool_decide_true by done. cbn [negb].
    by destruct (mux_match_single host method path Ht) as [ms ->].
  - apply not_true_iff_false. intros Hs. apply not_true_iff_false in E. destruct E.
    destruct (findHandler host method path [(p, h)]) as [| | |p1 h1 ms] eqn:Ef; try done.
    apply findHandler_sound in Ef as (Hin & _ & Ht & Hc). apply list_elem_of_singleton in Hin as [= -> ->].
    by rewrite Ht, bool_decide_true by auto.
Qed.
End Single.
End Matching.

(** ** Patterns that are paths *)

Section Paths.
Variable wide_name : string -> bool.

(** A pattern that starts with a slash has no method and no host. *)
Lemma parse_rooted path p : has_prefix "/" path = true -> parsePattern wide_name path = Some p ->
  pt_method p = EmptyString /\ pt_host p = EmptyString.
Proof.
  destruct path as [|c path]; [done|]. unfold has_prefix. simpl. intros Hc.
  assert (c = "/"%char) as -> by (apply bool_decide_eq_true in Hc; destruct (decide ("/"%char = c)); [done|];
    rewrite bool_decide_false in Hc by done; by destruct Hc).
  unfold parsePattern. cbn [cut_blank]. change (blank "/") with false. cbv iota.
  destruct (cut_blank path) as [a [b|]].
  - change (str_forallb token_char (String "/" a)) with false. done.
  - cbn [str_forallb negb cut]. rewrite bool_decide_true by done. cbn [has_brace str_forallb negb str_is_empty andb].
    intros Hp. apply fmap_Some in Hp as (segs & _ & ->). done.
Qed.

(** A path without braces or blanks and without a trailing slash is a pattern of
    literals. *)
Definition plain_char (c : ascii) : bool := negb (blank c) && negb (bool_decide (c = "{"%char)).

Definition plain (path : string) : bool :=
  has_prefix "/" path && negb (ends_in_slash path) && str_forallb plain_char path.

Lemma ends_cons c s : s <> EmptyString -> ends_in_slash (String c s) = ends_in_slash s.
Proof.
  intros Hs. destruct s as [|d s]; [done|]. unfold ends_in_slash. apply bool_decide_ext.
  change (cut_last_byte "/" (String c (String d s))) with (String c <$> cut_last_byte "/" (String d s)).
  apply fmap_is_Some.
Qed.

Lemma split_last s : s <> EmptyString -> ends_in_slash s = false -> last (split "/" s) <> Some EmptyString.
Proof.
  induction s as [|c s IH]; [done|]. intros _ He. destruct (decide (s = EmptyString)) as [->|Hs].
  - unfold ends_in_slash in He. apply bool_decide_eq_false in He. simpl in He |- *. case_bool_decide; [|done].
    by destruct He.
  - rewrite ends_cons in He by done. specialize (IH Hs He). simpl. pose proof (split_nonempty "/" s) as Hne.
    destruct (split "/" s) as [|w ws]; [done|]. case_bool_decide; [exact IH|].
    destruct ws as [|x xs]; [done|exact IH].
Qed.

Lemma split_chars (P : ascii -> bool) s : str_forallb P s = true -> Forall (fun w => str_forallb P w = true) (split "/" s).
Proof.
  induction s as [|c s IH]; simpl; [by repeat constructor|]. intros [Hc Hs]%andb_true_iff. specialize (IH Hs).
  case_bool_decide; [by constructor|]. destruct (split "/" s) as [|w ws]; [constructor; [simpl; by rewrite Hc|done]|].
  apply Forall_cons in IH as [Hw Hws]. constructor; [|done]. simpl. by rewrite Hc.
Qed.

Lemma parse_plain_segments parts : forall seen, Forall (fun w => has_brace w = false) parts -> last parts <> Some EmptyString ->
  parse_segments wide_name seen parts = Some ((fun w => SLit (path_unescape w)) <$> parts).
Proof.
  induction parts as [|w ws IH]; intros seen Hp Hl; [done|]. apply Forall_cons in Hp as [Hw Hp]. cbn [parse_segments].
  assert (Hlast : (match ws with [] => true | _ => false end) && str_is_empty w = false).
  { destruct ws; [|done]. by destruct w. }
  rewrite Hlast, Hw. cbn [negb]. rewrite IH; [done|done|]. by destruct ws.
Qed.

Lemma no_brace w : str_forallb plain_char w = true -> has_brace w = false.
Proof.
  unfold has_brace. intros Hw. apply negb_false_iff. induction w as [|c w IH]; [done|]. simpl in *.
  unfold plain_char in Hw. rewrite !andb_true_iff in Hw. destruct Hw as [[_ ->] Hw]. by apply IH.
Qed.

Lemma no_blank w : str_forallb plain_char w = true -> cut_blank w = (w, None).
Proof.
  induction w as [|c w IH]; [done|]. simpl. unfold plain_char at 1. rewrite !andb_true_iff, negb_true_iff.
  intros [[-> _] Hw]. by rewrite IH.
Qed.

Lemma plain_slash path : plain path = true -> exists p, path = String "/" p /\ p <> EmptyString /\
  ends_in_slash p = false /\ str_forallb plain_char p = true.
Proof.
  unfold plain. destruct path as [|c p]; [done|]. unfold has_prefix. simpl cut_prefix.
  destruct (decide ("/"%char = c)) as [<-|Hc].
  2: { rewrite (bool_decide_false ("/"%char = c)) by done. by rewrite bool_decide_false by (by intros []). }
  intros H. rewrite !andb_true_iff, negb_true_iff in H. destruct H as [[_ He] Hp].
  assert (p <> EmptyString) as Hne by (intros ->; discriminate He). exists p. rewrite ends_cons in He by done.
  by split_and!.
Qed.

Lemma parse_plain path : plain path = true ->
  parsePattern wide_name path = Some (mkPattern EmptyString EmptyString ((fun w => SLit (path_unescape w)) <$> raw_segments path)).
Proof.
  intros Hp. apply plain_slash in Hp as (p & -> & Hne & He & Hc). unfold parsePattern. cbn [cut_blank].
  change (blank "/") with false. cbv iota. rewrite no_blank by done. cbn [str_forallb negb cut].
  rewrite bool_decide_true by done. cbn [has_brace str_forallb negb str_is_empty andb].
  rewrite parse_plain_segments.
  - unfold raw_segments. cbn [str_is_empty split]. by rewrite bool_decide_true by done.
  - apply split_chars in Hc. eapply Forall_impl; [exact Hc|]. apply no_brace.
  - by apply split_last.
Qed.

Lemma takes_itself raws : last raws <> Some EmptyString ->
  takes raws ((fun w => SLit (path_unescape w)) <$> raws) = true.
Proof.
  induction raws as [|w ws IH]; intros Hl; [done|]. rewrite fmap_cons. cbn [takes].
  assert (first_segment w ws = path_unescape w) as ->.
  { unfold first_segment. destruct (str_is_empty w && _) eqn:E; [|done]. exfalso.
    apply andb_true_iff in E as [Ew Es]. by destruct w, ws. }
  unfold seg_takes. cbn [seg_key]. unfold str_eqb at 1. rewrite bool_decide_true by done. cbn [orb andb].
  rewrite IH; [done|]. by destruct ws.
Qed.

(** Such a pattern is served at its own path. *)
Lemma plain_takes_itself path p : plain path = true -> parsePattern wide_name path = Some p ->
  takes (raw_segments path) (pt_segments p) = true.
Proof.
  intros Hp. rewrite (parse_plain path Hp). intros [= <-]. apply takes_itself.
  apply plain_slash in Hp as (q & -> & Hne & He & _). unfold raw_segments. cbn [str_is_empty split].
  rewrite bool_decide_true by done. by apply split_last.
Qed.
End Paths.
