(* ===== verification/GoNumber.v ===== *)
(** * Package strconv: [ParseFloat] and [FormatFloat]

    Parsing rounds the exact value of the literal; formatting searches the
    shortest decimal that parses back.  Both are stated on the exact rationals,
    which is what the library's table-driven algorithms compute. *)

From Stdlib Require Import ZArith Lia Ascii.
From stdpp Require Import base tactics list strings option.
From S2P Require Import Prelude GoLib GoFloat GoUrl.

#[local] Open Scope Z_scope.

(** ** Parsing *)

Definition lower_string (s : string) : string := str_map lower_byte s.

(** [special]: infinities and NaN, in any case. *)
Definition parse_special (s : string) : option float64 :=
  let s := lower_string s in
  let '(neg, body) := cut_sign s in
  if str_eqb body "inf" || str_eqb body "infinity" then Some (FInf neg)
  else if str_eqb s "nan" then Some FNaN else None.

Definition hex_or_digit (base : Z) (c : ascii) : option Z :=
  if is_digit c then Some (digit_val c)
  else if (base =? 16) && (between 97 102 (lower_byte c)) then Some (byte_val (lower_byte c) - 87)
  else None.

(** The mantissa of [readFloat]: digits, one point, underscores.  Returns the
    digits' value, the number of digits after the point, whether a digit was
    read, whether an underscore was, and the rest. *)
Fixpoint read_mantissa (base man frac : Z) (sawdot sawdigits under : bool) (s : string)
  : option (Z * Z * bool * bool * string) :=
  match s with
  | EmptyString => Some (man, frac, sawdigits, under, s)
  | String c s' =>
      if bool_decide (c = "_"%char) then read_mantissa base man frac sawdot sawdigits true s'
      else if bool_decide (c = "."%char) then
        if sawdot then Some (man, frac, sawdigits, under, s)
        else read_mantissa base man frac true sawdigits under s'
      else match hex_or_digit base c with
           | Some d => read_mantissa base (man * base + d) (if sawdot then frac + 1 else frac)
                         sawdot true under s'
           | None => Some (man, frac, sawdigits, under, s)
           end
  end.

(** The digits of the exponent; the value stops growing past 10000. *)
Fixpoint read_exponent (e : Z) (sawdigit under : bool) (s : string) : Z * bool * bool * string :=
  match s with
  | EmptyString => (e, sawdigit, under, s)
  | String c s' =>
      if bool_decide (c = "_"%char) then read_exponent e sawdigit true s'
      else if is_digit c then
        read_exponent (if e <? 10000 then e * 10 + digit_val c else e) true under s'
      else (e, sawdigit, under, s)
  end.

(** [underscoreOK]: underscores only between digits, and only after a base
    prefix.  [prev] is the class of the previous byte: ['^'] start, ['0'] digit,
    ['_'], ['!'] other. *)
Fixpoint underscore_loop (hex : bool) (prev : ascii) (s : string) : bool :=
  match s with
  | EmptyString => negb (bool_decide (prev = "_"%char))
  | String c s' =>
      if is_digit c || (hex && between 97 102 (lower_byte c)) then underscore_loop hex "0" s'
      else if bool_decide (c = "_"%char) then
        if bool_decide (prev = "0"%char) then underscore_loop hex "_" s' else false
      else if bool_decide (prev = "_"%char) then false
      else underscore_loop hex "!" s'
  end.

Definition underscoreOK (s : string) : bool :=
  let '(_, body) := cut_sign s in
  match body with
  | String z (String p rest) =>
      if bool_decide (z = "0"%char)
         && (one_of "box" (lower_byte p))
      then underscore_loop (bool_decide (lower_byte p = "x"%char)) "0" rest
      else negb (str_contains "_" body)
  | _ => negb (str_contains "_" body)
  end.

(** A finite literal: sign, base, mantissa, exponent, nothing after. *)
Definition parse_finite (s : string) : option float64 :=
  let '(neg, body) := cut_sign s in
  let '(base, digits) :=
    match body with
    | String z (String x (String c rest)) =>
        if bool_decide (z = "0"%char) && bool_decide (lower_byte x = "x"%char)
        then (16, String c rest) else (10, body)
    | _ => (10, body)
    end in
  '(man, frac, sawdigits, under, rest) ← read_mantissa base 0 0 false false false digits;
  if negb sawdigits then None
  else
    '(exp, under, rest) ←
      match rest with
      | String e rest' =>
          if bool_decide (lower_byte e = (if base =? 16 then "p"%char else "e"%char)) then
            let '(eneg, r) := cut_sign rest' in
            let '(v, saw, u, r) := read_exponent 0 false under r in
            (* the first byte after the sign has to be a digit *)
            if saw && negb (has_prefix "_" (cut_sign rest').2)
            then Some (if eneg then - v else v, u, r) else None
          else if base =? 16 then None else Some (0, under, rest)
      | EmptyString => if base =? 16 then None else Some (0, under, rest)
      end;
    if negb (str_is_empty rest) || (under && negb (underscoreOK s)) then None
    else
      let f :=
        if base =? 16 then fround_dyadic neg man (exp - 4 * frac)
        else
          let e := exp - frac in
          if 0 <=? e then fround neg (man * 10 ^ e) 1 else fround neg man (10 ^ (- e)) in
      match f with FInf _ => None | _ => Some f end.

(** [ParseFloat(s, 64)], [None] for every error, range errors included. *)
Definition parse_float (s : string) : option float64 :=
  match parse_special s with Some f => Some f | None => parse_finite s end.

Example parse_float_ok :
  parse_float <$> ["1.5"; "-2e3"; "0x1p-2"; "NaN"; "+Inf"; "1_000"; "0x_1p4"; ""; "1e"; "1e400"; "."; "1.5x"]
  = [Some (FFin false (3 * 2 ^ 51) (-52)); Some (f_of_Z (-2000)); Some (FFin false (2 ^ 52) (-54));
     Some FNaN; Some (FInf false); None; Some (f_of_Z 16); None; None; None; None; None].
Proof. vm_compute. reflexivity. Qed.

(** ** Formatting *)

(** A non-zero value as decimal digits [D] ([nd] of them) with the point after
    [dp] of them: the shortest that rounds back, the nearest among those. *)
Record decimal : Type := mkDecimal { d_digits : Z; d_nd : Z; d_dp : Z }.

(** [n / d] scaled by a power of ten. *)
Definition scale10 (n d k : Z) : Z * Z := if 0 <=? k then (n * 10 ^ k, d) else (n, d * 10 ^ (- k)).

(** floor(log10 (n / d)), by correction of an estimate. *)
Fixpoint log10_up (fuel : nat) (n d k : Z) : Z :=
  match fuel with
  | O => k
  | S f => let '(a, b) := scale10 n d (- (k + 1)) in if b <=? a then log10_up f n d (k + 1) else k
  end.

Definition log10 (n d : Z) : Z := log10_up 6 n d (ratio_log2 n d * 30103 / 100000 - 2).

Definition decimal_float (D k : Z) : float64 :=
  if 0 <=? k then fround false (D * 10 ^ k) 1 else fround false D (10 ^ (- k)).

(** The candidate of [nd] digits, when one rounds back. *)
Definition decimal_try (x : float64) (n d k nd : Z) : option Z :=
  let '(a, b) := scale10 n d (nd - 1 - k) in
  let lo := a / b in
  let ok c := bool_decide (decimal_float c (k + 1 - nd) = x) in
  let near_lo := 2 * (a mod b) <? b in
  let '(first, other) := if near_lo then (lo, lo + 1) else (lo + 1, lo) in
  if ok first then Some first else if ok other then Some other else None.

Fixpoint strip_zeros (fuel : nat) (D nd : Z) : Z * Z :=
  match fuel with
  | O => (D, nd)
  | S f => if (1 <? nd) && (D mod 10 =? 0) then strip_zeros f (D / 10) (nd - 1) else (D, nd)
  end.

Fixpoint decimal_search (fuel : nat) (x : float64) (n d k nd : Z) : option decimal :=
  match fuel with
  | O => None
  | S f =>
      match decimal_try x n d k nd with
      | Some D =>
          (* a carry to 10^nd has one more digit before the point *)
          let '(D', nd', k') := if D =? 10 ^ nd then (1, 1, k + 1) else (D, nd, k) in
          let '(D', nd') := strip_zeros 20 D' nd' in
          Some (mkDecimal D' nd' (k' + 1))
      | None => decimal_search f x n d k (nd + 1)
      end
  end.

(** Seventeen digits always identify a [float64]. *)
Definition shortest (m e : Z) : decimal :=
  let '(n, d) := if 0 <=? e then (m * 2 ^ e, 1) else (m, 2 ^ (- e)) in
  default (mkDecimal 0 1 1) (decimal_search 17 (FFin false m e) n d (log10 n d) 1).

(** Exactly [nd] digits, with leading zeros. *)
Fixpoint digits_pad (nd : nat) (D : Z) (acc : string) : string :=
  match nd with
  | O => acc
  | S k => digits_pad k (D / 10) (String (digit_char (D mod 10)) acc)
  end.

Definition decimal_digits (x : decimal) : string := digits_pad (Z.to_nat (d_nd x)) (d_digits x) EmptyString.

Fixpoint zeros (n : nat) : string := match n with O => EmptyString | S k => String "0" (zeros k) end.

(** [fmtF] with the shortest precision. *)
Definition fmt_f (x : decimal) : string :=
  let ds := decimal_digits x in
  if d_dp x <=? 0 then ("0." +:+ zeros (Z.to_nat (- d_dp x)) +:+ ds)%string
  else if d_nd x <=? d_dp x then (ds +:+ zeros (Z.to_nat (d_dp x - d_nd x)))%string
  else
    let k := Z.to_nat (d_dp x) in
    (String.substring 0 k ds +:+ String "." (String.substring k (String.length ds - k) ds))%string.

(** [fmtE]: one digit, the others, and an exponent of at least two digits. *)
Definition fmt_e (x : decimal) : string :=
  let ds := decimal_digits x in
  let exp := d_dp x - 1 in
  let mant := match ds with
              | String c EmptyString => String c EmptyString
              | String c rest => String c (String "." rest)
              | EmptyString => EmptyString
              end in
  let e := Z.abs exp in
  (mant +:+ String "e" (String (if (exp <? 0)%Z then "-"%char else "+"%char)
     ((if (e <? 10)%Z then "0" else EmptyString) +:+ utoa e)))%string.

Definition with_sign (neg : bool) (s : string) : string := if neg then String "-" s else s.

(** [fmt.Sprint] of a [float64]: [FormatFloat(v, 'g', -1, 64)], which switches to
    an exponent below -4 and from 6 on. *)
Definition format_g (x : float64) : string :=
  match x with
  | FNaN => "NaN"
  | FInf neg => if neg then "-Inf" else "+Inf"
  | FFin neg m e =>
      with_sign neg
        (if m =? 0 then "0"
         else let d := shortest m e in
              let exp := d_dp d - 1 in
              if (exp <? -4) || (6 <=? exp)
              then fmt_e d else fmt_f d)
  end.

(** [encoding/json]'s float encoder: [None] for a value JSON cannot hold. *)
Definition format_json (x : float64) : option string :=
  match x with
  | FFin neg m e =>
      Some (with_sign neg
        (if m =? 0 then "0"
         else
           let d := shortest m e in
           let exp := d_dp d - 1 in
           if (exp <? -6) || (21 <=? exp) then
             (* e-09 becomes e-9 *)
             let s := fmt_e d in
             if Z.abs exp <? 10 then
               match cut "e" s with
               | (a, Some (String sg (String _ r))) => (a +:+ String "e" (String sg r))%string
               | _ => s
               end
             else s
           else fmt_f d))
  | _ => None
  end.

Definition num (lit : string) : float64 := default FNaN (parse_float lit).

Example format_g_ok :
  (fun s => format_g (num s)) <$> ["1e6"; "123456"; "0.1"; "1e-5"; "0.0001"; "-2.50"; "9007199254740993"; "5e-324"]
  = ["1e+06"; "123456"; "0.1"; "1e-05"; "0.0001"; "-2.5"; "9.007199254740992e+15"; "5e-324"].
Proof. vm_compute. reflexivity. Qed.

Example format_json_ok :
  (fun s => format_json (num s)) <$> ["1e6"; "1e21"; "1e-7"; "123.456"; "0.3"; "1e20"; "-0"; "1.7976931348623157e308"]
  = Some <$> ["1000000"; "1e+21"; "1e-7"; "123.456"; "0.3"; "100000000000000000000"; "-0";
              "1.7976931348623157e+308"].
Proof. vm_compute. reflexivity. Qed.
