(* ===== verification/GoDecimal.v ===== *)
(** * Package strconv: the shortest decimal identifies its float

    The search of [GoNumber.shortest] finds, for every positive number of the
    format, a decimal of at most seventeen digits that rounds to it. *)

From Stdlib Require Import ZArith Lia.
From stdpp Require Import base tactics list option.
From S2P Require Import Prelude GoLib GoFloat GoRound GoNumber.

#[local] Open Scope Z_scope.

(** ** Powers with exponents of either sign

    [pw b k] is the numerator of [b^k] and [pw b (- k)] its denominator. *)

Definition pw (b k : Z) : Z := b ^ Z.max k 0.

Lemma pw_pos b k : 0 < b -> 0 < pw b k.
Proof. intros. apply Z.pow_pos_nonneg; lia. Qed.

Lemma pw_add b i j : pw b (i + j) * pw b (- i) * pw b (- j) = pw b i * pw b j * pw b (- (i + j)).
Proof. unfold pw. rewrite <- !Z.pow_add_r by lia. f_equal. lia. Qed.

Lemma pw_nonneg b k : 0 <= k -> pw b k = b ^ k /\ pw b (- k) = 1.
Proof.
  intros. unfold pw. split; [f_equal; lia|]. replace (Z.max (- k) 0) with 0 by lia. done.
Qed.

Lemma scale10_pw n d k : scale10 n d k = (n * pw 10 k, d * pw 10 (- k)).
Proof.
  unfold scale10. destruct (Z.leb_spec 0 k) as [Hk|Hk].
  - destruct (pw_nonneg 10 k Hk) as [-> ->]. by rewrite Z.mul_1_r.
  - destruct (pw_nonneg 10 (- k) ltac:(lia)) as [-> H]. rewrite Z.opp_involutive in H.
    by rewrite H, Z.mul_1_r.
Qed.

Lemma decimal_float_pw D k : decimal_float D k = fround false (D * pw 10 k) (pw 10 (- k)).
Proof.
  unfold decimal_float. destruct (Z.leb_spec 0 k) as [Hk|Hk].
  - by destruct (pw_nonneg 10 k Hk) as [-> ->].
  - destruct (pw_nonneg 10 (- k) ltac:(lia)) as [-> H]. rewrite Z.opp_involutive in H.
    by rewrite H, Z.mul_1_r.
Qed.

(** A trailing zero of the digits may move to the exponent. *)
Lemma decimal_float_shift D j k : 0 <= D -> 0 <= j -> decimal_float (D * 10 ^ j) k = decimal_float D (k + j).
Proof.
  intros HD Hj. rewrite !decimal_float_pw. pose proof (pw_pos 10 k ltac:(lia)). pose proof (pw_pos 10 (- k) ltac:(lia)).
  pose proof (pw_pos 10 (k + j) ltac:(lia)). pose proof (pw_pos 10 (- (k + j)) ltac:(lia)).
  assert (0 <= 10 ^ j) by (apply Z.pow_nonneg; lia).
  apply fround_ratio; [repeat apply Z.mul_nonneg_nonneg; lia|lia|apply Z.mul_nonneg_nonneg; lia|lia|].
  pose proof (pw_add 10 k j) as P. destruct (pw_nonneg 10 j Hj) as [E1 E2]. rewrite E1, E2 in P.
  rewrite Z.mul_1_r in P.
  transitivity (D * (pw 10 k * 10 ^ j * pw 10 (- (k + j)))); [lia|]. rewrite <- P. lia.
Qed.

(** ** The decimal exponent *)

(** [10^k <= n / d]. *)
Definition at_least (n d k : Z) : Prop := d * pw 10 k <= n * pw 10 (- k).

Lemma log10_up_spec fuel n d : forall k,
  at_least n d k -> ~ at_least n d (k + Z.of_nat fuel + 1) ->
  at_least n d (log10_up fuel n d k) /\ ~ at_least n d (log10_up fuel n d k + 1) /\
  k <= log10_up fuel n d k <= k + Z.of_nat fuel.
Proof.
  induction fuel as [|f IH]; intros k H1 H2; cbn [log10_up].
  - split; [done|]. split; [by replace (k + 1) with (k + Z.of_nat 0 + 1) by lia|lia].
  - rewrite scale10_pw, Z.opp_involutive.
    destruct (Z.leb_spec (d * pw 10 (k + 1)) (n * pw 10 (- (k + 1)))) as [H|H].
    + destruct (IH (k + 1)) as (A & B & C).
      * exact H.
      * by replace (k + 1 + Z.of_nat f + 1) with (k + Z.of_nat (S f) + 1) by lia.
      * split; [done|]. split; [done|lia].
    + split; [done|]. split; [unfold at_least; lia|lia].
Qed.

(** The estimate, checked against every binary exponent of the format. *)
Definition estimate (L : Z) : Z := L * 30103 / 100000 - 2.

(** [10^k] and [2^L], both scaled to integers and kept from one exponent to the
    next. *)
Fixpoint estimates_ok (n : nat) (L ten two : Z) : bool :=
  match n with
  | O => true
  | S n' => (ten <=? two) && (2 * two <=? 10 ^ 7 * ten)
            && estimates_ok n' (L + 1) (ten * 10 ^ (estimate (L + 1) - estimate L)) (2 * two)
  end.

Definition scaled_ten (L : Z) : Z := 10 ^ (estimate L + 400) * 2 ^ 1100.
Definition scaled_two (L : Z) : Z := 2 ^ (L + 1100) * 10 ^ 400.

Lemma estimates_checked : estimates_ok 2098 (-1074) (scaled_ten (-1074)) (scaled_two (-1074)) = true.
Proof. vm_compute. reflexivity. Qed.

Lemma estimate_bounds L : -1074 <= L <= 1024 -> -326 <= estimate L <= 306.
Proof.
  intros HL. unfold estimate. pose proof (Z.div_mod (L * 30103) 100000 ltac:(lia)).
  pose proof (Z.mod_pos_bound (L * 30103) 100000 ltac:(lia)). lia.
Qed.

Lemma estimates_spec n : forall L0, -1074 <= L0 -> L0 + Z.of_nat n <= 1024 ->
  estimates_ok n L0 (scaled_ten L0) (scaled_two L0) = true ->
  forall L, L0 <= L < L0 + Z.of_nat n ->
  scaled_ten L <= scaled_two L /\ 2 * scaled_two L <= 10 ^ 7 * scaled_ten L.
Proof.
  induction n as [|n IH]; intros L0 H0 Hn H L HL; [lia|]. cbn [estimates_ok] in H.
  apply andb_true_iff in H as [[H1 H2]%andb_true_iff H3]. apply Z.leb_le in H1, H2.
  destruct (Z.eq_dec L L0) as [->|]; [done|]. apply (IH (L0 + 1)); [lia..| |lia].
  pose proof (estimate_bounds L0 ltac:(lia)).
  assert (estimate L0 <= estimate (L0 + 1)).
  { unfold estimate. apply Z.sub_le_mono_r, Z.div_le_mono; lia. }
  assert (scaled_ten (L0 + 1) = scaled_ten L0 * 10 ^ (estimate (L0 + 1) - estimate L0)) as ->.
  { unfold scaled_ten. rewrite <- Z.mul_assoc, (Z.mul_comm (2 ^ 1100)), Z.mul_assoc.
    rewrite <- Z.pow_add_r by lia. do 2 f_equal. lia. }
  assert (scaled_two (L0 + 1) = 2 * scaled_two L0) as ->; [|done].
  unfold scaled_two. rewrite Z.mul_assoc. f_equal. rewrite <- Z.pow_succ_r by lia. f_equal. lia.
Qed.

(** A comparison of powers of either sign, scaled. *)
Lemma scaled_pw b k s : 0 < b -> 0 <= s -> 0 <= k + s -> b ^ (k + s) * pw b (- k) = pw b k * b ^ s.
Proof. intros. unfold pw. rewrite <- !Z.pow_add_r by lia. f_equal. lia. Qed.

Lemma rescale_le X Y A B u c : 0 < u -> 0 < c -> X * u = A * c -> Y * u = B * c -> (X <= Y <-> A <= B).
Proof.
  intros Hu Hc HX HY. rewrite (Z.mul_le_mono_pos_r X Y u), HX, HY by done. symmetry.
  by apply Z.mul_le_mono_pos_r.
Qed.

Lemma scaled_sides k L : -400 <= k -> -1100 <= L ->
  let u := pw 10 (- k) * pw 2 (- L) in let c := 10 ^ 400 * 2 ^ 1100 in
  10 ^ (k + 400) * 2 ^ 1100 * u = pw 10 k * pw 2 (- L) * c /\
  2 ^ (L + 1100) * 10 ^ 400 * u = pw 2 L * pw 10 (- k) * c.
Proof.
  intros Hk HL. pose proof (scaled_pw 10 k 400 ltac:(lia) ltac:(lia) ltac:(lia)) as E10.
  pose proof (scaled_pw 2 L 1100 ltac:(lia) ltac:(lia) ltac:(lia)) as E2. cbv zeta.
  revert E10 E2. generalize (10 ^ 400) (2 ^ 1100) (10 ^ (k + 400)) (2 ^ (L + 1100)).
  intros c10 c2 x10 x2 E10 E2. split.
  - replace (x10 * c2 * (pw 10 (- k) * pw 2 (- L))) with ((x10 * pw 10 (- k)) * (c2 * pw 2 (- L))) by lia.
    rewrite E10. lia.
  - replace (x2 * c10 * (pw 10 (- k) * pw 2 (- L))) with ((x2 * pw 2 (- L)) * (c10 * pw 10 (- k))) by lia.
    rewrite E2. lia.
Qed.

Lemma estimate_correct L : -1074 <= L <= 1023 ->
  pw 10 (estimate L) * pw 2 (- L) <= pw 2 L * pw 10 (- estimate L) /\
  pw 2 (L + 1) * pw 10 (- (estimate L + 7)) <= pw 10 (estimate L + 7) * pw 2 (- (L + 1)).
Proof.
  intros HL. pose proof (estimate_bounds L ltac:(lia)).
  pose proof (estimates_spec 2098 (-1074) ltac:(lia) ltac:(lia) estimates_checked L ltac:(lia)) as [H1 H2].
  assert (Hc : 0 < 10 ^ 400 * 2 ^ 1100) by (apply Z.mul_pos_pos; by apply Z.pow_pos_nonneg).
  assert (Hu : forall k l, 0 < pw 10 k * pw 2 l) by (intros; apply Z.mul_pos_pos; by apply pw_pos).
  split.
  - destruct (scaled_sides (estimate L) L ltac:(lia) ltac:(lia)) as [E1 E2].
    by apply (rescale_le _ _ _ _ _ _ (Hu _ _) Hc E1 E2).
  - destruct (scaled_sides (estimate L + 7) (L + 1) ltac:(lia) ltac:(lia)) as [E1 E2].
    apply (rescale_le _ _ _ _ _ _ (Hu _ _) Hc E2 E1).
    replace (L + 1 + 1100) with (Z.succ (L + 1100)) by lia.
    replace (estimate L + 7 + 400) with (7 + (estimate L + 400)) by lia.
    unfold scaled_ten, scaled_two in H2. rewrite Z.pow_succ_r, (Z.pow_add_r 10 7) by lia. lia.
Qed.

(** [2^L <= n / d < 2^(L+1)], with powers of either sign. *)
Lemma ratio_log2_pw n d : 0 < n -> 0 < d ->
  d * pw 2 (ratio_log2 n d) <= n * pw 2 (- ratio_log2 n d) /\
  n * pw 2 (- (ratio_log2 n d + 1)) < d * pw 2 (ratio_log2 n d + 1).
Proof.
  intros Hn Hd. set (L := ratio_log2 n d). unfold pw. split.
  - pose proof (ratio_log2_le n d (Z.max (- L) 0) Hn Hd ltac:(lia) ltac:(fold L; lia)) as H. fold L in H.
    by replace (L + Z.max (- L) 0) with (Z.max L 0) in H by lia.
  - pose proof (ratio_log2_lt n d (Z.max (- (L + 1)) 0) Hn Hd ltac:(lia) ltac:(fold L; lia)) as H. fold L in H.
    by replace (L + 1 + Z.max (- (L + 1)) 0) with (Z.max (L + 1) 0) in H by lia.
Qed.

Lemma cross_le a b c d e f : 0 < b -> 0 < d -> 0 < f -> 0 <= c ->
  a * d <= c * b -> c * f <= e * d -> a * f <= e * b.
Proof.
  intros Hb Hd Hf Hc H1 H2. apply (Z.mul_le_mono_pos_r _ _ d); [done|].
  transitivity (c * b * f).
  - transitivity ((a * d) * f); [lia|]. apply Z.mul_le_mono_nonneg_r; lia.
  - transitivity (b * (c * f)); [lia|]. transitivity (b * (e * d)); [|lia].
    apply Z.mul_le_mono_nonneg_l; lia.
Qed.

Lemma log10_spec n d : 0 < n -> 0 < d -> -1074 <= ratio_log2 n d <= 1023 ->
  at_least n d (log10 n d) /\ ~ at_least n d (log10 n d + 1) /\ -400 <= log10 n d <= 400.
Proof.
  intros Hn Hd HL. unfold log10. set (L := ratio_log2 n d) in *. fold (estimate L).
  destruct (ratio_log2_pw n d Hn Hd) as [R1 R2]. fold L in R1, R2.
  destruct (estimate_correct L HL) as [E1 E2].
  pose proof (pw_pos 2 L ltac:(lia)). pose proof (pw_pos 2 (- L) ltac:(lia)).
  pose proof (pw_pos 2 (L + 1) ltac:(lia)). pose proof (pw_pos 2 (- (L + 1)) ltac:(lia)).
  destruct (log10_up_spec 6 n d (estimate L)) as (A & B & C).
  - unfold at_least. pose proof (pw_pos 10 (estimate L) ltac:(lia)).
    pose proof (pw_pos 10 (- estimate L) ltac:(lia)).
    rewrite (Z.mul_comm d).
    apply (cross_le _ _ (pw 2 L) (pw 2 (- L))); lia.
  - unfold at_least. replace (estimate L + Z.of_nat 6 + 1) with (estimate L + 7) by lia. apply Z.lt_nge.
    pose proof (pw_pos 10 (estimate L + 7) ltac:(lia)) as P7.
    pose proof (pw_pos 10 (- (estimate L + 7)) ltac:(lia)) as P8.
    apply (Z.mul_lt_mono_pos_r (pw 2 (- (L + 1)))); [done|].
    apply Z.lt_le_trans with (d * pw 2 (L + 1) * pw 10 (- (estimate L + 7))).
    + apply (Z.mul_lt_mono_pos_r (pw 10 (- (estimate L + 7)))) in R2; lia.
    + apply (Z.mul_le_mono_nonneg_l _ _ d) in E2; lia.
  - split; [done|]. split; [done|]. unfold estimate in *.
    pose proof (Z.div_mod (L * 30103) 100000 ltac:(lia)).
    pose proof (Z.mod_pos_bound (L * 30103) 100000 ltac:(lia)). lia.
Qed.

(** ** Seventeen digits *)

Section Shortest.
Variables (neg : bool) (m e : Z).
Hypothesis Hm : 0 < m.
Hypothesis Hc : canonical (FFin neg m e) = true.

#[local] Abbreviation n := (m * pw 2 e).
#[local] Abbreviation d := (pw 2 (- e)).

Lemma value_pos : 0 < n /\ 0 < d.
Proof. split; [apply Z.mul_pos_pos; [done|]|]; by apply pw_pos. Qed.

Lemma value_log2 : -1074 <= ratio_log2 n d <= 1023.
Proof.
  destruct value_pos as [Hn Hd]. apply canonical_pos in Hc as (H1 & H2 & H3); [|done].
  assert (HL : Z.log2 m <= 52) by (assert (Z.log2 m < 53) by (apply Z.log2_lt_pow2; lia); lia).
  pose proof (Z.log2_nonneg m). pose proof (Z.log2_spec m Hm) as [L1 L2].
  assert (ratio_log2 n d = Z.log2 m + e) as ->; [|lia].
  assert (Hpow : forall i, 0 <= i -> pw 2 (- e) * 2 ^ (i + e + Z.max (- e) 0) = 2 ^ i * (pw 2 e * 2 ^ Z.max (- e) 0)).
  { intros i Hi. unfold pw. rewrite <- !Z.pow_add_r by lia. f_equal. lia. }
  assert (HP : 0 < pw 2 e * 2 ^ Z.max (- e) 0) by (apply Z.mul_pos_pos; [by apply pw_pos|apply pow2_pos; lia]).
  apply (ratio_log2_unique _ _ _ (Z.max (- e) 0)); [lia..| |].
  - rewrite Hpow, <- (Z.mul_assoc m) by lia. apply Z.mul_le_mono_pos_r; lia.
  - replace (Z.log2 m + e + 1) with (Z.succ (Z.log2 m) + e) by lia. rewrite Hpow, <- (Z.mul_assoc m) by lia.
    apply Z.mul_lt_mono_pos_r; lia.
Qed.

#[local] Abbreviation k := (log10 n d).

Lemma value_log10 : at_least n d k /\ ~ at_least n d (k + 1) /\ -400 <= k <= 400.
Proof. apply log10_spec; [apply value_pos..|apply value_log2]. Qed.

(** A decimal within half a unit of its seventeenth digit. *)
Lemma near_decimal c : 0 < c ->
  2 * Z.abs (c * pw 10 (k - 16) * d - n * pw 10 (- (k - 16))) <= d * pw 10 (k - 16) ->
  decimal_float c (k - 16) = FFin false m e.
Proof.
  intros Hcpos Hnear. destruct value_pos as [Hn Hd]. destruct value_log10 as (Hk & _ & _).
  pose proof Hc as Hc'. apply canonical_pos in Hc as (H1 & H2 & H3); [|done].
  rewrite decimal_float_pw. pose proof (pw_pos 10 (k - 16) ltac:(lia)) as HP.
  pose proof (pw_pos 10 (- (k - 16)) ltac:(lia)) as HQ.
  set (P := pw 10 (k - 16)) in *. set (Q := pw 10 (- (k - 16))) in *.
  set (K := Z.max 0 (1 - e)). set (T := 2 ^ K). set (V := 2 ^ (e + K)).
  assert (HT : 0 < T) by (apply pow2_pos; lia). assert (HV : 0 < V) by (apply pow2_pos; lia).
  (* T * 2^e = V *)
  assert (ET : T * pw 2 e = V * pw 2 (- e)).
  { unfold T, V, pw. rewrite <- !Z.pow_add_r by lia. f_equal. lia. }
  (* 10^(k-16) is small against the value *)
  assert (Hsmall : P * 10 ^ 16 * pw 2 (- e) <= m * pw 2 e * Q).
  { unfold at_least in Hk. pose proof (pw_add 10 (k - 16) 16) as E. replace (k - 16 + 16) with k in E by lia.
    destruct (pw_nonneg 10 16 ltac:(lia)) as [E1 E2]. rewrite E1, E2 in E. fold P Q in E.
    pose proof (pw_pos 10 (- k) ltac:(lia)).
    apply (Z.mul_le_mono_pos_r _ _ (pw 10 (- k))); [done|].
    replace (P * 10 ^ 16 * pw 2 (- e) * pw 10 (- k)) with (pw 2 (- e) * (P * 10 ^ 16 * pw 10 (- k))) by lia.
    rewrite <- E. rewrite Z.mul_1_r. apply (Z.mul_le_mono_nonneg_r _ _ Q) in Hk; lia. }
  assert (Hsc : forall a b, a * d <= b * pw 2 e -> a * T <= b * V).
  { intros a b H. apply (Z.mul_le_mono_pos_r _ _ d); [done|].
    replace (b * V * d) with (b * (V * pw 2 (- e))) by lia. rewrite <- ET.
    replace (a * T * d) with (T * (a * d)) by lia. replace (b * (T * pw 2 e)) with (T * (b * pw 2 e)) by lia.
    apply Z.mul_le_mono_nonneg_l; lia. }
  assert (Hs : P * 10 ^ 16 * T <= m * Q * V) by (apply Hsc; lia).
  assert (Hab : 2 * Z.abs (c * P * T - m * (Q * V)) <= P * T).
  { apply (Z.mul_le_mono_pos_r _ _ d); [done|].
    replace (P * T * d) with (T * (d * P)) by lia.
    etrans; [|apply Z.mul_le_mono_nonneg_l; [lia|exact Hnear]].
    assert (EA : (c * P * T - m * (Q * V)) * d = T * (c * P * d - m * pw 2 e * Q)).
    { rewrite Z.mul_sub_distr_r, Z.mul_sub_distr_l. f_equal; [lia|].
      replace (m * (Q * V) * d) with (m * Q * (V * pw 2 (- e))) by lia. rewrite <- ET. lia. }
    apply (f_equal Z.abs) in EA. rewrite !Z.abs_mul, (Z.abs_eq d), (Z.abs_eq T) in EA by lia. lia. }
  assert (HQV : 0 < Q * V) by (by apply Z.mul_pos_pos).
  apply (fround_near false m e _ _ K); [done|done|apply Z.mul_pos_pos; lia|done|lia|lia|..].
  - fold T V. assert (P * T < Q * V); [|lia].
    assert (m * (Q * V) <= (2 ^ 53 - 1) * (Q * V)) by (apply Z.mul_le_mono_nonneg_r; lia). lia.
  - fold T V. intros ->. assert (2 * (P * T) < Q * V); lia.
Qed.

#[local] Abbreviation x := (FFin false m e).

Lemma at_least_scaled i j : 0 <= i + j ->
  at_least n d i <-> 10 ^ (i + j) * (d * pw 10 (- j)) <= n * pw 10 j.
Proof.
  intros Hij. unfold at_least. pose proof (pw_add 10 i j) as E.
  destruct (pw_nonneg 10 (i + j) Hij) as [E1 E2]. rewrite E1, E2 in E.
  apply (rescale_le _ _ _ _ (pw 10 j) (pw 10 (- i))); [by apply pw_pos..| |lia].
  transitivity (pw 2 (- e) * (pw 10 i * pw 10 j * 1)); [lia|]. rewrite <- E. lia.
Qed.

Lemma try_floor nd : 1 <= nd ->
  10 ^ (nd - 1) <= (n * pw 10 (nd - 1 - k)) / (d * pw 10 (- (nd - 1 - k))) < 10 ^ nd.
Proof.
  intros Hnd. destruct value_pos as [Hn Hd]. destruct value_log10 as (Hk1 & Hk2 & _).
  set (j := nd - 1 - k).
  assert (Hb : 0 < d * pw 10 (- j)) by (apply Z.mul_pos_pos; [done|by apply pw_pos]).
  apply (at_least_scaled k j) in Hk1; [|lia]. rewrite (at_least_scaled (k + 1) j) in Hk2 by lia.
  replace (k + j) with (nd - 1) in Hk1 by lia. replace (k + 1 + j) with nd in Hk2 by lia. split.
  - apply Z.div_le_lower_bound; lia.
  - apply Z.div_lt_upper_bound; lia.
Qed.

Lemma decimal_try_found nd D : 1 <= nd -> decimal_try x n d k nd = Some D ->
  10 ^ (nd - 1) <= D <= 10 ^ nd /\ decimal_float D (k + 1 - nd) = x.
Proof.
  intros Hnd. unfold decimal_try. rewrite scale10_pw. cbv beta iota zeta.
  pose proof (try_floor nd Hnd) as Hlo. set (lo := _ / _) in *.
  assert (Hgo : forall c1 c2, 10 ^ (nd - 1) <= c1 <= 10 ^ nd -> 10 ^ (nd - 1) <= c2 <= 10 ^ nd ->
    (if bool_decide (decimal_float c1 (k + 1 - nd) = x) then Some c1
     else if bool_decide (decimal_float c2 (k + 1 - nd) = x) then Some c2 else None) = Some D ->
    10 ^ (nd - 1) <= D <= 10 ^ nd /\ decimal_float D (k + 1 - nd) = x).
  { intros c1 c2 H1 H2. case_bool_decide as E1; [intros H; by simplify_eq|].
    case_bool_decide as E2; [intros H; by simplify_eq|done]. }
  destruct (2 * _ <? _); apply Hgo; lia.
Qed.

Lemma decimal_try_17 : is_some (decimal_try x n d k 17) = true.
Proof.
  unfold decimal_try. rewrite scale10_pw. cbv beta iota zeta. destruct value_pos as [Hn Hd].
  pose proof (try_floor 17 ltac:(lia)) as Hlo. replace (17 - 1 - k) with (- (k - 16)) in * by lia.
  rewrite Z.opp_involutive in *. set (a := n * pw 10 (- (k - 16))) in *. set (b := d * pw 10 (k - 16)) in *.
  assert (Hb : 0 < b) by (apply Z.mul_pos_pos; [done|by apply pw_pos]).
  pose proof (Z.div_mod a b ltac:(lia)) as Hdm. pose proof (Z.mod_pos_bound a b Hb) as Hr.
  assert (Hok : forall c, 0 < c -> 2 * Z.abs (c * b - a) <= b ->
            bool_decide (decimal_float c (k + 1 - 17) = x) = true).
  { intros c Hcp H. apply bool_decide_eq_true. replace (k + 1 - 17) with (k - 16) by lia.
    apply near_decimal; [done|]. fold a b. rewrite <- Z.mul_assoc, (Z.mul_comm (pw 10 (k - 16))). exact H. }
  destruct (Z.ltb_spec (2 * (a mod b)) b).
  - rewrite (Hok (a / b)); [done|lia|]. lia.
  - rewrite (Hok (a / b + 1)); [done|lia|]. lia.
Qed.

(** ** What the search returns *)

Record identifies (dec : decimal) : Prop := {
  id_nd : 1 <= d_nd dec <= 17;
  id_digits : 10 ^ (d_nd dec - 1) <= d_digits dec < 10 ^ d_nd dec;
  id_value : decimal_float (d_digits dec) (d_dp dec - d_nd dec) = x;
  id_dp : -400 <= d_dp dec <= 402
}.

Lemma strip_zeros_identifies fuel dp : forall D nd,
  identifies (mkDecimal D nd dp) ->
  let '(D', nd') := strip_zeros fuel D nd in identifies (mkDecimal D' nd' dp).
Proof.
  induction fuel as [|f IH]; intros D nd H; cbn [strip_zeros]; [done|].
  destruct (Z.ltb_spec 1 nd), (Z.eqb_spec (D mod 10) 0) as [Hz|]; simpl; try done.
  apply IH. destruct H as [H1 H2 H3 H4]. simpl in *.
  assert (ED : D = D / 10 * 10 ^ 1) by (pose proof (Z.div_mod D 10 ltac:(lia)); lia).
  assert (E1 : 10 ^ nd = 10 * 10 ^ (nd - 1)) by (rewrite <- Z.pow_succ_r by lia; f_equal; lia).
  assert (E2 : 10 ^ (nd - 1) = 10 * 10 ^ (nd - 1 - 1)) by (rewrite <- Z.pow_succ_r by lia; f_equal; lia).
  split; simpl; [lia|lia| |lia].
  pose proof (pow2_pos 1). rewrite ED, decimal_float_shift in H3 by (assert (0 < 10 ^ (nd - 1 - 1)) by (apply Z.pow_pos_nonneg; lia); lia).
  by replace (dp - (nd - 1)) with (dp - nd + 1) by lia.
Qed.

Lemma decimal_search_identifies fuel : forall nd, 1 <= nd -> nd + Z.of_nat fuel = 18 -> (0 < fuel)%nat ->
  exists dec, decimal_search fuel x n d k nd = Some dec /\ identifies dec.
Proof.
  destruct value_log10 as (_ & _ & Hk).
  induction fuel as [|f IH]; intros nd Hnd Hf Hpos; [lia|]. cbn [decimal_search].
  destruct (decimal_try x n d k nd) as [D|] eqn:E.
  - destruct (decimal_try_found nd D Hnd E) as [HD Hx]. destruct (Z.eqb_spec D (10 ^ nd)) as [->|Hne].
    + pose proof (strip_zeros_identifies 20 (k + 1 + 1) 1 1) as H. destruct (strip_zeros 20 1 1) as [D' nd'].
      eexists. split; [done|]. apply H. split; simpl; [lia|lia| |lia].
      rewrite <- (Z.mul_1_l (10 ^ nd)), decimal_float_shift in Hx by lia. by replace (k + 1 + 1 - 1) with (k + 1 - nd + nd) by lia.
    + pose proof (strip_zeros_identifies 20 (k + 1) D nd) as H. destruct (strip_zeros 20 D nd) as [D' nd'].
      eexists. split; [done|]. apply H. split; simpl; [lia|lia|done|lia].
  - destruct (decide (nd = 17)) as [->|Hne].
    + pose proof decimal_try_17 as H. by rewrite E in H.
    + apply IH; lia.
Qed.

(** The decimal [shortest] finds has at most seventeen digits, the first of them
    not zero, and rounds to the value. *)
Lemma shortest_identifies : identifies (shortest m e).
Proof.
  unfold shortest.
  assert ((if 0 <=? e then (m * 2 ^ e, 1) else (m, 2 ^ (- e))) = (n, d)) as ->.
  { destruct (Z.leb_spec 0 e) as [He|He].
    - by destruct (pw_nonneg 2 e He) as [-> ->].
    - destruct (pw_nonneg 2 (- e) ltac:(lia)) as [-> H]. rewrite Z.opp_involutive in H. by rewrite H, Z.mul_1_r. }
  destruct (decimal_search_identifies 17 1 ltac:(lia) ltac:(lia) ltac:(lia)) as (dec & -> & H). exact H.
Qed.
End Shortest.
