(* ===== verification/Domain.v ===== *)
(** * internal/domain/event.go

    The event envelope, the stream statuses and every configuration struct.
    Field names carry a prefix for their struct; a Go pointer field is an
    [option], a Go map a [gmap]. *)

From Stdlib Require Import ZArith.
From stdpp Require Import base tactics list strings gmap.
From S2P Require Import Prelude GoLib GoFloat.

#[local] Open Scope Z_scope.

Definition ContentTypeJSON : string := "application/json".
Definition ContentTypeArrowStream : string := "application/vnd.apache.arrow.stream".
Definition ContentTypeBinary : string := "application/octet-stream".

(** A [json.RawMessage]: [None] is the nil slice, which [json.Marshal] prints
    as [null]; an empty non-nil message is not valid JSON. *)
Abbreviation RawMessage := (option string).

Definition raw_bytes (m : RawMessage) : string := default EmptyString m.

Record StreamEvent : Type := mkEvent {
  se_Source : string;
  se_Type : string;
  se_Timestamp : Z;
  se_Seq : Z;
  se_ContentType : string;
  se_Payload : RawMessage;
  se_Data : string
}.

#[export] Instance StreamEvent_eq_dec : EqDecision StreamEvent.
Proof. solve_decision. Defined.

Definition IsBinary (e : StreamEvent) : bool :=
  negb (str_is_empty (se_ContentType e)) && negb (str_eqb (se_ContentType e) ContentTypeJSON).

Definition Body (e : StreamEvent) : string :=
  if IsBinary e then se_Data e else raw_bytes (se_Payload e).

Definition with_payload (e : StreamEvent) (p : RawMessage) : StreamEvent :=
  mkEvent (se_Source e) (se_Type e) (se_Timestamp e) (se_Seq e) (se_ContentType e) p (se_Data e).

Inductive SourceStatus : Type :=
| StatusIdle
| StatusConnecting
| StatusRunning
| StatusReconnecting
| StatusStopped
| StatusError.

#[export] Instance SourceStatus_eq_dec : EqDecision SourceStatus.
Proof. solve_decision. Defined.

Definition status_name (s : SourceStatus) : string :=
  match s with
  | StatusIdle => "idle"
  | StatusConnecting => "connecting"
  | StatusRunning => "running"
  | StatusReconnecting => "reconnecting"
  | StatusStopped => "stopped"
  | StatusError => "error"
  end.

(** ** Configuration *)

Record RestartConfig : Type := mkRestartConfig {
  rc_MaxAttempts : option Z;
  rc_InitialBackoff : string;
  rc_MaxBackoff : string;
  rc_Factor : float64;
  rc_ResetAfter : string
}.

(** A named [[]string]; the nil slice and the empty one are the same here. *)
Abbreviation StringList := (list string).

Record WebsocketConfig : Type := mkWebsocketConfig { ws_OnConnectSend : StringList }.
Record SseConfig : Type := mkSseConfig { sse_Headers : gmap string string }.
Record GrpcConfig : Type := mkGrpcConfig { grpc_Port : string }.
Record RestPollerConfig : Type := mkRestPollerConfig {
  rp_Interval : string;
  rp_Method : string;
  rp_Headers : gmap string string
}.
Record WebhookConfig : Type := mkWebhookConfig {
  wh_Port : string;
  wh_Path : string;
  wh_AuthToken : string
}.

Record ThresholdConfig : Type := mkThresholdConfig {
  th_Enabled : bool;
  th_Path : string;
  th_Delta : float64;
  th_GroupBy : string
}.
Record BatchConfig : Type := mkBatchConfig {
  bc_Enabled : bool;
  bc_MaxBatchSize : Z;
  bc_FlushInterval : string
}.
Record FilterConfig : Type := mkFilterConfig { fc_MatchTypes : list string }.
Record TransformConfig : Type := mkTransformConfig { tc_Mapping : gmap string string }.
Record EnrichConfig : Type := mkEnrichConfig { ec_Tags : gmap string string }.
Record DedupConfig : Type := mkDedupConfig {
  dc_Enabled : bool;
  dc_CacheSize : Z;
  dc_TTL : string
}.

Record PipelineConfig : Type := mkPipelineConfig {
  pc_Filter : option FilterConfig;
  pc_Transform : option TransformConfig;
  pc_Enrich : option EnrichConfig;
  pc_Dedup : option DedupConfig;
  pc_Threshold : option ThresholdConfig;
  pc_Batch : option BatchConfig
}.

Definition empty_pipeline : PipelineConfig := mkPipelineConfig None None None None None None.

Record StreamSourceConfig : Type := mkSourceConfig {
  sc_ID : string;
  sc_Kind : string;
  sc_URL : string;
  sc_Topic : string;
  sc_Metadata : gmap string string;
  sc_RestPoller : option RestPollerConfig;
  sc_Webhook : option WebhookConfig;
  sc_Grpc : option GrpcConfig;
  sc_Sse : option SseConfig;
  sc_Websocket : option WebsocketConfig;
  sc_Pipeline : option PipelineConfig;
  sc_Restart : option RestartConfig
}.


#[export] Instance RestartConfig_eq_dec : EqDecision RestartConfig.
Proof. solve_decision. Defined.
#[export] Instance WebsocketConfig_eq_dec : EqDecision WebsocketConfig.
Proof. solve_decision. Defined.
#[export] Instance SseConfig_eq_dec : EqDecision SseConfig.
Proof. solve_decision. Defined.
#[export] Instance GrpcConfig_eq_dec : EqDecision GrpcConfig.
Proof. solve_decision. Defined.
#[export] Instance RestPollerConfig_eq_dec : EqDecision RestPollerConfig.
Proof. solve_decision. Defined.
#[export] Instance WebhookConfig_eq_dec : EqDecision WebhookConfig.
Proof. solve_decision. Defined.
#[export] Instance ThresholdConfig_eq_dec : EqDecision ThresholdConfig.
Proof. solve_decision. Defined.
#[export] Instance BatchConfig_eq_dec : EqDecision BatchConfig.
Proof. solve_decision. Defined.
#[export] Instance FilterConfig_eq_dec : EqDecision FilterConfig.
Proof. solve_decision. Defined.
#[export] Instance TransformConfig_eq_dec : EqDecision TransformConfig.
Proof. solve_decision. Defined.
#[export] Instance EnrichConfig_eq_dec : EqDecision EnrichConfig.
Proof. solve_decision. Defined.
#[export] Instance DedupConfig_eq_dec : EqDecision DedupConfig.
Proof. solve_decision. Defined.
#[export] Instance PipelineConfig_eq_dec : EqDecision PipelineConfig.
Proof. solve_decision. Defined.
#[export] Instance StreamSourceConfig_eq_dec : EqDecision StreamSourceConfig.
Proof. solve_decision. Defined.

(** [updated := m.configs[id]; updated.Pipeline = p]: a copy of the struct with
    one field replaced. *)
Definition with_pipeline (c : StreamSourceConfig) (p : option PipelineConfig) : StreamSourceConfig :=
  mkSourceConfig (sc_ID c) (sc_Kind c) (sc_URL c) (sc_Topic c) (sc_Metadata c) (sc_RestPoller c)
    (sc_Webhook c) (sc_Grpc c) (sc_Sse c) (sc_Websocket c) p (sc_Restart c).

Lemma with_pipeline_id c : with_pipeline c (sc_Pipeline c) = c.
Proof. by destruct c. Qed.

(** An event carries its content in one of two places, never both. *)
Lemma body_binary e : IsBinary e = true -> Body e = se_Data e.
Proof. unfold Body. by intros ->. Qed.

Lemma body_json e : IsBinary e = false -> Body e = raw_bytes (se_Payload e).
Proof. unfold Body. by intros ->. Qed.
