(* ===== verification/Telemetry.v ===== *)
(** * internal/telemetry/metrics.go

    The Prometheus registry as a record of series: one finite map per metric,
    keyed by its label values.  A series exists when it has been written and
    not deleted since.  Counter values are exact integers here (the client
    library keeps them in a [float64]). *)

From Stdlib Require Import ZArith Lia.
From stdpp Require Import base tactics list strings gmap.
From S2P Require Import Prelude.

#[local] Open Scope Z_scope.

Record metrics : Type := mkMetrics {
  EventsIngested : gmap string Z;
  EventsDropped : gmap (string * string) Z;      (* stream_id, middleware *)
  BytesIngested : gmap string Z;
  BytesPublished : gmap string Z;
  EventsPublished : gmap string Z;
  StreamState : gmap (string * string) Z;        (* stream_id, state *)
  EventProcessingDuration : gmap string Z;       (* observations *)
  DedupCacheSize : gmap string Z;
  DedupCacheCapacity : gmap string Z;
  StreamRestarts : gmap string Z;
  DedupCacheEvictions : gmap string Z
}.

Definition no_metrics : metrics := mkMetrics ∅ ∅ ∅ ∅ ∅ ∅ ∅ ∅ ∅ ∅ ∅.

(** [vec.WithLabelValues(k).Add(n)]: the series starts at zero. *)
Definition counter_add {K} `{Countable K} (k : K) (n : Z) (m : gmap K Z) : gmap K Z :=
  <[k := default 0 (m !! k) + n]> m.

Definition set_EventsIngested f m := mkMetrics (f (EventsIngested m)) (EventsDropped m)
  (BytesIngested m) (BytesPublished m) (EventsPublished m) (StreamState m)
  (EventProcessingDuration m) (DedupCacheSize m) (DedupCacheCapacity m) (StreamRestarts m)
  (DedupCacheEvictions m).
Definition set_EventsDropped f m := mkMetrics (EventsIngested m) (f (EventsDropped m))
  (BytesIngested m) (BytesPublished m) (EventsPublished m) (StreamState m)
  (EventProcessingDuration m) (DedupCacheSize m) (DedupCacheCapacity m) (StreamRestarts m)
  (DedupCacheEvictions m).
Definition set_BytesIngested f m := mkMetrics (EventsIngested m) (EventsDropped m)
  (f (BytesIngested m)) (BytesPublished m) (EventsPublished m) (StreamState m)
  (EventProcessingDuration m) (DedupCacheSize m) (DedupCacheCapacity m) (StreamRestarts m)
  (DedupCacheEvictions m).
Definition set_BytesPublished f m := mkMetrics (EventsIngested m) (EventsDropped m)
  (BytesIngested m) (f (BytesPublished m)) (EventsPublished m) (StreamState m)
  (EventProcessingDuration m) (DedupCacheSize m) (DedupCacheCapacity m) (StreamRestarts m)
  (DedupCacheEvictions m).
Definition set_EventsPublished f m := mkMetrics (EventsIngested m) (EventsDropped m)
  (BytesIngested m) (BytesPublished m) (f (EventsPublished m)) (StreamState m)
  (EventProcessingDuration m) (DedupCacheSize m) (DedupCacheCapacity m) (StreamRestarts m)
  (DedupCacheEvictions m).
Definition set_StreamState f m := mkMetrics (EventsIngested m) (EventsDropped m)
  (BytesIngested m) (BytesPublished m) (EventsPublished m) (f (StreamState m))
  (EventProcessingDuration m) (DedupCacheSize m) (DedupCacheCapacity m) (StreamRestarts m)
  (DedupCacheEvictions m).
Definition set_Duration f m := mkMetrics (EventsIngested m) (EventsDropped m)
  (BytesIngested m) (BytesPublished m) (EventsPublished m) (StreamState m)
  (f (EventProcessingDuration m)) (DedupCacheSize m) (DedupCacheCapacity m) (StreamRestarts m)
  (DedupCacheEvictions m).
Definition set_DedupCacheSize f m := mkMetrics (EventsIngested m) (EventsDropped m)
  (BytesIngested m) (BytesPublished m) (EventsPublished m) (StreamState m)
  (EventProcessingDuration m) (f (DedupCacheSize m)) (DedupCacheCapacity m) (StreamRestarts m)
  (DedupCacheEvictions m).
Definition set_DedupCacheCapacity f m := mkMetrics (EventsIngested m) (EventsDropped m)
  (BytesIngested m) (BytesPublished m) (EventsPublished m) (StreamState m)
  (EventProcessingDuration m) (DedupCacheSize m) (f (DedupCacheCapacity m)) (StreamRestarts m)
  (DedupCacheEvictions m).
Definition set_StreamRestarts f m := mkMetrics (EventsIngested m) (EventsDropped m)
  (BytesIngested m) (BytesPublished m) (EventsPublished m) (StreamState m)
  (EventProcessingDuration m) (DedupCacheSize m) (DedupCacheCapacity m) (f (StreamRestarts m))
  (DedupCacheEvictions m).
Definition set_DedupCacheEvictions f m := mkMetrics (EventsIngested m) (EventsDropped m)
  (BytesIngested m) (BytesPublished m) (EventsPublished m) (StreamState m)
  (EventProcessingDuration m) (DedupCacheSize m) (DedupCacheCapacity m) (StreamRestarts m)
  (f (DedupCacheEvictions m)).

Definition streamStates : list string := ["connected"; "reconnecting"; "errored"; "stopped"].

(** What the gauge of [state] shows when [current] is the current one. *)
Definition indicator (current state : string) : Z := if bool_decide (state = current) then 1 else 0.

(** [StreamState.WithLabelValues(streamID, state).Set(value)] *)
Definition set_gauge (streamID current state : string) : metrics -> metrics :=
  set_StreamState <[(streamID, state) := indicator current state]>.

(** One write per state of the closed set: 1 for the current one, 0 otherwise. *)
Definition SetStreamState (streamID current : string) (m : metrics) : metrics :=
  foldl (fun m state => set_gauge streamID current state m) m streamStates.

Definition DeleteStreamState (streamID : string) (m : metrics) : metrics :=
  set_StreamState (fun g => foldl (fun g st => delete (streamID, st) g) g streamStates) m.

Definition DeleteDedupSeries (streamID : string) (m : metrics) : metrics :=
  set_DedupCacheEvictions (delete streamID)
    (set_DedupCacheCapacity (delete streamID)
      (set_DedupCacheSize (delete streamID) m)).

(** [DeletePartialMatch] drops every series whose stream_id label matches. *)
Definition DeleteStreamSeries (streamID : string) (m : metrics) : metrics :=
  let m := DeleteStreamState streamID m in
  let m := DeleteDedupSeries streamID m in
  let m := set_StreamRestarts (delete streamID) m in
  let m := set_EventsIngested (delete streamID) m in
  let m := set_EventsPublished (delete streamID) m in
  let m := set_BytesIngested (delete streamID) m in
  let m := set_BytesPublished (delete streamID) m in
  let m := set_Duration (delete streamID) m in
  set_EventsDropped (filter (fun kv => kv.1.1 <> streamID)) m.

(** ** What a registry says about one stream *)

(** No series carries the stream's label, the state gauge counting only the
    states of the closed set (nothing else is ever written to it). *)
Definition stream_absent (id : string) (m : metrics) : Prop :=
  EventsIngested m !! id = None /\ BytesIngested m !! id = None /\
  BytesPublished m !! id = None /\ EventsPublished m !! id = None /\
  EventProcessingDuration m !! id = None /\ DedupCacheSize m !! id = None /\
  DedupCacheCapacity m !! id = None /\ StreamRestarts m !! id = None /\
  DedupCacheEvictions m !! id = None /\
  (forall mw, EventsDropped m !! (id, mw) = None) /\
  (forall st, st ∈ streamStates -> StreamState m !! (id, st) = None).

(** Two registries agree on every series of one stream. *)
Definition same_stream (id : string) (m m' : metrics) : Prop :=
  EventsIngested m !! id = EventsIngested m' !! id /\
  BytesIngested m !! id = BytesIngested m' !! id /\
  BytesPublished m !! id = BytesPublished m' !! id /\
  EventsPublished m !! id = EventsPublished m' !! id /\
  EventProcessingDuration m !! id = EventProcessingDuration m' !! id /\
  DedupCacheSize m !! id = DedupCacheSize m' !! id /\
  DedupCacheCapacity m !! id = DedupCacheCapacity m' !! id /\
  StreamRestarts m !! id = StreamRestarts m' !! id /\
  DedupCacheEvictions m !! id = DedupCacheEvictions m' !! id /\
  (forall mw, EventsDropped m !! (id, mw) = EventsDropped m' !! (id, mw)) /\
  (forall st, StreamState m !! (id, st) = StreamState m' !! (id, st)).

(** The state gauge of a stream is one-hot on [current]. *)
Definition one_hot (id current : string) (m : metrics) : Prop :=
  forall st, st ∈ streamStates ->
    StreamState m !! (id, st) = Some (indicator current st).

(** Each gauge of a stream shows one of two states. *)
Definition old_or_new (id old new : string) (m : metrics) : Prop :=
  forall st, st ∈ streamStates ->
    StreamState m !! (id, st) = Some (indicator old st) \/ StreamState m !! (id, st) = Some (indicator new st).

Lemma set_gauge_mixed id old new state m : old_or_new id old new m -> old_or_new id old new (set_gauge id new state m).
Proof.
  intros H st Hst. unfold set_gauge. simpl. destruct (decide (st = state)) as [->|Hne].
  - right. apply lookup_insert_eq.
  - rewrite lookup_insert_ne by congruence. by apply H.
Qed.

Lemma SetStreamState_hot id cur m : one_hot id cur (SetStreamState id cur m).
Proof.
  intros st Hst. unfold SetStreamState. simpl.
  unfold streamStates in *. rewrite !elem_of_cons, elem_of_nil in Hst. simpl.
  destruct Hst as [->|[->|[->|[->|[]]]]]; rewrite !lookup_insert;
    repeat case_decide; simplify_eq; done.
Qed.

Lemma SetStreamState_other id id' cur m : id <> id' -> same_stream id' (SetStreamState id cur m) m.
Proof. intros Hne. unfold same_stream. simpl. repeat split; intros; rewrite ?lookup_insert_ne by congruence; done. Qed.

Lemma DeleteStreamSeries_absent id m : stream_absent id (DeleteStreamSeries id m).
Proof.
  unfold stream_absent, DeleteStreamSeries, DeleteDedupSeries, DeleteStreamState. simpl.
  repeat split; try apply lookup_delete_eq.
  - intros mw. apply map_lookup_filter_None. right. naive_solver.
  - intros st Hst. unfold streamStates in *. rewrite !elem_of_cons, elem_of_nil in Hst. simpl.
    destruct Hst as [->|[->|[->|[->|[]]]]]; rewrite !lookup_delete;
      repeat case_decide; simplify_eq; done.
Qed.

Lemma DeleteStreamSeries_other id id' m :
  id <> id' -> same_stream id' (DeleteStreamSeries id m) m.
Proof.
  intros Hne. unfold same_stream, DeleteStreamSeries, DeleteDedupSeries, DeleteStreamState. simpl.
  repeat split; intros; rewrite ?lookup_delete_ne by congruence; try done.
  apply option_eq. intros x. rewrite map_lookup_filter_Some. naive_solver.
Qed.

Lemma same_stream_refl id m : same_stream id m m.
Proof. by repeat split. Qed.

Lemma same_stream_trans id m1 m2 m3 :
  same_stream id m1 m2 -> same_stream id m2 m3 -> same_stream id m1 m3.
Proof.
  unfold same_stream. intros H1 H2. destruct_and!.
  repeat split; intros; etrans; eauto.
Qed.
Create HintDb telemetry.
#[export] Hint Resolve same_stream_refl : telemetry.
