(* ===== verification/ConfigError.v ===== *)
(** * Configuration errors

    One constructor per [fmt.Errorf] of the validators, carrying the arguments
    of its format: the JSON path where the code takes one, the offending value
    where the message quotes it. *)

From Stdlib Require Import ZArith.
From stdpp Require Import base tactics strings.
From S2P Require Import Prelude GoLib GoFloat.

#[local] Open Scope Z_scope.

Inductive cfg_error : Type :=
(* internal/pipeline/validate.go *)
| EDurationSyntax (path raw : string)
| EDurationNotPositive (path raw : string)
| ECountNotPositive (path : string) (raw : Z)
| ECountExceeds (path : string) (limit raw : Z)
| EFilterEmpty
| EFilterEmptyType (i : nat)
| ETransformEmpty
| ETransformEmptyKey
| ETransformEmptyPath (key : string)
| EEnrichEmpty
| EEnrichEmptyName
| EThresholdPathRequired
| EThresholdDeltaNegative (delta : float64)
(* internal/server/validate.go *)
| ERestartDurationSyntax (path raw : string)
| ERestartDurationNotPositive (path raw : string)
| EIdRequired
| EIdInvalid (id : string)
| EKindRequired
| EKindUnsupported (kind : string)
| ETopicRequired
| ETopicInvalid (topic : string)
| EUrlRequired (kind : string)
| EUrlInvalid (raw : string)
| EUrlHost
| EUrlWebsocketScheme
| EUrlHttpScheme (kind : string)
| EBlockDoesNotApply (block kind : string)
| EFrameEmpty (i : nat)
| EPollIntervalSyntax (raw : string)
| EPollIntervalTooShort (raw : string)
| EPollMethod (raw : string)
| EHeaderNameEmpty (path : string)
| EPortSyntax (path raw : string)
| EPortRange (path : string) (port : Z)
| EMaxAttemptsNegative
| EFactorTooSmall (factor : float64)
| EBackoffInverted (effectiveMax effectiveInitial : Z)
(* internal/server/manager.go, sourceFromConfig *)
| EUnsupportedKind (kind : string).

#[export] Instance cfg_error_eq_dec : EqDecision cfg_error.
Proof. solve_decision. Defined.
