(* ===== verification/PipelineConfig.v ===== *)
(** * internal/pipeline/validate.go

    Defaults, ceilings, the two resolvers every middleware constructor uses,
    and the validator that runs before any of them. *)

From Stdlib Require Import ZArith Lia.
From stdpp Require Import base tactics list strings gmap.
From S2P Require Import Prelude GoLib GoFloat GoTime Domain ConfigError.

#[local] Open Scope Z_scope.

Definition defaultDedupTTL : Z := 1 * minute.
Definition defaultDedupCacheSize : Z := 1000.
Definition defaultFlushInterval : Z := 1 * second.
Definition defaultMaxBatchSize : Z := 100.
Definition maxDedupCacheSize : Z := 1000000.
Definition maxBatchSize : Z := 100000.

Definition resolveDuration (path raw : string) (def : Z) : result cfg_error Z :=
  if str_is_empty raw then Ok def
  else match parse_duration raw with
       | None => Err (EDurationSyntax path raw)
       | Some parsed =>
           if parsed <=? 0 then Err (EDurationNotPositive path raw) else Ok parsed
       end.

Definition resolveCount (path : string) (raw def limit : Z) : result cfg_error Z :=
  if raw =? 0 then Ok def
  else if raw <? 0 then Err (ECountNotPositive path raw)
  else if limit <? raw then Err (ECountExceeds path limit raw)
  else Ok raw.

(** The position of the first empty entry: [for i, t := range ts { if t == "" ... }]. *)
Fixpoint first_empty (i : nat) (ts : list string) : option nat :=
  match ts with
  | [] => None
  | t :: ts' => if str_is_empty t then Some i else first_empty (S i) ts'
  end.

Definition validateFilter (f : FilterConfig) : result cfg_error unit :=
  fail_if (bool_decide (fc_MatchTypes f = [])) EFilterEmpty;;
  match first_empty 0 (fc_MatchTypes f) with
  | Some i => Err (EFilterEmptyType i)
  | None => Ok tt
  end.

(** Go ranges over the mapping in an unspecified order and reports the first
    bad entry it meets; the model meets them in [map_to_list] order, so which
    of two bad entries is named is this model's choice. *)
Fixpoint validateMappingEntries (kvs : list (string * string)) : result cfg_error unit :=
  match kvs with
  | [] => Ok tt
  | (key, path) :: kvs' =>
      fail_if (str_is_empty key) ETransformEmptyKey;;
      fail_if (str_is_empty path) (ETransformEmptyPath key);;
      validateMappingEntries kvs'
  end.

Definition validateTransform (t : TransformConfig) : result cfg_error unit :=
  fail_if (bool_decide (tc_Mapping t = ∅)) ETransformEmpty;;
  validateMappingEntries (map_to_list (tc_Mapping t)).

Definition validateEnrich (e : EnrichConfig) : result cfg_error unit :=
  fail_if (bool_decide (ec_Tags e = ∅)) EEnrichEmpty;;
  fail_if (bool_decide (is_Some (ec_Tags e !! EmptyString))) EEnrichEmptyName.

Definition validateDedup (d : DedupConfig) : result cfg_error unit :=
  resolveDuration "pipeline.dedup.ttl" (dc_TTL d) defaultDedupTTL ≫= fun _ =>
  resolveCount "pipeline.dedup.cache_size" (dc_CacheSize d) defaultDedupCacheSize
    maxDedupCacheSize ≫= fun _ => Ok tt.

Definition validateThreshold (t : ThresholdConfig) : result cfg_error unit :=
  fail_if (th_Enabled t && str_is_empty (th_Path t)) EThresholdPathRequired;;
  fail_if (flt (th_Delta t) (f_of_Z 0)) (EThresholdDeltaNegative (th_Delta t)).

Definition validateBatch (b : BatchConfig) : result cfg_error unit :=
  resolveDuration "pipeline.batch.flush_interval" (bc_FlushInterval b)
    defaultFlushInterval ≫= fun _ =>
  resolveCount "pipeline.batch.max_batch_size" (bc_MaxBatchSize b) defaultMaxBatchSize
    maxBatchSize ≫= fun _ => Ok tt.

(** [if x := cfg.X; x != nil { ... }] *)
Definition when_present {A} (x : option A) (check : A -> result cfg_error unit)
  : result cfg_error unit :=
  match x with None => Ok tt | Some a => check a end.

Definition ValidateConfig (cfg : option PipelineConfig) : result cfg_error unit :=
  match cfg with
  | None => Ok tt
  | Some c =>
      when_present (pc_Filter c) validateFilter;;
      when_present (pc_Transform c) validateTransform;;
      when_present (pc_Enrich c) validateEnrich;;
      when_present (pc_Dedup c) validateDedup;;
      when_present (pc_Threshold c) validateThreshold;;
      when_present (pc_Batch c) validateBatch
  end.

(** ** What the validator accepts *)

Lemma resolveCount_ok path raw def limit n :
  resolveCount path raw def limit = Ok n <->
  (raw = 0 /\ n = def) \/ (0 < raw <= limit /\ n = raw).
Proof.
  unfold resolveCount.
  destruct (Z.eqb_spec raw 0), (Z.ltb_spec raw 0), (Z.ltb_spec limit raw);
    split; intros; simplify_eq; try lia; try done.
  all: try (destruct_or?; destruct_and?; subst; try lia; done).
  all: try (right; split; [lia|done]). all: try (left; done).
Qed.

Lemma resolveCount_bounds path raw def limit n :
  0 < def <= limit -> resolveCount path raw def limit = Ok n -> 0 < n <= limit.
Proof. rewrite resolveCount_ok. lia. Qed.

Lemma resolveDuration_ok path raw def n :
  resolveDuration path raw def = Ok n <->
  (raw = EmptyString /\ n = def) \/
  (raw <> EmptyString /\ parse_duration raw = Some n /\ 0 < n).
Proof.
  unfold resolveDuration. destruct raw as [|c s]; simpl; [naive_solver|].
  destruct (parse_duration _) as [p|]; [|naive_solver].
  destruct (Z.leb_spec p 0); split; intros; destruct_or?; destruct_and?; simplify_eq; try lia;
    auto.
Qed.

Lemma resolveDuration_pos path raw def n :
  0 < def -> resolveDuration path raw def = Ok n -> 0 < n.
Proof. rewrite resolveDuration_ok. naive_solver. Qed.

(** A duration the operator wrote is used as written or refused: the default
    never replaces it. *)
Lemma resolveDuration_explicit path raw def n :
  raw <> EmptyString -> resolveDuration path raw def = Ok n ->
  parse_duration raw = Some n /\ 0 < n.
Proof. rewrite resolveDuration_ok. naive_solver. Qed.

Lemma first_empty_none i ts :
  first_empty i ts = None <-> Forall (fun t => t <> EmptyString) ts.
Proof.
  revert i. induction ts as [|t ts IH]; intros i; simpl; [by split; constructor|].
  rewrite Forall_cons. destruct t; simpl; [naive_solver|]. rewrite IH. naive_solver.
Qed.

Lemma validateMappingEntries_ok kvs :
  validateMappingEntries kvs = Ok tt <->
  Forall (fun kv => kv.1 <> EmptyString /\ kv.2 <> EmptyString) kvs.
Proof.
  induction kvs as [|[k p] kvs IH]; simpl; [by split; constructor|].
  rewrite Forall_cons. autorewrite with result. rewrite IH.
  destruct k, p; simpl; naive_solver.
Qed.

(** The contract an operator relies on, stated on the configuration alone. *)
Definition pipeline_wf (c : PipelineConfig) : Prop :=
  (forall f, pc_Filter c = Some f ->
     fc_MatchTypes f <> [] /\ Forall (fun t => t <> EmptyString) (fc_MatchTypes f)) /\
  (forall t, pc_Transform c = Some t ->
     tc_Mapping t <> ∅ /\
     map_Forall (fun k p => k <> EmptyString /\ p <> EmptyString) (tc_Mapping t)) /\
  (forall e, pc_Enrich c = Some e -> ec_Tags e <> ∅ /\ ec_Tags e !! EmptyString = None) /\
  (forall d, pc_Dedup c = Some d ->
     (dc_TTL d = EmptyString \/ exists n, parse_duration (dc_TTL d) = Some n /\ 0 < n) /\
     0 <= dc_CacheSize d <= maxDedupCacheSize) /\
  (forall t, pc_Threshold c = Some t ->
     (th_Enabled t = true -> th_Path t <> EmptyString) /\
     flt (th_Delta t) (f_of_Z 0) = false) /\
  (forall b, pc_Batch c = Some b ->
     (bc_FlushInterval b = EmptyString \/
      exists n, parse_duration (bc_FlushInterval b) = Some n /\ 0 < n) /\
     0 <= bc_MaxBatchSize b <= maxBatchSize).

Lemma when_present_ok {A} (x : option A) check :
  when_present x check = Ok tt <-> forall a, x = Some a -> check a = Ok tt.
Proof. destruct x; simpl; naive_solver. Qed.

Lemma resolveDuration_is_ok path raw def :
  (exists n, resolveDuration path raw def = Ok n) <->
  (raw = EmptyString \/ exists n, parse_duration raw = Some n /\ 0 < n).
Proof.
  setoid_rewrite resolveDuration_ok. split; [naive_solver|].
  intros [->|(n & Hn & Hp)]; [naive_solver|].
  exists n. right. split; [|done]. intros ->. vm_compute in Hn. done.
Qed.

Lemma resolveCount_is_ok path raw def limit :
  0 < limit ->
  (exists n, resolveCount path raw def limit = Ok n) <-> 0 <= raw <= limit.
Proof.
  intros Hl. setoid_rewrite resolveCount_ok. split.
  - intros (n & [[-> ->]|[? ->]]); lia.
  - intros H. destruct (decide (raw = 0)); [eauto|]. exists raw. right. split; [lia|done].
Qed.

Lemma validateDedup_ok d :
  validateDedup d = Ok tt <->
  (dc_TTL d = EmptyString \/ exists n, parse_duration (dc_TTL d) = Some n /\ 0 < n) /\
  0 <= dc_CacheSize d <= maxDedupCacheSize.
Proof.
  unfold validateDedup.
  rewrite <- (resolveDuration_is_ok "pipeline.dedup.ttl" _ defaultDedupTTL).
  rewrite <- (resolveCount_is_ok "pipeline.dedup.cache_size" _ defaultDedupCacheSize) by done.
  autorewrite with result. setoid_rewrite bind_ok. naive_solver.
Qed.

Lemma validateBatch_ok b :
  validateBatch b = Ok tt <->
  (bc_FlushInterval b = EmptyString \/
   exists n, parse_duration (bc_FlushInterval b) = Some n /\ 0 < n) /\
  0 <= bc_MaxBatchSize b <= maxBatchSize.
Proof.
  unfold validateBatch.
  rewrite <- (resolveDuration_is_ok "pipeline.batch.flush_interval" _ defaultFlushInterval).
  rewrite <- (resolveCount_is_ok "pipeline.batch.max_batch_size" _ defaultMaxBatchSize) by done.
  autorewrite with result. setoid_rewrite bind_ok. naive_solver.
Qed.

Lemma validateFilter_ok f :
  validateFilter f = Ok tt <->
  fc_MatchTypes f <> [] /\ Forall (fun t => t <> EmptyString) (fc_MatchTypes f).
Proof.
  unfold validateFilter. autorewrite with result.
  rewrite bool_decide_eq_false, <- (first_empty_none 0).
  destruct (first_empty 0 _); naive_solver.
Qed.

Lemma validateTransform_ok t :
  validateTransform t = Ok tt <->
  tc_Mapping t <> ∅ /\
  map_Forall (fun k p => k <> EmptyString /\ p <> EmptyString) (tc_Mapping t).
Proof.
  unfold validateTransform. autorewrite with result.
  rewrite bool_decide_eq_false, validateMappingEntries_ok, map_Forall_to_list.
  f_equiv. rewrite !Forall_forall. split; intros H [k p] Hin; apply (H (k, p) Hin).
Qed.

Lemma validateEnrich_ok e :
  validateEnrich e = Ok tt <-> ec_Tags e <> ∅ /\ ec_Tags e !! EmptyString = None.
Proof.
  unfold validateEnrich. autorewrite with result.
  rewrite !bool_decide_eq_false, eq_None_not_Some. done.
Qed.

Lemma validateThreshold_ok t :
  validateThreshold t = Ok tt <->
  (th_Enabled t = true -> th_Path t <> EmptyString) /\ flt (th_Delta t) (f_of_Z 0) = false.
Proof.
  unfold validateThreshold. autorewrite with result.
  destruct (th_Enabled t), (th_Path t); simpl; naive_solver.
Qed.

Lemma ValidateConfig_wf c : ValidateConfig (Some c) = Ok tt <-> pipeline_wf c.
Proof.
  unfold ValidateConfig, pipeline_wf. autorewrite with result. rewrite !when_present_ok.
  setoid_rewrite validateFilter_ok. setoid_rewrite validateTransform_ok.
  setoid_rewrite validateEnrich_ok. setoid_rewrite validateDedup_ok.
  setoid_rewrite validateThreshold_ok. setoid_rewrite validateBatch_ok. done.
Qed.
