(* ===== verification/GoJson.v ===== *)
(** * encoding/json: syntax

    A recursive-descent reading of the JSON grammar that the scanner of
    [encoding/json] accepts, its concrete syntax tree, and [json.Compact] as
    [json.Marshal] applies it to a [RawMessage] (white space removed, HTML
    characters and the two line separators escaped). *)

From Stdlib Require Import ZArith Lia Ascii.
From stdpp Require Import base tactics list strings option.
From S2P Require Import Prelude GoLib Domain.

#[local] Open Scope Z_scope.

(** Strings and numbers are kept as written: the bytes between the quotes, the
    literal's characters. *)
Inductive jtree : Type :=
| TNull
| TBool (b : bool)
| TNum (lit : string)
| TStr (raw : string)
| TArr (elems : list jtree)
| TObj (members : list (string * jtree)).

(** The automatic principle ignores the nested lists. *)
Section jtree_ind.
Variable P : jtree -> Prop.
Hypothesis Hnull : P TNull.
Hypothesis Hbool : forall b, P (TBool b).
Hypothesis Hnum : forall l, P (TNum l).
Hypothesis Hstr : forall r, P (TStr r).
Hypothesis Harr : forall l, Forall P l -> P (TArr l).
Hypothesis Hobj : forall l, Forall (fun kv => P kv.2) l -> P (TObj l).

Fixpoint jtree_ind' (t : jtree) : P t :=
  match t with
  | TNull => Hnull
  | TBool b => Hbool b
  | TNum l => Hnum l
  | TStr r => Hstr r
  | TArr l => Harr l ((fix go l : Forall P l :=
      match l with [] => List.Forall_nil _ | x :: l' => List.Forall_cons _ _ _ (jtree_ind' x) (go l') end) l)
  | TObj l => Hobj l ((fix go l : Forall (fun kv => P kv.2) l :=
      match l with [] => List.Forall_nil _ | (k, x) :: l' =>
        List.Forall_cons (fun kv => P kv.2) (k, x) l' (jtree_ind' x) (go l') end) l)
  end.
End jtree_ind.

(** ** Lexing *)

Definition is_ws (c : ascii) : bool :=
  let b := byte_val c in (b =? 32) || (b =? 9) || (b =? 13) || (b =? 10).

Fixpoint skip_ws (s : string) : string :=
  match s with
  | String c s' => if is_ws c then skip_ws s' else s
  | EmptyString => s
  end.

Definition is_hex (c : ascii) : bool := is_digit c || between 97 102 c || between 65 70 c.

Definition quote_char : ascii := byte_of 34.
Definition backslash : ascii := byte_of 92.

(** Characters allowed after a backslash, other than [u]. *)
Definition is_simple_escape (c : ascii) : bool :=
  let b := byte_val c in
  (b =? 98) || (b =? 102) || (b =? 110) || (b =? 114) || (b =? 116) ||
  (b =? 92) || (b =? 47) || (b =? 34).

(** The rest of a string literal, after its opening quote: its raw bytes and
    what follows the closing quote. *)
Fixpoint scan_string (s : string) : option (string * string) :=
  match s with
  | EmptyString => None
  | String c s' =>
      if bool_decide (c = quote_char) then Some (EmptyString, s')
      else if bool_decide (c = backslash) then
        match s' with
        | String d s'' =>
            if is_simple_escape d then
              '(raw, rest) ← scan_string s''; Some (String c (String d raw), rest)
            else if bool_decide (d = "u"%char) then
              match s'' with
              | String h1 (String h2 (String h3 (String h4 s3))) =>
                  if is_hex h1 && is_hex h2 && is_hex h3 && is_hex h4 then
                    '(raw, rest) ← scan_string s3;
                    Some (String c (String d (String h1 (String h2 (String h3 (String h4 raw))))), rest)
                  else None
              | _ => None
              end
            else None
        | EmptyString => None
        end
      else if byte_val c <? 32 then None
      else '(raw, rest) ← scan_string s'; Some (String c raw, rest)
  end.

Fixpoint scan_digits (s : string) : string * string :=
  match s with
  | String c s' => if is_digit c then let '(d, r) := scan_digits s' in (String c d, r)
                   else (EmptyString, s)
  | EmptyString => (EmptyString, s)
  end.

(** ["0"] or a nonzero digit and more digits. *)
Definition scan_int (s : string) : option (string * string) :=
  match s with
  | String c s' =>
      if bool_decide (c = "0"%char) then Some (String c EmptyString, s')
      else if is_digit c then let '(d, r) := scan_digits s' in Some (String c d, r)
      else None
  | EmptyString => None
  end.

Definition scan_frac (s : string) : option (string * string) :=
  match s with
  | String c s' =>
      if bool_decide (c = "."%char) then
        let '(d, r) := scan_digits s' in
        if str_is_empty d then None else Some (String c d, r)
      else Some (EmptyString, s)
  | EmptyString => Some (EmptyString, s)
  end.

Definition scan_exp (s : string) : option (string * string) :=
  match s with
  | String c s' =>
      if bool_decide (c = "e"%char) || bool_decide (c = "E"%char) then
        let '(sg, s1) := match s' with
                         | String x t => if bool_decide (x = "+"%char) || bool_decide (x = "-"%char)
                                         then (String x EmptyString, t) else (EmptyString, s')
                         | EmptyString => (EmptyString, s')
                         end in
        let '(d, r) := scan_digits s1 in
        if str_is_empty d then None else Some (String c (sg +:+ d)%string, r)
      else Some (EmptyString, s)
  | EmptyString => Some (EmptyString, s)
  end.

Definition scan_number (s : string) : option (string * string) :=
  let '(sg, s0) := match s with
                   | String x t => if bool_decide (x = "-"%char) then ("-"%string, t) else (EmptyString, s)
                   | EmptyString => (EmptyString, s)
                   end in
  '(i, s1) ← scan_int s0;
  '(f, s2) ← scan_frac s1;
  '(e, s3) ← scan_exp s2;
  Some (sg +:+ i +:+ f +:+ e, s3)%string.

(** ** Parsing *)

(** The scanner refuses nesting deeper than this. *)
Definition maxNestingDepth : Z := 10000.

Fixpoint scan_value (fuel : nat) (depth : Z) (s : string) {struct fuel} : option (jtree * string) :=
  match fuel with
  | O => None
  | S f =>
      match skip_ws s with
      | EmptyString => None
      | String c s' as s0 =>
          if bool_decide (c = quote_char) then
            '(raw, r) ← scan_string s'; Some (TStr raw, r)
          else if bool_decide (c = "{"%char) then
            if maxNestingDepth <? depth + 1 then None
            else match skip_ws s' with
                 | String d r => if bool_decide (d = "}"%char) then Some (TObj [], r)
                                 else '(ms, r) ← scan_members f (depth + 1) (String d r);
                                      Some (TObj ms, r)
                 | EmptyString => None
                 end
          else if bool_decide (c = "["%char) then
            if maxNestingDepth <? depth + 1 then None
            else match skip_ws s' with
                 | String d r => if bool_decide (d = "]"%char) then Some (TArr [], r)
                                 else '(es, r) ← scan_elems f (depth + 1) (String d r);
                                      Some (TArr es, r)
                 | EmptyString => None
                 end
          else match cut_prefix "null" s0 with
               | Some r => Some (TNull, r)
               | None =>
                   match cut_prefix "true" s0 with
                   | Some r => Some (TBool true, r)
                   | None =>
                       match cut_prefix "false" s0 with
                       | Some r => Some (TBool false, r)
                       | None => '(lit, r) ← scan_number s0; Some (TNum lit, r)
                       end
                   end
               end
      end
  end
with scan_elems (fuel : nat) (depth : Z) (s : string) {struct fuel} : option (list jtree * string) :=
  match fuel with
  | O => None
  | S f =>
      '(v, s1) ← scan_value f depth s;
      match skip_ws s1 with
      | String c r =>
          if bool_decide (c = "]"%char) then Some ([v], r)
          else if bool_decide (c = ","%char) then
            '(vs, r) ← scan_elems f depth r; Some (v :: vs, r)
          else None
      | EmptyString => None
      end
  end
with scan_members (fuel : nat) (depth : Z) (s : string) {struct fuel}
  : option (list (string * jtree) * string) :=
  match fuel with
  | O => None
  | S f =>
      match skip_ws s with
      | String q s0 =>
          if bool_decide (q = quote_char) then
            '(k, s1) ← scan_string s0;
            match skip_ws s1 with
            | String col s2 =>
                if bool_decide (col = ":"%char) then
                  '(v, s3) ← scan_value f depth s2;
                  match skip_ws s3 with
                  | String c r =>
                      if bool_decide (c = "}"%char) then Some ([(k, v)], r)
                      else if bool_decide (c = ","%char) then
                        '(vs, r) ← scan_members f depth r; Some ((k, v) :: vs, r)
                      else None
                  | EmptyString => None
                  end
                else None
            | EmptyString => None
            end
          else None
      | EmptyString => None
      end
  end.

(** Every level of nesting reads a bracket, and every element at least one
    byte, so two units of fuel per byte are enough. *)
Definition json_fuel (s : string) : nat := S (S (2 * String.length s)).

(** A whole document: one value and white space. *)
Definition parse_json (s : string) : option jtree :=
  '(t, r) ← scan_value (json_fuel s) 0 s;
  if str_is_empty (skip_ws r) then Some t else None.

(** [json.Valid] *)
Definition json_valid (s : string) : bool := bool_decide (is_Some (parse_json s)).

(** ** Printing without white space *)

Definition hex_digit (d : Z) : ascii := if d <? 10 then byte_of (48 + d) else byte_of (87 + d).

(** The escape of a byte below 128: four hex digits. *)
Definition u_escape (b : Z) (rest : string) : string :=
  String backslash (String "u" (String "0" (String "0"
    (String (hex_digit (b / 16)) (String (hex_digit (b mod 16)) rest))))).

(** [appendCompact] with [escape] on: the HTML characters and U+2028, U+2029. *)
Fixpoint html_escape (raw : string) : string :=
  match raw with
  | EmptyString => EmptyString
  | String c s' =>
      let b := byte_val c in
      if (b =? 60) || (b =? 62) || (b =? 38) then u_escape b (html_escape s')
      else if b =? 226 then
        match s' with
        | String c2 (String c3 s'') =>
            if (byte_val c2 =? 128) && (Z.land (byte_val c3) (Z.lnot 1) =? 168) then
              String backslash (String "u" (String "2" (String "0" (String "2"
                (String (hex_digit (Z.land (byte_val c3) 15)) (html_escape s''))))))
            else String c (html_escape s')
        | _ => String c (html_escape s')
        end
      else String c (html_escape s')
  end.

Definition quoted (raw : string) : string := String quote_char (raw +:+ String quote_char "")%string.

Fixpoint print_json (f : string -> string) (t : jtree) : string :=
  match t with
  | TNull => "null"
  | TBool true => "true"
  | TBool false => "false"
  | TNum lit => lit
  | TStr raw => quoted (f raw)
  | TArr es => String "[" (join "," (print_json f <$> es) +:+ "]")
  | TObj ms =>
      String "{" (join "," ((fun kv => (quoted (f kv.1) +:+ String ":" (print_json f kv.2))%string) <$> ms)
                    +:+ "}")
  end%string.

(** What [json.Marshal] emits for a [RawMessage]: nil prints as [null], anything
    else is compacted, and refused when it is not one JSON value. *)
Definition marshal_raw (m : RawMessage) : option string :=
  match m with
  | None => Some "null"%string
  | Some s => print_json html_escape <$> parse_json s
  end.

(** [json.Marshal] of a [[]json.RawMessage]. *)
Definition marshal_raws (ms : list RawMessage) : option string :=
  ws ← mapM marshal_raw ms;
  Some (String "[" (join "," ws +:+ "]"))%string.

(** JSON text written with single quotes, for the examples. *)
Definition js (s : string) : string :=
  str_map (fun c => if bool_decide (c = "'"%char) then quote_char else c) s.

Example parse_nested :
  parse_json (js " {'a': [1, -2.5e+3 , 'x\u00e9'], 'b':null} ") =
  Some (TObj [("a", TArr [TNum "1"; TNum "-2.5e+3"; TStr "x\u00e9"]); ("b", TNull)])%string.
Proof. vm_compute. reflexivity. Qed.
Example parse_trailing : parse_json "{} x" = None.
Proof. vm_compute. reflexivity. Qed.
Example parse_leading_zero : parse_json "01" = None.
Proof. vm_compute. reflexivity. Qed.
Example marshal_two : marshal_raws [Some (js " { 'k' : '<b>' } "); None] =
  Some (js "[{'k':'\u003cb\u003e'},null]").
Proof. vm_compute. reflexivity. Qed.

(** [json.Marshal] of a list of messages fails only when one of them is not
    valid JSON. *)
Lemma marshal_raw_some m :
  is_Some (marshal_raw m) <-> (forall s, m = Some s -> json_valid s = true).
Proof.
  unfold json_valid. setoid_rewrite bool_decide_eq_true.
  destruct m as [s|]; simpl; [|naive_solver].
  rewrite fmap_is_Some. naive_solver.
Qed.

Lemma marshal_raws_some ms :
  is_Some (marshal_raws ms) <->
  Forall (fun m => forall s, m = Some s -> json_valid s = true) ms.
Proof.
  unfold marshal_raws. setoid_rewrite <- marshal_raw_some.
  rewrite <- (mapM_is_Some marshal_raw). split.
  - intros [x Hx]. apply bind_Some in Hx as (ws & Hws & _). eauto.
  - intros [ws Hws]. rewrite Hws. by eexists.
Qed.
