(* ===== verification/GoJsonPrint.v ===== *)
(** * encoding/json: reading back what was printed

    The scanner of [GoJson] on the output of its printer: a tree whose strings and
    numbers are literals of the grammar is parsed back to itself, whatever follows
    it.  What the program encodes, it decodes through this. *)

From Stdlib Require Import ZArith Lia Ascii.
From stdpp Require Import base tactics option strings list.
From S2P Require Import Prelude GoLib GoJson.

#[local] Open Scope Z_scope.

(** ** Literals *)

Definition raw_ok (raw : string) : bool :=
  bool_decide (scan_string (raw +:+ String quote_char "") = Some (raw, ""))%string.

Definition num_ok (lit : string) : bool :=
  bool_decide (scan_number lit = Some (lit, EmptyString)).

(** What may follow a number without becoming part of it. *)
Definition ends_number (rest : string) : bool :=
  match rest with
  | String c _ => negb (is_digit c || bool_decide (c = "."%char) || bool_decide (c = "e"%char)
                        || bool_decide (c = "E"%char))
  | EmptyString => true
  end.

(** Strings end where they end, whatever comes after. *)
Lemma scan_string_app s : forall raw r t,
  scan_string s = Some (raw, r) -> scan_string (s +:+ t)%string = Some (raw, r +:+ t)%string.
Proof.
  induction s as [s IH] using (induction_ltof1 _ String.length). unfold ltof in IH.
  intros raw r t H. destruct s as [|c s']; [done|]. autorewrite with gostr. cbn [scan_string] in *.
  case_bool_decide as Hq; [by injection H as <- <-|]. case_bool_decide as Hb.
  - destruct s' as [|d s'']; [done|]. autorewrite with gostr.
    destruct (is_simple_escape d).
    + apply bind_Some in H as ([raw1 r1] & Hs & [= <- <-]).
      rewrite (IH s'' ltac:(simpl; lia) raw1 r1 t Hs). done.
    + case_bool_decide as Hu; [|done].
      destruct s'' as [|h1 [|h2 [|h3 [|h4 s3]]]]; try done. autorewrite with gostr.
      destruct (_ && _); [|done]. apply bind_Some in H as ([raw1 r1] & Hs & [= <- <-]).
      rewrite (IH s3 ltac:(simpl; lia) raw1 r1 t Hs). done.
  - destruct (byte_val c <? 32); [done|].
    apply bind_Some in H as ([raw1 r1] & Hs & [= <- <-]).
    rewrite (IH s' ltac:(simpl; lia) raw1 r1 t Hs). done.
Qed.

Lemma scan_quoted raw t :
  raw_ok raw = true -> scan_string (raw +:+ String quote_char t)%string = Some (raw, t).
Proof.
  unfold raw_ok. rewrite bool_decide_eq_true. intros H.
  apply (scan_string_app _ _ _ t) in H. rewrite str_app_assoc in H. exact H.
Qed.

(** Digits stop at the first byte that is not one. *)
Lemma scan_digits_app s : forall d r t,
  scan_digits s = (d, r) -> (r = EmptyString -> ends_number t = true) ->
  scan_digits (s +:+ t)%string = (d, r +:+ t)%string.
Proof.
  induction s as [|c s IH]; intros d r t H Ht.
  - injection H as <- <-. rewrite !str_app_nil. specialize (Ht eq_refl).
    destruct t as [|c t]; [done|]. simpl in *. by destruct (is_digit c).
  - autorewrite with gostr. cbn [scan_digits] in *. destruct (is_digit c).
    + destruct (scan_digits s) as [d1 r1] eqn:E. injection H as <- <-. by rewrite (IH d1 r1 t eq_refl Ht).
    + injection H as <- <-. done.
Qed.

Lemma ends_number_head c t :
  ends_number (String c t) = true ->
  is_digit c = false /\ c <> "."%char /\ c <> "e"%char /\ c <> "E"%char.
Proof. simpl. rewrite negb_true_iff, !orb_false_iff, !bool_decide_eq_false. tauto. Qed.

Lemma scan_int_app s d r t :
  scan_int s = Some (d, r) -> (r = EmptyString -> ends_number t = true) ->
  scan_int (s +:+ t)%string = Some (d, r +:+ t)%string.
Proof.
  unfold scan_int. destruct s as [|c s]; [done|]. autorewrite with gostr. intros H Ht.
  case_bool_decide; [by injection H as <- <-|]. destruct (is_digit c); [|done].
  destruct (scan_digits s) as [d1 r1] eqn:E. injection H as <- <-.
  by rewrite (scan_digits_app s d1 r1 t E Ht).
Qed.

Lemma scan_frac_app s d r t :
  scan_frac s = Some (d, r) -> (r = EmptyString -> ends_number t = true) ->
  scan_frac (s +:+ t)%string = Some (d, r +:+ t)%string.
Proof.
  unfold scan_frac. destruct s as [|c s].
  - intros [= <- <-] Ht. specialize (Ht eq_refl). rewrite !str_app_nil.
    destruct t as [|c t]; [done|]. apply ends_number_head in Ht as (_ & Hd & _).
    by rewrite bool_decide_false.
  - autorewrite with gostr. intros H Ht. case_bool_decide; [|by injection H as <- <-].
    destruct (scan_digits s) as [d1 r1] eqn:E. destruct (str_is_empty d1) eqn:Ed; [done|].
    injection H as <- <-. by rewrite (scan_digits_app s d1 r1 t E Ht), Ed.
Qed.

Lemma scan_exp_app s d r t :
  scan_exp s = Some (d, r) -> (r = EmptyString -> ends_number t = true) ->
  scan_exp (s +:+ t)%string = Some (d, r +:+ t)%string.
Proof.
  unfold scan_exp. destruct s as [|c s].
  - intros [= <- <-] Ht. specialize (Ht eq_refl). rewrite !str_app_nil.
    destruct t as [|c t]; [done|]. apply ends_number_head in Ht as (_ & _ & He & HE).
    by rewrite !bool_decide_false.
  - autorewrite with gostr. intros H Ht. destruct (_ || _); [|by injection H as <- <-].
    destruct s as [|x s]; [done|]. autorewrite with gostr. destruct (_ || _).
    + destruct (scan_digits s) as [d1 r1] eqn:E. destruct (str_is_empty d1) eqn:Ed; [done|].
      injection H as <- <-. by rewrite (scan_digits_app s d1 r1 t E Ht), Ed.
    + destruct (scan_digits (String x s)) as [d1 r1] eqn:E. destruct (str_is_empty d1) eqn:Ed; [done|].
      injection H as <- <-. rewrite <- str_app_cons. by rewrite (scan_digits_app _ d1 r1 t E Ht), Ed.
Qed.

Lemma scan_number_app s d t :
  scan_number s = Some (d, EmptyString) -> ends_number t = true ->
  scan_number (s +:+ t)%string = Some (d, t).
Proof.
  unfold scan_number. intros H Ht.
  assert (Hgo : forall sg s0,
    ('(i, s1) ← scan_int s0; '(f, s2) ← scan_frac s1; '(e, s3) ← scan_exp s2;
     Some (sg +:+ i +:+ f +:+ e, s3)%string) = Some (d, EmptyString) ->
    ('(i, s1) ← scan_int (s0 +:+ t); '(f, s2) ← scan_frac s1; '(e, s3) ← scan_exp s2;
     Some (sg +:+ i +:+ f +:+ e, s3))%string = Some (d, t)).
  { intros sg s0 Hs. apply bind_Some in Hs as ([i s1] & Hi & Hs).
    apply bind_Some in Hs as ([f s2] & Hf & Hs). apply bind_Some in Hs as ([e s3] & He & [= <- ->]).
    rewrite (scan_int_app s0 i s1 t Hi ltac:(done)). simpl.
    rewrite (scan_frac_app s1 f s2 t Hf ltac:(done)). simpl.
    by rewrite (scan_exp_app s2 e EmptyString t He ltac:(done)). }
  destruct s as [|x s].
  - discriminate H.
  - autorewrite with gostr. case_bool_decide; [by apply (Hgo "-"%string)|].
    rewrite <- str_app_cons. by apply (Hgo EmptyString).
Qed.

(** ** Trees *)

Fixpoint tree_ok (t : jtree) : bool :=
  match t with
  | TNull | TBool _ => true
  | TNum lit => num_ok lit
  | TStr raw => raw_ok raw
  | TArr es => forallb tree_ok es
  | TObj ms => forallb (fun kv => raw_ok kv.1 && tree_ok kv.2) ms
  end.

Fixpoint nesting (t : jtree) : Z :=
  match t with
  | TArr es => 1 + foldr Z.max 0 (nesting <$> es)
  | TObj ms => 1 + foldr Z.max 0 ((fun kv => nesting kv.2) <$> ms)
  | _ => 0
  end.

Abbreviation print := (print_json (fun raw => raw)).

Definition print_member (kv : string * jtree) : string := (quoted kv.1 +:+ String ":" (print kv.2))%string.

(** A value starts with a byte the scanner does not skip, and which is neither a
    closing bracket nor a comma. *)
Definition value_start (c : ascii) : bool :=
  negb (is_ws c) && negb (bool_decide (c = "]"%char)) && negb (bool_decide (c = "}"%char)).

Lemma number_start lit :
  num_ok lit = true -> exists c s, lit = String c s /\ (is_digit c = true \/ c = "-"%char).
Proof.
  unfold num_ok, scan_number. rewrite bool_decide_eq_true. destruct lit as [|c s]; [done|]. intros H.
  exists c, s. split; [done|]. case_bool_decide; [by right|]. left. simpl in H.
  case_bool_decide; [by subst|]. by destruct (is_digit c).
Qed.

Lemma digit_start c : is_digit c = true \/ c = "-"%char ->
  value_start c = true /\ c <> quote_char /\ c <> "{"%char /\ c <> "["%char /\
  c <> "n"%char /\ c <> "t"%char /\ c <> "f"%char.
Proof.
  intros [Hd| ->]; [|by vm_compute].
  unfold is_digit, between in Hd. apply andb_true_iff in Hd as [H1 H2].
  apply Z.leb_le in H1, H2.
  assert (Hne : forall d, byte_val d < 48 \/ 57 < byte_val d -> c <> d) by (intros d Hd ->; lia).
  unfold value_start, is_ws. split_and!; try (apply Hne; vm_compute; intuition congruence).
  rewrite !(bool_decide_false (c = _)) by (apply Hne; vm_compute; intuition congruence).
  repeat (rewrite (proj2 (Z.eqb_neq _ _)) by lia). done.
Qed.

Lemma print_start t : tree_ok t = true ->
  exists c s, print t = String c s /\ value_start c = true.
Proof.
  destruct t as [|[]|lit|raw|es|ms]; intros Ht; simpl; try (eexists _, _; split; [reflexivity|by vm_compute]).
  destruct (number_start lit Ht) as (c & s & -> & Hc). exists c, s. split; [done|]. by apply digit_start.
Qed.

Lemma skip_ws_start c s : is_ws c = false -> skip_ws (String c s) = String c s.
Proof. intros H. simpl. by rewrite H. Qed.

Lemma value_start_ws c : value_start c = true -> is_ws c = false /\ c <> "]"%char /\ c <> "}"%char.
Proof.
  unfold value_start. rewrite !andb_true_iff, !negb_true_iff, !bool_decide_eq_false. tauto.
Qed.

(** ** The scanner on a printed tree *)

Lemma forallb_Forall {A} (f : A -> bool) l : forallb f l = true -> Forall (fun x => f x = true) l.
Proof. induction l; simpl; [constructor|]. rewrite andb_true_iff. intros [? ?]. by constructor; auto. Qed.

Definition scans (t : jtree) : Prop := forall fuel depth rest,
  (2 * String.length (print t) <= fuel + 1)%nat -> depth + nesting t <= maxNestingDepth ->
  ends_number rest = true -> scan_value fuel depth (print t +:+ rest)%string = Some (t, rest).

Lemma string_length_app (s t : string) :
  String.length (s +:+ t)%string = (String.length s + String.length t)%nat.
Proof. induction s as [|c s IH]; autorewrite with gostr; simpl; [done|]. by rewrite IH. Qed.

Lemma join_cons2 {A} (f : A -> string) x y l :
  join "," (f <$> x :: y :: l) = (f x +:+ String "," (join "," (f <$> y :: l)))%string.
Proof. done. Qed.

Lemma max_nonneg l : 0 <= foldr Z.max 0 l.
Proof. induction l; simpl; lia. Qed.

Lemma nesting_bound {A} (f : A -> Z) l d m :
  d + foldr Z.max 0 (f <$> l) <= m -> Forall (fun x => d + f x <= m) l.
Proof.
  induction l as [|x l IH]; [constructor|]. rewrite fmap_cons. simpl. intros H.
  constructor; [lia|apply IH; lia].
Qed.

Lemma scan_elems_print es : Forall scans es -> Forall (fun t => tree_ok t = true) es -> es <> [] ->
  forall fuel depth rest, (2 * String.length (join "," (print <$> es)) <= fuel)%nat ->
  Forall (fun t => depth + nesting t <= maxNestingDepth) es ->
  scan_elems fuel depth (join "," (print <$> es) +:+ String "]" rest)%string = Some (es, rest).
Proof.
  induction 1 as [|t es Ht Hes IH]; [done|]. intros Hok _ fuel depth rest Hf Hd.
  apply Forall_cons in Hok as [Hok1 Hok]. apply Forall_cons in Hd as [Hd1 Hd].
  destruct (print_start t Hok1) as (c0 & s0 & Hp0 & _).
  destruct fuel as [|f].
  { rewrite fmap_cons in Hf. rewrite Hp0 in Hf. destruct es; simpl in Hf; lia. }
  cbn [scan_elems]. destruct es as [|t2 es].
  - simpl in *. rewrite (Ht f depth (String "]" rest)) by (simpl in *; lia || done). done.
  - rewrite join_cons2 in *. rewrite string_length_app in Hf. cbn [String.length] in Hf.
    rewrite str_app_assoc, str_app_cons.
    rewrite (Ht f depth) by (lia || done). cbn [mbind option_bind].
    rewrite skip_ws_start by done. rewrite bool_decide_false by done. rewrite bool_decide_true by done. rewrite (IH Hok ltac:(done) f depth rest) by (lia || done). done.
Qed.

Lemma scan_members_print ms :
  Forall (fun kv => scans kv.2) ms -> Forall (fun kv => raw_ok kv.1 && tree_ok kv.2 = true) ms -> ms <> [] ->
  forall fuel depth rest, (2 * String.length (join "," (print_member <$> ms)) <= fuel)%nat ->
  Forall (fun kv => depth + nesting kv.2 <= maxNestingDepth) ms ->
  scan_members fuel depth (join "," (print_member <$> ms) +:+ String "}" rest)%string = Some (ms, rest).
Proof.
  induction 1 as [|[k v] ms Hv Hms IH]; [done|]. intros Hok _ fuel depth rest Hf Hd.
  apply Forall_cons in Hok as [Hok1 Hok]. apply Forall_cons in Hd as [Hd1 Hd].
  apply andb_true_iff in Hok1 as [Hk Hokv]. simpl in Hv, Hk, Hokv, Hd1.
  assert (Hlen : String.length (print_member (k, v)) = (String.length k + String.length (print v) + 3)%nat).
  { unfold print_member, quoted. simpl. rewrite !string_length_app. simpl. lia. }
  destruct fuel as [|f].
  { rewrite fmap_cons in Hf. destruct ms; simpl join in Hf; rewrite ?string_length_app in Hf;
      rewrite Hlen in Hf; lia. }
  assert (Hone : forall tail, ends_number tail = true -> (2 * String.length (print v) <= f + 1)%nat ->
    scan_string (k +:+ String quote_char (String ":" (print v +:+ tail)))%string
      = Some (k, String ":" (print v +:+ tail)) /\
    scan_value f depth (print v +:+ tail)%string = Some (v, tail)).
  { intros tail Ht Hfl. split; [by apply scan_quoted|by apply Hv]. }
  assert (Hshape : forall tail, (print_member (k, v) +:+ tail =
    String quote_char (k +:+ String quote_char (String ":" (print v +:+ tail))))%string).
  { intros tail. unfold print_member, quoted. simpl. autorewrite with gostr.
    rewrite !str_app_assoc. autorewrite with gostr. done. }
  cbn [scan_members]. destruct ms as [|m2 ms].
  - simpl join in *. rewrite Hlen in Hf. rewrite Hshape.
    destruct (Hone (String "}" rest) eq_refl ltac:(lia)) as [H1 H2].
    rewrite skip_ws_start by done. rewrite bool_decide_true by done. rewrite H1. simpl. rewrite H2. done.
  - rewrite join_cons2 in *. rewrite string_length_app, Hlen in Hf.
    cbn [String.length] in Hf. rewrite str_app_assoc, str_app_cons, Hshape.
    match goal with |- context [String "," ?tl] => destruct (Hone (String "," tl) eq_refl ltac:(lia)) as [H1 H2] end.
    rewrite skip_ws_start by done. rewrite bool_decide_true by done. rewrite H1. cbn [mbind option_bind].
    rewrite skip_ws_start by done. rewrite bool_decide_true by done. rewrite H2. cbn [mbind option_bind].
    rewrite skip_ws_start by done. rewrite bool_decide_false by done. rewrite bool_decide_true by done. rewrite (IH Hok ltac:(done) f depth rest) by (lia || done). done.
Qed.

Lemma scans_number lit : tree_ok (TNum lit) = true -> scans (TNum lit).
Proof.
  intros Hok fuel depth rest Hf Hd Hr.
  simpl in Hok. destruct (number_start lit Hok) as (c & s & -> & Hc).
  destruct (digit_start c Hc) as (Hs & Hq & Hb & Hsq & Hn & Ht & Hfa).
  destruct fuel as [|f]; [simpl in Hf; lia|]. simpl print_json. cbn [scan_value].
  rewrite str_app_cons. apply value_start_ws in Hs as [Hws _]. rewrite skip_ws_start by done.
  rewrite !bool_decide_false by done. cbn [cut_prefix]. rewrite !bool_decide_false by congruence.
  apply bool_decide_eq_true in Hok. rewrite <- str_app_cons.
  by rewrite (scan_number_app _ _ rest Hok Hr).
Qed.

Lemma scans_array es : Forall (fun t => tree_ok t = true -> scans t) es -> tree_ok (TArr es) = true -> scans (TArr es).
Proof.
  intros IH Hok fuel depth rest Hf Hd Hr.
  simpl in Hok. apply forallb_Forall in Hok.
  destruct fuel as [|f]; [simpl in Hf; lia|]. simpl print_json in *.
  rewrite str_app_cons, str_app_assoc, str_app_cons, str_app_nil. cbn [scan_value].
  rewrite skip_ws_start by done. rewrite !(bool_decide_false _) by done. rewrite (bool_decide_true ("["%char = "["%char)) by done.
  cbn [nesting] in Hd. pose proof (nesting_bound nesting es (depth + 1) maxNestingDepth ltac:(lia)) as Hd'.
  destruct (Z.ltb_spec maxNestingDepth (depth + 1)) as [Hlt|_].
  { pose proof (max_nonneg (nesting <$> es)). lia. }
  simpl String.length in Hf. rewrite string_length_app in Hf. simpl String.length in Hf.
  destruct es as [|t es]; [done|].
  assert (exists c s, join "," (print <$> t :: es) = String c s /\ value_start c = true) as (c & s & Hj & Hc).
  { apply Forall_cons in Hok as [Hok1 _]. destruct (print_start t Hok1) as (c & s & Hp & Hc).
    exists c. rewrite fmap_cons, Hp. destruct es; eexists; split; reflexivity || done. }
  rewrite Hj in *. rewrite str_app_cons. apply value_start_ws in Hc as (Hws & Hc1 & Hc2).
  rewrite skip_ws_start by done. rewrite bool_decide_false by done.
  rewrite <- str_app_cons, <- Hj. rewrite <- Hj in Hf.
  assert (Forall scans (t :: es)) as Hsc.
  { clear -IH Hok. induction IH; [done|]. apply Forall_cons in Hok as [? ?]. constructor; auto. }
  rewrite (scan_elems_print (t :: es) Hsc Hok ltac:(done) f (depth + 1) rest) by (lia || done). done.
Qed.

Lemma scans_object ms :
  Forall (fun kv => tree_ok kv.2 = true -> scans kv.2) ms -> tree_ok (TObj ms) = true -> scans (TObj ms).
Proof.
  intros IH Hok fuel depth rest Hf Hd Hr.
  simpl in Hok.
  assert (Hok' : Forall (fun kv => raw_ok kv.1 && tree_ok kv.2 = true) ms).
  { by apply forallb_Forall in Hok. }
  destruct fuel as [|f]; [simpl in Hf; lia|]. simpl print_json in *. fold print_member in *.
  rewrite str_app_cons, str_app_assoc, str_app_cons, str_app_nil. cbn [scan_value].
  rewrite skip_ws_start by done. rewrite !(bool_decide_false _) by done. rewrite (bool_decide_true ("{"%char = "{"%char)) by done.
  cbn [nesting] in Hd.
  pose proof (nesting_bound (fun kv => nesting kv.2) ms (depth + 1) maxNestingDepth ltac:(lia)) as Hd'.
  destruct (Z.ltb_spec maxNestingDepth (depth + 1)) as [Hlt|_].
  { pose proof (max_nonneg ((fun kv => nesting kv.2) <$> ms)). lia. }
  simpl String.length in Hf. rewrite string_length_app in Hf. simpl String.length in Hf.
  destruct ms as [|kv ms]; [done|].
  assert (exists s, join "," (print_member <$> kv :: ms) = String quote_char s) as (s & Hj).
  { rewrite fmap_cons. unfold print_member at 1, quoted. destruct ms; eexists; reflexivity. }
  change ((fun kv0 => (quoted kv0.1 +:+ String ":" (print kv0.2))%string) <$> kv :: ms)
    with (print_member <$> kv :: ms) in *.
  rewrite Hj in *. rewrite str_app_cons.
  rewrite skip_ws_start by done. rewrite bool_decide_false by done.
  rewrite <- str_app_cons, <- Hj. rewrite <- Hj in Hf.
  assert (Forall (fun kv => scans kv.2) (kv :: ms)) as Hsc.
  { clear -IH Hok'. induction IH; [done|]. apply Forall_cons in Hok' as [H1 ?].
    apply andb_true_iff in H1 as [_ H1]. constructor; auto. }
  rewrite (scan_members_print (kv :: ms) Hsc Hok' ltac:(done) f (depth + 1) rest) by (lia || done). done.
Qed.

Lemma scan_print t : tree_ok t = true -> scans t.
Proof.
  induction t as [|b|lit|raw|es IH|ms IH] using jtree_ind'; intros Hok.
  - intros [|f] depth rest Hf Hd Hr; [simpl in Hf; lia|]. done.
  - intros [|f] depth rest Hf Hd Hr; [destruct b; simpl in Hf; lia|]. by destruct b.
  - by apply scans_number.
  - intros [|f] depth rest Hf Hd Hr; [simpl in Hf; lia|]. simpl print_json. unfold quoted.
    rewrite str_app_cons, str_app_assoc, str_app_cons, str_app_nil. cbn [scan_value].
    rewrite skip_ws_start by done. rewrite bool_decide_true by done. by rewrite (scan_quoted raw rest Hok).
  - by apply scans_array.
  - by apply scans_object.
Qed.

(** Printing, then parsing, is the identity on trees of literals. *)
Lemma parse_print t :
  tree_ok t = true -> nesting t <= maxNestingDepth -> parse_json (print t) = Some t.
Proof.
  intros Hok Hn. unfold parse_json, json_fuel.
  rewrite <- (str_app_empty_r (print t)) at 2.
  rewrite (scan_print t Hok _ 0 EmptyString) by (lia || done). done.
Qed.
