(* ===== verification/GoFloatText.v ===== *)
(** * Package strconv: floats and their text

    A float printed with its shortest decimal, in either notation, reads back as
    itself, and what is printed is a number of the JSON grammar. *)

From Stdlib Require Import ZArith Lia Ascii.
From stdpp Require Import base tactics strings option list.
From S2P Require Import Prelude GoLib GoFloat GoRound GoUrl GoNumber GoDecimal.
From S2P Require Import GoJson GoJsonPrint.

#[local] Open Scope Z_scope.

(** ** Digits *)

Definition all_digits (s : string) : bool := str_forallb is_digit s.

(** The value of digits read after [acc]. *)
Fixpoint digits_value (acc : Z) (s : string) : Z :=
  match s with
  | EmptyString => acc
  | String c s' => digits_value (acc * 10 + digit_val c) s'
  end.

Lemma digits_value_app acc s t : digits_value acc (s +:+ t)%string = digits_value (digits_value acc s) t.
Proof. revert acc. induction s as [|c s IH]; intros acc; autorewrite with gostr; [done|]. apply IH. Qed.

Lemma digit_val_range c : is_digit c = true -> 0 <= digit_val c <= 9.
Proof. unfold is_digit, between, digit_val. rewrite andb_true_iff. lia. Qed.

Lemma digits_value_shift s : forall acc,
  digits_value acc s = acc * 10 ^ str_length s + digits_value 0 s.
Proof.
  induction s as [|c s IH]; intros acc; cbn [digits_value str_length]; [lia|].
  rewrite IH, (IH (0 * 10 + digit_val c)), Z.pow_add_r by (pose proof (str_length_nonneg s); lia). lia.
Qed.

Lemma digits_value_bound s : all_digits s = true -> 0 <= digits_value 0 s < 10 ^ str_length s.
Proof.
  induction s as [|c s IH]; [simpl; lia|]. intros [Hc Hs]%andb_true_iff. specialize (IH Hs).
  cbn [digits_value str_length].
  pose proof (digit_val_range c Hc). rewrite digits_value_shift, Z.pow_add_r by (pose proof (str_length_nonneg s); lia). nia.
Qed.

Lemma digits_value_mono s acc : all_digits s = true -> 0 <= acc -> acc <= digits_value acc s.
Proof.
  revert acc. induction s as [|c s IH]; intros acc; simpl; [lia|]. intros [Hc Hs]%andb_true_iff Ha.
  pose proof (digit_val_range c Hc). specialize (IH (acc * 10 + digit_val c) Hs). lia.
Qed.

Lemma parse_digits_value s : forall acc v,
  parse_digits acc s = Some v -> all_digits s = true /\ digits_value acc s = v.
Proof.
  induction s as [|c s IH]; intros acc v; simpl; [intros [= ->]; done|].
  destruct (is_digit c) eqn:Hc; [|done]. intros H. unfold all_digits. simpl. rewrite Hc. by apply IH.
Qed.

Lemma utoa_digits n : 0 <= n ->
  all_digits (utoa n) = true /\ digits_value 0 (utoa n) = n /\ str_is_empty (utoa n) = false.
Proof.
  intros Hn. destruct (parse_digits_value _ _ _ (parse_utoa n Hn)) as [H1 H2]. split; [done|]. split; [done|].
  unfold utoa. destruct (udigits_shape (S (Z.to_nat (Z.log2 n))) n "") as (c & s & -> & _); [lia..|done].
Qed.

Lemma digits_pad_spec nd : forall D acc, 0 <= D < 10 ^ Z.of_nat nd ->
  all_digits (digits_pad nd D acc) = all_digits acc /\
  (forall a, digits_value a (digits_pad nd D acc) = digits_value (a * 10 ^ Z.of_nat nd + D) acc) /\
  str_length (digits_pad nd D acc) = Z.of_nat nd + str_length acc.
Proof.
  induction nd as [|nd IH]; intros D acc HD; cbn [digits_pad].
  - simpl in HD. split; [done|]. split; [|lia]. intros a. f_equal. simpl. lia.
  - rewrite Nat2Z.inj_succ, Z.pow_succ_r in HD by lia. pose proof (Z.div_mod D 10 ltac:(lia)).
    pose proof (Z.mod_pos_bound D 10 ltac:(lia)). destruct (digit_char_ok (D mod 10)) as [Hd Hv]; [lia|].
    destruct (IH (D / 10) (String (digit_char (D mod 10)) acc)) as (H1 & H2 & H3); [lia|].
    split; [rewrite H1; unfold all_digits; simpl; by rewrite Hd|]. split.
    + intros a. rewrite H2. simpl. rewrite Hv. f_equal. rewrite Nat2Z.inj_succ, Z.pow_succ_r by lia. lia.
    + rewrite H3. simpl. lia.
Qed.

Lemma zeros_spec n : all_digits (zeros n) = true /\ (forall a, digits_value a (zeros n) = a * 10 ^ Z.of_nat n) /\
  str_length (zeros n) = Z.of_nat n.
Proof.
  induction n as [|n (H1 & H2 & H3)]; cbn [zeros]; [split; [done|split; [|done]]; intros; simpl; lia|].
  split; [exact H1|]. split.
  - intros a. cbn [digits_value]. change (digit_val "0") with 0. rewrite H2, Nat2Z.inj_succ, Z.pow_succ_r by lia. lia.
  - cbn [str_length]. lia.
Qed.

(** ** Numbers as text: an integer part, a fraction, an exponent *)

Record numtext : Type := mkText { t_int : string; t_frac : string; t_exp : option (bool * string) }.

Definition render (t : numtext) : string :=
  (t_int t +:+
   (if str_is_empty (t_frac t) then EmptyString else String "." (t_frac t)) +:+
   match t_exp t with
   | None => EmptyString
   | Some (eneg, digits) => String "e" (String (if eneg then "-"%char else "+"%char) digits)
   end)%string.

Definition exp_value (t : numtext) : Z :=
  match t_exp t with
  | None => 0
  | Some (eneg, digits) => let v := digits_value 0 digits in if eneg then - v else v
  end.

Definition text_ok (t : numtext) : bool :=
  all_digits (t_int t) && all_digits (t_frac t)
  && match t_int t with
     | EmptyString => false
     | String c s => str_is_empty s || negb (bool_decide (c = "0"%char))
     end
  && match t_exp t with
     | None => true
     | Some (_, digits) => all_digits digits && negb (str_is_empty digits) && (digits_value 0 digits <? 10000)
     end.

(** What the text denotes. *)
Definition text_float (neg : bool) (t : numtext) : float64 :=
  let f := decimal_float (digits_value (digits_value 0 (t_int t)) (t_frac t)) (exp_value t - str_length (t_frac t)) in
  if neg then fneg f else f.

(** *** Reading it *)

Definition stops (s : string) : bool :=
  match s with EmptyString => true | String c _ => bool_decide (c = "."%char) || bool_decide (c = "e"%char) end.

Lemma digit_plain c : is_digit c = true ->
  c <> "_"%char /\ c <> "."%char /\ c <> "e"%char /\ c <> "E"%char /\ c <> "-"%char /\ c <> "+"%char /\
  lower_byte c = c /\ hex_or_digit 10 c = Some (digit_val c).
Proof.
  intros Hd. assert (Hne : forall x, is_digit x = false -> c <> x) by (intros x Hx ->; congruence).
  split_and!; try (by apply Hne).
  - unfold lower_byte, is_digit, is_upper, between in *. apply andb_true_iff in Hd as [H1 H2].
    apply Z.leb_le in H1, H2. destruct (Z.leb_spec 65 (byte_val c)); [lia|done].
  - unfold hex_or_digit. by rewrite Hd.
Qed.

Lemma read_mantissa_digits s : forall man frac dot saw rest, all_digits s = true ->
  read_mantissa 10 man frac dot saw false (s +:+ rest)%string
  = read_mantissa 10 (digits_value man s) (if dot then frac + str_length s else frac) dot
      (saw || negb (str_is_empty s)) false rest.
Proof.
  induction s as [|c s IH]; intros man frac dot saw rest Hs; autorewrite with gostr.
  - simpl. rewrite orb_false_r. by destruct dot; rewrite ?Z.add_0_r.
  - simpl in Hs. apply andb_true_iff in Hs as [Hc Hs]. destruct (digit_plain c Hc) as (N1 & N2 & _ & _ & _ & _ & _ & Hx).
    cbn [read_mantissa]. rewrite !bool_decide_false by done. rewrite Hx, IH by done. simpl. rewrite orb_true_r.
    f_equal. destruct dot; lia.
Qed.

Lemma read_mantissa_stops s man frac dot saw : stops s = true -> (dot = true -> has_prefix "." s = false) ->
  (dot = false -> has_prefix "." s = false) ->
  read_mantissa 10 man frac dot saw false s = Some (man, frac, saw, false, s).
Proof.
  intros H H1 H2. destruct s as [|c s]; [done|]. simpl in H. apply orb_true_iff in H as [H|H]; apply bool_decide_eq_true in H as ->.
  - destruct dot; [specialize (H1 eq_refl)|specialize (H2 eq_refl)]; done.
  - done.
Qed.

Lemma read_exponent_digits s : forall e saw, all_digits s = true -> 0 <= e -> digits_value e s < 10000 ->
  read_exponent e saw false s = (digits_value e s, saw || negb (str_is_empty s), false, EmptyString).
Proof.
  induction s as [|c s IH]; intros e saw Hs He Hv; [simpl; by rewrite orb_false_r|].
  simpl in Hs. apply andb_true_iff in Hs as [Hc Hs]. destruct (digit_plain c Hc) as (N1 & _).
  cbn [read_exponent]. rewrite bool_decide_false, Hc by done. simpl in Hv. pose proof (digit_val_range c Hc).
  pose proof (digits_value_mono s (e * 10 + digit_val c) Hs ltac:(lia)).
  rewrite (proj2 (Z.ltb_lt e 10000)) by lia. rewrite IH by (done || lia). simpl. by rewrite orb_true_r.
Qed.

Lemma read_text t : text_ok t = true ->
  read_mantissa 10 0 0 false false false (render t)
  = Some (digits_value (digits_value 0 (t_int t)) (t_frac t), str_length (t_frac t), true, false,
          match t_exp t with
          | None => EmptyString
          | Some (eneg, digits) => String "e" (String (if eneg then "-"%char else "+"%char) digits)
          end).
Proof.
  unfold text_ok, render. destruct t as [I F E]. cbn [t_int t_frac t_exp]. rewrite !andb_true_iff. intros [[[HI HF] HI2] HE].
  set (tail := match E with None => _ | Some _ => _ end).
  assert (Ht : stops tail = true /\ has_prefix "." tail = false) by (unfold tail; by destruct E as [[[] ?]|]).
  destruct Ht as [Ht1 Ht2]. rewrite read_mantissa_digits by done.
  assert (negb (str_is_empty I) = true) as -> by (by destruct I). cbn [orb].
  destruct (str_is_empty F) eqn:EF.
  - destruct F; [|done]. rewrite str_app_nil. by rewrite read_mantissa_stops.
  - rewrite str_app_cons. cbn [read_mantissa]. rewrite bool_decide_false, bool_decide_true by done.
    rewrite read_mantissa_digits by done. rewrite EF. cbn [negb orb]. by rewrite read_mantissa_stops.
Qed.

(** Nothing in it looks like a base prefix. *)
Definition plain_char (c : ascii) : bool :=
  is_digit c || bool_decide (c = "."%char) || bool_decide (c = "e"%char) || bool_decide (c = "+"%char) || bool_decide (c = "-"%char).

Lemma plain_not_x c : plain_char c = true -> lower_byte c <> "x"%char.
Proof.
  unfold plain_char. rewrite !orb_true_iff, !bool_decide_eq_true.
  intros [[[[H|H]|H]|H]|H]; [|by subst; vm_compute..].
  destruct (digit_plain c H) as (_ & _ & _ & _ & _ & _ & -> & _). intros ->. done.
Qed.

Lemma all_digits_plain s : all_digits s = true -> str_forallb plain_char s = true.
Proof.
  induction s as [|c s IH]; [done|]. simpl. intros [Hc Hs]%andb_true_iff. rewrite IH by done.
  unfold plain_char. by rewrite Hc.
Qed.

Lemma render_plain t : text_ok t = true -> str_forallb plain_char (render t) = true.
Proof.
  unfold text_ok, render. destruct t as [I F E]. cbn [t_int t_frac t_exp]. rewrite !andb_true_iff. intros [[[HI HF] HI2] HE].
  rewrite !str_forallb_app, (all_digits_plain I) by done. cbn [andb]. apply andb_true_iff. split.
  - destruct (str_is_empty F); [done|]. simpl. by apply all_digits_plain.
  - destruct E as [[[] digits]|]; [..|done]; rewrite !andb_true_iff in HE; destruct HE as [[HE _] _];
      simpl; by apply all_digits_plain.
Qed.

Lemma render_start t : text_ok t = true -> exists c s, render t = String c s /\ is_digit c = true.
Proof.
  unfold text_ok, render. destruct t as [I F E]. cbn [t_int t_frac t_exp]. rewrite !andb_true_iff. intros [[[HI HF] HI2] HE].
  destruct I as [|c I]; [done|]. simpl in HI. apply andb_true_iff in HI as [Hc _].
  eexists c, _. split; [reflexivity|done].
Qed.

Lemma special_none neg c s : is_digit c = true -> parse_special (with_sign neg (String c s)) = None.
Proof.
  intros Hc. destruct (digit_plain c Hc) as (_ & _ & _ & _ & N1 & N2 & Hl & _).
  assert (Hne : forall x t, is_digit x = false -> forall u, str_eqb (String c u) (String x t) = false).
  { intros x t Hx u. apply bool_decide_eq_false. intros [= -> _]. congruence. }
  unfold parse_special, lower_string. destruct neg.
  - cbn [with_sign str_map]. change (lower_byte "-") with "-"%char. cbn [cut_sign]. rewrite bool_decide_true by done.
    rewrite Hl, !Hne by done. done.
  - cbn [with_sign str_map]. rewrite Hl. cbn [cut_sign]. rewrite !bool_decide_false by done.
    by rewrite !Hne.
Qed.

Lemma cut_sign_with neg c s : is_digit c = true -> cut_sign (with_sign neg (String c s)) = (neg, String c s).
Proof.
  intros Hc. destruct (digit_plain c Hc) as (_ & _ & _ & _ & N1 & N2 & _ & _).
  destruct neg; cbn [with_sign cut_sign]; [by rewrite bool_decide_true|by rewrite !bool_decide_false].
Qed.

(** What the text says is what is read, infinities being range errors. *)
Lemma parse_text neg t : text_ok t = true ->
  parse_float (with_sign neg (render t))
  = match text_float neg t with FInf _ => None | f => Some f end.
Proof.
  intros Hok. destruct (render_start t Hok) as (c & s & Hr & Hc).
  pose proof (render_plain t Hok) as Hplain. pose proof (read_text t Hok) as Hread.
  unfold parse_float. rewrite Hr, special_none by done. unfold parse_finite. rewrite cut_sign_with by done.
  assert ((match String c s with
           | String z (String x (String c0 rest)) =>
               if bool_decide (z = "0"%char) && bool_decide (lower_byte x = "x"%char)
               then (16, String c0 rest) else (10, String c s)
           | _ => (10, String c s)
           end) = (10, String c s)) as ->.
  { rewrite Hr in Hplain. destruct s as [|x [|y s]]; [done..|]. simpl in Hplain.
    apply andb_true_iff in Hplain as [_ [Hx _]%andb_true_iff].
    by rewrite (bool_decide_false (lower_byte x = _)), andb_false_r by (by apply plain_not_x). }
  rewrite <- Hr, Hread. cbn [mbind option_bind negb].
  assert (Hf : forall man e, (if 0 <=? e then fround neg (man * 10 ^ e) 1 else fround neg man (10 ^ (- e)))
    = (if neg then fneg (decimal_float man e) else decimal_float man e)).
  { intros man e. unfold decimal_float. destruct neg; destruct (0 <=? e); by rewrite ?fround_neg. }
  unfold text_float, exp_value. unfold text_ok in Hok. destruct (t_exp t) as [[eneg digits]|].
  - rewrite !andb_true_iff in Hok. destruct Hok as [_ [[He1 He2] He3]]. apply Z.ltb_lt in He3.
    change (lower_byte "e") with "e"%char. change (10 =? 16) with false. cbv iota. rewrite bool_decide_true by done.
    assert (cut_sign (String (if eneg then "-"%char else "+"%char) digits) = (eneg, digits)) as -> by (by destruct eneg).
    rewrite read_exponent_digits by done. rewrite orb_false_l, He2.
    assert (has_prefix "_" digits = false) as Hu.
    { destruct digits as [|x digits]; [done|]. apply bool_decide_eq_false. simpl in He1 |- *.
      apply andb_true_iff in He1 as [Hx _]. destruct (digit_plain x Hx) as (N & _).
      rewrite bool_decide_false by done. by intros []. }
    cbn [snd]. rewrite Hu. cbn. rewrite Hf. by destruct neg, (decimal_float _ _).
  - cbn. rewrite Hf. by destruct neg, (decimal_float _ _).
Qed.

(** *** It is a number of the JSON grammar *)

Lemma scan_digits_whole s rest : all_digits s = true ->
  (match rest with EmptyString => True | String c _ => is_digit c = false end) ->
  scan_digits (s +:+ rest)%string = (s, rest).
Proof.
  intros Hs Hr. induction s as [|c s IH]; autorewrite with gostr.
  - destruct rest as [|c rest]; [done|]. simpl. by rewrite Hr.
  - simpl in Hs. apply andb_true_iff in Hs as [Hc Hs]. cbn [scan_digits]. by rewrite Hc, IH.
Qed.

Lemma text_num_ok neg t : text_ok t = true -> num_ok (with_sign neg (render t)) = true.
Proof.
  intros Hok. destruct (render_start t Hok) as (c0 & s0 & Hr & Hc0).
  unfold num_ok. apply bool_decide_eq_true. unfold scan_number.
  assert (Hsign : (match with_sign neg (render t) with
                   | String x t0 => if bool_decide (x = "-"%char) then ("-"%string, t0) else (EmptyString, with_sign neg (render t))
                   | EmptyString => (EmptyString, with_sign neg (render t))
                   end) = ((if neg then "-" else "")%string, render t)).
  { destruct (digit_plain c0 Hc0) as (_ & _ & _ & _ & N1 & _). rewrite Hr.
    destruct neg; cbn [with_sign]; [by rewrite bool_decide_true|by rewrite bool_decide_false]. }
  rewrite Hsign. clear Hsign Hr. unfold text_ok in Hok. unfold render. destruct t as [I F E]. cbn [t_int t_frac t_exp] in *.
  rewrite !andb_true_iff in Hok. destruct Hok as [[[HI HF] HI2] HE].
  set (tail := match E with None => _ | Some _ => _ end).
  set (frac := if str_is_empty F then EmptyString else String "." F).
  assert (Htail : match tail with EmptyString => True | String c _ => is_digit c = false /\ c <> "."%char end).
  { unfold tail. by destruct E as [[[] ?]|]. }
  assert (Hint : scan_int (I +:+ frac +:+ tail)%string = Some (I, (frac +:+ tail)%string)).
  { destruct I as [|c I]; [done|]. simpl in HI. apply andb_true_iff in HI as [Hc HI].
    autorewrite with gostr. cbn [scan_int]. case_bool_decide as Hz.
    - subst c. rewrite orb_false_r in HI2. destruct I; [|done]. by autorewrite with gostr.
    - rewrite Hc, scan_digits_whole; [done|done|]. unfold frac. destruct F; [|done]. simpl.
      destruct tail; [done|]. by destruct Htail. }
  rewrite Hint. cbn [mbind option_bind].
  assert (Hfr : scan_frac (frac +:+ tail)%string = Some (frac, tail)).
  { unfold frac. destruct F as [|c F]; simpl str_is_empty; cbv iota.
    - rewrite str_app_nil. unfold scan_frac. destruct tail as [|c tl]; [done|]. by rewrite bool_decide_false by apply Htail.
    - autorewrite with gostr. unfold scan_frac. rewrite bool_decide_true by done.
      rewrite <- str_app_cons, scan_digits_whole; [done|done|]. destruct tail; [done|]. by destruct Htail. }
  rewrite Hfr. cbn [mbind option_bind].
  assert (Hex : scan_exp tail = Some (tail, EmptyString)).
  { unfold tail. destruct E as [[eneg digits]|]; [|done]. rewrite !andb_true_iff in HE. destruct HE as [[HE1 HE2] _].
    unfold scan_exp. rewrite (bool_decide_true ("e"%char = "e"%char)) by done. cbn [orb].
    assert (bool_decide ((if eneg then "-"%char else "+"%char) = "+"%char)
            || bool_decide ((if eneg then "-"%char else "+"%char) = "-"%char) = true) as -> by (by destruct eneg).
    pose proof (scan_digits_whole digits EmptyString HE1 Logic.I) as Hs. rewrite str_app_empty_r in Hs.
    rewrite Hs. by destruct digits. }
  rewrite Hex. cbn [mbind option_bind]. do 2 f_equal. destruct neg; [|done]. by autorewrite with gostr.
Qed.

(** ** The two notations *)

(** Digits as [shortest] leaves them: exactly [nd], the first not zero. *)
Definition decimal_wf (x : decimal) : Prop :=
  1 <= d_nd x /\ 10 ^ (d_nd x - 1) <= d_digits x < 10 ^ d_nd x.

Lemma decimal_digits_spec x : decimal_wf x ->
  exists c s, decimal_digits x = String c s /\ c <> "0"%char /\ all_digits (String c s) = true /\
    digits_value 0 (String c s) = d_digits x /\ str_length (String c s) = d_nd x.
Proof.
  intros [Hnd HD]. unfold decimal_digits.
  destruct (digits_pad_spec (Z.to_nat (d_nd x)) (d_digits x) EmptyString) as (H1 & H2 & H3).
  { rewrite Z2Nat.id by lia. assert (0 <= 10 ^ (d_nd x - 1)) by (apply Z.pow_nonneg; lia). lia. }
  rewrite Z2Nat.id in * by lia. specialize (H2 0). rewrite Z.mul_0_l, Z.add_0_l in H2.
  rewrite Z.add_0_r in H3. cbn [digits_value] in H2. revert H1 H2 H3. generalize (digits_pad (Z.to_nat (d_nd x)) (d_digits x) EmptyString).
  intros ds H1 H2 H3. destruct ds as [|c s]; [simpl in H3; lia|].
  exists c, s. split; [done|]. split; [|split; [done|split; [done|done]]].
  intros ->. cbn [digits_value str_length] in H2, H3. pose proof (digits_value_bound s H1) as Hb.
  replace (str_length s) with (d_nd x - 1) in Hb by lia. change (0 * 10 + digit_val "0") with 0 in H2. lia.
Qed.

Lemma substring_split s : forall k, (k <= String.length s)%nat ->
  exists a b, String.substring 0 k s = a /\ String.substring k (String.length s - k) s = b /\
    s = (a +:+ b)%string /\ str_length a = Z.of_nat k.
Proof.
  induction s as [|c s IH]; intros k Hk.
  - simpl in Hk. destruct k; [|lia]. by exists EmptyString, EmptyString.
  - destruct k as [|k].
    + exists EmptyString, (String c s). simpl. split; [done|]. split; [|done]. f_equal.
      clear. induction s as [|x s IH]; [done|]. simpl. by rewrite IH.
    + simpl in Hk. destruct (IH k ltac:(lia)) as (a & b & H1 & H2 & H3 & H4).
      exists (String c a), b. simpl. rewrite H1, H2. split; [done|]. split; [done|].
      autorewrite with gostr. rewrite <- H3. split; [done|lia].
Qed.

Lemma str_length_nat s : str_length s = Z.of_nat (String.length s).
Proof. induction s as [|c s IH]; cbn [str_length String.length]; lia. Qed.

(** A text of the decimal [x]: well formed, and of its value. *)
Definition text_of (x : decimal) (s : string) : Prop :=
  exists t, s = render t /\ text_ok t = true /\
    decimal_float (digits_value (digits_value 0 (t_int t)) (t_frac t)) (exp_value t - str_length (t_frac t))
    = decimal_float (d_digits x) (d_dp x - d_nd x).

Lemma fmt_f_text x : decimal_wf x -> text_of x (fmt_f x).
Proof.
  intros Hx. destruct (decimal_digits_spec x Hx) as (c & s & Hds & Hc & Hall & Hv & Hlen).
  destruct Hx as [Hnd HD]. unfold fmt_f. rewrite Hds.
  assert (HD0 : 0 <= d_digits x) by (assert (0 <= 10 ^ (d_nd x - 1)) by (apply Z.pow_nonneg; lia); lia).
  destruct (Z.leb_spec (d_dp x) 0) as [Hdp|Hdp]; [|destruct (Z.leb_spec (d_nd x) (d_dp x)) as [Hle|Hlt]].
  - destruct (zeros_spec (Z.to_nat (- d_dp x))) as (Z1 & Z2 & Z3).
    exists (mkText "0" (zeros (Z.to_nat (- d_dp x)) +:+ String c s) None). unfold render, text_ok, exp_value. cbn [t_int t_frac t_exp].
    split; [|split].
    + assert (str_is_empty (zeros (Z.to_nat (- d_dp x)) +:+ String c s)%string = false) as ->
        by (destruct (zeros _); by autorewrite with gostr).
      by rewrite str_app_empty_r.
    + unfold all_digits in *. rewrite str_forallb_app, Z1, Hall. done.
    + rewrite digits_value_app, Z2, str_length_app, Z3, Hlen, Z2Nat.id by lia.
      change (digits_value 0 "0") with 0. rewrite Z.mul_0_l, Hv. f_equal. lia.
  - destruct (zeros_spec (Z.to_nat (d_dp x - d_nd x))) as (Z1 & Z2 & Z3).
    exists (mkText (String c s +:+ zeros (Z.to_nat (d_dp x - d_nd x))) EmptyString None). unfold render, text_ok, exp_value. cbn [t_int t_frac t_exp].
    split; [|split].
    + cbn [str_is_empty]. by rewrite str_app_nil, str_app_empty_r.
    + unfold all_digits in *. rewrite str_forallb_app, Z1, Hall. rewrite str_app_cons, (bool_decide_false (c = _)) by done.
      by rewrite orb_true_r.
    + rewrite digits_value_app, Z2, Hv, Z2Nat.id by lia. cbn [digits_value str_length].
      rewrite decimal_float_shift by lia. f_equal.
  - pose proof (str_length_nat (String c s)) as Hl.
    destruct (substring_split (String c s) (Z.to_nat (d_dp x))) as (a & b & Ha & Hb & Hab & Hla); [lia|].
    rewrite Ha, Hb. exists (mkText a b None). unfold render, text_ok, exp_value. cbn [t_int t_frac t_exp].
    rewrite Hab in *. rewrite str_length_app in Hlen. unfold all_digits in *. rewrite str_forallb_app in Hall. apply andb_true_iff in Hall as [A1 A2].
    split; [|split].
    + assert (str_is_empty b = false) as -> by (destruct b; [simpl in Hlen; lia|done]). by rewrite str_app_empty_r.
    + rewrite A1, A2. destruct a as [|c' a']; [simpl in Hla; lia|].
      assert (c' = c) as -> by (rewrite str_app_cons in Hab; congruence).
      rewrite (bool_decide_false (c = _)) by done. by rewrite orb_true_r.
    + rewrite <- digits_value_app, Hv. f_equal. lia.
Qed.

(** The exponent's digits, with or without the zero in front of a single one. *)
Lemma fmt_e_text x pad : decimal_wf x -> Z.abs (d_dp x - 1) < 10000 ->
  all_digits pad = true -> digits_value 0 pad = 0 ->
  text_of x
    ((match decimal_digits x with
      | String c EmptyString => String c EmptyString
      | String c rest => String c (String "." rest)
      | EmptyString => EmptyString
      end) +:+ String "e" (String (if (d_dp x - 1 <? 0)%Z then "-"%char else "+"%char) (pad +:+ utoa (Z.abs (d_dp x - 1)))))%string.
Proof.
  intros Hx Hexp Hpad Hpv. destruct (decimal_digits_spec x Hx) as (c & s & -> & Hc & Hall & Hv & Hlen).
  destruct (utoa_digits (Z.abs (d_dp x - 1)) ltac:(lia)) as (U1 & U2 & U3).
  exists (mkText (String c EmptyString) s (Some ((d_dp x - 1 <? 0), (pad +:+ utoa (Z.abs (d_dp x - 1)))%string))).
  unfold render, text_ok, exp_value. cbn [t_int t_frac t_exp]. split; [|split].
  - destruct s; by autorewrite with gostr.
  - unfold all_digits in *. simpl in Hall. apply andb_true_iff in Hall as [A1 A2].
    rewrite str_forallb_app, Hpad, U1, digits_value_app, Hpv, U2. simpl. rewrite A1, A2.
    rewrite (proj2 (Z.ltb_lt _ _)) by lia. destruct pad; [by rewrite str_app_nil, U3|done].
  - rewrite digits_value_app, Hpv, U2. change (digits_value (digits_value 0 (String c "")) s) with (digits_value 0 (String c s)).
    rewrite Hv. f_equal. cbn [str_length] in Hlen. destruct (Z.ltb_spec (d_dp x - 1) 0); lia.
Qed.

Lemma cut_not_in sep a b : str_forallb (fun c => negb (bool_decide (c = sep))) a = true ->
  cut sep (a +:+ String sep b)%string = (a, Some b).
Proof.
  induction a as [|c a IH]; autorewrite with gostr.
  - intros _. simpl. by rewrite bool_decide_true.
  - simpl. intros [Hc Ha]%andb_true_iff. rewrite IH by done. by destruct (bool_decide (c = sep)).
Qed.

(** ** The round trip *)

(** Every finite number of the format, whatever its sign. *)
Lemma format_json_text neg m e : 0 < m -> canonical (FFin neg m e) = true ->
  exists s, format_json (FFin neg m e) = Some (with_sign neg s) /\ text_of (shortest m e) s.
Proof.
  intros Hm Hc. unfold format_json. rewrite (proj2 (Z.eqb_neq m 0)) by lia.
  destruct (shortest_identifies neg m e Hm Hc) as [H1 H2 H3 H4]. set (x := shortest m e) in *.
  assert (Hwf : decimal_wf x) by (split; [lia|done]).
  destruct (_ || _) eqn:Ebig; [|eexists; split; [reflexivity|by apply fmt_f_text]].
  eexists. split; [reflexivity|]. destruct (Z.ltb_spec (Z.abs (d_dp x - 1)) 10) as [Hsmall|Hlarge].
  - pose proof (fmt_e_text x EmptyString Hwf ltac:(lia) eq_refl eq_refl) as Ht. unfold fmt_e.
    set (mant := match decimal_digits x with EmptyString => _ | String _ _ => _ end) in *.
    assert (Hmant : str_forallb (fun c => negb (bool_decide (c = "e"%char))) mant = true).
    { unfold mant. destruct (decimal_digits_spec x Hwf) as (c & s & -> & _ & Hall & _).
      assert (Hd : forall u, all_digits u = true -> str_forallb (fun c => negb (bool_decide (c = "e"%char))) u = true).
      { induction u as [|y u IH]; [done|]. simpl. intros [Hy Hu]%andb_true_iff. rewrite IH by done.
        destruct (digit_plain y Hy) as (_ & _ & N & _). by rewrite bool_decide_false. }
      specialize (Hd _ Hall). by destruct s. }
    rewrite cut_not_in by done. rewrite (proj2 (Z.ltb_lt _ 10)) by lia. exact Ht.
  - unfold fmt_e. rewrite (proj2 (Z.ltb_ge _ 10)) by lia. by apply fmt_e_text; [|lia|..].
Qed.

Lemma format_g_text neg m e : 0 < m -> canonical (FFin neg m e) = true ->
  exists s, format_g (FFin neg m e) = with_sign neg s /\ text_of (shortest m e) s.
Proof.
  intros Hm Hc. unfold format_g. rewrite (proj2 (Z.eqb_neq m 0)) by lia.
  destruct (shortest_identifies neg m e Hm Hc) as [H1 H2 H3 H4]. set (x := shortest m e) in *.
  assert (Hwf : decimal_wf x) by (split; [lia|done]).
  destruct (_ || _); eexists; (split; [reflexivity|]); [|by apply fmt_f_text].
  unfold fmt_e. by apply fmt_e_text; [|lia|destruct (_ <? _)..].
Qed.

Lemma text_reads_back neg m e s : 0 < m -> canonical (FFin neg m e) = true -> text_of (shortest m e) s ->
  parse_float (with_sign neg s) = Some (FFin neg m e) /\ num_ok (with_sign neg s) = true.
Proof.
  intros Hm Hc (t & -> & Hok & Hv). split; [|by apply text_num_ok].
  destruct (shortest_identifies neg m e Hm Hc) as [_ _ H3 _].
  rewrite parse_text by done. unfold text_float. rewrite Hv, H3. by destruct neg.
Qed.

Lemma canonical_cases x : canonical x = true ->
  exists neg m e, x = FFin neg m e /\ (m = 0 /\ e = 0 \/ 0 < m).
Proof.
  destruct x as [|neg|neg m e]; [done..|]. intros H. exists neg, m, e. split; [done|].
  unfold canonical in H. rewrite orb_true_iff, !andb_true_iff in H. lia.
Qed.

(** Encoded as JSON, every finite float is a number of the grammar, and decodes to
    itself. *)
Lemma float_json_roundtrip x : canonical x = true ->
  exists lit, format_json x = Some lit /\ num_ok lit = true /\ parse_float lit = Some x.
Proof.
  intros H. destruct (canonical_cases x H) as (neg & m & e & -> & [[-> ->]|Hm]).
  - destruct neg; eexists; (split; [reflexivity|split; by vm_compute]).
  - destruct (format_json_text neg m e Hm H) as (s & Hs & Ht).
    destruct (text_reads_back neg m e s Hm H Ht) as [H1 H2]. by exists (with_sign neg s).
Qed.

(** Printed with [fmt.Sprint], it reads back too. *)
Lemma float_print_roundtrip x : canonical x = true -> parse_float (format_g x) = Some x.
Proof.
  intros H. destruct (canonical_cases x H) as (neg & m & e & -> & [[-> ->]|Hm]).
  - by destruct neg; vm_compute.
  - destruct (format_g_text neg m e Hm H) as (s & -> & Ht). by apply text_reads_back.
Qed.

(** What a number of the JSON grammar reads as, when it is in range, is finite and
    of the format. *)
Lemma read_mantissa_nonneg base s : 0 <= base -> forall man frac dot saw under man' frac' saw' under' rest,
  read_mantissa base man frac dot saw under s = Some (man', frac', saw', under', rest) -> 0 <= man -> 0 <= man'.
Proof.
  intros Hb. induction s as [|c s IH]; intros man frac dot saw under man' frac' saw' under' rest H Hm; cbn [read_mantissa] in H.
  - by simplify_eq.
  - case_bool_decide; [by eapply IH|]. case_bool_decide; [destruct dot; [by simplify_eq|by eapply IH]|].
    destruct (hex_or_digit base c) as [v|] eqn:E; [|by simplify_eq]. eapply IH; [exact H|].
    unfold hex_or_digit in E. destruct (is_digit c) eqn:Hc.
    + injection E as <-. pose proof (digit_val_range c Hc). nia.
    + destruct (base =? 16); [|done]. destruct (between 97 102 (lower_byte c)) eqn:Hx; [|done]. injection E as <-.
      unfold between in Hx. apply andb_true_iff in Hx as [Hx _]. apply Z.leb_le in Hx. nia.
Qed.

Lemma parse_finite_canonical s x : parse_finite s = Some x -> canonical x = true.
Proof.
  unfold parse_finite. destruct (cut_sign s) as [neg body]. set (bd := match body with EmptyString => _ | String _ _ => _ end).
  assert (Hbase : 0 <= bd.1).
  { unfold bd. destruct body as [|z [|y [|c r]]]; try done. by destruct (_ && _). }
  destruct bd as [base digits]. simpl in Hbase. intros H.
  apply bind_Some in H as ([[[[man frac] saw] under] rest] & Hr & H).
  apply (read_mantissa_nonneg _ _ Hbase) in Hr; [|done]. destruct (negb saw); [done|].
  apply bind_Some in H as ([[exp under'] rest'] & _ & H). destruct (_ || _); [done|].
  set (f := if base =? 16 then _ else _) in H.
  assert (Hf : f = FInf neg \/ canonical f = true).
  { unfold f, fround_dyadic. destruct (base =? 16); [destruct (Z.leb_spec 0 (exp - 4 * frac))|destruct (Z.leb_spec 0 (exp - frac))];
      apply fround_canonical; try lia; try (apply Z.mul_nonneg_nonneg; [done|apply Z.pow_nonneg; lia]);
      apply Z.pow_pos_nonneg; lia. }
  destruct Hf as [Hf|Hf]; [by rewrite Hf in H|]. destruct f; by simplify_eq.
Qed.

Lemma num_ok_start lit : num_ok lit = true ->
  exists neg c s, lit = with_sign neg (String c s) /\ is_digit c = true.
Proof.
  unfold num_ok, scan_number. rewrite bool_decide_eq_true. intros H.
  assert (Hd : forall s i r, scan_int s = Some (i, r) -> exists c t, s = String c t /\ is_digit c = true).
  { intros s i r Hs. destruct s as [|c t]; [done|]. exists c, t. split; [done|]. simpl in Hs.
    case_bool_decide; [by subst|]. by destruct (is_digit c). }
  destruct lit as [|c s]; [done|]. case_bool_decide as Hc.
  - subst c. apply bind_Some in H as ([i r] & Hi & _). destruct (Hd _ _ _ Hi) as (c & t & -> & Hc).
    by exists true, c, t.
  - apply bind_Some in H as ([i r] & Hi & _). destruct (Hd _ _ _ Hi) as (c' & t & [= -> ->] & Hc').
    by exists false, c', t.
Qed.

Lemma parse_number_canonical lit x : num_ok lit = true -> parse_float lit = Some x -> canonical x = true.
Proof.
  intros Hn. destruct (num_ok_start lit Hn) as (neg & c & s & -> & Hc). unfold parse_float.
  rewrite special_none by done. apply parse_finite_canonical.
Qed.
