(* ===== verification/GoJsonValue.v ===== *)
(** * Package encoding/json: decoding into [interface{}] and encoding back

    A decoded document as the Go values [Unmarshal] builds: objects are maps, so
    duplicate keys keep the last value and order is lost; an object is kept here
    as the list of its members sorted by key, the order [Marshal] prints. *)

From Stdlib Require Import ZArith Lia Ascii.
From stdpp Require Import base tactics list strings option.
From S2P Require Import Prelude GoLib GoFloat GoUrl GoNumber GoJson.

#[local] Open Scope Z_scope.

(** ** UTF-8 *)

Definition cont_byte (lo hi : Z) (c : ascii) : option Z :=
  if between lo hi c then Some (Z.land (byte_val c) 63) else None.

(** [utf8.DecodeRune]: the rune and what follows it; [None] for an invalid
    sequence, of which Go consumes one byte. *)
Definition decode_rune (c : ascii) (s : string) : option (Z * string) :=
  let b := byte_val c in
  if b <? 128 then Some (b, s)
  else
    let two lo hi k :=
      match s with String c1 s1 => x ← cont_byte lo hi c1; k x s1 | EmptyString => None end in
    let next s k :=
      match s with String c1 s1 => x ← cont_byte 128 191 c1; k x s1 | EmptyString => None end in
    if between 194 223 c then
      two 128 191 (fun x s1 => Some (Z.land b 31 * 64 + x, s1))
    else if between 224 239 c then
      two (if b =? 224 then 160 else 128) (if b =? 237 then 159 else 191) (fun x s1 =>
      next s1 (fun y s2 => Some (Z.land b 15 * 4096 + x * 64 + y, s2)))
    else if between 240 244 c then
      two (if b =? 240 then 144 else 128) (if b =? 244 then 143 else 191) (fun x s1 =>
      next s1 (fun y s2 => next s2 (fun z s3 =>
      Some (Z.land b 7 * 262144 + x * 4096 + y * 64 + z, s3))))
    else None.

(** [utf8.AppendRune], surrogates and out-of-range values replaced. *)
Definition encode_rune (r : Z) : string :=
  let r := if (r <? 0) || ((55296 <=? r) && (r <=? 57343)) || (1114111 <? r) then 65533 else r in
  let byte z := byte_of z in
  if r <? 128 then String (byte r) EmptyString
  else if r <? 2048 then
    String (byte (192 + r / 64)) (String (byte (128 + r mod 64)) EmptyString)
  else if r <? 65536 then
    String (byte (224 + r / 4096)) (String (byte (128 + (r / 64) mod 64))
      (String (byte (128 + r mod 64)) EmptyString))
  else
    String (byte (240 + r / 262144)) (String (byte (128 + (r / 4096) mod 64))
      (String (byte (128 + (r / 64) mod 64)) (String (byte (128 + r mod 64)) EmptyString))).

Definition replacement : string := encode_rune 65533.

(** ** Strings *)

Definition hex4 (a b c d : ascii) : Z :=
  ((unhex a * 16 + unhex b) * 16 + unhex c) * 16 + unhex d.

(** [getu4] at the head of [s]. *)
Definition getu4 (s : string) : option (Z * string) :=
  match s with
  | String bs (String u (String a (String b (String c (String d rest))))) =>
      if bool_decide (bs = backslash) && bool_decide (u = "u"%char)
         && ishex a && ishex b && ishex c && ishex d
      then Some (hex4 a b c d, rest) else None
  | _ => None
  end.

Definition is_surrogate (r : Z) : bool := (55296 <=? r) && (r <? 57344).

Definition simple_escape (c : ascii) : ascii :=
  let b := byte_val c in
  if b =? 98 then byte_of 8 else if b =? 102 then byte_of 12 else if b =? 110 then byte_of 10
  else if b =? 114 then byte_of 13 else if b =? 116 then byte_of 9 else c.

(** [unquote] of the bytes between the quotes, which the scanner has accepted:
    escapes are decoded, invalid UTF-8 and lone surrogates become U+FFFD. *)
Fixpoint unquote_loop (fuel : nat) (s : string) : string :=
  match fuel with
  | O => EmptyString
  | S f =>
      match s with
      | EmptyString => EmptyString
      | String c s' =>
          if bool_decide (c = backslash) then
            match getu4 s with
            | Some (rr, rest) =>
                if is_surrogate rr then
                  match getu4 rest with
                  | Some (rr1, rest1) =>
                      if (rr <? 56320) && (56320 <=? rr1) && (rr1 <? 57344) then
                        (encode_rune ((rr - 55296) * 1024 + (rr1 - 56320) + 65536)
                         +:+ unquote_loop f rest1)%string
                      else (replacement +:+ unquote_loop f rest)%string
                  | None => (replacement +:+ unquote_loop f rest)%string
                  end
                else (encode_rune rr +:+ unquote_loop f rest)%string
            | None =>
                match s' with
                | String d s'' => String (simple_escape d) (unquote_loop f s'')
                | EmptyString => EmptyString
                end
            end
          else match decode_rune c s' with
               | Some (r, rest) => (encode_rune r +:+ unquote_loop f rest)%string
               | None => (replacement +:+ unquote_loop f s')%string
               end
      end
  end.

(** Every round consumes at least one byte. *)
Definition unquote (raw : string) : string := unquote_loop (S (String.length raw)) raw.

(** [appendString] with HTML escaping. *)
Fixpoint quote_loop (fuel : nat) (s : string) : string :=
  match fuel with
  | O => EmptyString
  | S f =>
      match s with
      | EmptyString => EmptyString
      | String c s' =>
          let b := byte_val c in
          let rest := quote_loop f s' in
          if b <? 128 then
            if bool_decide (c = backslash) || bool_decide (c = quote_char)
            then String backslash (String c rest)
            else if b =? 8 then String backslash (String "b" rest)
            else if b =? 12 then String backslash (String "f" rest)
            else if b =? 10 then String backslash (String "n" rest)
            else if b =? 13 then String backslash (String "r" rest)
            else if b =? 9 then String backslash (String "t" rest)
            else if (b <? 32) || (b =? 60) || (b =? 62) || (b =? 38) then u_escape b rest
            else String c rest
          else match decode_rune c s' with
               | None => (String backslash "ufffd" +:+ rest)%string
               | Some (r, s'') =>
                   if (r =? 8232) || (r =? 8233) then
                     (String backslash "u202" +:+ String (hex_digit (Z.land r 15)) (quote_loop f s''))%string
                   else (encode_rune r +:+ quote_loop f s'')%string
               end
      end
  end.

Definition quote (s : string) : string := quoted (quote_loop (S (String.length s)) s).

(** ** Values *)

Inductive jvalue : Type :=
| JNull
| JBool (b : bool)
| JNum (f : float64)
| JStr (s : string)
| JArr (elems : list jvalue)
| JObj (members : list (string * jvalue)).

(** The byte order [strings.Compare] uses. *)
Fixpoint str_cmp (s t : string) : comparison :=
  match s, t with
  | EmptyString, EmptyString => Eq
  | EmptyString, String _ _ => Lt
  | String _ _, EmptyString => Gt
  | String a s', String b t' =>
      match byte_val a ?= byte_val b with Eq => str_cmp s' t' | c => c end
  end.

Lemma str_cmp_eq s t : str_cmp s t = Eq <-> s = t.
Proof.
  revert t. induction s as [|a s IH]; intros [|b t]; simpl; try done.
  destruct (Z.compare_spec (byte_val a) (byte_val b)) as [H|H|H].
  - rewrite IH. split; [|naive_solver]. intros ->. f_equal.
    rewrite <- (byte_of_val a), <- (byte_of_val b). by f_equal.
  - split; [done|]. intros [= -> ->]. lia.
  - split; [done|]. intros [= -> ->]. lia.
Qed.

Lemma str_cmp_opp s t : str_cmp t s = CompOpp (str_cmp s t).
Proof.
  revert t. induction s as [|a s IH]; intros [|b t]; simpl; try done.
  rewrite (Z.compare_antisym (byte_val a)). destruct (byte_val a ?= byte_val b); simpl; auto.
Qed.

Lemma str_cmp_trans s t u : str_cmp s t <> Gt -> str_cmp t u <> Gt -> str_cmp s u <> Gt.
Proof.
  revert t u. induction s as [|a s IH]; intros [|b t] [|c u]; simpl; try done.
  destruct (Z.compare_spec (byte_val a) (byte_val b)), (Z.compare_spec (byte_val b) (byte_val c)),
    (Z.compare_spec (byte_val a) (byte_val c)); try done; try lia. apply IH.
Qed.

(** [m[k] = v] on the sorted members. *)
Fixpoint obj_insert {A} (k : string) (v : A) (l : list (string * A)) : list (string * A) :=
  match l with
  | [] => [(k, v)]
  | (k', v') :: l' =>
      match str_cmp k k' with
      | Lt => (k, v) :: l
      | Eq => (k, v) :: l'
      | Gt => (k', v') :: obj_insert k v l'
      end
  end.

Fixpoint obj_lookup {A} (k : string) (l : list (string * A)) : option A :=
  match l with
  | [] => None
  | (k', v) :: l' => if bool_decide (k' = k) then Some v else obj_lookup k l'
  end.

(** [None] when a number is out of range, which [Unmarshal] reports as an error. *)
Fixpoint value_of (t : jtree) : option jvalue :=
  match t with
  | TNull => Some JNull
  | TBool b => Some (JBool b)
  | TNum lit => JNum <$> parse_float lit
  | TStr raw => Some (JStr (unquote raw))
  | TArr ts =>
      JArr <$> (fix go ts := match ts with
                             | [] => Some []
                             | t :: ts' => v ← value_of t; vs ← go ts'; Some (v :: vs)
                             end) ts
  | TObj kts =>
      JObj <$> (fix go acc kts := match kts with
                                  | [] => Some acc
                                  | (k, t) :: kts' =>
                                      v ← value_of t; go (obj_insert (unquote k) v acc) kts'
                                  end) [] kts
  end.

(** [json.Unmarshal(payload, &v)] with [v interface{}]. *)
Definition unmarshal_any (payload : string) : option jvalue := t ← parse_json payload; value_of t.

(** [json.Unmarshal(payload, &obj)] with [obj map[string]interface{}]: [null]
    is accepted and leaves the map nil ([Some None]); any other value that is not
    an object is an error. *)
Definition unmarshal_map (payload : string) : option (option (list (string * jvalue))) :=
  v ← unmarshal_any payload;
  match v with
  | JObj ms => Some (Some ms)
  | JNull => Some None
  | _ => None
  end.

(** [json.Marshal]; [None] for a NaN or an infinity. *)
Fixpoint marshal (v : jvalue) : option string :=
  match v with
  | JNull => Some "null"
  | JBool true => Some "true"
  | JBool false => Some "false"
  | JNum f => format_json f
  | JStr s => Some (quote s)
  | JArr vs =>
      ws ← (fix go vs := match vs with
                         | [] => Some []
                         | v :: vs' => w ← marshal v; ws ← go vs'; Some (w :: ws)
                         end) vs;
      Some (String "[" (join "," ws +:+ "]"))
  | JObj kvs =>
      ws ← (fix go kvs := match kvs with
                          | [] => Some []
                          | (k, v) :: kvs' =>
                              w ← marshal v; ws ← go kvs'; Some ((quote k +:+ String ":" w) :: ws)
                          end) kvs;
      Some (String "{" (join "," ws +:+ "}"))
  end%string.

(** [fmt.Sprint] of a decoded value. *)
Fixpoint sprint (v : jvalue) : string :=
  match v with
  | JNull => "<nil>"
  | JBool true => "true"
  | JBool false => "false"
  | JNum f => format_g f
  | JStr s => s
  | JArr vs => String "[" (join " " (sprint <$> vs) +:+ "]")
  | JObj kvs => ("map[" +:+ join " " ((fun kv => (kv.1 +:+ String ":" (sprint kv.2))%string) <$> kvs) +:+ "]")
  end%string.

Definition normalise (s : string) : option string := unmarshal_any (js s) ≫= marshal.

Example marshal_sorted : normalise " {'b': 1.50, 'a': [true, null, 'x\u00e9<'], 'b': 2e0} "
  = Some (js "{'a':[true,null,'xé\u003c'],'b':2}").
Proof. vm_compute. reflexivity. Qed.
Example marshal_surrogates : normalise "['\ud83d\ude00', '\ud83d']" = Some (js "['😀','�']").
Proof. vm_compute. reflexivity. Qed.
Example unmarshal_range : unmarshal_any "[1e400]" = None.
Proof. vm_compute. reflexivity. Qed.
Example sprint_nested : sprint <$> unmarshal_any (js "{'k':[1,'a',null],'j':1e6}")
  = Some "map[j:1e+06 k:[1 a <nil>]]"%string.
Proof. vm_compute. reflexivity. Qed.
