(* ===== verification/GoQuote.v ===== *)
(** * strconv.Quote and Duration.String

    What the verbs [%q] and [%s] print of a string and of a duration.  Whether a rune
    outside ASCII is printable is an argument: the tables of package unicode are not
    reproduced. *)

From Stdlib Require Import ZArith Lia Ascii.
From stdpp Require Import base tactics option strings list.
From S2P Require Import Prelude GoLib GoFloat GoTime GoDate GoDateText GoJsonValue.

#[local] Open Scope Z_scope.

Definition lower_hex (d : Z) : ascii := if d <? 10 then byte_of (48 + d) else byte_of (87 + d).

(** The last [n] hexadecimal digits of [v]. *)
Fixpoint hex_digits (n : nat) (v : Z) (acc : string) : string :=
  match n with
  | O => acc
  | S k => hex_digits k (v / 16) (String (lower_hex (v mod 16)) acc)
  end.

Definition backslash : ascii := byte_of 92.
Definition double_quote : ascii := byte_of 34.

(** [\a] to [\v], and the letters that stand for them. *)
Definition control_escape (r : Z) : option ascii :=
  match r with
  | 7 => Some "a"%char | 8 => Some "b"%char | 12 => Some "f"%char | 10 => Some "n"%char
  | 13 => Some "r"%char | 9 => Some "t"%char | 11 => Some "v"%char | _ => None
  end.

Section Quote.
(** [strconv.IsPrint] of a rune outside ASCII. *)
Variable wide_print : Z -> bool.

Definition is_print (r : Z) : bool := if r <? 128 then (32 <=? r) && (r <=? 126) else wide_print r.

(** [appendEscapedRune] *)
Definition quote_rune (r : Z) (rest : string) : string :=
  if (r =? 34) || (r =? 92) then String backslash (String (byte_of r) rest)
  else if is_print r then (encode_rune r +:+ rest)%string
  else match control_escape r with
       | Some c => String backslash (String c rest)
       | None =>
           if (r <? 32) || (r =? 127) then String backslash (String "x" (hex_digits 2 r rest))
           else if r <? 65536 then String backslash (String "u" (hex_digits 4 r rest))
           else String backslash (String "U" (hex_digits 8 r rest))
       end.

(** A byte that starts no rune is written in hexadecimal. *)
Fixpoint quote_body (fuel : nat) (s : string) : string :=
  match fuel with
  | O => EmptyString
  | S f =>
      match s with
      | EmptyString => EmptyString
      | String c s' =>
          match decode_rune c s' with
          | Some (r, s'') => quote_rune r (quote_body f s'')
          | None => String backslash (String "x" (hex_digits 2 (byte_val c) (quote_body f s')))
          end
      end
  end.

(** [strconv.Quote]: a round of the loop reads at least one byte. *)
Definition quote (s : string) : string :=
  String double_quote (quote_body (String.length s) s +:+ String double_quote EmptyString)%string.
End Quote.

Example quote_ok :
  (quote (fun r => r =? 233)) <$> ["a b"; String (byte_of 34) (String (byte_of 92) "");
     String (byte_of 10) (String (byte_of 0) (String (byte_of 255) ""));
     String (byte_of 195) (String (byte_of 169) (String (byte_of 226) (String (byte_of 128) (String (byte_of 139) ""))))]%string
  = [String (byte_of 34) "a b"; String (byte_of 34) (String (byte_of 92) (String (byte_of 34) "\\"));
     String (byte_of 34) "\n\x00\xff"; String (byte_of 34) (String (byte_of 195) (String (byte_of 169) "\u200b"))]%string
    ≫= fun s => [(s +:+ String (byte_of 34) EmptyString)%string].
Proof. vm_compute. reflexivity. Qed.

(** ** [Duration.String] *)

Definition micro : string := String (byte_of 194) (String (byte_of 181) EmptyString).

(** [fmtFrac] of [prec] digits, before the unit. *)
Definition frac_part (prec : nat) (v : Z) (unit : string) : string :=
  let f := v mod 10 ^ Z.of_nat prec in
  if f =? 0 then unit else String "." (frac_text prec f unit).

Definition below_second (u : Z) : string :=
  if u =? 0 then "0s"
  else if u <? microsecond then (utoa u +:+ "ns")%string
  else if u <? millisecond then (utoa (u / microsecond) +:+ frac_part 3 u (micro +:+ "s"))%string
  else (utoa (u / millisecond) +:+ frac_part 6 u "ms")%string.

Definition from_second (u : Z) : string :=
  let secs := u / second in
  let tail := (utoa (secs mod 60) +:+ frac_part 9 u "s")%string in
  let mins := secs / 60 in
  if mins =? 0 then tail
  else
    let tail := (utoa (mins mod 60) +:+ String "m" tail)%string in
    let hours := mins / 60 in
    if hours =? 0 then tail else (utoa hours +:+ String "h" tail)%string.

Definition duration_string (d : Z) : string :=
  let u := Z.abs d in
  let text := if u <? second then below_second u else from_second u in
  if d <? 0 then String "-" text else text.

Example duration_string_ok :
  duration_string <$> [0; 1; 1500; 2500000; 1500000000; 60000000000; 5400000000000; -3661000000001;
                       100000000; min_int64; max_int64]
  = ["0s"; "1ns"; ("1.5" +:+ micro +:+ "s")%string; "2.5ms"; "1.5s"; "1m0s"; "1h30m0s"; "-1h1m1.000000001s";
     "100ms"; "-2562047h47m16.854775808s"; "2562047h47m16.854775807s"]%string.
Proof. vm_compute. reflexivity. Qed.
