(* ===== verification/GoJsonString.v ===== *)
(** * encoding/json: strings there and back

    What [json.Marshal] prints for a string is a literal of the grammar, and
    [json.Unmarshal] reads it back, for every string of valid UTF-8. *)

From Stdlib Require Import ZArith Lia Ascii.
From stdpp Require Import base tactics option strings list.
From S2P Require Import Prelude GoLib GoUrl GoJson GoJsonPrint GoJsonValue.

#[local] Open Scope Z_scope.

(** ** UTF-8 *)

Fixpoint utf8_loop (fuel : nat) (s : string) : bool :=
  match fuel with
  | O => false
  | S f => match s with
           | EmptyString => true
           | String c s' => match decode_rune c s' with Some (_, s'') => utf8_loop f s'' | None => false end
           end
  end.

(** [utf8.ValidString] *)
Definition utf8_valid (s : string) : bool := utf8_loop (S (String.length s)) s.

(** What decoding a rune says of the bytes it read: they are the rune's encoding,
    and they decode to it whatever follows. *)
Record rune_bytes (c : ascii) (s : string) (r : Z) (s'' : string) (p : string) : Prop := {
  rb_split : s = (p +:+ s'')%string;
  rb_encode : encode_rune r = String c p;
  rb_decode : forall q, decode_rune c (p +:+ q)%string = Some (r, q);
  rb_high : 128 <= byte_val c -> str_forallb (fun d => 128 <=? byte_val d) p = true
}.

Lemma land_low b n k : 0 <= n -> k * 2 ^ n <= b < (k + 1) * 2 ^ n -> Z.land b (Z.ones n) = b - k * 2 ^ n.
Proof.
  intros Hn Hb. rewrite Z.land_ones by lia. pose proof (Z.pow_pos_nonneg 2 n ltac:(lia) Hn).
  symmetry. apply Z.mod_unique with k; lia.
Qed.

Lemma cont_byte_some lo hi c x :
  128 <= lo -> hi <= 191 -> cont_byte lo hi c = Some x ->
  x = byte_val c - 128 /\ lo <= byte_val c <= hi.
Proof.
  unfold cont_byte, between. intros Hlo Hhi. destruct (_ && _) eqn:E; [|done]. intros [= <-].
  apply andb_true_iff in E as [E1 E2]. apply Z.leb_le in E1, E2. split; [|lia].
  change 63 with (Z.ones 6). rewrite (land_low _ 6 2) by lia. lia.
Qed.

Lemma cont_byte_ok lo hi c :
  128 <= lo -> hi <= 191 -> lo <= byte_val c <= hi -> cont_byte lo hi c = Some (byte_val c - 128).
Proof.
  intros Hlo Hhi Hc. unfold cont_byte, between. rewrite !(proj2 (Z.leb_le _ _)) by lia. simpl. f_equal.
  change 63 with (Z.ones 6). rewrite (land_low _ 6 2) by lia. lia.
Qed.

Lemma byte_of_plus c n z : z = byte_val c - n -> byte_of (n + z) = c.
Proof. intros ->. rewrite <- (byte_of_val c) at 2. f_equal. lia. Qed.

Lemma between_true lo hi c : between lo hi c = true <-> lo <= byte_val c <= hi.
Proof. unfold between. rewrite andb_true_iff, !Z.leb_le. done. Qed.

(** The encoding of a scalar value, by the number of its bytes. *)
Lemma encode_1 r : 0 <= r < 128 -> encode_rune r = String (byte_of r) EmptyString.
Proof.
  intros H. unfold encode_rune.
  assert ((r <? 0) || (55296 <=? r) && (r <=? 57343) || (1114111 <? r) = false) as -> by lia.
  by rewrite (proj2 (Z.ltb_lt r 128)) by lia.
Qed.

Lemma encode_2 a b : 2 <= a < 32 -> 0 <= b < 64 ->
  encode_rune (a * 64 + b) = String (byte_of (192 + a)) (String (byte_of (128 + b)) EmptyString).
Proof.
  intros Ha Hb. unfold encode_rune. set (r := a * 64 + b).
  assert ((r <? 0) || (55296 <=? r) && (r <=? 57343) || (1114111 <? r) = false) as -> by lia.
  rewrite (proj2 (Z.ltb_ge r 128)), (proj2 (Z.ltb_lt r 2048)) by lia.
  assert (r / 64 = a) as -> by (symmetry; apply Z.div_unique with b; lia).
  assert (r mod 64 = b) as -> by (symmetry; apply Z.mod_unique with a; lia). done.
Qed.

Lemma encode_3 a b d : 0 <= a < 16 -> 0 <= b < 64 -> 0 <= d < 64 ->
  2048 <= a * 4096 + b * 64 + d -> ~ 55296 <= a * 4096 + b * 64 + d <= 57343 ->
  encode_rune (a * 4096 + b * 64 + d)
  = String (byte_of (224 + a)) (String (byte_of (128 + b)) (String (byte_of (128 + d)) EmptyString)).
Proof.
  intros Ha Hb Hd H1 H2. unfold encode_rune. set (r := a * 4096 + b * 64 + d) in *.
  assert ((r <? 0) || (55296 <=? r) && (r <=? 57343) || (1114111 <? r) = false) as -> by lia.
  rewrite (proj2 (Z.ltb_ge r 128)), (proj2 (Z.ltb_ge r 2048)), (proj2 (Z.ltb_lt r 65536)) by lia.
  assert (r / 4096 = a) as -> by (symmetry; apply Z.div_unique with (b * 64 + d); lia).
  assert (r / 64 = a * 64 + b) as -> by (symmetry; apply Z.div_unique with d; lia).
  assert ((a * 64 + b) mod 64 = b) as -> by (symmetry; apply Z.mod_unique with a; lia).
  assert (r mod 64 = d) as -> by (symmetry; apply Z.mod_unique with (a * 64 + b); lia). done.
Qed.

Lemma encode_4 a b d e : 0 <= a < 8 -> 0 <= b < 64 -> 0 <= d < 64 -> 0 <= e < 64 ->
  65536 <= a * 262144 + b * 4096 + d * 64 + e <= 1114111 ->
  encode_rune (a * 262144 + b * 4096 + d * 64 + e)
  = String (byte_of (240 + a)) (String (byte_of (128 + b)) (String (byte_of (128 + d))
      (String (byte_of (128 + e)) EmptyString))).
Proof.
  intros Ha Hb Hd He H. unfold encode_rune. set (r := a * 262144 + b * 4096 + d * 64 + e) in *.
  assert ((r <? 0) || (55296 <=? r) && (r <=? 57343) || (1114111 <? r) = false) as -> by lia.
  rewrite (proj2 (Z.ltb_ge r 128)), (proj2 (Z.ltb_ge r 2048)), (proj2 (Z.ltb_ge r 65536)) by lia.
  assert (r / 262144 = a) as -> by (symmetry; apply Z.div_unique with (b * 4096 + d * 64 + e); lia).
  assert (r / 4096 = a * 64 + b) as -> by (symmetry; apply Z.div_unique with (d * 64 + e); lia).
  assert ((a * 64 + b) mod 64 = b) as -> by (symmetry; apply Z.mod_unique with a; lia).
  assert (r / 64 = (a * 64 + b) * 64 + d) as -> by (symmetry; apply Z.div_unique with e; lia).
  assert (((a * 64 + b) * 64 + d) mod 64 = d) as -> by (symmetry; apply Z.mod_unique with (a * 64 + b); lia).
  assert (r mod 64 = e) as -> by (symmetry; apply Z.mod_unique with ((a * 64 + b) * 64 + d); lia). done.
Qed.

(** Continuation bytes, read one by one. *)
Lemma next_byte lo hi s {B} (k : Z -> string -> option B) y :
  match s with String c1 s1 => x ← cont_byte lo hi c1; k x s1 | EmptyString => None end = Some y ->
  128 <= lo -> hi <= 191 ->
  exists c1 s1, s = String c1 s1 /\ lo <= byte_val c1 <= hi /\ k (byte_val c1 - 128) s1 = Some y.
Proof.
  destruct s as [|c1 s1]; [done|]. intros H Hlo Hhi. apply bind_Some in H as (x & Hx & H).
  apply cont_byte_some in Hx as [-> Hx]; [|done..]. eauto.
Qed.

(** [decode_rune] on bytes known to be in range. *)
Lemma decode_2 c c1 q : 194 <= byte_val c <= 223 -> 128 <= byte_val c1 <= 191 ->
  decode_rune c (String c1 q) = Some ((byte_val c - 192) * 64 + (byte_val c1 - 128), q).
Proof.
  intros H H1. unfold decode_rune. rewrite (proj2 (Z.ltb_ge _ 128)) by lia.
  rewrite (proj2 (between_true 194 223 c)) by lia. rewrite cont_byte_ok by lia. simpl.
  change 31 with (Z.ones 5). rewrite (land_low _ 5 6) by lia. done.
Qed.

Lemma decode_3 c c1 c2 q : 224 <= byte_val c <= 239 ->
  (if byte_val c =? 224 then 160 else 128) <= byte_val c1 <= (if byte_val c =? 237 then 159 else 191) ->
  128 <= byte_val c2 <= 191 ->
  decode_rune c (String c1 (String c2 q))
  = Some ((byte_val c - 224) * 4096 + (byte_val c1 - 128) * 64 + (byte_val c2 - 128), q).
Proof.
  intros H H1 H2. unfold decode_rune. rewrite (proj2 (Z.ltb_ge _ 128)) by lia.
  assert (between 194 223 c = false) as ->.
  { apply not_true_iff_false. rewrite between_true. lia. }
  rewrite (proj2 (between_true 224 239 c)) by lia.
  rewrite (cont_byte_ok _ _ c1) by (repeat case_match; lia). simpl. rewrite cont_byte_ok by lia. simpl.
  change 15 with (Z.ones 4). rewrite (land_low _ 4 14) by lia. done.
Qed.

Lemma decode_4 c c1 c2 c3 q : 240 <= byte_val c <= 244 ->
  (if byte_val c =? 240 then 144 else 128) <= byte_val c1 <= (if byte_val c =? 244 then 143 else 191) ->
  128 <= byte_val c2 <= 191 -> 128 <= byte_val c3 <= 191 ->
  decode_rune c (String c1 (String c2 (String c3 q)))
  = Some ((byte_val c - 240) * 262144 + (byte_val c1 - 128) * 4096 + (byte_val c2 - 128) * 64
          + (byte_val c3 - 128), q).
Proof.
  intros H H1 H2 H3. unfold decode_rune. rewrite (proj2 (Z.ltb_ge _ 128)) by lia.
  assert (between 194 223 c = false /\ between 224 239 c = false) as [-> ->].
  { split; apply not_true_iff_false; rewrite between_true; lia. }
  rewrite (proj2 (between_true 240 244 c)) by lia.
  rewrite (cont_byte_ok _ _ c1) by (repeat case_match; lia). simpl. rewrite !cont_byte_ok by lia. simpl.
  change 7 with (Z.ones 3). rewrite (land_low _ 3 30) by lia. done.
Qed.

Lemma high_bytes l : Forall (fun d => 128 <= byte_val d) l ->
  str_forallb (fun d => 128 <=? byte_val d) (foldr String EmptyString l) = true.
Proof. induction 1; simpl; [done|]. rewrite (proj2 (Z.leb_le _ _)) by done. done. Qed.

(** A decoded rune, by the length of its encoding. *)
Lemma decode_rune_bytes c s r s'' :
  decode_rune c s = Some (r, s'') -> exists p, rune_bytes c s r s'' p.
Proof.
  intros Hdec. pose proof Hdec as H0. unfold decode_rune in H0. pose proof (byte_val_range c) as Hc.
  destruct (Z.ltb_spec (byte_val c) 128) as [Hb|Hb].
  { injection H0 as <- <-. exists EmptyString. split; [done| | |lia].
    - rewrite encode_1 by lia. by rewrite byte_of_val.
    - intros q. rewrite str_app_nil. unfold decode_rune. by rewrite (proj2 (Z.ltb_lt _ 128)). }
  destruct (between 194 223 c) eqn:E2; [|destruct (between 224 239 c) eqn:E3;
    [|destruct (between 240 244 c) eqn:E4; [|done]]].
  - apply between_true in E2.
    apply next_byte in H0 as (c1 & s1 & -> & Hc1 & H0); [|lia..].
    rewrite (decode_2 c c1 s1) in Hdec by lia. injection Hdec as <- <-.
    exists (String c1 EmptyString). split; [done| | |].
    + rewrite encode_2 by lia. by rewrite !(byte_of_plus _ _ _ eq_refl).
    + intros q. by rewrite str_app_cons, str_app_nil, decode_2 by lia.
    + intros _. apply (high_bytes [c1]). repeat constructor; lia.
  - apply between_true in E3.
    apply next_byte in H0 as (c1 & s1 & -> & Hc1 & H0); [|repeat case_match; lia..].
    apply next_byte in H0 as (c2 & s2 & -> & Hc2 & H0); [|lia..].
    rewrite (decode_3 c c1 c2 s2) in Hdec by lia. injection Hdec as <- <-.
    assert (128 <= byte_val c1 <= 191) as Hc1' by (repeat case_match; lia).
    exists (String c1 (String c2 EmptyString)). split; [done| | |].
    + rewrite encode_3; [by rewrite !(byte_of_plus _ _ _ eq_refl)|lia..| |];
        destruct (Z.eqb_spec (byte_val c) 224), (Z.eqb_spec (byte_val c) 237); lia.
    + intros q. by rewrite !str_app_cons, str_app_nil, decode_3 by lia.
    + intros _. apply (high_bytes [c1; c2]). repeat constructor; lia.
  - apply between_true in E4.
    apply next_byte in H0 as (c1 & s1 & -> & Hc1 & H0); [|repeat case_match; lia..].
    apply next_byte in H0 as (c2 & s2 & -> & Hc2 & H0); [|lia..].
    apply next_byte in H0 as (c3 & s3 & -> & Hc3 & H0); [|lia..].
    rewrite (decode_4 c c1 c2 c3 s3) in Hdec by lia. injection Hdec as <- <-.
    assert (128 <= byte_val c1 <= 191) as Hc1' by (repeat case_match; lia).
    exists (String c1 (String c2 (String c3 EmptyString))). split; [done| | |].
    + rewrite encode_4; [by rewrite !(byte_of_plus _ _ _ eq_refl)|lia..|];
        destruct (Z.eqb_spec (byte_val c) 240), (Z.eqb_spec (byte_val c) 244); lia.
    + intros q. by rewrite !str_app_cons, str_app_nil, decode_4 by lia.
    + intros _. apply (high_bytes [c1; c2; c3]). repeat constructor; lia.
Qed.

(** ** Escapes *)

Lemma raw_ok_plain c X :
  c <> quote_char -> c <> backslash -> 32 <= byte_val c -> raw_ok X = true -> raw_ok (String c X) = true.
Proof.
  unfold raw_ok. rewrite !bool_decide_eq_true. intros Hq Hb Hc H. rewrite str_app_cons. cbn [scan_string].
  rewrite !bool_decide_false by done. rewrite (proj2 (Z.ltb_ge _ 32)) by done. by rewrite H.
Qed.

Lemma raw_ok_simple d X :
  is_simple_escape d = true -> raw_ok X = true -> raw_ok (String backslash (String d X)) = true.
Proof.
  unfold raw_ok. rewrite !bool_decide_eq_true. intros Hd H. rewrite !str_app_cons. cbn [scan_string].
  rewrite bool_decide_false by done. rewrite bool_decide_true by done. by rewrite Hd, H.
Qed.

Lemma raw_ok_u h1 h2 h3 h4 X :
  is_hex h1 && is_hex h2 && is_hex h3 && is_hex h4 = true -> raw_ok X = true ->
  raw_ok (String backslash (String "u" (String h1 (String h2 (String h3 (String h4 X)))))) = true.
Proof.
  unfold raw_ok. rewrite !bool_decide_eq_true. intros Hh H. rewrite !str_app_cons. cbn [scan_string].
  rewrite bool_decide_false by done. rewrite bool_decide_true by done.
  change (is_simple_escape "u") with false. cbv iota. rewrite bool_decide_true by done. by rewrite Hh, H.
Qed.

Lemma raw_ok_high p X :
  str_forallb (fun d => 128 <=? byte_val d) p = true -> raw_ok X = true -> raw_ok (p +:+ X)%string = true.
Proof.
  induction p as [|c p IH]; [done|]. simpl. rewrite andb_true_iff, Z.leb_le. intros [Hc Hp] HX.
  rewrite str_app_cons. apply raw_ok_plain; [intros ->; by vm_compute in Hc..|lia|by apply IH].
Qed.

Lemma hex_digit_ok d : 0 <= d < 16 ->
  is_hex (hex_digit d) = true /\ ishex (hex_digit d) = true /\ unhex (hex_digit d) = d.
Proof.
  intros H. assert (d ∈ seqZ 0 16) as Hin by (apply elem_of_seqZ; lia).
  assert (forallb (fun d => is_hex (hex_digit d) && ishex (hex_digit d) && (unhex (hex_digit d) =? d))
            (seqZ 0 16) = true) as HF by (vm_compute; reflexivity).
  apply forallb_Forall in HF. rewrite Forall_forall in HF. specialize (HF d Hin). simpl in HF.
  rewrite !andb_true_iff, Z.eqb_eq in HF. tauto.
Qed.

Lemma getu4_escape b X : 0 <= b < 128 -> getu4 (u_escape b X) = Some (b, X).
Proof.
  intros H. unfold u_escape, getu4, hex4.
  destruct (hex_digit_ok (b / 16)) as (_ & H1 & E1); [split; [apply Z.div_pos; lia|apply Z.div_lt_upper_bound; lia]|].
  destruct (hex_digit_ok (b mod 16)) as (_ & H2 & E2); [apply Z.mod_pos_bound; lia|].
  rewrite H1, H2, E1, E2. simpl. f_equal. f_equal.
  change (unhex "0") with 0. pose proof (Z.div_mod b 16 ltac:(lia)). lia.
Qed.

Lemma raw_ok_escape b X : 0 <= b < 256 -> raw_ok X = true -> raw_ok (u_escape b X) = true.
Proof.
  intros H HX. unfold u_escape.
  destruct (hex_digit_ok (b / 16)) as (H1 & _); [split; [apply Z.div_pos; lia|apply Z.div_lt_upper_bound; lia]|].
  destruct (hex_digit_ok (b mod 16)) as (H2 & _); [apply Z.mod_pos_bound; lia|].
  apply raw_ok_u; [|done]. by rewrite H1, H2.
Qed.

(** One byte or rune of the printed string: a chunk that scans, and that reads
    back as what it was printed for. *)
Definition chunk (c : ascii) (s' : string) (E p s'' : string) : Prop :=
  s' = (p +:+ s'')%string /\
  (forall f, quote_loop (S f) (String c s') = (E +:+ quote_loop f s'')%string) /\
  (forall X, raw_ok X = true -> raw_ok (E +:+ X)%string = true) /\
  (forall n X, unquote_loop (S n) (E +:+ X)%string = (String c p +:+ unquote_loop n X)%string).

Lemma u_escape_app b X Y : (u_escape b X +:+ Y = u_escape b (X +:+ Y))%string.
Proof. done. Qed.

Lemma ascii_chunk c s' : byte_val c < 128 -> exists E, chunk c s' E EmptyString s'.
Proof.
  intros Hc. pose proof (byte_val_range c) as Hr. unfold chunk. cbn [quote_loop].
  rewrite (proj2 (Z.ltb_lt _ 128)) by done.
  assert (Hsimple : forall d, is_simple_escape d = true -> simple_escape d = c -> exists E : string,
    s' = (EmptyString +:+ s')%string /\
    (forall f, String backslash (String d (quote_loop f s')) = (E +:+ quote_loop f s')%string) /\
    (forall X, raw_ok X = true -> raw_ok (E +:+ X)%string = true) /\
    (forall n X, unquote_loop (S n) (E +:+ X)%string = (String c EmptyString +:+ unquote_loop n X)%string)).
  { intros d Hd Hs. exists (String backslash (String d EmptyString)). split_and!; [done..| |].
    - intros X HX. by apply raw_ok_simple.
    - intros n X. autorewrite with gostr. cbn [unquote_loop]. rewrite bool_decide_true by done.
      assert (d <> "u"%char) by (intros ->; by vm_compute in Hd).
      assert (getu4 (String backslash (String d X)) = None) as ->.
      { unfold getu4. destruct X as [|a [|b [|e [|g X]]]]; try done.
        rewrite (bool_decide_false (d = "u"%char)) by done. by rewrite andb_false_r. }
      by rewrite Hs. }
  destruct (bool_decide (c = backslash) || bool_decide (c = quote_char)) eqn:E0.
  { apply Hsimple; apply orb_true_iff in E0 as [->%bool_decide_eq_true | ->%bool_decide_eq_true]; by vm_compute. }
  apply orb_false_iff in E0 as [Hnb%bool_decide_eq_false Hnq%bool_decide_eq_false].
  assert (Hv : forall n, byte_val c = n -> c = byte_of n) by (intros n <-; by rewrite byte_of_val).
  destruct (Z.eqb_spec (byte_val c) 8) as [E|N8]; [rewrite (Hv _ E) in *; by apply Hsimple|].
  destruct (Z.eqb_spec (byte_val c) 12) as [E|N12]; [rewrite (Hv _ E) in *; by apply Hsimple|].
  destruct (Z.eqb_spec (byte_val c) 10) as [E|N10]; [rewrite (Hv _ E) in *; by apply Hsimple|].
  destruct (Z.eqb_spec (byte_val c) 13) as [E|N13]; [rewrite (Hv _ E) in *; by apply Hsimple|].
  destruct (Z.eqb_spec (byte_val c) 9) as [E|N9]; [rewrite (Hv _ E) in *; by apply Hsimple|].
  destruct ((byte_val c <? 32) || (byte_val c =? 60) || (byte_val c =? 62) || (byte_val c =? 38)) eqn:Eu.
  - exists (u_escape (byte_val c) EmptyString). split_and!; [done..| |].
    + intros X HX. rewrite u_escape_app, str_app_nil. by apply raw_ok_escape.
    + intros n X. rewrite u_escape_app, str_app_nil. unfold u_escape at 1. cbn [unquote_loop].
      rewrite bool_decide_true by done. fold (u_escape (byte_val c) X). rewrite getu4_escape by lia.
      assert (is_surrogate (byte_val c) = false) as -> by (unfold is_surrogate; lia).
      by rewrite encode_1, byte_of_val by lia.
  - exists (String c EmptyString). split_and!; [done..| |].
    + intros X HX. autorewrite with gostr. apply raw_ok_plain; try done. lia.
    + intros n X. autorewrite with gostr. cbn [unquote_loop]. rewrite bool_decide_false by done.
      unfold decode_rune. rewrite (proj2 (Z.ltb_lt _ 128)) by done.
      by rewrite encode_1, byte_of_val by lia.
Qed.

Lemma rune_chunk c s' r s'' :
  128 <= byte_val c -> decode_rune c s' = Some (r, s'') -> exists E p, chunk c s' E p s''.
Proof.
  intros Hc Hd. destruct (decode_rune_bytes c s' r s'' Hd) as (p & [Hs He Hdec Hh]).
  specialize (Hh Hc).
  assert (Hnb : c <> backslash) by (intros ->; change (byte_val backslash) with 92 in Hc; lia).
  unfold chunk. cbn [quote_loop]. rewrite (proj2 (Z.ltb_ge _ 128)) by lia. rewrite Hd.
  destruct ((r =? 8232) || (r =? 8233)) eqn:Er.
  - set (E := (String backslash "u202" +:+ String (hex_digit (Z.land r 15)) EmptyString)%string).
    exists E, p. split_and!; [done|by intros f| |].
    + intros X HX. subst E. autorewrite with gostr. apply raw_ok_u; [|done].
      apply orb_true_iff in Er as [->%Z.eqb_eq | ->%Z.eqb_eq]; by vm_compute.
    + intros n X. subst E. autorewrite with gostr. cbn [unquote_loop]. rewrite bool_decide_true by done.
      assert (getu4 (String backslash (String "u" (String "2" (String "0" (String "2"
                (String (hex_digit (Z.land r 15)) X)))))) = Some (r, X)) as ->.
      { apply orb_true_iff in Er as [->%Z.eqb_eq | ->%Z.eqb_eq]; by vm_compute. }
      assert (is_surrogate r = false) as -> by (unfold is_surrogate; lia).
      by rewrite He.
  - exists (encode_rune r), p. split_and!; [done|done| |].
    + intros X HX. rewrite He. apply raw_ok_high; [|done]. simpl. by rewrite (proj2 (Z.leb_le _ _)).
    + intros n X. rewrite He. autorewrite with gostr. cbn [unquote_loop]. rewrite bool_decide_false by done.
      rewrite Hdec, He. by autorewrite with gostr.
Qed.

(** ** Round trips *)

Lemma chunk_shorter c s' E p s'' : chunk c s' E p s'' -> (String.length s'' <= String.length s')%nat.
Proof. intros [-> _]. rewrite string_length_app. lia. Qed.

(** Any string is printed as a literal of the grammar. *)
Lemma quote_loop_ok f : forall s, (String.length s < f)%nat -> raw_ok (quote_loop f s) = true.
Proof.
  induction f as [|f IH]; intros s Hf; [lia|]. destruct s as [|c s']; [by vm_compute|].
  simpl in Hf. destruct (Z.ltb_spec (byte_val c) 128) as [Hc|Hc].
  - destruct (ascii_chunk c s' Hc) as (E & _ & -> & Hok & _). apply Hok, IH. lia.
  - destruct (decode_rune c s') as [[r s'']|] eqn:Hd.
    + destruct (rune_chunk c s' r s'' Hc Hd) as (E & p & Hch).
      pose proof (chunk_shorter _ _ _ _ _ Hch). destruct Hch as (_ & -> & Hok & _). apply Hok, IH. lia.
    + cbn [quote_loop]. rewrite (proj2 (Z.ltb_ge _ 128)), Hd by lia. autorewrite with gostr.
      apply raw_ok_u; [by vm_compute|]. apply IH. lia.
Qed.

Definition raw_of (s : string) : string := quote_loop (S (String.length s)) s.

Lemma raw_of_ok s : raw_ok (raw_of s) = true.
Proof. apply quote_loop_ok. lia. Qed.

Lemma unquote_quote_loop f : forall s n,
  (String.length s < f)%nat -> utf8_loop f s = true -> (String.length (quote_loop f s) < n)%nat ->
  unquote_loop n (quote_loop f s) = s.
Proof.
  induction f as [|f IH]; intros s n Hf Hu Hn; [lia|].
  destruct n as [|n]; [lia|]. destruct s as [|c s']; [done|]. simpl in Hf.
  assert (Hgo : forall E p s'', chunk c s' E p s'' -> utf8_loop f s'' = true ->
            unquote_loop (S n) (quote_loop (S f) (String c s')) = String c s').
  { intros E p s'' Hch Hu'. pose proof (chunk_shorter _ _ _ _ _ Hch) as Hl.
    destruct Hch as (Hs & Hq & _ & Hun). rewrite Hq, string_length_app in Hn. rewrite Hq, Hun.
    assert (E <> EmptyString) as HE.
    { intros ->. specialize (Hun 0%nat EmptyString). by autorewrite with gostr in Hun. }
    rewrite IH; [by rewrite Hs; autorewrite with gostr|lia|done|].
    destruct E; [done|]. simpl in Hn. lia. }
  cbn [utf8_loop] in Hu. destruct (Z.ltb_spec (byte_val c) 128) as [Hc|Hc].
  - destruct (ascii_chunk c s' Hc) as (E & Hch). apply (Hgo _ _ _ Hch).
    unfold decode_rune in Hu. by rewrite (proj2 (Z.ltb_lt _ 128)) in Hu.
  - destruct (decode_rune c s') as [[r s'']|] eqn:Hd; [|done].
    destruct (rune_chunk c s' r s'' Hc Hd) as (E & p & Hch). by apply (Hgo _ _ _ Hch).
Qed.

Lemma unquote_raw_of s : utf8_valid s = true -> unquote (raw_of s) = s.
Proof. intros H. apply unquote_quote_loop; [lia|done|]. unfold raw_of. lia. Qed.

(** Every plain ASCII string is valid UTF-8. *)
Lemma ascii_utf8_loop f : forall s, (String.length s < f)%nat ->
  str_forallb (fun c => byte_val c <? 128) s = true -> utf8_loop f s = true.
Proof.
  induction f as [|f IH]; intros s Hf; [lia|]. destruct s as [|c s]; [done|].
  simpl in *. rewrite andb_true_iff. intros [Hc Hs]. unfold decode_rune. rewrite Hc.
  apply IH; [lia|done].
Qed.

Lemma ascii_utf8 s : str_forallb (fun c => byte_val c <? 128) s = true -> utf8_valid s = true.
Proof. apply ascii_utf8_loop. lia. Qed.
