(* ===== verification/GoStrings.v ===== *)
(** * Package strings: [TrimSpace] and [EqualFold]'s lower case

    White space is [unicode.IsSpace], decoded from UTF-8. *)

From Stdlib Require Import ZArith Lia Ascii.
From stdpp Require Import base tactics option strings list.
From S2P Require Import Prelude GoLib GoJsonValue.

#[local] Open Scope Z_scope.

(** One leading space of [unicode.IsSpace], in UTF-8. *)
Definition cut_space (s : string) : option string :=
  match s with
  | String c s' =>
      let b := byte_val c in
      if (9 <=? b) && (b <=? 13) || (b =? 32) then Some s'
      else if 128 <=? b then
        match decode_rune c s' with
        | Some (r, rest) =>
            if (r =? 133) || (r =? 160) || (r =? 5760) || ((8192 <=? r) && (r <=? 8202)) || (r =? 8232)
               || (r =? 8233) || (r =? 8239) || (r =? 8287) || (r =? 12288)
            then Some rest else None
        | None => None
        end
      else None
  | EmptyString => None
  end.

Fixpoint trim_left (fuel : nat) (s : string) : string :=
  match fuel with
  | O => s
  | S f => match cut_space s with Some s' => trim_left f s' | None => s end
  end.

Definition all_space (s : string) : bool := str_is_empty (trim_left (String.length s) s).

Fixpoint trim_spaces_right (s : string) : string :=
  match s with
  | EmptyString => EmptyString
  | String c s' => if all_space s then EmptyString else String c (trim_spaces_right s')
  end.

(** [strings.TrimSpace]. *)
Definition trim_space (s : string) : string := trim_spaces_right (trim_left (String.length s) s).

(** [strings.ToLower] on the letters of ASCII, which is all a comparison with an
    ASCII word without k or i depends on. *)
Definition to_lower (s : string) : string := str_map lower_byte s.

Example trim_space_ok :
  trim_space <$> ["  a b "; ""; " "; String (byte_of 194) (String (byte_of 160) "x"); "x"]%string
  = ["a b"; ""; ""; "x"; "x"]%string.
Proof. vm_compute. reflexivity. Qed.
