(* ===== verification/GoJsonSound.v ===== *)
(** * encoding/json: what the scanner accepts

    The converse of [GoJsonPrint]: every tree the parser returns is made of
    literals of the grammar and is no deeper than the scanner allows, so printing
    it gives a document that parses to the same tree; and the escaping
    [json.Marshal] applies to a raw message keeps it so. *)

From Stdlib Require Import ZArith Lia Ascii.
From stdpp Require Import base tactics option strings list.
From S2P Require Import Prelude GoLib GoJson GoJsonPrint GoJsonValue GoJsonString.

#[local] Open Scope Z_scope.

(** ** Literals *)

Lemma scan_string_ok s : forall raw r, scan_string s = Some (raw, r) -> raw_ok raw = true.
Proof.
  induction s as [s IH] using (induction_ltof1 _ String.length). unfold ltof, raw_ok in *.
  intros raw r H. apply bool_decide_eq_true.
  assert (Hsub : forall s' raw' r', (String.length s' < String.length s)%nat ->
    scan_string s' = Some (raw', r') -> scan_string (raw' +:+ String quote_char "")%string = Some (raw', ""%string)).
  { intros s' raw' r' Hl Hs. exact (proj1 (bool_decide_eq_true _) (IH s' Hl raw' r' Hs)). }
  destruct s as [|c s']; [done|]. cbn [scan_string] in H.
  case_bool_decide as Hq; [by injection H as <- <-|]. case_bool_decide as Hb.
  - destruct s' as [|d s'']; [done|]. destruct (is_simple_escape d) eqn:Ed.
    + apply bind_Some in H as ([raw1 r1] & Hs & [= <- <-]). autorewrite with gostr. cbn [scan_string].
      rewrite (bool_decide_false _ Hq), (bool_decide_true _ Hb), Ed.
      by rewrite (Hsub s'' raw1 r1 ltac:(simpl; lia) Hs).
    + case_bool_decide as Hu; [|done].
      destruct s'' as [|h1 [|h2 [|h3 [|h4 s3]]]]; try done.
      destruct (_ && _) eqn:Eh; [|done]. apply bind_Some in H as ([raw1 r1] & Hs & [= <- <-]).
      autorewrite with gostr. cbn [scan_string].
      rewrite (bool_decide_false _ Hq), (bool_decide_true _ Hb), Ed, (bool_decide_true _ Hu), Eh.
      by rewrite (Hsub s3 raw1 r1 ltac:(simpl; lia) Hs).
  - destruct (byte_val c <? 32) eqn:Ec; [done|].
    apply bind_Some in H as ([raw1 r1] & Hs & [= <- <-]). autorewrite with gostr. cbn [scan_string].
    rewrite (bool_decide_false _ Hq), (bool_decide_false _ Hb), Ec.
    by rewrite (Hsub s' raw1 r1 ltac:(simpl; lia) Hs).
Qed.

Definition starts (f : ascii -> bool) (s : string) : bool :=
  match s with String c _ => f c | EmptyString => false end.

Lemma scan_digits_all s : forall d r, scan_digits s = (d, r) -> str_forallb is_digit d = true.
Proof.
  induction s as [|c s IH]; intros d r H; [by injection H as <- <-|]. cbn [scan_digits] in H.
  destruct (is_digit c) eqn:Ec; [|by injection H as <- <-].
  destruct (scan_digits s) as [d1 r1] eqn:E. injection H as <- <-. simpl. by rewrite Ec, (IH d1 r1).
Qed.

Lemma scan_digits_stop d t : str_forallb is_digit d = true -> starts is_digit t = false ->
  scan_digits (d +:+ t)%string = (d, t).
Proof.
  intros Hd Ht. induction d as [|c d IH].
  - rewrite str_app_nil. destruct t as [|c t]; [done|]. simpl in *. by rewrite Ht.
  - simpl in Hd. apply andb_true_iff in Hd as [Hc Hd]. autorewrite with gostr. cbn [scan_digits].
    by rewrite Hc, (IH Hd).
Qed.

Lemma scan_int_stop s i r t : scan_int s = Some (i, r) -> starts is_digit t = false ->
  scan_int (i +:+ t)%string = Some (i, t).
Proof.
  unfold scan_int. destruct s as [|c s]; [done|]. intros H Ht. case_bool_decide as H0.
  - injection H as <- <-. autorewrite with gostr. by rewrite bool_decide_true.
  - destruct (is_digit c) eqn:Ec; [|done]. destruct (scan_digits s) as [d1 r1] eqn:E.
    injection H as <- <-. autorewrite with gostr. rewrite bool_decide_false, Ec by done.
    rewrite scan_digits_stop; [done|by eapply scan_digits_all|done].
Qed.

Definition dot (c : ascii) : bool := bool_decide (c = "."%char).
Definition exp_mark (c : ascii) : bool := bool_decide (c = "e"%char) || bool_decide (c = "E"%char).

Lemma scan_frac_stop s f r t : scan_frac s = Some (f, r) -> starts is_digit t = false ->
  starts dot t = false ->
  scan_frac (f +:+ t)%string = Some (f, t) /\ starts is_digit (f +:+ t)%string = false.
Proof.
  unfold scan_frac. intros H Ht Hd.
  assert (Hnil : scan_frac t = Some (EmptyString, t)).
  { destruct t as [|c t]; [done|]. simpl in *. unfold dot in Hd. by rewrite Hd. }
  destruct s as [|c s]; [injection H as <- <-; by rewrite str_app_nil|].
  case_bool_decide as Hc; [|injection H as <- <-; by rewrite str_app_nil].
  destruct (scan_digits s) as [d1 r1] eqn:E. destruct (str_is_empty d1) eqn:Ed; [done|].
  injection H as <- <-. autorewrite with gostr. rewrite bool_decide_true by done.
  rewrite scan_digits_stop, Ed; [|by eapply scan_digits_all|done]. split; [done|]. by subst c.
Qed.

Lemma scan_exp_stop s e r : scan_exp s = Some (e, r) ->
  scan_exp e = Some (e, EmptyString) /\ starts is_digit e = false /\ starts dot e = false.
Proof.
  unfold scan_exp at 1. intros H. destruct s as [|c s]; [by injection H as <- <-|].
  destruct (_ || _) eqn:Ee; [|by injection H as <- <-].
  destruct (match s with String x t => _ | EmptyString => _ end) as [sg s1] eqn:Es.
  destruct (scan_digits s1) as [d r1] eqn:E. destruct (str_is_empty d) eqn:Ed; [done|].
  injection H as <- <-.
  assert (Hgo : scan_digits d = (d, EmptyString)).
  { rewrite <- (str_app_empty_r d) at 1. apply scan_digits_stop; [by eapply scan_digits_all|done]. }
  split; [|by apply orb_true_iff in Ee as [->%bool_decide_eq_true | ->%bool_decide_eq_true]].
  unfold scan_exp. rewrite Ee. pose proof (scan_digits_all s1 d r1 E) as Hall.
  assert (Hsg : sg = EmptyString \/ exists x, sg = String x EmptyString /\
    (bool_decide (x = "+"%char) || bool_decide (x = "-"%char)) = true).
  { destruct s as [|x s]; [injection Es as <- <-; by left|].
    destruct (bool_decide (x = "+"%char) || bool_decide (x = "-"%char)) eqn:Ex; injection Es as <- <-; eauto. }
  destruct Hsg as [-> | (x & -> & Hx)].
  - rewrite str_app_nil. destruct d as [|y d']; [done|]. simpl in Hall.
    apply andb_true_iff in Hall as [Hy _]. destruct (is_digit_no_sign y Hy) as [H1 H2].
    rewrite !bool_decide_false by done. cbn [orb]. rewrite Hgo. done.
  - autorewrite with gostr. rewrite Hx, Hgo, Ed. done.
Qed.

Lemma scan_number_ok s lit r : scan_number s = Some (lit, r) -> num_ok lit = true.
Proof.
  unfold num_ok, scan_number at 1. intros H. apply bool_decide_eq_true.
  destruct (match s with String x t => _ | EmptyString => _ end) as [sg s0] eqn:Es.
  apply bind_Some in H as ([i s1] & Hi & H). apply bind_Some in H as ([f s2] & Hf & H).
  apply bind_Some in H as ([e s3] & He & [= <- <-]).
  destruct (scan_exp_stop s2 e s3 He) as (He1 & He2 & He3).
  destruct (scan_frac_stop s1 f s2 e Hf He2 He3) as [Hf1 Hf2].
  pose proof (scan_int_stop s0 i s1 (f +:+ e)%string Hi Hf2) as Hi1.
  assert (Hi0 : exists c i', i = String c i' /\ c <> "-"%char).
  { unfold scan_int in Hi. destruct s0 as [|c s0]; [done|].
    case_bool_decide as H0; [simplify_eq; by eexists _, _|].
    destruct (is_digit c) eqn:Ec; [|done]. destruct (scan_digits s0). simplify_eq.
    eexists _, _. split; [done|]. by apply is_digit_no_sign in Ec as [? _]. }
  destruct Hi0 as (c & i' & -> & Hc). unfold scan_number.
  assert (Hsg : sg = EmptyString \/ sg = "-"%string).
  { destruct s as [|x s]; [injection Es as <- <-; by left|].
    case_bool_decide; injection Es as <- <-; auto. }
  destruct Hsg as [-> | ->].
  - rewrite str_app_nil, str_app_cons. rewrite bool_decide_false by done. rewrite <- str_app_cons.
    rewrite Hi1. simpl. rewrite Hf1. simpl. by rewrite He1.
  - rewrite str_app_cons, str_app_nil. rewrite bool_decide_true by done.
    rewrite Hi1. simpl. rewrite Hf1. simpl. by rewrite He1.
Qed.

(** ** Trees *)

(** A tree that fits below [depth] levels of nesting. *)
Definition fits (depth : Z) (t : jtree) : Prop := tree_ok t = true /\ depth + nesting t <= maxNestingDepth.

Lemma fits_arr depth ts : depth + 1 <= maxNestingDepth -> Forall (fits (depth + 1)) ts -> fits depth (TArr ts).
Proof.
  intros Hd H. split; simpl.
  - induction H as [|t ts [Ht _] Hts IH]; [done|]. simpl. by rewrite Ht.
  - assert (foldr Z.max 0 (nesting <$> ts) <= maxNestingDepth - depth - 1); [|lia].
    induction H as [|t ts [_ Ht] Hts IH]; [simpl; lia|]. rewrite fmap_cons. simpl. lia.
Qed.

Lemma fits_obj depth ms : depth + 1 <= maxNestingDepth ->
  Forall (fun kv => raw_ok kv.1 = true /\ fits (depth + 1) kv.2) ms -> fits depth (TObj ms).
Proof.
  intros Hd H. split; simpl.
  - induction H as [|[k t] ms (Hk & Ht & _) Hms IH]; [done|]. simpl in *. by rewrite Hk, Ht.
  - assert (foldr Z.max 0 ((fun kv => nesting kv.2) <$> ms) <= maxNestingDepth - depth - 1); [|lia].
    induction H as [|[k t] ms (_ & _ & Ht) Hms IH]; [simpl; lia|]. rewrite fmap_cons. simpl in *. lia.
Qed.

Definition values_fit (fuel : nat) : Prop := forall depth s t r,
  depth <= maxNestingDepth -> scan_value fuel depth s = Some (t, r) -> fits depth t.
Definition elems_fit (fuel : nat) : Prop := forall depth s ts r,
  depth <= maxNestingDepth -> scan_elems fuel depth s = Some (ts, r) -> Forall (fits depth) ts.
Definition members_fit (fuel : nat) : Prop := forall depth s ms r,
  depth <= maxNestingDepth -> scan_members fuel depth s = Some (ms, r) ->
  Forall (fun kv => raw_ok kv.1 = true /\ fits depth kv.2) ms.

Lemma scan_value_step f : elems_fit f -> members_fit f -> values_fit (S f).
Proof.
  intros He Hm depth s t r Hd H. cbn [scan_value] in H.
  assert (Hleaf : forall u, tree_ok u = true -> nesting u = 0 -> fits depth u) by (intros u ? ?; split; lia || done).
  destruct (skip_ws s) as [|c s']; [done|]. case_bool_decide.
  { apply bind_Some in H as ([raw r1] & Hs & [= <- <-]). apply Hleaf; [by eapply scan_string_ok|done]. }
  case_bool_decide.
  { destruct (Z.ltb_spec maxNestingDepth (depth + 1)); [done|]. destruct (skip_ws s') as [|d s2]; [done|].
    case_bool_decide; [injection H as <- <-; apply fits_obj; [lia|by apply Forall_nil]|].
    apply bind_Some in H as ([ms r1] & Hs & [= <- <-]). apply fits_obj; [done|]. by eapply Hm. }
  case_bool_decide.
  { destruct (Z.ltb_spec maxNestingDepth (depth + 1)); [done|]. destruct (skip_ws s') as [|d s2]; [done|].
    case_bool_decide; [injection H as <- <-; apply fits_arr; [lia|by apply Forall_nil]|].
    apply bind_Some in H as ([ts r1] & Hs & [= <- <-]). apply fits_arr; [done|]. by eapply He. }
  destruct (cut_prefix "null" _); [injection H as <- <-; by apply Hleaf|].
  destruct (cut_prefix "true" _); [injection H as <- <-; by apply Hleaf|].
  destruct (cut_prefix "false" _); [injection H as <- <-; by apply Hleaf|].
  apply bind_Some in H as ([lit r1] & Hs & [= <- <-]). apply Hleaf; [by eapply scan_number_ok|done].
Qed.

Lemma scan_elems_step f : values_fit f -> elems_fit f -> elems_fit (S f).
Proof.
  intros Hv He depth s ts r Hd H. cbn [scan_elems] in H.
  apply bind_Some in H as ([v s1] & Hs & H). apply Hv in Hs; [|done].
  destruct (skip_ws s1) as [|c s2]; [done|]. case_bool_decide; [injection H as <- <-; constructor; [done|by apply Forall_nil]|].
  case_bool_decide; [|done]. apply bind_Some in H as ([vs r1] & Hs2 & [= <- <-]).
  constructor; [done|]. by eapply He.
Qed.

Lemma scan_members_step f : values_fit f -> members_fit f -> members_fit (S f).
Proof.
  intros Hv Hm depth s ms r Hd H. cbn [scan_members] in H.
  destruct (skip_ws s) as [|q s0]; [done|]. case_bool_decide; [|done].
  apply bind_Some in H as ([k s1] & Hk & H). apply scan_string_ok in Hk.
  destruct (skip_ws s1) as [|col s2]; [done|]. case_bool_decide; [|done].
  apply bind_Some in H as ([v s3] & Hs & H). apply Hv in Hs; [|done].
  destruct (skip_ws s3) as [|c s4]; [done|]. case_bool_decide; [injection H as <- <-; constructor; [done|by apply Forall_nil]|].
  case_bool_decide; [|done]. apply bind_Some in H as ([vs r1] & Hs2 & [= <- <-]).
  constructor; [done|]. by eapply Hm.
Qed.

Lemma scan_fits fuel : values_fit fuel /\ elems_fit fuel /\ members_fit fuel.
Proof.
  induction fuel as [|f (IHv & IHe & IHm)]; [by split_and!; intros d s x r _ H|].
  auto using scan_value_step, scan_elems_step, scan_members_step.
Qed.

Lemma parse_fits s t : parse_json s = Some t -> fits 0 t.
Proof.
  unfold parse_json. intros H. apply bind_Some in H as ([t' r] & Hs & H).
  destruct (str_is_empty _); [|done]. injection H as ->.
  destruct (scan_fits (json_fuel s)) as (Hv & _). by eapply (Hv 0); [|exact Hs].
Qed.

(** Compacting a document keeps its value. *)
Lemma parse_print_parse s t : parse_json s = Some t -> parse_json (print t) = Some t.
Proof. intros H. apply parse_fits in H as [? ?]. apply parse_print; [done|lia]. Qed.

(** ** Raw messages: [html_escape] *)

Lemma raw_ok_inv c s : raw_ok (String c s) = true ->
  (exists d s', c = backslash /\ s = String d s' /\ is_simple_escape d = true /\ raw_ok s' = true) \/
  (exists h1 h2 h3 h4 s', c = backslash /\ s = String "u" (String h1 (String h2 (String h3 (String h4 s')))) /\
     is_hex h1 && is_hex h2 && is_hex h3 && is_hex h4 = true /\ raw_ok s' = true) \/
  (c <> quote_char /\ c <> backslash /\ 32 <= byte_val c /\ raw_ok s = true).
Proof.
  unfold raw_ok. rewrite bool_decide_eq_true. autorewrite with gostr. cbn [scan_string]. intros H.
  case_bool_decide as Hq; [done|]. case_bool_decide as Hb.
  - destruct s as [|d s']; [done|]. autorewrite with gostr in H.
    destruct (is_simple_escape d) eqn:Ed.
    + left. apply bind_Some in H as ([raw1 r1] & Hs & [= -> ->]). exists d, s'.
      by rewrite bool_decide_eq_true.
    + right. left. case_bool_decide as Hu; [|done].
      destruct s' as [|h1 [|h2 [|h3 [|h4 s3]]]]; try done; autorewrite with gostr in H;
        [change (is_hex quote_char) with false in H; by rewrite andb_false_r in H|].
      destruct (_ && _) eqn:Eh; [|done]. apply bind_Some in H as ([raw1 r1] & Hs & [= -> ->]).
      exists h1, h2, h3, h4, s3. rewrite bool_decide_eq_true. by subst d.
  - right. right. destruct (byte_val c <? 32) eqn:Ec; [done|]. apply Z.ltb_ge in Ec.
    apply bind_Some in H as ([raw1 r1] & Hs & [= -> ->]). by rewrite bool_decide_eq_true.
Qed.

(** The bytes [html_escape] leaves alone. *)
Definition html_plain (c : ascii) : bool :=
  let b := byte_val c in negb ((b =? 60) || (b =? 62) || (b =? 38) || (b =? 226)).

Lemma html_escape_plain c s : html_plain c = true -> html_escape (String c s) = String c (html_escape s).
Proof.
  unfold html_plain. rewrite negb_true_iff, !orb_false_iff. intros [[[H1 H2] H3] H4].
  cbn [html_escape]. by rewrite H1, H2, H3, H4.
Qed.

Lemma hex_plain c : is_hex c = true -> html_plain c = true.
Proof.
  unfold is_hex, html_plain, is_digit, between. rewrite !orb_true_iff, !andb_true_iff, !Z.leb_le.
  intros H. rewrite negb_true_iff, !orb_false_iff, !Z.eqb_neq. lia.
Qed.

Lemma escape_plain d : is_simple_escape d = true -> html_plain d = true.
Proof.
  unfold is_simple_escape, html_plain. rewrite !orb_true_iff, !Z.eqb_eq.
  intros H. rewrite negb_true_iff, !orb_false_iff, !Z.eqb_neq. lia.
Qed.

Lemma html_escape_backslash s : html_escape (String backslash s) = String backslash (html_escape s).
Proof. by apply html_escape_plain. Qed.

Lemma high_not_syntax c : 128 <= byte_val c -> c <> quote_char /\ c <> backslash /\ 32 <= byte_val c.
Proof. intros H. repeat split; [intros ->; by vm_compute in H..|lia]. Qed.

Lemma raw_ok_tail2 c2 c3 s : 128 <= byte_val c2 -> 128 <= byte_val c3 ->
  raw_ok (String c2 (String c3 s)) = true -> raw_ok s = true.
Proof.
  intros H2 H3 H. assert (Hone : forall c s, 128 <= byte_val c -> raw_ok (String c s) = true -> raw_ok s = true).
  { intros c s' Hc Hr. destruct (high_not_syntax c Hc) as (_ & Hb & _).
    by destruct (raw_ok_inv c s' Hr) as [(? & ? & ? & _)|[(? & ? & ? & ? & ? & ? & _)|(_ & _ & _ & ?)]]. }
  eauto.
Qed.

Lemma low_not_separator b : 0 <= b < 128 -> Z.land b (Z.lnot 1) <> 168.
Proof.
  intros H. assert (HF : forallb (fun d => negb (Z.land d (Z.lnot 1) =? 168)) (seqZ 0 128) = true)
    by (vm_compute; reflexivity).
  apply forallb_Forall in HF. rewrite Forall_forall in HF. specialize (HF b).
  rewrite elem_of_seqZ, negb_true_iff, Z.eqb_neq in HF. apply HF. lia.
Qed.

(** A quoted string stays one. *)
Lemma html_escape_ok s : raw_ok s = true -> raw_ok (html_escape s) = true.
Proof.
  induction s as [s IH] using (induction_ltof1 _ String.length). unfold ltof in IH. intros H.
  destruct s as [|c s]; [done|]. destruct (raw_ok_inv c s H) as [Hc|[Hc|Hc]].
  - destruct Hc as (d & s' & -> & -> & Hd & Hs).
    rewrite html_escape_backslash, html_escape_plain by (by apply escape_plain).
    apply raw_ok_simple; [done|]. apply IH; [simpl; lia|done].
  - destruct Hc as (h1 & h2 & h3 & h4 & s' & -> & -> & Hh & Hs).
    pose proof Hh as [[[E1 E2]%andb_true_iff E3]%andb_true_iff E4]%andb_true_iff.
    rewrite html_escape_backslash, !html_escape_plain by (done || by apply hex_plain).
    apply raw_ok_u; [done|]. apply IH; [simpl; lia|done].
  - destruct Hc as (Hq & Hb & Hc & Hs).
    assert (Hplain : raw_ok (String c (html_escape s)) = true).
    { apply raw_ok_plain; try done. apply IH; [simpl; lia|done]. }
    cbn [html_escape]. destruct (_ || _).
    { apply raw_ok_escape; [pose proof (byte_val_range c); lia|]. apply IH; [simpl; lia|done]. }
    destruct (byte_val c =? 226); [|done]. destruct s as [|c2 [|c3 s3]]; [done..|].
    destruct ((byte_val c2 =? 128) && (Z.land (byte_val c3) (Z.lnot 1) =? 168)) eqn:E; [|done].
    apply andb_true_iff in E as [E2%Z.eqb_eq E3%Z.eqb_eq].
    assert (H3 : 128 <= byte_val c3).
    { destruct (Z.lt_ge_cases (byte_val c3) 128) as [Hlt|]; [|done]. pose proof (byte_val_range c3).
      pose proof (low_not_separator (byte_val c3) ltac:(lia)). lia. }
    destruct (hex_digit_ok (Z.land (byte_val c3) 15)) as (Hx & _).
    { change 15 with (Z.ones 4). rewrite Z.land_ones by lia. by apply Z.mod_pos_bound. }
    apply raw_ok_u; [by rewrite Hx|]. apply IH; [simpl; lia|]. apply (raw_ok_tail2 c2 c3); [lia|done|done].
Qed.

(** [print_json html_escape] as the printing of another tree. *)
Fixpoint map_raws (f : string -> string) (t : jtree) : jtree :=
  match t with
  | TStr raw => TStr (f raw)
  | TArr ts => TArr (map_raws f <$> ts)
  | TObj ms => TObj ((fun kv => (f kv.1, map_raws f kv.2)) <$> ms)
  | _ => t
  end.

Lemma print_map_raws f t : print (map_raws f t) = print_json f t.
Proof.
  induction t as [|b|lit|raw|es IH|ms IH] using jtree_ind'; simpl; try done.
  - do 3 f_equal. rewrite <- list_fmap_compose. apply list_fmap_ext. intros i t Ht.
    rewrite Forall_forall in IH. by apply IH, list_elem_of_lookup_2 with i.
  - do 3 f_equal. rewrite <- list_fmap_compose. apply list_fmap_ext. intros i [k t] Ht. simpl.
    rewrite Forall_forall in IH. specialize (IH _ (list_elem_of_lookup_2 _ i _ Ht)). simpl in IH. by rewrite IH.
Qed.

Lemma map_raws_ok f t : (forall s, raw_ok s = true -> raw_ok (f s) = true) ->
  tree_ok t = true -> tree_ok (map_raws f t) = true.
Proof.
  intros Hf. induction t as [|b|lit|raw|es IH|ms IH] using jtree_ind'; simpl; auto.
  - induction IH as [|t es Ht Hes IHes]; [done|]. simpl. rewrite !andb_true_iff. naive_solver.
  - induction IH as [|[k t] ms Ht Hms IHms]; [done|]. simpl. rewrite !andb_true_iff. naive_solver.
Qed.

Lemma map_raws_nesting f t : nesting (map_raws f t) = nesting t.
Proof.
  induction t as [|b|lit|raw|es IH|ms IH] using jtree_ind'; simpl; auto.
  - f_equal. induction IH as [|t es Ht Hes IHes]; [done|]. rewrite !fmap_cons. simpl. by rewrite Ht, IHes.
  - f_equal. induction IH as [|[k t] ms Ht Hms IHms]; [done|]. rewrite !fmap_cons. simpl in *. by rewrite Ht, IHms.
Qed.

(** What [json.Marshal] makes of a raw message is a document of its own. *)
Lemma raw_message_fits s t : parse_json s = Some t -> fits 0 (map_raws html_escape t).
Proof.
  intros [Hok Hn]%parse_fits. split; [by apply map_raws_ok, Hok; apply html_escape_ok|].
  by rewrite map_raws_nesting.
Qed.
