(* ===== verification/GoJsonText.v ===== *)
(** * encoding/json: the text of a value

    [json.Unmarshal] into a [RawMessage] keeps the text of the document's value,
    without the white space around it.  The scanner reads a value from its own text
    exactly as it read it inside the document, so that text is a document of the
    same tree. *)

From Stdlib Require Import ZArith Lia Ascii.
From stdpp Require Import base tactics option strings list.
From S2P Require Import Prelude GoLib GoJson GoJsonPrint.

#[local] Open Scope Z_scope.

Fixpoint str_take (n : nat) (s : string) : string :=
  match n, s with S n', String c s' => String c (str_take n' s') | _, _ => EmptyString end.

(** The raw message [json.Unmarshal(body, &raw)] stores; [None] for an error. *)
Definition unmarshal_raw (body : string) : option string :=
  '(t, rest) ← scan_value (json_fuel body) 0 body;
  if str_is_empty (skip_ws rest)
  then Some (str_take (String.length (skip_ws body) - String.length rest) (skip_ws body))
  else None.

Example unmarshal_raw_ok :
  unmarshal_raw <$> [js " {'a': [1 , 2]} "; "null"; ""; " 12 "; "1 2"; "{"]%string
  = [Some (js "{'a': [1 , 2]}"); Some "null"%string; None; Some "12"%string; None; None].
Proof. vm_compute. reflexivity. Qed.

Lemma str_take_app s t : str_take (String.length s) (s +:+ t)%string = s.
Proof. induction s as [|c s IH]; autorewrite with gostr; simpl; [done|by rewrite IH]. Qed.

(** ** Reading less

    A reader that stops at or before the start of [q] reads the same without it. *)

#[local] Abbreviation len := String.length.

Lemma app_len p q : len (p +:+ q)%string = (len p + len q)%nat.
Proof. apply string_length_app. Qed.

Lemma same_tail (p q r : string) : (p +:+ q)%string = r -> (len r <= len q)%nat -> p = EmptyString /\ r = q.
Proof.
  intros <- H. rewrite app_len in H. destruct p; [by rewrite str_app_nil|simpl in H; lia].
Qed.

Definition prefix_reader {A} (S : string -> option (A * string)) : Prop := forall p q x r,
  S (p +:+ q)%string = Some (x, r) -> (len q <= len r)%nat ->
  exists r', r = (r' +:+ q)%string /\ S p = Some (x, r').

Lemma digits_split s d r : scan_digits s = (d, r) -> s = (d +:+ r)%string.
Proof.
  revert d r. induction s as [|c s IH]; intros d r H; [by injection H as <- <-|]. cbn [scan_digits] in H.
  destruct (is_digit c); [|injection H as <- <-; by rewrite str_app_nil].
  destruct (scan_digits s) as [d1 r1]. injection H as <- <-. rewrite str_app_cons. f_equal. by apply IH.
Qed.

Lemma digits_less p q d r : scan_digits (p +:+ q)%string = (d, r) -> (len q <= len r)%nat ->
  exists r', r = (r' +:+ q)%string /\ scan_digits p = (d, r').
Proof.
  revert d. induction p as [|c p IH]; intros d H Hl.
  - rewrite str_app_nil in H. pose proof (digits_split q d r H) as Hs. exists EmptyString.
    destruct d as [|c d]; [|apply (f_equal len) in Hs; rewrite app_len in Hs; simpl in Hs; lia].
    rewrite str_app_nil in Hs |- *. by subst.
  - rewrite str_app_cons in H. cbn [scan_digits] in H |- *. destruct (is_digit c).
    + destruct (scan_digits (p +:+ q)%string) as [d1 r1] eqn:E. injection H as <- <-.
      destruct (IH d1 eq_refl Hl) as (r' & -> & ->). by exists r'.
    + injection H as <- <-. by exists (String c p).
Qed.

Lemma int_less : prefix_reader scan_int.
Proof.
  intros p q x r H Hl. unfold scan_int in H. destruct p as [|c p].
  - exfalso. rewrite str_app_nil in H. destruct q as [|c q]; [done|].
    case_bool_decide; [injection H as <- <-; simpl in Hl; lia|]. destruct (is_digit c); [|done].
    destruct (scan_digits q) as [d r1] eqn:E. injection H as <- <-. apply digits_split in E.
    apply (f_equal len) in E. rewrite app_len in E. simpl in Hl. lia.
  - rewrite str_app_cons in H. cbn [scan_int]. case_bool_decide; [injection H as <- <-; by exists p|].
    destruct (is_digit c); [|done]. destruct (scan_digits (p +:+ q)%string) as [d r1] eqn:E.
    injection H as <- <-. apply digits_less in E as (r' & -> & ->); [|done]. by exists r'.
Qed.

Lemma frac_less : prefix_reader scan_frac.
Proof.
  intros p q x r H Hl. unfold scan_frac in *. destruct p as [|c p].
  - rewrite str_app_nil in H. exists EmptyString. rewrite str_app_nil. destruct q as [|c q]; [by simplify_eq|].
    case_bool_decide; [|by simplify_eq]. exfalso. destruct (scan_digits q) as [d r1] eqn:E.
    destruct (str_is_empty d); [done|]. injection H as <- <-. apply digits_split in E.
    apply (f_equal len) in E. rewrite app_len in E. simpl in Hl. lia.
  - rewrite str_app_cons in H. case_bool_decide; [|injection H as <- <-; by exists (String c p)].
    destruct (scan_digits (p +:+ q)%string) as [d r1] eqn:E. destruct (str_is_empty d) eqn:Ed; [done|].
    injection H as <- <-. apply digits_less in E as (r' & -> & ->); [|done]. exists r'. by rewrite Ed.
Qed.

(** The sign and the digits of an exponent. *)
Lemma exp_tail_less p q sg d r s1 :
  (match (p +:+ q)%string with
   | String x t => if bool_decide (x = "+"%char) || bool_decide (x = "-"%char)
                   then (String x EmptyString, t) else (EmptyString, (p +:+ q)%string)
   | EmptyString => (EmptyString, (p +:+ q)%string)
   end) = (sg, s1) -> scan_digits s1 = (d, r) -> str_is_empty d = false -> (len q <= len r)%nat ->
  exists r' s1', r = (r' +:+ q)%string /\ scan_digits s1' = (d, r') /\
    (match p with
     | String x t => if bool_decide (x = "+"%char) || bool_decide (x = "-"%char)
                     then (String x EmptyString, t) else (EmptyString, p)
     | EmptyString => (EmptyString, p)
     end) = (sg, s1').
Proof.
  intros Hs Hd Hne Hl. destruct p as [|x p].
  - exfalso. rewrite str_app_nil in Hs. apply digits_split in Hd. apply (f_equal len) in Hd. rewrite app_len in Hd.
    destruct d; [done|]. simpl in Hd. destruct q as [|x q]; [by injection Hs as _ <-|].
    destruct (_ || _); injection Hs as _ <-; simpl in *; lia.
  - rewrite str_app_cons in Hs. destruct (_ || _) eqn:E; injection Hs as <- <-.
    + apply digits_less in Hd as (r' & -> & Hd); [|done]. by exists r', p.
    + rewrite <- str_app_cons in Hd. apply digits_less in Hd as (r' & -> & Hd); [|done]. by exists r', (String x p).
Qed.

Lemma exp_less : prefix_reader scan_exp.
Proof.
  intros p q x r H Hl. unfold scan_exp in H. destruct p as [|c p].
  - rewrite str_app_nil in H. exists EmptyString. rewrite str_app_nil. destruct q as [|c q]; [by simplify_eq|].
    destruct (_ || _); [|by simplify_eq]. exfalso.
    destruct (match q with String y t => _ | EmptyString => _ end) as [sg s1] eqn:Es.
    destruct (scan_digits s1) as [d r1] eqn:E. destruct (str_is_empty d) eqn:Ed; [done|]. injection H as <- <-.
    pose proof (exp_tail_less EmptyString q sg d r1 s1) as Ht. rewrite str_app_nil in Ht.
    destruct (Ht Es E Ed) as (r' & s1' & _ & Hd & Hm); [simpl in Hl; lia|].
    injection Hm as _ <-. cbn in Hd. by injection Hd as <- <-.
  - rewrite str_app_cons in H. cbn [scan_exp]. destruct (_ || _) eqn:Ec; [|injection H as <- <-; by exists (String c p)].
    destruct (match (p +:+ q)%string with String y t => _ | EmptyString => _ end) as [sg s1] eqn:Es.
    destruct (scan_digits s1) as [d r1] eqn:E. destruct (str_is_empty d) eqn:Ed; [done|]. injection H as <- <-.
    destruct (exp_tail_less p q sg d r1 s1 Es E Ed Hl) as (r' & s1' & -> & Hd & ->).
    exists r'. by rewrite Hd, Ed.
Qed.

Definition shrinks {A} (S : string -> option (A * string)) : Prop := forall s x r,
  S s = Some (x, r) -> (len r <= len s)%nat.

Lemma digits_shrink s d r : scan_digits s = (d, r) -> (len r <= len s)%nat.
Proof. intros H. apply digits_split in H. apply (f_equal len) in H. rewrite app_len in H. lia. Qed.

Lemma int_shrinks : shrinks scan_int.
Proof.
  intros s x r H. unfold scan_int in H. destruct s as [|c s]; [done|].
  case_bool_decide; [injection H as <- <-; simpl; lia|]. destruct (is_digit c); [|done].
  destruct (scan_digits s) eqn:E. injection H as <- <-. apply digits_shrink in E. simpl. lia.
Qed.

Lemma int_shrinks_strict s x r : scan_int s = Some (x, r) -> (len r < len s)%nat.
Proof.
  intros H. destruct (Nat.lt_ge_cases (len r) (len s)) as [|Hge]; [done|].
  destruct (int_less EmptyString s x r) as (r' & _ & Hn); [by rewrite str_app_nil|done|done].
Qed.

Lemma frac_shrinks : shrinks scan_frac.
Proof.
  intros s x r H. unfold scan_frac in H. destruct s as [|c s]; [by simplify_eq|].
  case_bool_decide; [|by simplify_eq]. destruct (scan_digits s) eqn:E. destruct (str_is_empty _); [done|].
  injection H as <- <-. apply digits_shrink in E. simpl. lia.
Qed.

Lemma exp_shrinks : shrinks scan_exp.
Proof.
  intros s x r H. unfold scan_exp in H. destruct s as [|c s]; [by simplify_eq|].
  destruct (_ || _); [|by simplify_eq].
  destruct (match s with String y t => _ | EmptyString => _ end) as [sg s1] eqn:Es.
  destruct (scan_digits s1) eqn:E. destruct (str_is_empty _); [done|]. injection H as <- <-.
  apply digits_shrink in E. assert (len s1 <= len s)%nat; [|simpl; lia].
  destruct s; [by injection Es as _ <-|]. destruct (_ || _); injection Es as _ <-; simpl; lia.
Qed.

Lemma string_shrinks s : forall x r, scan_string s = Some (x, r) -> (len r < len s)%nat.
Proof.
  induction s as [s IH] using (induction_ltof1 _ String.length). unfold ltof in IH. intros x r H.
  destruct s as [|c s]; [done|]. cbn [scan_string] in H. case_bool_decide; [injection H as <- <-; simpl; lia|].
  case_bool_decide.
  - destruct s as [|d s]; [done|]. destruct (is_simple_escape d).
    + apply bind_Some in H as ([raw r1] & Hs & [= <- <-]). apply IH in Hs; simpl in *; lia.
    + case_bool_decide; [|done]. destruct s as [|h1 [|h2 [|h3 [|h4 s]]]]; try done.
      destruct (_ && _); [|done]. apply bind_Some in H as ([raw r1] & Hs & [= <- <-]). apply IH in Hs; simpl in *; lia.
  - destruct (byte_val c <? 32); [done|]. apply bind_Some in H as ([raw r1] & Hs & [= <- <-]).
    apply IH in Hs; simpl in *; lia.
Qed.

Lemma ws_shrinks s : (len (skip_ws s) <= len s)%nat.
Proof. induction s as [|c s IH]; simpl; [lia|]. destruct (is_ws c); simpl; lia. Qed.

(** White space before [q] is skipped, unless that is all there is. *)
Lemma ws_less p q : (exists p', skip_ws (p +:+ q)%string = (p' +:+ q)%string /\ skip_ws p = p' /\ p' <> EmptyString) \/
  (len (skip_ws (p +:+ q)%string) <= len q)%nat.
Proof.
  induction p as [|c p IH]; [right; rewrite str_app_nil; apply ws_shrinks|].
  rewrite str_app_cons. cbn [skip_ws]. destruct (is_ws c); [done|]. left. by exists (String c p).
Qed.

Lemma number_less : prefix_reader scan_number.
Proof.
  intros p q x r H Hl. unfold scan_number in H.
  assert (Hgo : forall sg p0,
    ('(i, s1) ← scan_int (p0 +:+ q)%string; '(f, s2) ← scan_frac s1; '(e, s3) ← scan_exp s2;
     Some (sg +:+ i +:+ f +:+ e, s3)%string) = Some (x, r) ->
    exists r', r = (r' +:+ q)%string /\
    ('(i, s1) ← scan_int p0; '(f, s2) ← scan_frac s1; '(e, s3) ← scan_exp s2;
     Some (sg +:+ i +:+ f +:+ e, s3)%string) = Some (x, r')).
  { intros sg p0 Hs. apply bind_Some in Hs as ([i s1] & Hi & Hs). apply bind_Some in Hs as ([f s2] & Hf & Hs).
    apply bind_Some in Hs as ([e s3] & He & [= <- <-]).
    pose proof (frac_shrinks _ _ _ Hf). pose proof (exp_shrinks _ _ _ He).
    apply int_less in Hi as (r1 & -> & ->); [lia|]. apply frac_less in Hf as (r2 & -> & Hf); [lia|].
    apply exp_less in He as (r3 & -> & He); [lia|]. exists r3. split; [done|]. simpl. rewrite Hf. simpl. by rewrite He. }
  unfold scan_number. destruct p as [|c p].
  - exfalso. rewrite str_app_nil in H.
    assert (Hshort : forall sg s0, (len s0 <= len q)%nat ->
      ('(i, s1) ← scan_int s0; '(f, s2) ← scan_frac s1; '(e, s3) ← scan_exp s2;
       Some (sg +:+ i +:+ f +:+ e, s3)%string) = Some (x, r) -> False).
    { intros sg s0 Hs0 Hs. apply bind_Some in Hs as ([i s1] & Hi & Hs). apply bind_Some in Hs as ([f s2] & Hf & Hs).
      apply bind_Some in Hs as ([e s3] & He & [= <- <-]).
      pose proof (int_shrinks _ _ _ Hi). pose proof (frac_shrinks _ _ _ Hf). pose proof (exp_shrinks _ _ _ He).
      assert (0 < len s0 - len s1)%nat by (apply int_shrinks_strict in Hi; lia). lia. }
    destruct q as [|c q]; [done|]. case_bool_decide.
    + apply (Hshort "-"%string q); [simpl; lia|exact H].
    + apply (Hshort EmptyString (String c q)); [lia|exact H].
  - rewrite str_app_cons in H. case_bool_decide; [by apply (Hgo "-"%string)|].
    rewrite <- str_app_cons in H. by apply (Hgo EmptyString).
Qed.

Lemma string_less p : forall q x r, scan_string (p +:+ q)%string = Some (x, r) -> (len q <= len r)%nat ->
  exists r', r = (r' +:+ q)%string /\ scan_string p = Some (x, r').
Proof.
  induction p as [p IH] using (induction_ltof1 _ String.length). unfold ltof in IH. intros q x r H Hl.
  destruct p as [|c p]; [apply string_shrinks in H; rewrite str_app_nil in H; lia|].
  rewrite str_app_cons in H. cbn [scan_string] in H |- *. case_bool_decide; [injection H as <- <-; by exists p|].
  case_bool_decide.
  - destruct p as [|d p].
    { exfalso. rewrite str_app_nil in H. destruct q as [|d q]; [done|]. destruct (is_simple_escape d).
      - apply bind_Some in H as ([raw r1] & Hs & [= <- <-]). apply string_shrinks in Hs. simpl in Hl. lia.
      - case_bool_decide; [|done]. destruct q as [|h1 [|h2 [|h3 [|h4 s]]]]; try done.
        destruct (_ && _); [|done]. apply bind_Some in H as ([raw r1] & Hs & [= <- <-]).
        apply string_shrinks in Hs. simpl in Hl. lia. }
    rewrite str_app_cons in H. destruct (is_simple_escape d).
    + apply bind_Some in H as ([raw r1] & Hs & [= <- <-]).
      apply IH in Hs as (r' & -> & Hp); [|simpl; lia|done]. exists r'. split; [done|]. by rewrite Hp.
    + case_bool_decide; [|done].
      destruct p as [|h1 [|h2 [|h3 [|h4 p]]]]; rewrite ?str_app_nil, ?str_app_cons in H.
      1-4: exfalso; destruct q as [|k1 [|k2 [|k3 [|k4 q]]]]; rewrite ?str_app_nil in H; try done;
        destruct (_ && _); try done; apply bind_Some in H as ([raw r1] & Hs & [= <- <-]);
        apply string_shrinks in Hs; simpl in *; lia.
      destruct (_ && _); [|done]. apply bind_Some in H as ([raw r1] & Hs & [= <- <-]).
      apply IH in Hs as (r' & -> & Hp); [|simpl; lia|done]. exists r'. split; [done|]. by rewrite Hp.
  - destruct (byte_val c <? 32); [done|]. apply bind_Some in H as ([raw r1] & Hs & [= <- <-]).
    apply IH in Hs as (r' & -> & Hp); [|simpl; lia|done]. exists r'. split; [done|]. by rewrite Hp.
Qed.

(** ** Values *)

Lemma cut_prefix_less w : forall p q r, cut_prefix w (p +:+ q)%string = Some r -> (len q <= len r)%nat ->
  exists r', r = (r' +:+ q)%string /\ cut_prefix w p = Some r'.
Proof.
  induction w as [|a w IH]; intros p q r H Hl; cbn [cut_prefix] in *.
  - injection H as <-. by exists p.
  - destruct p as [|c p].
    + exfalso. rewrite str_app_nil in H. clear IH. destruct q as [|c q]; [done|].
      case_bool_decide; [|done]. assert (Hs : forall v s t, cut_prefix v s = Some t -> (len t <= len s)%nat).
      { clear. induction v as [|a v IH]; intros s t H; cbn [cut_prefix] in H; [injection H as <-; lia|].
        destruct s; [done|]. case_bool_decide; [|done]. apply IH in H. simpl. lia. }
      apply Hs in H. simpl in Hl. lia.
    + rewrite str_app_cons in H. case_bool_decide; [|done]. by apply IH.
Qed.

Lemma cut_prefix_none w : forall p q, cut_prefix w (p +:+ q)%string = None -> cut_prefix w p = None.
Proof.
  induction w as [|a w IH]; intros p q H; cbn [cut_prefix] in *; [done|].
  destruct p as [|c p]; [done|]. rewrite str_app_cons in H. case_bool_decide; [by apply IH in H|done].
Qed.

Definition values_less (fuel : nat) : Prop := forall depth p q t r,
  scan_value fuel depth (p +:+ q)%string = Some (t, r) -> (len q <= len r)%nat ->
  exists r', r = (r' +:+ q)%string /\ scan_value fuel depth p = Some (t, r').
Definition elems_less (fuel : nat) : Prop := forall depth p q ts r,
  scan_elems fuel depth (p +:+ q)%string = Some (ts, r) -> (len q <= len r)%nat ->
  exists r', r = (r' +:+ q)%string /\ scan_elems fuel depth p = Some (ts, r').
Definition members_less (fuel : nat) : Prop := forall depth p q ms r,
  scan_members fuel depth (p +:+ q)%string = Some (ms, r) -> (len q <= len r)%nat ->
  exists r', r = (r' +:+ q)%string /\ scan_members fuel depth p = Some (ms, r').

(** Everything a scanner reads is shorter than what it was given. *)
Definition all_shrink (fuel : nat) : Prop :=
  (forall depth s t r, scan_value fuel depth s = Some (t, r) -> (len r < len s)%nat) /\
  (forall depth s ts r, scan_elems fuel depth s = Some (ts, r) -> (len r < len s)%nat) /\
  (forall depth s ms r, scan_members fuel depth s = Some (ms, r) -> (len r < len s)%nat).

Lemma number_shrinks s x r : scan_number s = Some (x, r) -> (len r < len s)%nat.
Proof.
  intros H. destruct (Nat.lt_ge_cases (len r) (len s)) as [|Hge]; [done|].
  destruct (number_less EmptyString s x r) as (r' & _ & Hn); [by rewrite str_app_nil|done|done].
Qed.

Lemma keyword_shrinks a w s r : cut_prefix (String a w) s = Some r -> (len r < len s)%nat.
Proof.
  intros H. destruct (Nat.lt_ge_cases (len r) (len s)) as [|Hge]; [done|].
  destruct (cut_prefix_less (String a w) EmptyString s r) as (r' & _ & Hn); [by rewrite str_app_nil|done|done].
Qed.

Lemma ws_head s c s' : skip_ws s = String c s' -> (len s' < len s)%nat.
Proof. intros H. pose proof (ws_shrinks s) as Hs. rewrite H in Hs. simpl in Hs. lia. Qed.

Lemma shrink_step f : all_shrink f -> all_shrink (S f).
Proof.
  intros (Hv & He & Hm). repeat split; intros depth s x r H.
  - cbn [scan_value] in H. destruct (skip_ws s) as [|c s'] eqn:Es; [done|]. apply ws_head in Es as Hlen.
    case_bool_decide. { apply bind_Some in H as ([raw r1] & Hs & [= <- <-]). apply string_shrinks in Hs. lia. }
    case_bool_decide.
    { destruct (_ <? _); [done|]. destruct (skip_ws s') as [|d s2] eqn:Es2; [done|]. apply ws_head in Es2 as Hl2.
      case_bool_decide; [injection H as <- <-; lia|].
      apply bind_Some in H as ([ms r1] & Hs & [= <- <-]). apply Hm in Hs. simpl in Hs. lia. }
    case_bool_decide.
    { destruct (_ <? _); [done|]. destruct (skip_ws s') as [|d s2] eqn:Es2; [done|]. apply ws_head in Es2 as Hl2.
      case_bool_decide; [injection H as <- <-; lia|].
      apply bind_Some in H as ([ms r1] & Hs & [= <- <-]). apply He in Hs. simpl in Hs. lia. }
    destruct (cut_prefix "null" _) as [r1|] eqn:E1; [injection H as <- <-; apply keyword_shrinks in E1; simpl in *; lia|].
    destruct (cut_prefix "true" _) as [r1|] eqn:E2; [injection H as <- <-; apply keyword_shrinks in E2; simpl in *; lia|].
    destruct (cut_prefix "false" _) as [r1|] eqn:E3; [injection H as <- <-; apply keyword_shrinks in E3; simpl in *; lia|].
    apply bind_Some in H as ([lit r1] & Hs & [= <- <-]). apply number_shrinks in Hs. simpl in *. lia.
  - cbn [scan_elems] in H. apply bind_Some in H as ([v s1] & Hs & H). apply Hv in Hs.
    destruct (skip_ws s1) as [|c s2] eqn:E; [done|]. apply ws_head in E.
    case_bool_decide; [injection H as <- <-; lia|]. case_bool_decide; [|done].
    apply bind_Some in H as ([vs r1] & Hs2 & [= <- <-]). apply He in Hs2. lia.
  - cbn [scan_members] in H. destruct (skip_ws s) as [|q s0] eqn:E0; [done|]. apply ws_head in E0.
    case_bool_decide; [|done]. apply bind_Some in H as ([k s1] & Hk & H). apply string_shrinks in Hk.
    destruct (skip_ws s1) as [|col s2] eqn:E1; [done|]. apply ws_head in E1. case_bool_decide; [|done].
    apply bind_Some in H as ([v s3] & Hs & H). apply Hv in Hs.
    destruct (skip_ws s3) as [|c s4] eqn:E; [done|]. apply ws_head in E.
    case_bool_decide; [injection H as <- <-; lia|]. case_bool_decide; [|done].
    apply bind_Some in H as ([vs r1] & Hs2 & [= <- <-]). apply Hm in Hs2. lia.
Qed.

Lemma scan_shrinks fuel : all_shrink fuel.
Proof. induction fuel; [by repeat split; intros|by apply shrink_step]. Qed.

(** A character the scanner looks at lies before [q] when what it leaves does. *)
Lemma ws_char p q c s' (n : nat) : skip_ws (p +:+ q)%string = String c s' -> (len q <= n)%nat -> (n <= len s')%nat ->
  exists p', s' = (p' +:+ q)%string /\ skip_ws p = String c p'.
Proof.
  intros H Hq Hn. destruct (ws_less p q) as [(p' & E & Ep & Hne)|Hle].
  - rewrite E in H. destruct p' as [|c' p']; [done|]. rewrite str_app_cons in H. injection H as -> <-.
    by exists p'.
  - exfalso. rewrite H in Hle. simpl in Hle. lia.
Qed.

Lemma value_less_step f : elems_less f -> members_less f -> values_less (S f).
Proof.
  intros He Hm depth p q t r H Hl. destruct (scan_shrinks f) as (_ & Se & Sm). cbn [scan_value] in H |- *.
  destruct (skip_ws (p +:+ q)%string) as [|c s'] eqn:Es; [done|].
  assert (Hc : forall n, (len q <= n)%nat -> (n <= len s')%nat -> exists p', s' = (p' +:+ q)%string /\ skip_ws p = String c p')
    by (intros n; by apply ws_char).
  case_bool_decide as Hq.
  { apply bind_Some in H as ([raw r1] & Hs & [= <- <-]). pose proof (string_shrinks _ _ _ Hs).
    destruct (Hc (len r1)) as (p' & -> & ->); [lia..|]. rewrite bool_decide_true by done.
    apply string_less in Hs as (r' & -> & ->); [by exists r'|done]. }
  case_bool_decide as Hb.
  { destruct (maxNestingDepth <? depth + 1) eqn:Ed; [done|]. destruct (skip_ws s') as [|d s2] eqn:Es2; [done|].
    assert (Hr : (len r <= len s2)%nat).
    { case_bool_decide; [injection H as <- <-; lia|]. apply bind_Some in H as ([ms r1] & Hs & [= <- <-]).
      apply Sm in Hs. simpl in Hs. lia. }
    pose proof (ws_head _ _ _ Es2). destruct (Hc (len s2)) as (p' & -> & ->); [lia..|].
    rewrite bool_decide_false, bool_decide_true by done.
    destruct (ws_char p' q d s2 (len r) Es2 Hl Hr) as (p2 & -> & ->).
    case_bool_decide; [injection H as <- <-; by exists p2|].
    apply bind_Some in H as ([ms r1] & Hs & [= <- <-]). rewrite <- str_app_cons in Hs.
    apply Hm in Hs as (r' & -> & ->); [done|by exists r']. }
  case_bool_decide as Hsq.
  { destruct (maxNestingDepth <? depth + 1) eqn:Ed; [done|]. destruct (skip_ws s') as [|d s2] eqn:Es2; [done|].
    assert (Hr : (len r <= len s2)%nat).
    { case_bool_decide; [injection H as <- <-; lia|]. apply bind_Some in H as ([ms r1] & Hs & [= <- <-]).
      apply Se in Hs. simpl in Hs. lia. }
    pose proof (ws_head _ _ _ Es2). destruct (Hc (len s2)) as (p' & -> & ->); [lia..|].
    rewrite bool_decide_false, bool_decide_false, bool_decide_true by done.
    destruct (ws_char p' q d s2 (len r) Es2 Hl Hr) as (p2 & -> & ->).
    case_bool_decide; [injection H as <- <-; by exists p2|].
    apply bind_Some in H as ([ms r1] & Hs & [= <- <-]). rewrite <- str_app_cons in Hs.
    apply He in Hs as (r' & -> & ->); [done|by exists r']. }
  assert (Hr : (len r <= len s')%nat).
  { destruct (cut_prefix "null" _) as [r1|] eqn:E1; [injection H as <- <-; apply keyword_shrinks in E1; simpl in *; lia|].
    destruct (cut_prefix "true" _) as [r1|] eqn:E2; [injection H as <- <-; apply keyword_shrinks in E2; simpl in *; lia|].
    destruct (cut_prefix "false" _) as [r1|] eqn:E3; [injection H as <- <-; apply keyword_shrinks in E3; simpl in *; lia|].
    apply bind_Some in H as ([lit r1] & Hs & [= <- <-]). apply number_shrinks in Hs. simpl in *. lia. }
  destruct (Hc (len r)) as (p' & -> & ->); [done..|]. rewrite !bool_decide_false by done.
  rewrite <- str_app_cons in H.
  destruct (cut_prefix "null" (String c p' +:+ q)%string) as [r1|] eqn:E1.
  { injection H as <- <-. apply cut_prefix_less in E1 as (r' & -> & ->); [by exists r'|done]. }
  apply cut_prefix_none in E1 as ->. destruct (cut_prefix "true" (String c p' +:+ q)%string) as [r1|] eqn:E2.
  { injection H as <- <-. apply cut_prefix_less in E2 as (r' & -> & ->); [by exists r'|done]. }
  apply cut_prefix_none in E2 as ->. destruct (cut_prefix "false" (String c p' +:+ q)%string) as [r1|] eqn:E3.
  { injection H as <- <-. apply cut_prefix_less in E3 as (r' & -> & ->); [by exists r'|done]. }
  apply cut_prefix_none in E3 as ->. apply bind_Some in H as ([lit r1] & Hs & [= <- <-]).
  apply number_less in Hs as (r' & -> & ->); [done|by exists r'].
Qed.

Lemma elems_less_step f : values_less f -> elems_less f -> elems_less (S f).
Proof.
  intros Hv He depth p q ts r H Hl. destruct (scan_shrinks f) as (Sv & Se & _). cbn [scan_elems] in H |- *.
  apply bind_Some in H as ([v s1] & Hs & H). destruct (skip_ws s1) as [|c s2] eqn:E; [done|].
  assert (Hr : (len r <= len s2)%nat).
  { case_bool_decide; [injection H as <- <-; lia|]. case_bool_decide; [|done].
    apply bind_Some in H as ([vs r1] & Hs2 & [= <- <-]). apply Se in Hs2. lia. }
  pose proof (ws_head _ _ _ E). apply Hv in Hs as (s1' & -> & ->); [lia|]. cbn [mbind option_bind].
  destruct (ws_char s1' q c s2 (len r) E Hl Hr) as (p2 & -> & ->).
  case_bool_decide; [injection H as <- <-; by exists p2|]. case_bool_decide; [|done].
  apply bind_Some in H as ([vs r1] & Hs2 & [= <- <-]). apply He in Hs2 as (r' & -> & ->); [done|]. by exists r'.
Qed.

Lemma members_less_step f : values_less f -> members_less f -> members_less (S f).
Proof.
  intros Hv Hm depth p q ms r H Hl. destruct (scan_shrinks f) as (Sv & _ & Sm). cbn [scan_members] in H |- *.
  destruct (skip_ws (p +:+ q)%string) as [|k s0] eqn:E0; [done|]. case_bool_decide as Hk; [|done].
  apply bind_Some in H as ([key s1] & Hkey & H). destruct (skip_ws s1) as [|col s2] eqn:E1; [done|].
  case_bool_decide as Hcol; [|done]. apply bind_Some in H as ([v s3] & Hs & H).
  destruct (skip_ws s3) as [|c s4] eqn:E3; [done|].
  assert (Hr : (len r <= len s4)%nat).
  { case_bool_decide; [injection H as <- <-; lia|]. case_bool_decide; [|done].
    apply bind_Some in H as ([vs r1] & Hs2 & [= <- <-]). apply Sm in Hs2. lia. }
  pose proof (ws_head _ _ _ E3). pose proof (Sv _ _ _ _ Hs). pose proof (ws_head _ _ _ E1).
  pose proof (string_shrinks _ _ _ Hkey).
  destruct (ws_char p q k s0 (len r) E0 Hl) as (p0 & -> & ->); [lia|]. rewrite bool_decide_true by done.
  apply string_less in Hkey as (s1' & -> & ->); [|lia]. cbn [mbind option_bind].
  destruct (ws_char s1' q col s2 (len r) E1 Hl) as (p2 & -> & ->); [lia|]. rewrite bool_decide_true by done.
  apply Hv in Hs as (s3' & -> & ->); [lia|]. cbn [mbind option_bind].
  destruct (ws_char s3' q c s4 (len r) E3 Hl Hr) as (p4 & -> & ->).
  case_bool_decide; [injection H as <- <-; by exists p4|]. case_bool_decide; [|done].
  apply bind_Some in H as ([vs r1] & Hs2 & [= <- <-]). apply Hm in Hs2 as (r' & -> & ->); [done|]. by exists r'.
Qed.

Lemma scan_less fuel : values_less fuel /\ elems_less fuel /\ members_less fuel.
Proof.
  induction fuel as [|f (IHv & IHe & IHm)]; [by split_and!; intros d p q x r H|].
  auto using value_less_step, elems_less_step, members_less_step.
Qed.

(** ** Fuel

    Two units per byte are enough, whatever larger amount a scan was run with. *)

Definition enough (f' : nat) : Prop :=
  (forall f depth s x, scan_value f depth s = Some x -> (2 * len s <= f')%nat -> scan_value f' depth s = Some x) /\
  (forall f depth s x, scan_elems f depth s = Some x -> (2 * len s + 1 <= f')%nat -> scan_elems f' depth s = Some x) /\
  (forall f depth s x, scan_members f depth s = Some x -> (2 * len s + 1 <= f')%nat -> scan_members f' depth s = Some x).

Lemma scan_value_nonempty f depth s x : scan_value f depth s = Some x -> (0 < len s)%nat.
Proof. destruct x as [t r]. intros H. destruct (scan_shrinks f) as (Sv & _). apply Sv in H. lia. Qed.

Lemma enough_step f' : enough f' -> enough (S f').
Proof.
  intros (Hv & He & Hm). split_and!; intros [|f] depth s x H Hl; try done.
  - cbn [scan_value] in H |- *. destruct (skip_ws s) as [|c s'] eqn:Es; [done|]. apply ws_head in Es.
    case_bool_decide; [done|]. case_bool_decide.
    { destruct (_ <? _); [done|]. destruct (skip_ws s') as [|d s2] eqn:E2; [done|]. apply ws_head in E2.
      case_bool_decide; [done|]. apply bind_Some in H as (y & Hs & H).
      rewrite (Hm _ _ _ _ Hs) by (simpl; lia). done. }
    case_bool_decide; [|done]. destruct (_ <? _); [done|]. destruct (skip_ws s') as [|d s2] eqn:E2; [done|].
    apply ws_head in E2. case_bool_decide; [done|]. apply bind_Some in H as (y & Hs & H).
    rewrite (He _ _ _ _ Hs) by (simpl; lia). done.
  - cbn [scan_elems] in H |- *. apply bind_Some in H as ([v s1] & Hs & H).
    rewrite (Hv _ _ _ _ Hs) by lia. cbn [mbind option_bind]. destruct (scan_shrinks f) as (Sv & _). apply Sv in Hs.
    destruct (skip_ws s1) as [|c s2] eqn:E; [done|]. apply ws_head in E. case_bool_decide; [done|].
    case_bool_decide; [|done]. apply bind_Some in H as (y & Hs2 & H). rewrite (He _ _ _ _ Hs2) by lia. done.
  - cbn [scan_members] in H |- *. destruct (skip_ws s) as [|k s0] eqn:E0; [done|]. apply ws_head in E0.
    case_bool_decide; [|done]. apply bind_Some in H as ([key s1] & Hk & H). rewrite Hk. cbn [mbind option_bind].
    apply string_shrinks in Hk. destruct (skip_ws s1) as [|col s2] eqn:E1; [done|]. apply ws_head in E1.
    case_bool_decide; [|done]. apply bind_Some in H as ([v s3] & Hs & H). rewrite (Hv _ _ _ _ Hs) by lia.
    cbn [mbind option_bind]. destruct (scan_shrinks f) as (Sv & _). apply Sv in Hs.
    destruct (skip_ws s3) as [|c s4] eqn:E; [done|]. apply ws_head in E. case_bool_decide; [done|].
    case_bool_decide; [|done]. apply bind_Some in H as (y & Hs2 & H). rewrite (Hm _ _ _ _ Hs2) by lia. done.
Qed.

Lemma scan_enough f' : enough f'.
Proof.
  induction f'; [|by apply enough_step]. split_and!; intros f depth s x H Hl; try lia.
  apply scan_value_nonempty in H. lia.
Qed.

(** ** The text of a document's value *)

Lemma take_prefix p q : str_take (len (p +:+ q) - len q) (p +:+ q)%string = p.
Proof. rewrite app_len. replace (len p + len q - len q)%nat with (len p) by lia. apply str_take_app. Qed.

Lemma skip_ws_idem s : skip_ws (skip_ws s) = skip_ws s.
Proof. induction s as [|c s IH]; [done|]. simpl. destruct (is_ws c) eqn:E; [done|]. simpl. by rewrite E. Qed.

Lemma scan_value_skip f depth s : scan_value f depth (skip_ws s) = scan_value f depth s.
Proof. destruct f; [done|]. cbn [scan_value]. by rewrite skip_ws_idem. Qed.

(** A scan ends in what it was given. *)
Lemma scan_suffix f depth s t r : scan_value f depth s = Some (t, r) -> exists p, s = (p +:+ r)%string.
Proof.
  intros H. destruct (scan_shrinks f) as (Sv & _). pose proof (Sv _ _ _ _ H) as Hl.
  assert (Hcut : forall n (s : string), (n <= len s)%nat -> exists p q, s = (p +:+ q)%string /\ len q = n).
  { clear. intros n s. induction s as [|c s IH]; intros Hn; simpl in Hn.
    - exists EmptyString, EmptyString. split; [done|]. simpl. lia.
    - destruct (decide (n = S (len s))) as [->|]; [by exists EmptyString, (String c s)|].
      destruct IH as (p & q & -> & Hq); [lia|]. by exists (String c p), q. }
  destruct (Hcut (len r) s) as (p & q & -> & Hq); [lia|]. exists p.
  destruct (scan_less f) as (Hv & _). apply Hv in H as (r' & -> & _); [lia|].
  rewrite app_len in Hq. destruct r'; [by rewrite str_app_nil|simpl in Hq; lia].
Qed.

Lemma unmarshal_raw_parse body text :
  unmarshal_raw body = Some text -> is_Some (parse_json body) /\ parse_json text = parse_json body.
Proof.
  unfold unmarshal_raw, parse_json at 1 3. intros H. apply bind_Some in H as ([t r] & Hs & H).
  rewrite Hs. cbn [mbind option_bind]. destruct (str_is_empty (skip_ws r)) eqn:Er; [|done].
  split; [by eexists|]. rewrite <- scan_value_skip in Hs. destruct (scan_suffix _ _ _ _ _ Hs) as [p Hp].
  rewrite Hp in H, Hs. rewrite take_prefix in H. injection H as <-.
  destruct (scan_less (json_fuel body)) as (Hv & _). apply Hv in Hs as (r' & Hr' & Hs'); [done|].
  assert (r' = EmptyString) as ->.
  { apply (f_equal len) in Hr'. rewrite app_len in Hr'. destruct r'; [done|simpl in Hr'; lia]. }
  unfold parse_json. destruct (scan_enough (json_fuel p)) as (Hen & _).
  rewrite (Hen _ _ _ _ Hs') by (unfold json_fuel; lia). done.
Qed.

Lemma unmarshal_raw_none body : unmarshal_raw body = None -> parse_json body = None.
Proof.
  unfold unmarshal_raw, parse_json. destruct (scan_value _ _ _) as [[t r]|]; [|done]. simpl.
  by destruct (str_is_empty _).
Qed.
