(* ===== verification/GoJsonStruct.v ===== *)
(** * encoding/json: structs, maps and the scalar fields in them

    How [Marshal] prints a field and how [Unmarshal] stores a value into one, for
    the field types the program's documents use.  A decoder takes the value the
    field already holds: [null] leaves most of them alone, and a repeated key is
    decoded into what the earlier one left.  Every failed conversion makes the
    whole call fail, so one error stands for them all. *)

From Stdlib Require Import ZArith Lia Ascii.
From stdpp Require Import base tactics option strings gmap list.
From S2P Require Import Prelude GoLib GoFloat GoRound GoNumber GoJson GoJsonPrint GoFloatText.
From S2P Require Import GoJsonValue GoJsonString.

#[local] Open Scope Z_scope.

(** ** Printing *)

Definition enc_string (s : string) : jtree := TStr (raw_of s).
Definition enc_int (z : Z) : jtree := TNum (itoa z).
Definition enc_float (f : float64) : option jtree := TNum <$> format_json f.
Definition enc_strings (l : list string) : jtree := TArr (enc_string <$> l).

(** Map keys are printed in order. *)
Definition sorted_members (m : gmap string string) : list (string * string) :=
  foldr (fun kv acc => obj_insert kv.1 kv.2 acc) [] (map_to_list m).

Definition enc_map (m : gmap string string) : jtree :=
  TObj ((fun kv => (raw_of kv.1, enc_string kv.2)) <$> sorted_members m).

(** One member, unless its value is the empty one of an [omitempty] field. *)
Definition unless_empty (empty : bool) (name : string) (t : jtree) : list (string * jtree) :=
  if empty then [] else [(name, t)].
#[global] Arguments unless_empty : simpl never.

Definition is_nil {A} (l : list A) : bool := match l with [] => true | _ => false end.

(** [reflect.Value.IsZero] of a float: equal to zero, the negative one included. *)
Definition float_is_zero (f : float64) : bool :=
  match f with FFin _ 0 _ => true | _ => false end.

(** A pointer: [nil] prints as [null], where the field is not left out. *)
Definition enc_ptr {A} (enc : A -> option jtree) (x : option A) : option jtree :=
  match x with None => Some TNull | Some a => enc a end.

Definition is_none {A} (x : option A) : bool := match x with None => true | Some _ => false end.

(** ** Storing *)

Definition dec_string (t : jtree) (old : string) : option string :=
  match t with TNull => Some old | TStr raw => Some (unquote raw) | _ => None end.

Definition dec_bool (t : jtree) (old : bool) : option bool :=
  match t with TNull => Some old | TBool b => Some b | _ => None end.

(** An [int] or [int64]: [strconv.ParseInt] of the literal. *)
Definition dec_int (t : jtree) (old : Z) : option Z :=
  match t with TNull => Some old | TNum lit => atoi lit | _ => None end.

Definition dec_float (t : jtree) (old : float64) : option float64 :=
  match t with TNull => Some old | TNum lit => parse_float lit | _ => None end.

Definition dec_map (t : jtree) (old : gmap string string) : option (gmap string string) :=
  match t with
  | TNull => Some ∅
  | TObj ms =>
      foldl (fun acc kt => m ← acc; v ← dec_string kt.2 EmptyString; Some (<[unquote kt.1 := v]> m))
        (Some old) ms
  | _ => None
  end.

(** A [[]string]: an element of [null] keeps what the slice held at its place. *)
Fixpoint dec_elems (ts : list jtree) (old : list string) : option (list string) :=
  match ts with
  | [] => Some []
  | t :: ts' => s ← dec_string t (default EmptyString (head old)); l ← dec_elems ts' (tail old); Some (s :: l)
  end.

Definition dec_strings (t : jtree) (old : list string) : option (list string) :=
  match t with TNull => Some [] | TArr ts => dec_elems ts old | _ => None end.

(** A pointer field. *)
Definition dec_ptr {A} (dec : jtree -> A -> option A) (zero : A) (t : jtree) (old : option A)
  : option (option A) :=
  match t with TNull => Some None | _ => Some <$> dec t (default zero old) end.

(** ** Structs *)

Definition field (A : Type) : Type := string * (jtree -> A -> option A).

Definition setter {A B} (get : A -> B) (set : B -> A -> A) (dec : jtree -> B -> option B)
  (t : jtree) (s : A) : option A :=
  v ← dec t (get s); Some (set v s).

(** [foldName]: letters in one case, with the two letters outside ASCII that fold
    to an ASCII one, the long s and the Kelvin sign. *)
Fixpoint fold_name (s : string) : string :=
  match s with
  | EmptyString => EmptyString
  | String a s1 =>
      let plain := String (if is_lower a then byte_of (byte_val a - 32) else a) (fold_name s1) in
      match s1 with
      | String b s2 =>
          if (byte_val a =? 197) && (byte_val b =? 191) then String "S" (fold_name s2)
          else match s2 with
               | String c s3 =>
                   if (byte_val a =? 226) && (byte_val b =? 132) && (byte_val c =? 170)
                   then String "K" (fold_name s3) else plain
               | EmptyString => plain
               end
      | EmptyString => plain
      end
  end.

Fixpoint find_by {A} (p : string -> bool) (fields : list (field A)) : option (field A) :=
  match fields with
  | [] => None
  | f :: fields' => if p f.1 then Some f else find_by p fields'
  end.

(** The field with the key's name, or else the first whose name differs from it
    only in case. *)
Definition find_field {A} (fields : list (field A)) (key : string) : option (field A) :=
  match find_by (str_eqb key) fields with
  | Some f => Some f
  | None => find_by (fun name => str_eqb (fold_name name) (fold_name key)) fields
  end.

Definition dec_member {A} (strict : bool) (fields : list (field A)) (acc : option A) (kt : string * jtree)
  : option A :=
  s ← acc;
  match find_field fields (unquote kt.1) with
  | Some f => f.2 kt.2 s
  | None => if strict then None else Some s
  end.

Definition dec_members {A} (strict : bool) (fields : list (field A)) (ms : list (string * jtree)) (s : A)
  : option A :=
  foldl (dec_member strict fields) (Some s) ms.

Definition dec_struct {A} (strict : bool) (fields : list (field A)) (t : jtree) (old : A) : option A :=
  match t with
  | TNull => Some old
  | TObj ms => dec_members strict fields ms old
  | _ => None
  end.

(** [json.Unmarshal] into a fresh struct, and a [Decoder] with
    [DisallowUnknownFields] when [strict]. *)
Definition unmarshal_struct {A} (strict : bool) (fields : list (field A)) (zero : A) (text : string)
  : option A :=
  t ← parse_json text; dec_struct strict fields t zero.

(** ** What is printed can be read *)

Definition good (k : Z) (t : jtree) : Prop := tree_ok t = true /\ nesting t <= k.
Definition good_member (k : Z) (kt : string * jtree) : Prop := raw_ok kt.1 = true /\ good k kt.2.

Lemma good_weaken k k' t : good k t -> k <= k' -> good k' t.
Proof. intros [? ?] ?. split; [done|lia]. Qed.

Lemma max_bound {A} (f : A -> Z) k l : 0 <= k -> Forall (fun x => f x <= k) l -> foldr Z.max 0 (f <$> l) <= k.
Proof. intros Hk. induction 1; [done|]. rewrite fmap_cons. simpl. lia. Qed.

Lemma good_obj k ms : 0 <= k -> Forall (good_member k) ms -> good (1 + k) (TObj ms).
Proof.
  intros Hk H. split; simpl.
  - apply Is_true_true, forallb_True, Forall_forall. intros [n t] Hin.
    destruct (proj1 (Forall_forall _ _) H _ Hin) as (H1 & H2 & _). simpl in *. by rewrite H1, H2.
  - assert (foldr Z.max 0 ((fun kv => nesting kv.2) <$> ms) <= k); [|lia].
    apply max_bound; [done|]. eapply Forall_impl; [exact H|]. by intros [n t] (_ & _ & ?).
Qed.

Lemma good_arr k ts : 0 <= k -> Forall (good k) ts -> good (1 + k) (TArr ts).
Proof.
  intros Hk H. split; simpl.
  - apply Is_true_true, forallb_True, Forall_forall. intros t Hin.
    destruct (proj1 (Forall_forall _ _) H _ Hin) as [H1 _]. by rewrite H1.
  - assert (foldr Z.max 0 (nesting <$> ts) <= k); [|lia].
    apply max_bound; [done|]. eapply Forall_impl; [exact H|]. by intros t [_ ?].
Qed.

(** Decimal integers are numbers of the grammar. *)
Lemma udigits_digits fuel n acc :
  0 <= n -> str_forallb is_digit acc = true -> str_forallb is_digit (udigits fuel n acc) = true.
Proof.
  revert n acc. induction fuel as [|f IH]; intros n acc Hn Ha; [done|]. cbn [udigits].
  destruct (digit_char_ok (n mod 10)) as [Hd _]; [by apply Z.mod_pos_bound|].
  destruct (n / 10 =? 0); [simpl; by rewrite Hd|].
  apply IH; [by apply Z.div_pos|simpl; by rewrite Hd].
Qed.

Lemma udigits_first fuel n acc : 0 < n < 2 ^ Z.of_nat fuel ->
  exists c s, udigits fuel n acc = String c s /\ is_digit c = true /\ c <> "0"%char.
Proof.
  revert n acc. induction fuel as [|f IH]; intros n acc Hn; [simpl in *; lia|]. cbn [udigits].
  pose proof (Z.div_mod n 10 ltac:(lia)) as Hdm.
  destruct (digit_char_ok (n mod 10)) as [Hd Hv]; [by apply Z.mod_pos_bound|].
  destruct (Z.eqb_spec (n / 10) 0) as [E|E].
  - eexists _, _. split; [done|]. split; [done|]. intros Hc. rewrite Hc in Hv.
    change (digit_val "0") with 0 in Hv. lia.
  - apply IH. rewrite Nat2Z.inj_succ, Z.pow_succ_r in Hn by lia.
    pose proof (Z.div_pos n 10). split; [lia|]. apply Z.div_lt_upper_bound; lia.
Qed.

Lemma scan_all_digits s : str_forallb is_digit s = true -> scan_digits s = (s, EmptyString).
Proof. induction s as [|c s IH]; [done|]. simpl. intros [-> H]%andb_true_iff. by rewrite IH. Qed.

Lemma scan_int_utoa n : 0 <= n -> scan_int (utoa n) = Some (utoa n, EmptyString).
Proof.
  intros Hn. destruct (Z.eq_dec n 0) as [->|Hz]; [done|]. unfold utoa.
  pose proof (udigits_digits (S (Z.to_nat (Z.log2 n))) n "" Hn eq_refl) as Hall.
  destruct (udigits_first (S (Z.to_nat (Z.log2 n))) n "") as (c & s & E & Hd & H0).
  { rewrite Nat2Z.inj_succ, Z2Nat.id by apply Z.log2_nonneg. pose proof (Z.log2_spec n). lia. }
  rewrite E in *. cbn [scan_int]. rewrite bool_decide_false, Hd by done.
  simpl in Hall. apply andb_true_iff in Hall as [_ Hall]. by rewrite scan_all_digits.
Qed.

Lemma num_ok_itoa z : num_ok (itoa z) = true.
Proof.
  unfold num_ok, itoa, scan_number. apply bool_decide_eq_true.
  destruct (Z.ltb_spec z 0).
  - rewrite bool_decide_true by done. rewrite scan_int_utoa by lia. simpl. by rewrite str_app_empty_r.
  - pose proof (scan_int_utoa z ltac:(lia)) as Hs.
    assert (Hm : utoa z <> EmptyString) by (intros E; rewrite E in Hs; done).
    destruct (utoa z) as [|x t] eqn:E; [done|]. rewrite bool_decide_false.
    + rewrite Hs. simpl. by rewrite str_app_empty_r.
    + intros ->. done.
Qed.

Lemma good_string s : good 0 (enc_string s).
Proof. split; [apply raw_of_ok|done]. Qed.

Lemma good_strings l : good 1 (enc_strings l).
Proof.
  apply (good_arr 0); [done|]. apply Forall_forall. intros t Ht.
  apply list_elem_of_fmap in Ht as (s & -> & _). apply good_string.
Qed.

Lemma good_map m : good 1 (enc_map m).
Proof.
  apply (good_obj 0); [done|]. apply Forall_forall. intros t Ht.
  apply list_elem_of_fmap in Ht as (s & -> & _). split; [apply raw_of_ok|apply good_string].
Qed.

Lemma good_int z : good 0 (enc_int z).
Proof. split; [apply num_ok_itoa|done]. Qed.

(** A float that reads back as itself: any finite one but the negative zero, which
    an [omitempty] field leaves out. *)
Definition negative_zero (f : float64) : bool := match f with FFin true 0 _ => true | _ => false end.

Definition float_ok (f : float64) : bool := canonical f && negb (negative_zero f).

Lemma enc_float_ok f : float_ok f = true ->
  exists t, enc_float f = Some t /\ good 0 t /\ forall old, dec_float t old = Some f.
Proof.
  unfold float_ok, enc_float. intros [H _]%andb_true_iff.
  destruct (float_json_roundtrip f H) as (lit & -> & H1 & H2). exists (TNum lit). repeat split; done.
Qed.

Lemma float_zero f : float_ok f = true -> float_is_zero f = true -> f = f_of_Z 0.
Proof.
  unfold float_ok. destruct f as [| |[] [|m|m] e]; try done; [by rewrite andb_false_r|].
  simpl. rewrite andb_true_r, orb_false_r. by intros ->%Z.eqb_eq.
Qed.

Lemma dec_enc_string s old : utf8_valid s = true -> dec_string (enc_string s) old = Some s.
Proof. intros H. simpl. by rewrite unquote_raw_of. Qed.

Lemma dec_enc_int z old : in_int64 z = true -> dec_int (enc_int z) old = Some z.
Proof. apply atoi_itoa. Qed.

Definition strings_valid (l : list string) : bool := forallb utf8_valid l.

Lemma dec_enc_strings l old : strings_valid l = true -> dec_strings (enc_strings l) old = Some l.
Proof.
  unfold strings_valid. simpl. revert old. induction l as [|s l IH]; intros old H; [done|].
  apply andb_true_iff in H as [H1 H2]. rewrite fmap_cons. cbn [dec_elems].
  rewrite dec_enc_string by done. simpl. by rewrite IH.
Qed.

(** *** Maps *)

Lemma obj_insert_perm {A} k (v : A) l : k ∉ l.*1 -> obj_insert k v l ≡ₚ (k, v) :: l.
Proof.
  induction l as [|[k' v'] l IH]; [done|]. rewrite fmap_cons, not_elem_of_cons. intros [Hne Hl].
  simpl. destruct (str_cmp k k') eqn:E; [by apply str_cmp_eq in E|done|].
  rewrite (IH Hl). constructor.
Qed.

Lemma sorted_members_perm m : sorted_members m ≡ₚ map_to_list m.
Proof.
  unfold sorted_members. pose proof (NoDup_fst_map_to_list m) as Hnd. revert Hnd.
  induction (map_to_list m) as [|[k v] l IH]; [done|]. intros [Hk Hl]%NoDup_cons. simpl.
  rewrite obj_insert_perm; [by rewrite IH|]. rewrite IH by done. done.
Qed.

Lemma foldl_insert l : forall acc : gmap string string, NoDup l.*1 ->
  foldl (fun m kv => <[kv.1 := kv.2]> m) acc l = list_to_map l ∪ acc.
Proof.
  induction l as [|[k v] l IH]; intros acc Hnd; [simpl; by rewrite (left_id_L ∅ (∪))|].
  apply NoDup_cons in Hnd as [Hk Hl]. simpl. rewrite IH by done.
  rewrite <- insert_union_r by (by apply not_elem_of_list_to_map). by rewrite insert_union_l.
Qed.

Definition map_valid (m : gmap string string) : bool :=
  forallb (fun kv => utf8_valid kv.1 && utf8_valid kv.2) (map_to_list m).

Lemma dec_map_members (l : list (string * string)) : forall acc : gmap string string,
  Forall (fun kv => utf8_valid kv.1 && utf8_valid kv.2 = true) l ->
  foldl (fun acc kt => m ← acc; v ← dec_string kt.2 EmptyString; Some (<[unquote kt.1 := v]> m))
    (Some acc) ((fun kv => (raw_of kv.1, enc_string kv.2)) <$> l)
  = Some (foldl (fun m kv => <[kv.1 := kv.2]> m) acc l).
Proof.
  induction l as [|[k v] l IH]; intros acc H; [done|]. apply Forall_cons in H as [Hkv H].
  apply andb_true_iff in Hkv as [Hk Hv]. rewrite fmap_cons. cbn [foldl fst snd].
  rewrite dec_enc_string, unquote_raw_of by done. apply (IH _ H).
Qed.

Lemma dec_enc_map m : map_valid m = true -> dec_map (enc_map m) ∅ = Some m.
Proof.
  unfold map_valid. intros H. apply Is_true_true, forallb_True in H. unfold dec_map, enc_map.
  rewrite dec_map_members.
  - rewrite foldl_insert by (rewrite sorted_members_perm; apply NoDup_fst_map_to_list).
    rewrite (right_id_L ∅ (∪)). f_equal. rewrite <- (list_to_map_to_list m) at 2.
    apply list_to_map_proper; [|apply sorted_members_perm].
    rewrite sorted_members_perm. apply NoDup_fst_map_to_list.
  - rewrite sorted_members_perm. eapply Forall_impl; [exact H|]. intros kv. apply Is_true_true.
Qed.

(** *** Members *)

Section members.
Context {A B : Type} (strict : bool) (fields : list (field A)).

(** One member of a struct being decoded: its field is found by its name, and
    either the value is stored or, when the encoder left it out, the field
    already holds it. *)
Lemma dec_field (get : A -> B) set dec name empty t v s s' ms r :
  find_field fields (unquote name) = Some (name, setter get set dec) ->
  dec t (get s) = Some v -> set v s = s' -> (empty = true -> s' = s) ->
  dec_members strict fields ms s' = r ->
  dec_members strict fields (unless_empty empty name t ++ ms) s = r.
Proof.
  intros Hf Hd <- He <-. unfold unless_empty. destruct empty; [by rewrite He|].
  unfold dec_members. simpl. rewrite Hf. simpl. unfold setter. by rewrite Hd.
Qed.
End members.

Lemma good_unless k empty name t ms :
  raw_ok name = true -> good k t -> Forall (good_member k) ms ->
  Forall (good_member k) (unless_empty empty name t ++ ms).
Proof. intros. destruct empty; [done|]. by constructor. Qed.

Lemma empty_string s : str_is_empty s = true -> s = EmptyString.
Proof. by destruct s. Qed.
Lemma empty_list {A} (l : list A) : is_nil l = true -> l = [].
Proof. by destruct l. Qed.
Lemma empty_option {A} (o : option A) : is_none o = true -> o = None.
Proof. by destruct o. Qed.

(** ** The interface of a struct

    Its zero value, its fields, its encoder and which values are encodable: every
    string valid UTF-8, every integer in range, every float one that reads back. *)

Class Struct (A : Type) := {
  struct_zero : A;
  struct_fields : bool -> list (field A);
  struct_enc : A -> option jtree;
  struct_valid : A -> bool;
  struct_depth : Z
}.

#[global] Arguments struct_enc : simpl never.
#[global] Arguments struct_valid : simpl never.

(** The encoder's members decode to the value it was given. *)
Class StructLaws (A : Type) `{Struct A} := {
  struct_depth_nonneg : 0 <= struct_depth;
  struct_law (x : A) : struct_valid x = true ->
    exists ms, struct_enc x = Some (TObj ms) /\ Forall (good_member struct_depth) ms /\
      forall strict, dec_members strict (struct_fields strict) ms struct_zero = Some x
}.

Definition option_valid {A} (p : A -> bool) (o : option A) : bool :=
  match o with None => true | Some a => p a end.

(** [json.Marshal] and [json.Unmarshal] of one. *)
Definition marshal_struct {A} `{Struct A} (x : A) : option string := print <$> struct_enc x.
Definition decode_struct {A} `{Struct A} (strict : bool) (text : string) : option A :=
  unmarshal_struct strict (struct_fields strict) struct_zero text.

Section laws.
Context {A : Type} `{StructLaws A}.

Lemma enc_ptr_struct (o : option A) : option_valid struct_valid o = true ->
  exists t, enc_ptr struct_enc o = Some t /\ good (1 + struct_depth (A := A)) t /\
    forall strict, dec_ptr (dec_struct strict (struct_fields strict)) struct_zero t None = Some o.
Proof.
  destruct o as [x|]; intros Hx; simpl.
  - destruct (struct_law x Hx) as (ms & -> & Hg & Hd). eexists. split; [done|]. split.
    + apply good_obj; [apply struct_depth_nonneg|done].
    + intros strict. simpl. by rewrite Hd.
  - pose proof (struct_depth_nonneg (A := A)). exists TNull. repeat split; simpl; lia || done.
Qed.

Lemma decode_marshal (x : A) : struct_valid x = true -> 1 + struct_depth (A := A) <= maxNestingDepth ->
  exists text, marshal_struct x = Some text /\ forall strict, decode_struct strict text = Some x.
Proof.
  intros Hx Hk. unfold marshal_struct, decode_struct, unmarshal_struct.
  destruct (struct_law x Hx) as (ms & -> & Hg & Hd). eexists. split; [done|]. intros strict.
  destruct (good_obj _ ms struct_depth_nonneg Hg) as [Hok Hn].
  rewrite parse_print by (done || lia). simpl. apply Hd.
Qed.
End laws.

Lemma enc_ptr_int o : option_valid in_int64 o = true ->
  exists t, enc_ptr (fun z => Some (enc_int z)) o = Some t /\ good 0 t /\ dec_ptr dec_int 0 t None = Some o.
Proof.
  destruct o as [z|]; intros Hz; simpl.
  - eexists. split; [done|]. split; [apply good_int|]. simpl in *. by rewrite atoi_itoa.
  - by exists TNull.
Qed.

(** *** Automation: a struct's law, field by field *)

Create HintDb wire.
#[export] Hint Resolve dec_enc_string dec_enc_int dec_enc_strings dec_enc_map : wire.

Ltac valid_hyps H := rewrite ?andb_true_iff in H; destruct_and? H.

Ltac encode_ptrs :=
  repeat match goal with
  | Hv : option_valid struct_valid ?o = true |- _ =>
      destruct (enc_ptr_struct o Hv) as (? & -> & ? & ?); clear Hv; simpl
  | Hv : option_valid in_int64 ?o = true |- _ =>
      destruct (enc_ptr_int o Hv) as (? & -> & ? & ?); clear Hv; simpl
  | Hv : float_ok ?f = true |- context [enc_float ?f] =>
      destruct (enc_float_ok f Hv) as (? & -> & ? & ?); simpl
  end.

Ltac omitted :=
  let E := fresh in intros E;
  first [ discriminate E | apply empty_string in E | apply empty_list in E | apply empty_option in E
        | apply bool_decide_eq_true in E | apply Z.eqb_eq in E
        | apply float_zero in E; [|assumption] ];
  rewrite E; reflexivity.

Ltac good_value :=
  first [ apply good_string | apply good_int | apply good_strings | apply good_map | by split
        | eassumption ].

Ltac good_members :=
  repeat (apply good_unless; [reflexivity|eapply good_weaken; [good_value|simpl; lia]|]);
  by apply Forall_nil.

Ltac decode_value :=
  first [ solve [eauto with wire nocore] | match goal with H : _ |- _ => apply H end | reflexivity ].

Ltac decode_fields :=
  repeat (eapply dec_field; [reflexivity|decode_value|simpl; reflexivity|omitted|]);
  reflexivity.
