(* ===== verification/GoJsonDecode.v ===== *)
(** * encoding/json: what decoding yields

    A string that has been decoded is valid UTF-8, whatever the document held, and
    the decoders of the field types only store what can be encoded again. *)

From Stdlib Require Import ZArith Lia Ascii.
From stdpp Require Import base tactics option strings gmap list.
From S2P Require Import Prelude GoLib GoFloat GoNumber GoUrl GoJson GoJsonPrint GoJsonValue.
From S2P Require Import GoFloatText GoJsonString GoJsonSound GoJsonStruct.

#[local] Open Scope Z_scope.

(** ** Strings *)

Lemma utf8_loop_more f : forall g s, utf8_loop f s = true -> (f <= g)%nat -> utf8_loop g s = true.
Proof.
  induction f as [|f IH]; intros g s H Hg; [done|]. destruct g as [|g]; [lia|]. cbn [utf8_loop] in *.
  destruct s as [|c s]; [done|]. destruct (decode_rune c s) as [[r s']|]; [|done]. apply IH; [done|lia].
Qed.

(** Bytes that decode as a rune, before any others. *)
Definition rune_prefix (c : ascii) (p : string) : Prop :=
  forall q, exists r, decode_rune c (p +:+ q)%string = Some (r, q).

Lemma utf8_prefix c p s : rune_prefix c p -> utf8_valid s = true -> utf8_valid (String c p +:+ s)%string = true.
Proof.
  intros Hp H. unfold utf8_valid. rewrite str_app_cons. cbn [String.length].
  remember (S (String.length (p +:+ s)%string)) as f eqn:Ef. cbn [utf8_loop]. destruct (Hp s) as [r ->].
  eapply utf8_loop_more; [exact H|]. rewrite Ef, string_length_app. lia.
Qed.

Lemma ascii_prefix c : byte_val c < 128 -> rune_prefix c EmptyString.
Proof.
  intros H q. exists (byte_val c). rewrite str_app_nil. unfold decode_rune. by rewrite (proj2 (Z.ltb_lt _ 128)).
Qed.

Lemma encode_rune_prefix r : exists c p, encode_rune r = String c p /\ rune_prefix c p.
Proof.
  unfold encode_rune. set (z := if (r <? 0) || ((55296 <=? r) && (r <=? 57343)) || (1114111 <? r) then 65533 else r).
  cbv zeta.
  assert (Hz : 0 <= z <= 1114111 /\ ~ 55296 <= z <= 57343).
  { subst z. destruct ((r <? 0) || ((55296 <=? r) && (r <=? 57343)) || (1114111 <? r)) eqn:E; lia. }
  clearbody z. destruct Hz as [Hz Hs].
  pose proof (Z.mod_pos_bound z 64 ltac:(lia)). pose proof (Z.mod_pos_bound (z / 64) 64 ltac:(lia)).
  pose proof (Z.mod_pos_bound (z / 4096) 64 ltac:(lia)).
  pose proof (Z.div_mod z 64 ltac:(lia)). pose proof (Z.div_mod z 4096 ltac:(lia)).
  pose proof (Z.mod_pos_bound z 4096 ltac:(lia)).
  assert (E64 : z / 64 = z / 4096 * 64 + (z / 64) mod 64).
  { pose proof (Z.div_mod (z / 64) 64 ltac:(lia)) as E. rewrite Z.div_div in E by lia. change (64 * 64) with 4096 in E. lia. }
  assert (E262 : z / 4096 = z / 262144 * 64 + (z / 4096) mod 64).
  { pose proof (Z.div_mod (z / 4096) 64 ltac:(lia)) as E. rewrite Z.div_div in E by lia. change (4096 * 64) with 262144 in E. lia. }
  destruct (Z.ltb_spec z 128); [|destruct (Z.ltb_spec z 2048); [|destruct (Z.ltb_spec z 65536)]];
    eexists _, _; (split; [reflexivity|]).
  - apply ascii_prefix. rewrite byte_val_of; lia.
  - intros q. eexists. rewrite str_app_cons, str_app_nil. apply decode_2; rewrite byte_val_of; lia.
  - intros q. eexists. rewrite !str_app_cons, str_app_nil. apply decode_3; rewrite !byte_val_of by lia; try lia;
      repeat case_match; lia.
  - intros q. eexists. rewrite !str_app_cons, str_app_nil. apply decode_4; rewrite !byte_val_of by lia; try lia;
      repeat case_match; lia.
Qed.

Lemma utf8_encode r s : utf8_valid s = true -> utf8_valid (encode_rune r +:+ s)%string = true.
Proof. destruct (encode_rune_prefix r) as (c & p & -> & Hp). by apply utf8_prefix. Qed.

Lemma raw_ok_rest p s : str_forallb (fun d => 128 <=? byte_val d) p = true -> raw_ok (p +:+ s)%string = true ->
  raw_ok s = true.
Proof.
  induction p as [|c p IH]; [done|]. simpl. rewrite andb_true_iff, Z.leb_le. intros [Hc Hp].
  rewrite str_app_cons. intros H.
  destruct (raw_ok_inv _ _ H) as [(? & ? & -> & _)|[(? & ? & ? & ? & ? & -> & _)|(_ & _ & _ & H')]];
    [by vm_compute in Hc..|by apply IH].
Qed.

Lemma getu4_rest s r rest : raw_ok s = true -> getu4 s = Some (r, rest) -> raw_ok rest = true.
Proof.
  intros Hok H. destruct s as [|bs [|u [|a [|b [|c [|d s]]]]]]; try done. cbn [getu4] in H.
  destruct (raw_ok_inv _ _ Hok) as [(? & ? & -> & [= -> <-] & He & _)|[(? & ? & ? & ? & ? & -> & [= -> -> -> -> -> ->] & _ & Hs)|(_ & Hb & _)]].
  - rewrite (bool_decide_true (backslash = backslash)) in H by done. case_bool_decide as Hu; [|done].
    subst. by vm_compute in He.
  - by destruct (_ && _); simplify_eq.
  - by rewrite bool_decide_false in H.
Qed.

Lemma simple_escape_ascii d : is_simple_escape d = true -> byte_val (simple_escape d) < 128.
Proof.
  unfold is_simple_escape, simple_escape. intros H.
  destruct (Z.eqb_spec (byte_val d) 98); [by vm_compute|].
  destruct (Z.eqb_spec (byte_val d) 102); [by vm_compute|].
  destruct (Z.eqb_spec (byte_val d) 110); [by vm_compute|].
  destruct (Z.eqb_spec (byte_val d) 114); [by vm_compute|].
  destruct (Z.eqb_spec (byte_val d) 116); [by vm_compute|]. lia.
Qed.

Lemma unquote_loop_utf8 n : forall s, raw_ok s = true -> utf8_valid (unquote_loop n s) = true.
Proof.
  induction n as [|n IH]; intros s Hok; [done|]. cbn [unquote_loop]. destruct s as [|c s]; [done|].
  case_bool_decide as Hc.
  - destruct (getu4 (String c s)) as [[rr rest]|] eqn:Eu.
    + pose proof (getu4_rest _ _ _ Hok Eu) as Hr.
      destruct (is_surrogate rr); [|by apply utf8_encode, IH].
      destruct (getu4 rest) as [[rr1 rest1]|] eqn:Eu1; [|by apply utf8_encode, IH].
      pose proof (getu4_rest _ _ _ Hr Eu1). by destruct (_ && _); apply utf8_encode, IH.
    + destruct (raw_ok_inv _ _ Hok) as [(d & s' & _ & -> & Hd & Hs)|[(h1 & h2 & h3 & h4 & s' & _ & -> & Hh & _)|(_ & Hb & _)]];
        [| |done].
      * apply (utf8_prefix _ EmptyString); [by apply ascii_prefix, simple_escape_ascii|by apply IH].
      * exfalso. cbn [getu4] in Eu. rewrite !bool_decide_true in Eu by done.
        change (is_hex h1 && is_hex h2 && is_hex h3 && is_hex h4) with (ishex h1 && ishex h2 && ishex h3 && ishex h4) in Hh.
        rewrite !andb_true_iff in Hh. destruct Hh as [[[E1 E2] E3] E4]. by rewrite E1, E2, E3, E4 in Eu.
  - destruct (raw_ok_inv _ _ Hok) as [(? & ? & ? & _)|[(? & ? & ? & ? & ? & ? & _)|(_ & _ & _ & Hs)]]; [done..|].
    destruct (decode_rune c s) as [[r rest]|] eqn:Ed; [|by apply utf8_encode, IH].
    apply utf8_encode, IH. destruct (decode_rune_bytes c s r rest Ed) as (p & [Hsp _ _ Hhigh]).
    destruct (Z.ltb_spec (byte_val c) 128) as [Hlow|Hge].
    + unfold decode_rune in Ed. rewrite (proj2 (Z.ltb_lt _ 128)) in Ed by done. by injection Ed as _ <-.
    + rewrite Hsp in Hs. by apply (raw_ok_rest p); [apply Hhigh|].
Qed.

(** Whatever a document's string holds, what it decodes to is valid UTF-8. *)
Lemma unquote_utf8 raw : raw_ok raw = true -> utf8_valid (unquote raw) = true.
Proof. apply unquote_loop_utf8. Qed.

(** ** The decoders of field types *)

(** No number of the document is a negative zero. *)
Fixpoint no_negative_zero (t : jtree) : bool :=
  match t with
  | TNum lit => match parse_float lit with Some f => negb (negative_zero f) | None => true end
  | TArr ts => forallb no_negative_zero ts
  | TObj ms => forallb (fun kv => no_negative_zero kv.2) ms
  | _ => true
  end.

Definition readable (t : jtree) : bool := tree_ok t && no_negative_zero t.

Lemma readable_elems ts : readable (TArr ts) = true -> Forall (fun t => readable t = true) ts.
Proof.
  unfold readable. simpl. rewrite andb_true_iff, !forallb_forall. intros [H1 H2].
  apply Forall_forall. intros t Ht. apply list_elem_of_In in Ht. by rewrite H1, H2.
Qed.

Lemma readable_members ms : readable (TObj ms) = true ->
  Forall (fun kv => raw_ok kv.1 = true /\ readable kv.2 = true) ms.
Proof.
  unfold readable. simpl. rewrite andb_true_iff, !forallb_forall. intros [H1 H2].
  apply Forall_forall. intros kv Ht. apply list_elem_of_In in Ht. specialize (H1 kv Ht). specialize (H2 kv Ht).
  rewrite andb_true_iff in H1. destruct H1 as [-> ->]. by rewrite H2.
Qed.

(** A decoder that turns what satisfies [P] into what does. *)
Definition keeps {A} (P : A -> bool) (dec : jtree -> A -> option A) : Prop :=
  forall t old x, readable t = true -> P old = true -> dec t old = Some x -> P x = true.

Lemma keeps_string : keeps utf8_valid dec_string.
Proof.
  intros t old x Ht Ho H. destruct t; try done; simpl in H; simplify_eq; [done|].
  apply unquote_utf8. unfold readable in Ht. simpl in Ht. by rewrite andb_true_r in Ht.
Qed.

Lemma keeps_bool : keeps (fun _ => true) dec_bool.
Proof. done. Qed.

Lemma keeps_int : keeps in_int64 dec_int.
Proof. intros t old x Ht Ho H. destruct t; try done; simpl in H; simplify_eq; [done|by eapply atoi_range]. Qed.

Lemma keeps_float : keeps float_ok dec_float.
Proof.
  intros t old x Ht Ho H. destruct t; try done; simpl in H; simplify_eq; [done|].
  unfold readable in Ht. simpl in Ht. rewrite H in Ht. apply andb_true_iff in Ht as [Hn Hz].
  unfold float_ok. by rewrite (parse_number_canonical lit x Hn H), Hz.
Qed.

Lemma map_valid_spec m :
  map_valid m = true <-> map_Forall (fun k v => utf8_valid k = true /\ utf8_valid v = true) m.
Proof.
  unfold map_valid. rewrite forallb_forall. split.
  - intros H k v Hkv. apply andb_true_iff. apply (H (k, v)), list_elem_of_In. by apply elem_of_map_to_list.
  - intros H [k v] Hin. apply list_elem_of_In, elem_of_map_to_list in Hin. apply andb_true_iff. by apply H.
Qed.

Lemma keeps_map : keeps map_valid dec_map.
Proof.
  intros t old x Ht Ho H. destruct t as [| | | | |ms]; try done; [injection H as <-; by vm_compute|]. simpl in H.
  apply readable_members in Ht. revert old Ho H. induction Ht as [|[k t] ms [Hk Hv] _ IH]; intros old Ho H.
  - by injection H as <-.
  - simpl in H. destruct (dec_string t EmptyString) as [v|] eqn:Ed; simpl in H.
    + apply (IH (<[unquote k := v]> old)); [|done]. rewrite map_valid_spec in Ho |- *.
      apply map_Forall_insert_2; [|done]. split; [by apply unquote_utf8|]. by apply (keeps_string t EmptyString).
    + exfalso. clear -H. induction ms; [done|]. by apply IHms.
Qed.

Lemma keeps_strings : keeps strings_valid dec_strings.
Proof.
  intros t old x Ht Ho H. destruct t as [| | | |ts|]; try done; [by injection H as <-|]. cbn [dec_strings] in H.
  apply readable_elems in Ht. revert old x Ho H. induction Ht as [|t ts Ht _ IH]; intros old x Ho H.
  - by injection H as <-.
  - cbn [dec_elems] in H. apply bind_Some in H as (s & Hs & H). apply bind_Some in H as (l & Hl & H).
    injection H as <-. unfold strings_valid in *. simpl. apply andb_true_iff. split.
    + eapply keeps_string; [exact Ht| |exact Hs]. destruct old as [|o old]; [done|]. simpl in *.
      by apply andb_true_iff in Ho as [? _].
    + eapply IH; [|exact Hl]. destruct old as [|o old]; [done|]. simpl in *. by apply andb_true_iff in Ho as [_ ?].
Qed.

Lemma keeps_ptr {A} (P : A -> bool) dec zero : keeps P dec -> P zero = true ->
  keeps (option_valid P) (dec_ptr dec zero).
Proof.
  intros Hk Hz t old x Ht Ho H. assert (Hold : P (default zero old) = true) by (by destruct old).
  unfold dec_ptr in H. destruct t; [by injection H as <-|..];
    apply fmap_Some in H as (a & Ha & ->); simpl; by eapply Hk.
Qed.

(** ** Structs *)

Lemma find_by_in {A} p (fields : list (field A)) f : find_by p fields = Some f -> f ∈ fields.
Proof.
  induction fields as [|g fields IH]; [done|]. simpl. destruct (p g.1); [intros [= ->]; left|].
  intros H. right. by apply IH.
Qed.

Lemma keeps_fields {A} (P : A -> bool) strict (fields : list (field A)) :
  Forall (fun f => keeps P f.2) fields -> keeps P (dec_struct strict fields).
Proof.
  intros Hf t old x Ht Ho H. destruct t as [| | | | |ms]; try done; [by injection H as <-|]. simpl in H.
  apply readable_members in Ht. unfold dec_members in H.
  revert old Ho H. induction Ht as [|[k t] ms [_ Hv] _ IH]; intros old Ho H; [by injection H as <-|].
  simpl in H. assert (Hnone : foldl (dec_member strict fields) None ms = Some x -> False).
  { clear. induction ms; [done|]. done. }
  destruct (find_field fields (unquote k)) as [f|] eqn:Ef.
  - destruct (f.2 t old) as [s|] eqn:Es; [|by destruct Hnone]. apply (IH s); [|done].
    assert (Hin : f ∈ fields).
    { unfold find_field in Ef. destruct (find_by (str_eqb _) fields) eqn:E1; [|by eapply find_by_in].
      injection Ef as <-. by eapply find_by_in. }
    rewrite Forall_forall in Hf. by apply (Hf f Hin t old).
  - destruct strict; [by destruct Hnone|by apply (IH old)].
Qed.

(** A struct whose zero value is encodable and whose fields keep it so. *)
Class StructSound (A : Type) `{Struct A} := {
  zero_valid : struct_valid (struct_zero (A := A)) = true;
  fields_keep strict : Forall (fun f => keeps struct_valid f.2) (struct_fields (A := A) strict)
}.

Lemma keeps_struct {A} `{StructSound A} strict : keeps struct_valid (dec_struct strict (struct_fields (A := A) strict)).
Proof. apply keeps_fields, fields_keep. Qed.

(** What decodes can be encoded. *)
Lemma decoded_valid {A} `{StructSound A} strict text t (x : A) :
  parse_json text = Some t -> no_negative_zero t = true -> decode_struct strict text = Some x -> struct_valid x = true.
Proof.
  intros Hp Hf. unfold decode_struct, unmarshal_struct. rewrite Hp. simpl. apply keeps_struct; [|apply zero_valid].
  unfold readable. rewrite Hf, andb_true_r. by destruct (parse_fits text t Hp).
Qed.

Create HintDb decodes.
#[export] Hint Resolve keeps_string keeps_bool keeps_int keeps_float keeps_map keeps_strings : decodes.
