(* ===== verification/ConfigJson.v ===== *)
(** * The configuration documents

    Every configuration struct of internal/domain/event.go as JSON: the members
    [json.Marshal] prints for it, in the order of its fields and without those the
    [omitempty] tag leaves out, and what [json.Unmarshal] stores for each key.
    The decoders of internal/server/validate.go are these with unknown fields
    refused.  Each struct is an instance of [Struct], and its law, that what is
    printed reads back as the same value, one of [StructLaws]. *)

From Stdlib Require Import ZArith Lia Ascii.
From stdpp Require Import base tactics option strings gmap list.
From S2P Require Import Prelude GoLib GoFloat GoNumber GoJson GoJsonPrint GoJsonValue GoJsonString.
From S2P Require Import GoJsonStruct Domain.

#[local] Open Scope Z_scope.

(** [StringList.UnmarshalJSON]: a string, or an array of them; [null] is a string
    to [json.Unmarshal], which leaves it empty. *)
Definition dec_string_list (t : jtree) (_ : StringList) : option StringList :=
  match dec_string t EmptyString with
  | Some single => Some [single]
  | None => dec_strings t []
  end.

Lemma dec_enc_string_list l old : strings_valid l = true -> dec_string_list (enc_strings l) old = Some l.
Proof. intros H. unfold dec_string_list. by rewrite dec_enc_strings. Qed.
#[local] Hint Resolve dec_enc_string_list : wire.

#[local] Arguments app : simpl never.

Tactic Notation "solve_struct" constr(enc) constr(fields) constr(valid) :=
  let x := fresh "x" in let H := fresh "H" in let strict := fresh "strict" in
  split; [done|]; intros x H; change (valid x = true) in H; change (struct_enc x) with (enc x);
  destruct x; cbv beta iota delta [valid] in H; simpl in H; valid_hyps H;
  cbv beta iota delta [enc]; simpl; encode_ptrs;
  eexists; split; [reflexivity|split; [good_members|]];
  intros strict; change (struct_fields strict) with (fields strict); decode_fields.

(** ** RestartConfig *)

Definition restart_fields (strict : bool) : list (field RestartConfig) :=
  [("max_attempts", setter rc_MaxAttempts (fun v c => mkRestartConfig v (rc_InitialBackoff c) (rc_MaxBackoff c) (rc_Factor c) (rc_ResetAfter c)) (dec_ptr dec_int 0));
   ("initial_backoff", setter rc_InitialBackoff (fun v c => mkRestartConfig (rc_MaxAttempts c) v (rc_MaxBackoff c) (rc_Factor c) (rc_ResetAfter c)) dec_string);
   ("max_backoff", setter rc_MaxBackoff (fun v c => mkRestartConfig (rc_MaxAttempts c) (rc_InitialBackoff c) v (rc_Factor c) (rc_ResetAfter c)) dec_string);
   ("factor", setter rc_Factor (fun v c => mkRestartConfig (rc_MaxAttempts c) (rc_InitialBackoff c) (rc_MaxBackoff c) v (rc_ResetAfter c)) dec_float);
   ("reset_after", setter rc_ResetAfter (fun v c => mkRestartConfig (rc_MaxAttempts c) (rc_InitialBackoff c) (rc_MaxBackoff c) (rc_Factor c) v) dec_string)]%string.

Definition enc_restart (c : RestartConfig) : option jtree :=
  max_attempts ← enc_ptr (fun z => Some (enc_int z)) (rc_MaxAttempts c);
  factor ← enc_float (rc_Factor c);
  Some (TObj (unless_empty (is_none (rc_MaxAttempts c)) "max_attempts" max_attempts
     ++ unless_empty (str_is_empty (rc_InitialBackoff c)) "initial_backoff" (enc_string (rc_InitialBackoff c))
     ++ unless_empty (str_is_empty (rc_MaxBackoff c)) "max_backoff" (enc_string (rc_MaxBackoff c))
     ++ unless_empty (float_is_zero (rc_Factor c)) "factor" factor
     ++ unless_empty (str_is_empty (rc_ResetAfter c)) "reset_after" (enc_string (rc_ResetAfter c)) ++ [])).

Definition restart_valid (c : RestartConfig) : bool :=
  option_valid in_int64 (rc_MaxAttempts c)
  && utf8_valid (rc_InitialBackoff c)
  && utf8_valid (rc_MaxBackoff c)
  && float_ok (rc_Factor c)
  && utf8_valid (rc_ResetAfter c).

#[export] Instance restart_struct : Struct RestartConfig :=
  { struct_zero := mkRestartConfig None EmptyString EmptyString (f_of_Z 0) EmptyString;
     struct_fields := restart_fields; struct_enc := enc_restart; struct_valid := restart_valid; struct_depth := 0 }.

#[export] Instance restart_laws : StructLaws RestartConfig.
Proof. solve_struct enc_restart restart_fields restart_valid. Qed.

(** ** WebsocketConfig *)

Definition websocket_fields (strict : bool) : list (field WebsocketConfig) :=
  [("on_connect_send", setter ws_OnConnectSend (fun v c => mkWebsocketConfig v) dec_string_list)]%string.

Definition enc_websocket (c : WebsocketConfig) : option jtree :=
  Some (TObj (unless_empty (is_nil (ws_OnConnectSend c)) "on_connect_send" (enc_strings (ws_OnConnectSend c)) ++ [])).

Definition websocket_valid (c : WebsocketConfig) : bool :=
  strings_valid (ws_OnConnectSend c).

#[export] Instance websocket_struct : Struct WebsocketConfig :=
  { struct_zero := mkWebsocketConfig [];
     struct_fields := websocket_fields; struct_enc := enc_websocket; struct_valid := websocket_valid; struct_depth := 1 }.

#[export] Instance websocket_laws : StructLaws WebsocketConfig.
Proof. solve_struct enc_websocket websocket_fields websocket_valid. Qed.

(** ** SseConfig *)

Definition sse_fields (strict : bool) : list (field SseConfig) :=
  [("headers", setter sse_Headers (fun v c => mkSseConfig v) dec_map)]%string.

Definition enc_sse (c : SseConfig) : option jtree :=
  Some (TObj (unless_empty (bool_decide (sse_Headers c = ∅)) "headers" (enc_map (sse_Headers c)) ++ [])).

Definition sse_valid (c : SseConfig) : bool :=
  map_valid (sse_Headers c).

#[export] Instance sse_struct : Struct SseConfig :=
  { struct_zero := mkSseConfig ∅;
     struct_fields := sse_fields; struct_enc := enc_sse; struct_valid := sse_valid; struct_depth := 1 }.

#[export] Instance sse_laws : StructLaws SseConfig.
Proof. solve_struct enc_sse sse_fields sse_valid. Qed.

(** ** GrpcConfig *)

Definition grpc_fields (strict : bool) : list (field GrpcConfig) :=
  [("port", setter grpc_Port (fun v c => mkGrpcConfig v) dec_string)]%string.

Definition enc_grpc (c : GrpcConfig) : option jtree :=
  Some (TObj (unless_empty false "port" (enc_string (grpc_Port c)) ++ [])).

Definition grpc_valid (c : GrpcConfig) : bool :=
  utf8_valid (grpc_Port c).

#[export] Instance grpc_struct : Struct GrpcConfig :=
  { struct_zero := mkGrpcConfig EmptyString;
     struct_fields := grpc_fields; struct_enc := enc_grpc; struct_valid := grpc_valid; struct_depth := 0 }.

#[export] Instance grpc_laws : StructLaws GrpcConfig.
Proof. solve_struct enc_grpc grpc_fields grpc_valid. Qed.

(** ** RestPollerConfig *)

Definition rest_poller_fields (strict : bool) : list (field RestPollerConfig) :=
  [("interval", setter rp_Interval (fun v c => mkRestPollerConfig v (rp_Method c) (rp_Headers c)) dec_string);
   ("method", setter rp_Method (fun v c => mkRestPollerConfig (rp_Interval c) v (rp_Headers c)) dec_string);
   ("headers", setter rp_Headers (fun v c => mkRestPollerConfig (rp_Interval c) (rp_Method c) v) dec_map)]%string.

Definition enc_rest_poller (c : RestPollerConfig) : option jtree :=
  Some (TObj (unless_empty false "interval" (enc_string (rp_Interval c))
     ++ unless_empty (str_is_empty (rp_Method c)) "method" (enc_string (rp_Method c))
     ++ unless_empty (bool_decide (rp_Headers c = ∅)) "headers" (enc_map (rp_Headers c)) ++ [])).

Definition rest_poller_valid (c : RestPollerConfig) : bool :=
  utf8_valid (rp_Interval c)
  && utf8_valid (rp_Method c)
  && map_valid (rp_Headers c).

#[export] Instance rest_poller_struct : Struct RestPollerConfig :=
  { struct_zero := mkRestPollerConfig EmptyString EmptyString ∅;
     struct_fields := rest_poller_fields; struct_enc := enc_rest_poller; struct_valid := rest_poller_valid; struct_depth := 1 }.

#[export] Instance rest_poller_laws : StructLaws RestPollerConfig.
Proof. solve_struct enc_rest_poller rest_poller_fields rest_poller_valid. Qed.

(** ** WebhookConfig *)

Definition webhook_fields (strict : bool) : list (field WebhookConfig) :=
  [("port", setter wh_Port (fun v c => mkWebhookConfig v (wh_Path c) (wh_AuthToken c)) dec_string);
   ("path", setter wh_Path (fun v c => mkWebhookConfig (wh_Port c) v (wh_AuthToken c)) dec_string);
   ("auth_token", setter wh_AuthToken (fun v c => mkWebhookConfig (wh_Port c) (wh_Path c) v) dec_string)]%string.

Definition enc_webhook (c : WebhookConfig) : option jtree :=
  Some (TObj (unless_empty false "port" (enc_string (wh_Port c))
     ++ unless_empty false "path" (enc_string (wh_Path c))
     ++ unless_empty (str_is_empty (wh_AuthToken c)) "auth_token" (enc_string (wh_AuthToken c)) ++ [])).

Definition webhook_valid (c : WebhookConfig) : bool :=
  utf8_valid (wh_Port c)
  && utf8_valid (wh_Path c)
  && utf8_valid (wh_AuthToken c).

#[export] Instance webhook_struct : Struct WebhookConfig :=
  { struct_zero := mkWebhookConfig EmptyString EmptyString EmptyString;
     struct_fields := webhook_fields; struct_enc := enc_webhook; struct_valid := webhook_valid; struct_depth := 0 }.

#[export] Instance webhook_laws : StructLaws WebhookConfig.
Proof. solve_struct enc_webhook webhook_fields webhook_valid. Qed.

(** ** ThresholdConfig *)

Definition threshold_fields (strict : bool) : list (field ThresholdConfig) :=
  [("enabled", setter th_Enabled (fun v c => mkThresholdConfig v (th_Path c) (th_Delta c) (th_GroupBy c)) dec_bool);
   ("path", setter th_Path (fun v c => mkThresholdConfig (th_Enabled c) v (th_Delta c) (th_GroupBy c)) dec_string);
   ("delta", setter th_Delta (fun v c => mkThresholdConfig (th_Enabled c) (th_Path c) v (th_GroupBy c)) dec_float);
   ("group_by", setter th_GroupBy (fun v c => mkThresholdConfig (th_Enabled c) (th_Path c) (th_Delta c) v) dec_string)]%string.

Definition enc_threshold (c : ThresholdConfig) : option jtree :=
  delta ← enc_float (th_Delta c);
  Some (TObj (unless_empty false "enabled" (TBool (th_Enabled c))
     ++ unless_empty false "path" (enc_string (th_Path c))
     ++ unless_empty (float_is_zero (th_Delta c)) "delta" delta
     ++ unless_empty (str_is_empty (th_GroupBy c)) "group_by" (enc_string (th_GroupBy c)) ++ [])).

Definition threshold_valid (c : ThresholdConfig) : bool :=
  utf8_valid (th_Path c)
  && float_ok (th_Delta c)
  && utf8_valid (th_GroupBy c).

#[export] Instance threshold_struct : Struct ThresholdConfig :=
  { struct_zero := mkThresholdConfig false EmptyString (f_of_Z 0) EmptyString;
     struct_fields := threshold_fields; struct_enc := enc_threshold; struct_valid := threshold_valid; struct_depth := 0 }.

#[export] Instance threshold_laws : StructLaws ThresholdConfig.
Proof. solve_struct enc_threshold threshold_fields threshold_valid. Qed.

(** ** BatchConfig *)

Definition batch_fields (strict : bool) : list (field BatchConfig) :=
  [("enabled", setter bc_Enabled (fun v c => mkBatchConfig v (bc_MaxBatchSize c) (bc_FlushInterval c)) dec_bool);
   ("max_batch_size", setter bc_MaxBatchSize (fun v c => mkBatchConfig (bc_Enabled c) v (bc_FlushInterval c)) dec_int);
   ("flush_interval", setter bc_FlushInterval (fun v c => mkBatchConfig (bc_Enabled c) (bc_MaxBatchSize c) v) dec_string)]%string.

Definition enc_batch (c : BatchConfig) : option jtree :=
  Some (TObj (unless_empty false "enabled" (TBool (bc_Enabled c))
     ++ unless_empty (bc_MaxBatchSize c =? 0) "max_batch_size" (enc_int (bc_MaxBatchSize c))
     ++ unless_empty (str_is_empty (bc_FlushInterval c)) "flush_interval" (enc_string (bc_FlushInterval c)) ++ [])).

Definition batch_valid (c : BatchConfig) : bool :=
  in_int64 (bc_MaxBatchSize c)
  && utf8_valid (bc_FlushInterval c).

#[export] Instance batch_struct : Struct BatchConfig :=
  { struct_zero := mkBatchConfig false 0 EmptyString;
     struct_fields := batch_fields; struct_enc := enc_batch; struct_valid := batch_valid; struct_depth := 0 }.

#[export] Instance batch_laws : StructLaws BatchConfig.
Proof. solve_struct enc_batch batch_fields batch_valid. Qed.

(** ** FilterConfig *)

Definition filter_fields (strict : bool) : list (field FilterConfig) :=
  [("match_types", setter fc_MatchTypes (fun v c => mkFilterConfig v) dec_strings)]%string.

Definition enc_filter (c : FilterConfig) : option jtree :=
  Some (TObj (unless_empty (is_nil (fc_MatchTypes c)) "match_types" (enc_strings (fc_MatchTypes c)) ++ [])).

Definition filter_valid (c : FilterConfig) : bool :=
  strings_valid (fc_MatchTypes c).

#[export] Instance filter_struct : Struct FilterConfig :=
  { struct_zero := mkFilterConfig [];
     struct_fields := filter_fields; struct_enc := enc_filter; struct_valid := filter_valid; struct_depth := 1 }.

#[export] Instance filter_laws : StructLaws FilterConfig.
Proof. solve_struct enc_filter filter_fields filter_valid. Qed.

(** ** TransformConfig *)

Definition transform_fields (strict : bool) : list (field TransformConfig) :=
  [("mapping", setter tc_Mapping (fun v c => mkTransformConfig v) dec_map)]%string.

Definition enc_transform (c : TransformConfig) : option jtree :=
  Some (TObj (unless_empty (bool_decide (tc_Mapping c = ∅)) "mapping" (enc_map (tc_Mapping c)) ++ [])).

Definition transform_valid (c : TransformConfig) : bool :=
  map_valid (tc_Mapping c).

#[export] Instance transform_struct : Struct TransformConfig :=
  { struct_zero := mkTransformConfig ∅;
     struct_fields := transform_fields; struct_enc := enc_transform; struct_valid := transform_valid; struct_depth := 1 }.

#[export] Instance transform_laws : StructLaws TransformConfig.
Proof. solve_struct enc_transform transform_fields transform_valid. Qed.

(** ** EnrichConfig *)

Definition enrich_fields (strict : bool) : list (field EnrichConfig) :=
  [("tags", setter ec_Tags (fun v c => mkEnrichConfig v) dec_map)]%string.

Definition enc_enrich (c : EnrichConfig) : option jtree :=
  Some (TObj (unless_empty (bool_decide (ec_Tags c = ∅)) "tags" (enc_map (ec_Tags c)) ++ [])).

Definition enrich_valid (c : EnrichConfig) : bool :=
  map_valid (ec_Tags c).

#[export] Instance enrich_struct : Struct EnrichConfig :=
  { struct_zero := mkEnrichConfig ∅;
     struct_fields := enrich_fields; struct_enc := enc_enrich; struct_valid := enrich_valid; struct_depth := 1 }.

#[export] Instance enrich_laws : StructLaws EnrichConfig.
Proof. solve_struct enc_enrich enrich_fields enrich_valid. Qed.

(** ** DedupConfig *)

Definition dedup_fields (strict : bool) : list (field DedupConfig) :=
  [("enabled", setter dc_Enabled (fun v c => mkDedupConfig v (dc_CacheSize c) (dc_TTL c)) dec_bool);
   ("cache_size", setter dc_CacheSize (fun v c => mkDedupConfig (dc_Enabled c) v (dc_TTL c)) dec_int);
   ("ttl", setter dc_TTL (fun v c => mkDedupConfig (dc_Enabled c) (dc_CacheSize c) v) dec_string)]%string.

Definition enc_dedup (c : DedupConfig) : option jtree :=
  Some (TObj (unless_empty false "enabled" (TBool (dc_Enabled c))
     ++ unless_empty (dc_CacheSize c =? 0) "cache_size" (enc_int (dc_CacheSize c))
     ++ unless_empty (str_is_empty (dc_TTL c)) "ttl" (enc_string (dc_TTL c)) ++ [])).

Definition dedup_valid (c : DedupConfig) : bool :=
  in_int64 (dc_CacheSize c)
  && utf8_valid (dc_TTL c).

#[export] Instance dedup_struct : Struct DedupConfig :=
  { struct_zero := mkDedupConfig false 0 EmptyString;
     struct_fields := dedup_fields; struct_enc := enc_dedup; struct_valid := dedup_valid; struct_depth := 0 }.

#[export] Instance dedup_laws : StructLaws DedupConfig.
Proof. solve_struct enc_dedup dedup_fields dedup_valid. Qed.

(** ** PipelineConfig *)

Definition pipeline_fields (strict : bool) : list (field PipelineConfig) :=
  [("filter", setter pc_Filter (fun v c => mkPipelineConfig v (pc_Transform c) (pc_Enrich c) (pc_Dedup c) (pc_Threshold c) (pc_Batch c)) (dec_ptr (dec_struct strict (struct_fields strict)) struct_zero));
   ("transform", setter pc_Transform (fun v c => mkPipelineConfig (pc_Filter c) v (pc_Enrich c) (pc_Dedup c) (pc_Threshold c) (pc_Batch c)) (dec_ptr (dec_struct strict (struct_fields strict)) struct_zero));
   ("enrich", setter pc_Enrich (fun v c => mkPipelineConfig (pc_Filter c) (pc_Transform c) v (pc_Dedup c) (pc_Threshold c) (pc_Batch c)) (dec_ptr (dec_struct strict (struct_fields strict)) struct_zero));
   ("dedup", setter pc_Dedup (fun v c => mkPipelineConfig (pc_Filter c) (pc_Transform c) (pc_Enrich c) v (pc_Threshold c) (pc_Batch c)) (dec_ptr (dec_struct strict (struct_fields strict)) struct_zero));
   ("threshold", setter pc_Threshold (fun v c => mkPipelineConfig (pc_Filter c) (pc_Transform c) (pc_Enrich c) (pc_Dedup c) v (pc_Batch c)) (dec_ptr (dec_struct strict (struct_fields strict)) struct_zero));
   ("batch", setter pc_Batch (fun v c => mkPipelineConfig (pc_Filter c) (pc_Transform c) (pc_Enrich c) (pc_Dedup c) (pc_Threshold c) v) (dec_ptr (dec_struct strict (struct_fields strict)) struct_zero))]%string.

Definition enc_pipeline (c : PipelineConfig) : option jtree :=
  filter ← enc_ptr struct_enc (pc_Filter c);
  transform ← enc_ptr struct_enc (pc_Transform c);
  enrich ← enc_ptr struct_enc (pc_Enrich c);
  dedup ← enc_ptr struct_enc (pc_Dedup c);
  threshold ← enc_ptr struct_enc (pc_Threshold c);
  batch ← enc_ptr struct_enc (pc_Batch c);
  Some (TObj (unless_empty (is_none (pc_Filter c)) "filter" filter
     ++ unless_empty (is_none (pc_Transform c)) "transform" transform
     ++ unless_empty (is_none (pc_Enrich c)) "enrich" enrich
     ++ unless_empty (is_none (pc_Dedup c)) "dedup" dedup
     ++ unless_empty (is_none (pc_Threshold c)) "threshold" threshold
     ++ unless_empty (is_none (pc_Batch c)) "batch" batch ++ [])).

Definition pipeline_valid (c : PipelineConfig) : bool :=
  option_valid struct_valid (pc_Filter c)
  && option_valid struct_valid (pc_Transform c)
  && option_valid struct_valid (pc_Enrich c)
  && option_valid struct_valid (pc_Dedup c)
  && option_valid struct_valid (pc_Threshold c)
  && option_valid struct_valid (pc_Batch c).

#[export] Instance pipeline_struct : Struct PipelineConfig :=
  { struct_zero := mkPipelineConfig None None None None None None;
     struct_fields := pipeline_fields; struct_enc := enc_pipeline; struct_valid := pipeline_valid; struct_depth := 2 }.

#[export] Instance pipeline_laws : StructLaws PipelineConfig.
Proof. solve_struct enc_pipeline pipeline_fields pipeline_valid. Qed.

(** ** StreamSourceConfig *)

Definition stream_fields (strict : bool) : list (field StreamSourceConfig) :=
  [("id", setter sc_ID (fun v c => mkSourceConfig v (sc_Kind c) (sc_URL c) (sc_Topic c) (sc_Metadata c) (sc_RestPoller c) (sc_Webhook c) (sc_Grpc c) (sc_Sse c) (sc_Websocket c) (sc_Pipeline c) (sc_Restart c)) dec_string);
   ("kind", setter sc_Kind (fun v c => mkSourceConfig (sc_ID c) v (sc_URL c) (sc_Topic c) (sc_Metadata c) (sc_RestPoller c) (sc_Webhook c) (sc_Grpc c) (sc_Sse c) (sc_Websocket c) (sc_Pipeline c) (sc_Restart c)) dec_string);
   ("url", setter sc_URL (fun v c => mkSourceConfig (sc_ID c) (sc_Kind c) v (sc_Topic c) (sc_Metadata c) (sc_RestPoller c) (sc_Webhook c) (sc_Grpc c) (sc_Sse c) (sc_Websocket c) (sc_Pipeline c) (sc_Restart c)) dec_string);
   ("topic", setter sc_Topic (fun v c => mkSourceConfig (sc_ID c) (sc_Kind c) (sc_URL c) v (sc_Metadata c) (sc_RestPoller c) (sc_Webhook c) (sc_Grpc c) (sc_Sse c) (sc_Websocket c) (sc_Pipeline c) (sc_Restart c)) dec_string);
   ("metadata", setter sc_Metadata (fun v c => mkSourceConfig (sc_ID c) (sc_Kind c) (sc_URL c) (sc_Topic c) v (sc_RestPoller c) (sc_Webhook c) (sc_Grpc c) (sc_Sse c) (sc_Websocket c) (sc_Pipeline c) (sc_Restart c)) dec_map);
   ("rest_poller", setter sc_RestPoller (fun v c => mkSourceConfig (sc_ID c) (sc_Kind c) (sc_URL c) (sc_Topic c) (sc_Metadata c) v (sc_Webhook c) (sc_Grpc c) (sc_Sse c) (sc_Websocket c) (sc_Pipeline c) (sc_Restart c)) (dec_ptr (dec_struct strict (struct_fields strict)) struct_zero));
   ("webhook", setter sc_Webhook (fun v c => mkSourceConfig (sc_ID c) (sc_Kind c) (sc_URL c) (sc_Topic c) (sc_Metadata c) (sc_RestPoller c) v (sc_Grpc c) (sc_Sse c) (sc_Websocket c) (sc_Pipeline c) (sc_Restart c)) (dec_ptr (dec_struct strict (struct_fields strict)) struct_zero));
   ("grpc", setter sc_Grpc (fun v c => mkSourceConfig (sc_ID c) (sc_Kind c) (sc_URL c) (sc_Topic c) (sc_Metadata c) (sc_RestPoller c) (sc_Webhook c) v (sc_Sse c) (sc_Websocket c) (sc_Pipeline c) (sc_Restart c)) (dec_ptr (dec_struct strict (struct_fields strict)) struct_zero));
   ("sse", setter sc_Sse (fun v c => mkSourceConfig (sc_ID c) (sc_Kind c) (sc_URL c) (sc_Topic c) (sc_Metadata c) (sc_RestPoller c) (sc_Webhook c) (sc_Grpc c) v (sc_Websocket c) (sc_Pipeline c) (sc_Restart c)) (dec_ptr (dec_struct strict (struct_fields strict)) struct_zero));
   ("websocket", setter sc_Websocket (fun v c => mkSourceConfig (sc_ID c) (sc_Kind c) (sc_URL c) (sc_Topic c) (sc_Metadata c) (sc_RestPoller c) (sc_Webhook c) (sc_Grpc c) (sc_Sse c) v (sc_Pipeline c) (sc_Restart c)) (dec_ptr (dec_struct strict (struct_fields strict)) struct_zero));
   ("pipeline", setter sc_Pipeline (fun v c => mkSourceConfig (sc_ID c) (sc_Kind c) (sc_URL c) (sc_Topic c) (sc_Metadata c) (sc_RestPoller c) (sc_Webhook c) (sc_Grpc c) (sc_Sse c) (sc_Websocket c) v (sc_Restart c)) (dec_ptr (dec_struct strict (struct_fields strict)) struct_zero));
   ("restart", setter sc_Restart (fun v c => mkSourceConfig (sc_ID c) (sc_Kind c) (sc_URL c) (sc_Topic c) (sc_Metadata c) (sc_RestPoller c) (sc_Webhook c) (sc_Grpc c) (sc_Sse c) (sc_Websocket c) (sc_Pipeline c) v) (dec_ptr (dec_struct strict (struct_fields strict)) struct_zero))]%string.

Definition enc_stream (c : StreamSourceConfig) : option jtree :=
  rest_poller ← enc_ptr struct_enc (sc_RestPoller c);
  webhook ← enc_ptr struct_enc (sc_Webhook c);
  grpc ← enc_ptr struct_enc (sc_Grpc c);
  sse ← enc_ptr struct_enc (sc_Sse c);
  websocket ← enc_ptr struct_enc (sc_Websocket c);
  pipeline ← enc_ptr struct_enc (sc_Pipeline c);
  restart ← enc_ptr struct_enc (sc_Restart c);
  Some (TObj (unless_empty false "id" (enc_string (sc_ID c))
     ++ unless_empty false "kind" (enc_string (sc_Kind c))
     ++ unless_empty (str_is_empty (sc_URL c)) "url" (enc_string (sc_URL c))
     ++ unless_empty false "topic" (enc_string (sc_Topic c))
     ++ unless_empty (bool_decide (sc_Metadata c = ∅)) "metadata" (enc_map (sc_Metadata c))
     ++ unless_empty (is_none (sc_RestPoller c)) "rest_poller" rest_poller
     ++ unless_empty (is_none (sc_Webhook c)) "webhook" webhook
     ++ unless_empty (is_none (sc_Grpc c)) "grpc" grpc
     ++ unless_empty (is_none (sc_Sse c)) "sse" sse
     ++ unless_empty (is_none (sc_Websocket c)) "websocket" websocket
     ++ unless_empty (is_none (sc_Pipeline c)) "pipeline" pipeline
     ++ unless_empty (is_none (sc_Restart c)) "restart" restart ++ [])).

Definition stream_valid (c : StreamSourceConfig) : bool :=
  utf8_valid (sc_ID c)
  && utf8_valid (sc_Kind c)
  && utf8_valid (sc_URL c)
  && utf8_valid (sc_Topic c)
  && map_valid (sc_Metadata c)
  && option_valid struct_valid (sc_RestPoller c)
  && option_valid struct_valid (sc_Webhook c)
  && option_valid struct_valid (sc_Grpc c)
  && option_valid struct_valid (sc_Sse c)
  && option_valid struct_valid (sc_Websocket c)
  && option_valid struct_valid (sc_Pipeline c)
  && option_valid struct_valid (sc_Restart c).

#[export] Instance stream_struct : Struct StreamSourceConfig :=
  { struct_zero := mkSourceConfig EmptyString EmptyString EmptyString EmptyString ∅ None None None None None None None;
     struct_fields := stream_fields; struct_enc := enc_stream; struct_valid := stream_valid; struct_depth := 3 }.

#[export] Instance stream_laws : StructLaws StreamSourceConfig.
Proof. solve_struct enc_stream stream_fields stream_valid. Qed.

(** ** The decoders of internal/server/validate.go *)

(** [decodeStrict]: one value and nothing after it, with no field the struct does
    not have. *)
Definition decodeStrict {A} `{Struct A} (r : string) : option A := decode_struct true r.
Definition DecodeStreamConfig (r : string) : option StreamSourceConfig := decodeStrict r.
Definition DecodePipelineConfig (r : string) : option PipelineConfig := decodeStrict r.

Example decode_string_or_list :
  (fun s => ws_OnConnectSend <$> (DecodeStreamConfig (js s) ≫= sc_Websocket)) <$>
    ["{'id':'a','websocket':{'on_connect_send':'x'}}"; "{'websocket':{'on_connect_send':['x','y']}}";
     "{'websocket':{'on_connect_send':null}}"; "{'websocket':{}}"; "{'websocket':{'on_connect_send':1}}"]%string
  = [Some ["x"]; Some ["x"; "y"]; Some [EmptyString]; Some []; None]%string.
Proof. vm_compute. reflexivity. Qed.

Example decode_folds_case : (fun s => sc_ID <$> DecodeStreamConfig (js s)) <$>
    ["{'ID':'a'}"; "{'id':'a','iD':'b'}"; "{'idd':'a'}"; "{'id':'a'} x"; "{'id':'a'}{}"; "null"; " {} "]%string
  = [Some "a"; Some "b"; None; None; None; Some ""; Some ""]%string.
Proof. vm_compute. reflexivity. Qed.

(** *** Unknown fields *)

Lemma dec_members_none {A} strict (fields : list (field A)) ms :
  foldl (dec_member strict fields) None ms = None.
Proof. induction ms; [done|]. done. Qed.

Lemma dec_members_unknown {A} (fields : list (field A)) ms1 k t ms2 s :
  find_field fields (unquote k) = None -> dec_members true fields (ms1 ++ (k, t) :: ms2) s = None.
Proof.
  intros Hk. unfold dec_members. rewrite foldl_app. cbn [foldl].
  destruct (foldl _ (Some s) ms1) as [s1|]; simpl; [rewrite Hk|]; apply dec_members_none.
Qed.

(** Whatever else the document holds, a key that names no field refuses it. *)
Lemma strict_refuses_unknown text ms1 k t ms2 :
  parse_json text = Some (TObj (ms1 ++ (k, t) :: ms2)) ->
  find_field (stream_fields true) (unquote k) = None ->
  DecodeStreamConfig text = None.
Proof.
  intros Hp Hk. unfold DecodeStreamConfig, decodeStrict, decode_struct, unmarshal_struct.
  rewrite Hp. simpl. by apply dec_members_unknown.
Qed.

(** ** Round trips *)

(** (C17) What [json.Marshal] prints for a stream configuration, the strict decoder
    the API and the command line share and the lenient one the store uses both
    read back as the same configuration: every field, every nested section, the
    empty ones left out included. *)
Theorem config_roundtrip (cfg : StreamSourceConfig) :
  struct_valid cfg = true ->
  exists text, marshal_struct cfg = Some text /\ DecodeStreamConfig text = Some cfg /\
    decode_struct false text = Some cfg.
Proof.
  intros Hv. destruct (decode_marshal cfg Hv) as (text & Hm & Hd); [done|].
  exists text. split; [done|]. split; apply Hd.
Qed.

(** A configuration with every section, a string JSON escapes, an explicit zero
    where zero means something, and values at the edge of their types. *)
Definition full_config : StreamSourceConfig :=
  mkSourceConfig "edge-1" "websocket" "wss://example.com/?a=1&b=<2>" "events"
    (list_to_map [("site", "Zürich"); ("line", ("A" +:+ String (byte_of 10) "B")%string)])
    (Some (mkRestPollerConfig "5s" "" ∅)) (Some (mkWebhookConfig "8081" "/hook" (String quote_char "tok")))
    (Some (mkGrpcConfig "")) (Some (mkSseConfig ∅)) (Some (mkWebsocketConfig ["{}"; ""]))
    (Some (mkPipelineConfig (Some (mkFilterConfig ["a"; "b"])) (Some (mkTransformConfig {[ "k" := "a.b" ]}))
       None (Some (mkDedupConfig true max_int64 "")) (Some (mkThresholdConfig false "p" (num "0.1") ""))
       (Some (mkBatchConfig true 0 "250ms"))))
    (Some (mkRestartConfig (Some 0) "1s" "" (num "1.5") ""))%string.

Lemma config_roundtrip_witness :
  struct_valid full_config = true /\
  exists text, marshal_struct full_config = Some text /\ DecodeStreamConfig text = Some full_config /\
    decode_struct false text = Some full_config.
Proof.
  assert (H : struct_valid full_config = true) by (vm_compute; reflexivity).
  split; [exact H|]. apply (config_roundtrip full_config H).
Defined.
