(* ===== verification/Store.v ===== *)
(** * internal/store/kv.go: the configuration store

    Configurations as JSON documents in a key-value bucket.  The bucket is not part
    of the repository: [KeyValue] is the part of its interface the store calls, and
    [KeyValueLaws] what its documentation promises.  The store is then shown to
    implement the finite map of configurations that [Manager] keeps. *)

From Stdlib Require Import ZArith Lia.
From stdpp Require Import base tactics option strings gmap list.
From S2P Require Import Prelude GoLib GoFloat GoNumber GoJson GoJsonStruct Domain ConfigJson.

#[local] Open Scope Z_scope.

(** ** The bucket *)

(** What [nats.KeyValue.Keys] answers: [nats.ErrNoKeysFound] for an empty bucket. *)
Inductive keys_error : Type :=
| ErrNoKeysFound
| EKeys (e : string).

(** A write answers whether it failed, and leaves a bucket either way. *)
Class KeyValue (K : Type) := {
  kv_Put : string -> string -> K -> result string unit * K;
  kv_Delete : string -> K -> result string unit * K;
  kv_Get : K -> string -> result string string;
  kv_Keys : K -> result keys_error (list string);
  kv_content : K -> gmap string string
}.

(** A write that answers without an error has been made.  One that fails, a request
    that timed out for instance, may have been made all the same, or not; it may even
    be made later (see [store_step]).  Any of them may fail. *)
Class KeyValueLaws (K : Type) `{KeyValue K} := {
  kv_Put_ok k v s s' : kv_Put k v s = (Ok tt, s') -> kv_content s' = <[k := v]> (kv_content s);
  kv_Put_err k v s e s' : kv_Put k v s = (Err e, s') ->
    kv_content s' = kv_content s \/ kv_content s' = <[k := v]> (kv_content s);
  kv_Delete_ok k s s' : kv_Delete k s = (Ok tt, s') -> kv_content s' = delete k (kv_content s);
  kv_Delete_err k s e s' : kv_Delete k s = (Err e, s') ->
    kv_content s' = kv_content s \/ kv_content s' = delete k (kv_content s);
  kv_Get_ok s k v : kv_Get s k = Ok v -> kv_content s !! k = Some v;
  kv_Keys_ok s ks : kv_Keys s = Ok ks -> ks ≡ₚ (map_to_list (kv_content s)).*1;
  kv_Keys_empty s : kv_Keys s = Err ErrNoKeysFound -> kv_content s = ∅
}.

(** ** The store *)

Inductive store_error : Type :=
| EInit (e : string)
| EMarshalConfig
| EKvPut (id e : string)
| EKvDelete (id e : string)
| EKvGet (id e : string)
| EUnmarshalConfig (id : string)
| EKvKeys (e : string).

Section Store.
Context {K : Type} `{KeyValue K}.

(** What [js.KeyValue] answers. *)
Inductive bucket_answer : Type :=
| BucketFound (kv : K)
| BucketNotFound
| BucketFailed (e : string).

(** [NewStreamStore]: the bucket is opened, or created when there is none. *)
Definition NewStreamStore (open : bucket_answer) (create : result string K) : result store_error K :=
  match open with
  | BucketFound kv => Ok kv
  | BucketNotFound => res_map_err EInit create
  | BucketFailed e => Err (EInit e)
  end.

Definition Put (cfg : StreamSourceConfig) (s : K) : result store_error unit * K :=
  match marshal_struct cfg with
  | None => (Err EMarshalConfig, s)
  | Some data => prod_map (res_map_err (EKvPut (sc_ID cfg))) id (kv_Put (sc_ID cfg) data s)
  end.

Definition Delete (id : string) (s : K) : result store_error unit * K :=
  prod_map (res_map_err (EKvDelete id)) Datatypes.id (kv_Delete id s).

Definition Get (s : K) (id : string) : result store_error StreamSourceConfig :=
  match kv_Get s id with
  | Err e => Err (EKvGet id e)
  | Ok value =>
      match decode_struct false value with
      | None => Err (EUnmarshalConfig id)
      | Some cfg => Ok cfg
      end
  end.

(** One turn of the loop: an unreadable key or a malformed value is skipped. *)
Definition list_one (s : K) (key : string) : option StreamSourceConfig :=
  match kv_Get s key with
  | Err _ => None
  | Ok value => decode_struct false value
  end.

Definition List (s : K) : result store_error (list StreamSourceConfig) :=
  match kv_Keys s with
  | Err ErrNoKeysFound => Ok []
  | Err (EKeys e) => Err (EKvKeys e)
  | Ok keys => Ok (omap (list_one s) keys)
  end.

(** ** The map the store implements *)

(** [m] is the store's content: one entry per stream, under its own id, holding
    the document of its configuration. *)
Definition represents (s : K) (m : gmap string StreamSourceConfig) : Prop :=
  (forall id cfg, m !! id = Some cfg -> struct_valid cfg = true /\ sc_ID cfg = id) /\
  (forall id, kv_content s !! id = m !! id ≫= marshal_struct).

Context `{!KeyValueLaws K}.

Lemma represents_lookup s m id cfg : represents s m -> m !! id = Some cfg ->
  exists text, kv_content s !! id = Some text /\ decode_struct false text = Some cfg.
Proof.
  intros [Hv Hc] Hm. destruct (Hv id cfg Hm) as [Hok _].
  destruct (decode_marshal cfg Hok) as (text & Ht & Hd); [done|].
  exists text. by rewrite Hc, Hm.
Qed.

Lemma represents_content s m id text : represents s m -> kv_content s !! id = Some text ->
  exists cfg, m !! id = Some cfg /\ decode_struct false text = Some cfg.
Proof.
  intros Hr Hc. pose proof Hr as [_ Hr2]. rewrite Hr2 in Hc. apply bind_Some in Hc as (cfg & Hm & Ht).
  exists cfg. split; [done|]. destruct (represents_lookup s m id cfg Hr Hm) as (text' & Hc' & Hd).
  rewrite Hr2, Hm in Hc'. simpl in Hc'. congruence.
Qed.

(** What each write makes of the bucket. *)
Definition put_text (cfg : StreamSourceConfig) (t : gmap string string) : gmap string string :=
  match marshal_struct cfg with Some data => <[sc_ID cfg := data]> t | None => t end.

Lemma put_represents s s' m cfg : represents s m -> struct_valid cfg = true ->
  kv_content s' = put_text cfg (kv_content s) -> represents s' (<[sc_ID cfg := cfg]> m).
Proof.
  intros [Hv Hc] Hok E. unfold put_text in E. destruct (decode_marshal cfg Hok) as (text & Ht & _); [done|].
  rewrite Ht in E. split.
  - intros id c [[<- <-]|[_ Hl]]%lookup_insert_Some; eauto.
  - intros id. rewrite E. destruct (decide (id = sc_ID cfg)) as [->|Hne].
    + by rewrite !lookup_insert_eq.
    + by rewrite !lookup_insert_ne.
Qed.

Lemma delete_represents s s' m id : represents s m -> kv_content s' = delete id (kv_content s) ->
  represents s' (delete id m).
Proof.
  intros [Hv Hc] E. split.
  - intros id' c [_ Hl]%lookup_delete_Some. by apply Hv.
  - intros id'. rewrite E. destruct (decide (id' = id)) as [->|Hne].
    + by rewrite !lookup_delete_eq.
    + by rewrite !lookup_delete_ne.
Qed.

Lemma represents_same s s' m : represents s m -> kv_content s' = kv_content s -> represents s' m.
Proof. intros [Hv Hc] E. split; [done|]. intros id. by rewrite E. Qed.

Lemma Put_ok cfg s s' : Put cfg s = (Ok tt, s') -> kv_content s' = put_text cfg (kv_content s).
Proof.
  unfold Put, put_text. destruct (marshal_struct cfg) as [data|]; [|done].
  destruct (kv_Put (sc_ID cfg) data s) as [[[]|e] s1] eqn:Ek; [|done]. intros [= <-]. by apply kv_Put_ok.
Qed.

Lemma Put_err cfg s e s' : Put cfg s = (Err e, s') ->
  kv_content s' = kv_content s \/ kv_content s' = put_text cfg (kv_content s).
Proof.
  unfold Put, put_text. destruct (marshal_struct cfg) as [data|]; [|intros [= <- <-]; by left].
  destruct (kv_Put (sc_ID cfg) data s) as [[[]|e1] s1] eqn:Ek; [done|]. intros [= <- <-]. by eapply kv_Put_err.
Qed.

Lemma Delete_ok id s s' : Delete id s = (Ok tt, s') -> kv_content s' = delete id (kv_content s).
Proof.
  unfold Delete. destruct (kv_Delete id s) as [[[]|e] s1] eqn:Ek; [|done]. intros [= <-]. by apply kv_Delete_ok.
Qed.

Lemma Delete_err id s e s' : Delete id s = (Err e, s') ->
  kv_content s' = kv_content s \/ kv_content s' = delete id (kv_content s).
Proof.
  unfold Delete. destruct (kv_Delete id s) as [[[]|e1] s1] eqn:Ek; [done|]. intros [= <- <-]. by eapply kv_Delete_err.
Qed.

Lemma Get_represents s m id cfg : represents s m -> Get s id = Ok cfg -> m !! id = Some cfg.
Proof.
  intros Hr HG. unfold Get in HG. destruct (kv_Get s id) as [value|] eqn:Ek; [|done].
  apply kv_Get_ok in Ek. destruct (represents_content s m id value Hr Ek) as (c & Hm & Hd).
  rewrite Hd in HG. by simplify_eq.
Qed.

Lemma list_one_represents s m id cfg : represents s m -> list_one s id = Some cfg -> m !! id = Some cfg.
Proof.
  intros Hr HL. unfold list_one in HL. destruct (kv_Get s id) as [value|] eqn:Ek; [|done].
  apply kv_Get_ok in Ek. destruct (represents_content s m id value Hr Ek) as (c & Hm & Hd). congruence.
Qed.

Lemma omap_NoDup {A} (f : string -> option A) (g : A -> string) l :
  (forall k a, f k = Some a -> g a = k) -> NoDup l -> NoDup (g <$> omap f l).
Proof.
  intros Hf. induction 1 as [|k l Hk Hl IH]; [constructor|]. cbn [omap list_omap].
  destruct (f k) as [a|] eqn:E; [|done]. rewrite fmap_cons. constructor; [|done].
  intros (a' & Ha & (k' & Hin & Hk')%list_elem_of_omap)%list_elem_of_fmap.
  rewrite (Hf k a E), (Hf k' a' Hk') in Ha. by subst.
Qed.

(** What [List] returns: only configurations that are stored, each once; all of
    them when no read fails in the meantime. *)
Lemma List_represents s m cfgs : represents s m -> List s = Ok cfgs ->
  NoDup (sc_ID <$> cfgs) /\ (forall cfg, cfg ∈ cfgs -> m !! sc_ID cfg = Some cfg) /\
  ((forall id, is_Some (m !! id) -> is_ok (kv_Get s id) = true) ->
   forall id cfg, m !! id = Some cfg -> cfg ∈ cfgs).
Proof.
  intros Hr HL. pose proof Hr as [Hv Hc].
  assert (Hid : forall k a, list_one s k = Some a -> sc_ID a = k).
  { intros k a Ha. apply (list_one_represents s m) in Ha; [|done]. by apply Hv in Ha as [_ ?]. }
  unfold List in HL. destruct (kv_Keys s) as [ks|[|e]] eqn:Ek; simplify_eq.
  - apply kv_Keys_ok in Ek. split; [|split].
    + apply omap_NoDup; [done|]. rewrite Ek. apply NoDup_fst_map_to_list.
    + intros cfg (k & _ & Hk)%list_elem_of_omap. rewrite (Hid k cfg Hk). by apply (list_one_represents s).
    + intros Hok id cfg Hm. apply list_elem_of_omap. exists id.
      destruct (represents_lookup s m id cfg Hr Hm) as (text & Hl & Hd). split.
      * rewrite Ek. apply list_elem_of_fmap. exists (id, text). split; [done|]. by apply elem_of_map_to_list.
      * unfold list_one. specialize (Hok id ltac:(by eexists)).
        destruct (kv_Get s id) as [v|] eqn:Eg; [|done]. apply kv_Get_ok in Eg. congruence.
  - apply kv_Keys_empty in Ek. split; [constructor|]. split; [by intros ? ?%elem_of_nil|].
    intros _ id cfg Hm. destruct (represents_lookup s m id cfg Hr Hm) as (text & Hl & _).
    by rewrite Ek, lookup_empty in Hl.
Qed.

(** ** A run of the store *)

Inductive store_op : Type :=
| OPut (cfg : StreamSourceConfig)
| ODelete (id : string).

Definition run_op (op : store_op) (s : K) : result store_error unit * K :=
  match op with OPut cfg => Put cfg s | ODelete id => Delete id s end.

Definition op_valid (op : store_op) : bool :=
  match op with OPut cfg => struct_valid cfg | ODelete _ => true end.

Definition op_id (op : store_op) : string := match op with OPut cfg => sc_ID cfg | ODelete id => id end.

(** What an operation leaves under its id. *)
Definition op_cfg (op : store_op) : option StreamSourceConfig :=
  match op with OPut cfg => Some cfg | ODelete _ => None end.

Definition map_op (op : store_op) (m : gmap string StreamSourceConfig) : gmap string StreamSourceConfig :=
  match op with OPut cfg => <[sc_ID cfg := cfg]> m | ODelete id => delete id m end.

(** The write of [op] reaches the bucket. *)
Definition lands (op : store_op) (s s' : K) : Prop :=
  kv_content s' = match op with
                  | OPut cfg => put_text cfg (kv_content s)
                  | ODelete id => delete id (kv_content s)
                  end.

Lemma run_op_ok op s s' : run_op op s = (Ok tt, s') -> lands op s s'.
Proof. destruct op; [apply Put_ok|apply Delete_ok]. Qed.

Lemma run_op_err op s e s' : run_op op s = (Err e, s') -> kv_content s' = kv_content s \/ lands op s s'.
Proof. destruct op; [apply Put_err|apply Delete_err]. Qed.

Lemma map_op_eq op m : map_op op m !! op_id op = op_cfg op.
Proof. destruct op; simpl; [apply lookup_insert_eq|apply lookup_delete_eq]. Qed.

Lemma map_op_ne op m id : id <> op_id op -> map_op op m !! id = m !! id.
Proof. intros Hne. destruct op; simpl in *; [by apply lookup_insert_ne|by apply lookup_delete_ne]. Qed.

Lemma lands_represents op s s' m : op_valid op = true -> represents s m -> lands op s s' -> represents s' (map_op op m).
Proof. destruct op; simpl; eauto using put_represents, delete_represents. Qed.

(** ** Writes whose outcome is not known

    A refused write is in doubt from then on: it may be made at any later time, or
    never.  An id is settled when no write to it is in doubt. *)

Definition settled (id : string) (doubts : list store_op) : Prop := forall op, op ∈ doubts -> op_id op <> id.

(** [m2] is [m], but for what writes in doubt have done. *)
Definition within (m2 m : gmap string StreamSourceConfig) (doubts : list store_op) : Prop :=
  forall id, m2 !! id = m !! id \/ exists op, op ∈ doubts /\ op_id op = id /\ m2 !! id = op_cfg op.

(** The bucket, when [m] is what has been acknowledged. *)
Definition tracks (s : K) (m : gmap string StreamSourceConfig) (doubts : list store_op) : Prop :=
  Forall (fun op => op_valid op = true) doubts /\ exists m2, represents s m2 /\ within m2 m doubts.

Lemma within_settled m2 m doubts id : within m2 m doubts -> settled id doubts -> m2 !! id = m !! id.
Proof. intros Hw Hs. destruct (Hw id) as [?|(op & Hin & Hid & _)]; [done|]. by destruct (Hs op Hin). Qed.

Lemma within_refused m2 m doubts op : within m2 m doubts -> within m2 m (doubts ++ [op]).
Proof.
  intros Hw id. destruct (Hw id) as [?|(op' & Hin & He)]; [by left|]. right. exists op'. split; [set_solver|done].
Qed.

Lemma within_op m2 m doubts op : within m2 m doubts -> within (map_op op m2) (map_op op m) doubts.
Proof.
  intros Hw id. destruct (decide (id = op_id op)) as [->|Hne]; [left; by rewrite !map_op_eq|].
  rewrite !map_op_ne by done. apply Hw.
Qed.

Lemma within_lands m2 m doubts op : within m2 m doubts -> op ∈ doubts -> within (map_op op m2) m doubts.
Proof.
  intros Hw Hin id. destruct (decide (id = op_id op)) as [->|Hne].
  - right. exists op. split; [done|]. split; [done|]. apply map_op_eq.
  - rewrite map_op_ne by done. apply Hw.
Qed.

Lemma tracks_acknowledged s m doubts op s' :
  tracks s m doubts -> op_valid op = true -> run_op op s = (Ok tt, s') -> tracks s' (map_op op m) doubts.
Proof.
  intros (Hd & m2 & Hr & Hw) Hv He. split; [done|]. exists (map_op op m2). split; [|by apply within_op].
  eapply lands_represents; eauto using run_op_ok.
Qed.

Lemma tracks_lands s m doubts op s' : tracks s m doubts -> op ∈ doubts -> lands op s s' -> tracks s' m doubts.
Proof.
  intros (Hd & m2 & Hr & Hw) Hin Hl. split; [done|]. exists (map_op op m2). split; [|by apply within_lands].
  eapply lands_represents; [|done|done]. rewrite Forall_forall in Hd. by apply Hd.
Qed.

Lemma tracks_refused s m doubts op e s' :
  tracks s m doubts -> op_valid op = true -> run_op op s = (Err e, s') -> tracks s' m (doubts ++ [op]).
Proof.
  intros (Hd & m2 & Hr & Hw) Hv He.
  assert (Hd' : tracks s m (doubts ++ [op])).
  { split; [by apply Forall_app; split; [|constructor]|]. exists m2. split; [done|by apply within_refused]. }
  destruct (run_op_err op s e s' He) as [E|Hl]; [|by apply (tracks_lands s m _ op); [|set_solver|]].
  destruct Hd' as (? & m3 & ? & ?). split; [done|]. exists m3. split; [by eapply represents_same|done].
Qed.

Lemma tracks_represents s m : represents s m -> tracks s m [].
Proof. intros Hr. split; [constructor|]. exists m. split; [done|]. intros id. by left. Qed.

(** Saves, deletions, and writes that land after they were refused. *)
Inductive store_step : K * gmap string StreamSourceConfig * list store_op ->
    K * gmap string StreamSourceConfig * list store_op -> Prop :=
| step_acknowledged op s m doubts s' :
    op_valid op = true -> run_op op s = (Ok tt, s') -> store_step (s, m, doubts) (s', map_op op m, doubts)
| step_refused op e s m doubts s' :
    op_valid op = true -> run_op op s = (Err e, s') -> store_step (s, m, doubts) (s', m, doubts ++ [op])
| step_lands op s m doubts s' :
    op ∈ doubts -> lands op s s' -> store_step (s, m, doubts) (s', m, doubts).

Lemma store_reach s0 m0 doubts0 s m doubts :
  tracks s0 m0 doubts0 -> reach store_step (s0, m0, doubts0) (s, m, doubts) -> tracks s m doubts.
Proof.
  intros H0 Hr.
  refine (reach_invariant store_step (fun c => tracks c.1.1 c.1.2 c.2) (s0, m0, doubts0) H0 _ (s, m, doubts) Hr).
  intros x y Hx Hs. destruct Hs; simpl in *; eauto using tracks_acknowledged, tracks_refused, tracks_lands.
Qed.

(** (C24) The store implements the finite map the manager reasons with, as far as the
    bucket's answers allow.  From an empty bucket, after any sequence of deletions and
    of saves of configurations that can be encoded, any of which may be refused, and
    may take effect nevertheless, at once or at any later time: what [Get] reads is
    what was last acknowledged under the id, or what a refused save of it would have
    stored; [List] returns each id at most once, and nothing but such configurations;
    and an id no write to which was ever refused is read exactly as acknowledged, and
    listed when the bucket answers its reads. *)
Theorem store_implements_map s0 s m doubts :
  kv_content s0 = ∅ -> reach store_step (s0, ∅, []) (s, m, doubts) ->
  (forall id cfg, Get s id = Ok cfg -> m !! id = Some cfg \/ OPut cfg ∈ doubts /\ sc_ID cfg = id) /\
  (forall id cfg v, settled id doubts -> kv_Get s id = Ok v -> m !! id = Some cfg -> Get s id = Ok cfg) /\
  (forall cfgs, List s = Ok cfgs ->
    NoDup (sc_ID <$> cfgs) /\ (forall cfg, cfg ∈ cfgs -> m !! sc_ID cfg = Some cfg \/ OPut cfg ∈ doubts) /\
    ((forall id, is_Some (kv_content s !! id) -> is_ok (kv_Get s id) = true) ->
     forall id cfg, settled id doubts -> m !! id = Some cfg -> cfg ∈ cfgs)).
Proof.
  intros H0 Hreach.
  assert (Hr0 : represents s0 ∅).
  { split; [intros id cfg Hl; by rewrite lookup_empty in Hl|]. intros id. by rewrite H0, !lookup_empty. }
  destruct (store_reach _ _ _ _ _ _ (tracks_represents s0 ∅ Hr0) Hreach) as (_ & m2 & Hr & Hw).
  assert (Hin : forall id cfg, m2 !! id = Some cfg -> m !! id = Some cfg \/ OPut cfg ∈ doubts /\ sc_ID cfg = id).
  { intros id cfg Hm. destruct (Hw id) as [E|([c|id'] & Hop & Hid & E)]; rewrite Hm in E; [by left|right|done].
    injection E as <-. done. }
  split; [|split].
  - intros id cfg Hg. by apply Hin, (Get_represents s).
  - intros id cfg v Hs Hg Hm. rewrite <- (within_settled m2 m doubts id Hw Hs) in Hm.
    destruct (represents_lookup s m2 id cfg Hr Hm) as (text & Hl & Hd).
    unfold Get. rewrite Hg. apply kv_Get_ok in Hg. assert (v = text) as -> by congruence. by rewrite Hd.
  - intros cfgs Hl. destruct (List_represents s m2 cfgs Hr Hl) as (Hnd & Hsub & Hall).
    split; [done|]. split; [intros cfg Hc; destruct (Hin _ _ (Hsub cfg Hc)) as [?|[? _]]; auto|].
    intros Hok id cfg Hs Hm. rewrite <- (within_settled m2 m doubts id Hw Hs) in Hm.
    eapply Hall; [|exact Hm]. intros id' [c Hc]. apply Hok.
    destruct (represents_lookup s m2 id' c Hr Hc) as (text & Ht & _). eauto.
Qed.
End Store.

(** ** A bucket that always answers *)

#[export] Instance gmap_kv : KeyValue (gmap string string) := {
  kv_Put k v s := (Ok tt, <[k := v]> s);
  kv_Delete k s := (Ok tt, delete k s);
  kv_Get s k := match s !! k with Some v => Ok v | None => Err "nats: key not found"%string end;
  kv_Keys s := match map_to_list s with [] => Err ErrNoKeysFound | l => Ok l.*1 end;
  kv_content s := s
}.

#[export] Instance gmap_kv_laws : KeyValueLaws (gmap string string).
Proof.
  split; simpl.
  - by intros k v s s' [= <-].
  - done.
  - by intros k s s' [= <-].
  - done.
  - intros s k v Hv. destruct (s !! k); by simplify_eq.
  - intros s ks. destruct (map_to_list s) eqn:E; intros; by simplify_eq.
  - intros s. destruct (map_to_list s) eqn:E; intros; [by apply map_to_list_empty_iff|done].
Qed.

(** ** A bucket whose writes time out

    The faults of its next writes: [Some true] is a request that is applied although
    its answer is lost, [Some false] one that is lost. *)

Record flaky : Type := mkFlaky { fl_faults : list (option bool); fl_content : gmap string string }.

Definition flaky_write (f : gmap string string -> gmap string string) (s : flaky) : result string unit * flaky :=
  match fl_faults s with
  | Some landed :: faults =>
      (Err "nats: timeout"%string, mkFlaky faults (if landed then f (fl_content s) else fl_content s))
  | _ => (Ok tt, mkFlaky (tail (fl_faults s)) (f (fl_content s)))
  end.

#[export] Instance flaky_kv : KeyValue flaky := {
  kv_Put k v := flaky_write <[k := v]>;
  kv_Delete k := flaky_write (delete k);
  kv_Get s := kv_Get (fl_content s);
  kv_Keys s := kv_Keys (fl_content s);
  kv_content := fl_content
}.

Lemma flaky_ok f s s' : flaky_write f s = (Ok tt, s') -> fl_content s' = f (fl_content s).
Proof. unfold flaky_write. destruct (fl_faults s) as [|[[]|] ?]; by intros [= <-]. Qed.

Lemma flaky_err f s e s' : flaky_write f s = (Err e, s') ->
  fl_content s' = fl_content s \/ fl_content s' = f (fl_content s).
Proof. unfold flaky_write. destruct (fl_faults s) as [|[[]|] ?]; intros [= <- <-]; [by right|by left]. Qed.

#[export] Instance flaky_kv_laws : KeyValueLaws flaky.
Proof.
  split.
  - intros k v s s'. apply flaky_ok.
  - intros k v s e s'. apply flaky_err.
  - intros k s s'. apply flaky_ok.
  - intros k s e s'. apply flaky_err.
  - intros s. exact (kv_Get_ok (fl_content s)).
  - intros s. exact (kv_Keys_ok (fl_content s)).
  - intros s. exact (kv_Keys_empty (fl_content s)).
Qed.

(** A stream is saved; a second save of another stream times out, and a deletion
    that timed out has landed. *)
Definition flaky_start : flaky := mkFlaky [None; Some false; Some true] ∅.
Definition other_config : StreamSourceConfig :=
  mkSourceConfig "other" "sse" "http://h/s" "t" ∅ None None None None None None None.
Definition flaky_ops : list store_op := [OPut full_config; OPut other_config; ODelete "other"].
Definition flaky_end : flaky := foldl (fun s op => (run_op op s).2) flaky_start flaky_ops.

Lemma flaky_reach :
  reach store_step (flaky_start, ∅, []) (flaky_end, {[ "edge-1"%string := full_config ]}, [OPut other_config; ODelete "other"]).
Proof.
  eapply reach_step; [eapply reach_step; [eapply reach_step; [apply reach_refl|]|]|].
  - eapply (step_acknowledged (OPut full_config)); [vm_compute; reflexivity|].
    instantiate (1 := (run_op (OPut full_config) flaky_start).2). vm_compute. reflexivity.
  - eapply (step_refused (OPut other_config)); [vm_compute; reflexivity|].
    instantiate (2 := EKvPut "other" "nats: timeout"). vm_compute. reflexivity.
  - replace {[ "edge-1"%string := full_config ]} with (map_op (OPut full_config) ∅) by (vm_compute; reflexivity).
    eapply (step_refused (ODelete "other") _ _ _ [OPut other_config]); [reflexivity|].
    instantiate (1 := EKvDelete "other" "nats: timeout"). vm_compute. reflexivity.
Qed.

Lemma store_implements_map_witness : Get flaky_end "edge-1" = Ok full_config.
Proof.
  assert (H0 : kv_content flaky_start = ∅) by reflexivity.
  destruct (store_implements_map flaky_start flaky_end {[ "edge-1"%string := full_config ]}
              [OPut other_config; ODelete "other"] H0 flaky_reach) as (_ & H & _).
  assert (Hk : is_ok (kv_Get flaky_end "edge-1"%string) = true) by (vm_compute; reflexivity).
  apply is_ok_true in Hk as [v Hk]. apply (H "edge-1"%string full_config v); [|exact Hk|].
  - intros op Hin. rewrite !elem_of_cons, elem_of_nil in Hin.
    destruct Hin as [->|[->|[]]]; vm_compute; discriminate.
  - apply lookup_singleton_eq.
Defined.
