(* ===== verification/Broker.v ===== *)
(** * internal/broker/nats.go: the broker

    How an event becomes a message: the JSON envelope, or the bytes of a binary
    event with its type and sequence in headers; the connection, its options and its
    end; and the stream that is ensured.  The NATS client is not part of the
    repository: what its calls answer is an argument, and the calls are recorded. *)

From Stdlib Require Import ZArith Lia Ascii.
From stdpp Require Import base tactics option strings gmap list.
From S2P Require Import Prelude GoLib GoTime GoFloat GoJson GoJsonPrint GoJsonString GoJsonSound.
From S2P Require Import GoJsonStruct Domain.

#[local] Open Scope Z_scope.

(** ** Settings *)

Record Config : Type := mkConfig { StreamMaxAge : Z; StreamMaxBytes : Z }.

Definition DefaultConfig : Config := mkConfig (72 * hour) 0.

(** ** The envelope *)

(** The members of [json.Marshal(event)]: a payload of no bytes is left out, any
    other is compacted, and refused when it is not JSON.  [Data] never appears. *)
Definition enc_payload (p : RawMessage) : option jtree :=
  if str_is_empty (raw_bytes p) then Some TNull else map_raws html_escape <$> parse_json (raw_bytes p).

Definition enc_event (event : StreamEvent) : option jtree :=
  payload ← enc_payload (se_Payload event);
  Some (TObj (unless_empty false "source" (enc_string (se_Source event))
    ++ unless_empty false "type" (enc_string (se_Type event))
    ++ unless_empty false "timestamp" (enc_int (se_Timestamp event))
    ++ unless_empty (se_Seq event =? 0) "seq" (enc_int (se_Seq event))
    ++ unless_empty (str_is_empty (se_ContentType event)) "content_type" (enc_string (se_ContentType event))
    ++ unless_empty (str_is_empty (raw_bytes (se_Payload event))) "payload" payload ++ [])).

Inductive publish_error : Type :=
| EMarshalEvent
| EEmptyData (type : string)
| EPublishMsg (e : string).

Definition encodeEvent (event : StreamEvent) : result publish_error (string * string) :=
  let contentType := if str_is_empty (se_ContentType event) then ContentTypeJSON else se_ContentType event in
  if str_eqb contentType ContentTypeJSON then
    match print <$> enc_event event with
    | None => Err EMarshalEvent
    | Some data => Ok (data, contentType)
    end
  else if str_is_empty (se_Data event) then Err (EEmptyData (se_Type event))
  else Ok (se_Data event, contentType).

(** ** Messages *)

Record Msg : Type := mkMsg { msg_Subject : string; msg_Data : string; msg_Header : gmap string string }.

#[export] Instance Msg_eq_dec : EqDecision Msg.
Proof. solve_decision. Defined.

Definition event_msg (topic : string) (event : StreamEvent) (data contentType : string) : Msg :=
  let header := if str_is_empty contentType then ∅ else <["Content-Type"%string := contentType]> ∅ in
  mkMsg topic data
    (if 0 <? se_Seq event then <["X-Nephtys-Seq"%string := itoa (se_Seq event)]> header else header).

(** [answer] is what [PublishMsg] makes of a message: [None] when it took it. *)
Definition Publish (answer : Msg -> option string) (topic : string) (event : StreamEvent)
  : result publish_error Msg :=
  encodeEvent event ≫= fun '(data, contentType) =>
    let msg := event_msg topic event data contentType in
    match answer msg with
    | Some e => Err (EPublishMsg e)
    | None => Ok msg
    end.

(** ** The stream *)

Inductive retention : Type := LimitsPolicy | InterestPolicy | WorkQueuePolicy.
Inductive storage : Type := FileStorage | MemoryStorage.

(** The fields of [nats.StreamConfig] that are set here. *)
Record StreamConfig : Type := mkStreamConfig {
  s_Name : string; s_Subjects : list string; s_Retention : retention; s_Storage : storage;
  s_MaxAge : Z; s_MaxBytes : Z
}.

(** What [StreamInfo] answers. *)
Inductive stream_info : Type := InfoFound | InfoNotFound | InfoFailed (e : string).

Inductive stream_call : Type :=
| CStreamInfo (name : string) | CAddStream (c : StreamConfig) | CUpdateStream (c : StreamConfig).

Inductive stream_error : Type :=
| EInspectStream (name e : string)
| ECreateStream (name e : string)
| EUpdateStream (name e : string).

(** What the client answers about streams. *)
Record stream_client : Type := mkStreamClient {
  st_info : string -> stream_info;
  st_add : StreamConfig -> option string;
  st_update : StreamConfig -> option string
}.

Definition stream_config (c : Config) (name : string) (subjects : list string) : StreamConfig :=
  mkStreamConfig name subjects LimitsPolicy FileStorage (StreamMaxAge c) (StreamMaxBytes c).

(** The result, and the calls it makes. *)
Definition EnsureStream (config : Config) (js : stream_client) (name : string) (subjects : list string)
  : result stream_error unit * list stream_call :=
  let streamCfg := stream_config config name subjects in
  let inspected := CStreamInfo name in
  match st_info js name with
  | InfoFailed e => (Err (EInspectStream name e), [inspected])
  | InfoNotFound =>
      (match st_add js streamCfg with Some e => Err (ECreateStream name e) | None => Ok tt end,
       [inspected; CAddStream streamCfg])
  | InfoFound =>
      (match st_update js streamCfg with Some e => Err (EUpdateStream name e) | None => Ok tt end,
       [inspected; CUpdateStream streamCfg])
  end.

(** A server that keeps streams by name: it adds one it does not have, and updates
    one it has. *)
Definition server_client (streams : gmap string StreamConfig) : stream_client :=
  let found name := bool_decide (is_Some (streams !! name)) in
  mkStreamClient (fun name => if found name then InfoFound else InfoNotFound)
    (fun c => if found (s_Name c) then Some "stream name already in use"%string else None)
    (fun c => if found (s_Name c) then None else Some "stream not found"%string).

Definition server_call (streams : gmap string StreamConfig) (c : stream_call) : gmap string StreamConfig :=
  match c with
  | CStreamInfo _ => streams
  | CAddStream c | CUpdateStream c => <[s_Name c := c]> streams
  end.

(** On such a server the stream is always ensured: it is there afterwards with the
    limits configured, others are untouched, and ensuring it again changes nothing. *)
Lemma EnsureStream_settles config streams name subjects :
  let '(r, calls) := EnsureStream config (server_client streams) name subjects in
  let streams' := foldl server_call streams calls in
  r = Ok tt /\ streams' = <[name := stream_config config name subjects]> streams /\
  let '(r', calls') := EnsureStream config (server_client streams') name subjects in
  r' = Ok tt /\ foldl server_call streams' calls' = streams'.
Proof.
  assert (H : let '(r, calls) := EnsureStream config (server_client streams) name subjects in
    r = Ok tt /\ foldl server_call streams calls = <[name := stream_config config name subjects]> streams).
  { unfold EnsureStream. cbn [st_info server_client].
    destruct (bool_decide (is_Some (streams !! name))) eqn:E; cbn [st_add st_update server_client stream_config s_Name];
      by rewrite E. }
  destruct (EnsureStream _ _ _ _) as [r calls]. cbv zeta. destruct H as [-> ->]. split; [done|]. split; [done|].
  unfold EnsureStream. cbn [st_info server_client]. rewrite lookup_insert_eq, bool_decide_true by by eexists.
  cbn [st_update server_client stream_config s_Name]. rewrite lookup_insert_eq, bool_decide_true by by eexists.
  split; [done|]. cbn [foldl server_call s_Name]. by rewrite insert_insert_eq.
Qed.

(** ** The connection *)

Definition reconnectWait : Z := 2 * second.
Definition reconnectJitter : Z := 500 * millisecond.
Definition jetStreamProbeTimeout : Z := 2 * second.

Inductive connect_option : Type :=
| MaxReconnects (n : Z)
| ReconnectWait (d : Z)
| ReconnectJitter (plain tls : Z).

(** A negative number of attempts is no limit. *)
Definition connect_options : list connect_option :=
  [MaxReconnects (-1); ReconnectWait reconnectWait; ReconnectJitter reconnectJitter reconnectJitter].

Inductive connect_error : Type :=
| ENatsConnect (e : string)
| EJetStreamInit (e : string).

Section Client.
(** The client's connections and its JetStream contexts. *)
Context {Conn JS : Type}.

Record Broker : Type := mkBroker { b_conn : Conn; b_js : JS; b_config : Config }.

Inductive client_call : Type :=
| NConnect (url : string) (opts : list connect_option)
| NJetStream (nc : Conn)
| NClose (nc : Conn)
| NDrain (nc : Conn).

(** [Connect], over what [nats.Connect] and [nc.JetStream] answer, with the calls it
    makes. *)
Definition Connect (dial : string -> list connect_option -> result string Conn)
    (jetstream : Conn -> result string JS) (url : string) (cfg : Config)
  : result connect_error Broker * list client_call :=
  match dial url connect_options with
  | Err e => (Err (ENatsConnect e), [NConnect url connect_options])
  | Ok nc =>
      match jetstream nc with
      | Err e => (Err (EJetStreamInit e), [NConnect url connect_options; NJetStream nc; NClose nc])
      | Ok js => (Ok (mkBroker nc js cfg), [NConnect url connect_options; NJetStream nc])
      end
  end.

Definition JetStream (b : Broker) : JS := b_js b.

(** [Close]: the call, and the error it logs; the connection is taken as closed
    either way. *)
Definition Close (drain : Conn -> option string) (b : Broker) : list client_call * option string :=
  ([NDrain (b_conn b)], drain (b_conn b)).

(** The calls open a connection they do not end, or end it: how many are left. *)
Definition left_open (calls : list client_call) (nc : Conn) : Prop :=
  exists i, calls !! i = Some (NJetStream nc) /\
    forall j, (i < j)%nat -> calls !! j <> Some (NClose nc) /\ calls !! j <> Some (NDrain nc).

(** A connection that is made is left open exactly when there is a broker to close
    it. *)
Lemma Connect_left_open dial jetstream url cfg nc :
  let '(r, calls) := Connect dial jetstream url cfg in
  left_open calls nc <-> exists b, r = Ok b /\ b_conn b = nc.
Proof.
  unfold Connect, left_open. destruct (dial url connect_options) as [c|e]; [destruct (jetstream c) as [js|e]|].
  - split.
    + intros (i & Hi & _). destruct i as [|[|[|i]]]; [discriminate Hi| |discriminate Hi..].
      injection Hi as <-. by eexists.
    + intros (b & [= <-] & <-). exists 1%nat. split; [done|]. intros [|[|[|j]]] Hj; [lia|lia|done|done].
  - split; [|by intros (b & ? & _)]. intros (i & Hi & H).
    destruct i as [|[|[|i]]]; [discriminate Hi| |discriminate Hi..]. injection Hi as <-.
    destruct (H 2%nat ltac:(lia)) as [Hc _]. by destruct Hc.
  - split; [|by intros (b & ? & _)]. intros (i & Hi & _). by destruct i as [|[|i]].
Qed.
End Client.

Arguments Broker : clear implicits.
Arguments client_call : clear implicits.

(** [nats.Status]. *)
Inductive conn_status : Type :=
| DISCONNECTED | CONNECTED | CLOSED | RECONNECTING | CONNECTING | DRAINING_SUBS | DRAINING_PUBS
| StatusUnknown.

#[export] Instance conn_status_eq_dec : EqDecision conn_status.
Proof. solve_decision. Defined.

Definition conn_status_name (s : conn_status) : string :=
  match s with
  | DISCONNECTED => "DISCONNECTED"
  | CONNECTED => "CONNECTED"
  | CLOSED => "CLOSED"
  | RECONNECTING => "RECONNECTING"
  | CONNECTING => "CONNECTING"
  | DRAINING_SUBS => "DRAINING_SUBS"
  | DRAINING_PUBS => "DRAINING_PUBS"
  | StatusUnknown => "unknown status"
  end.

Definition ConnReady (status : conn_status) : bool * string :=
  (bool_decide (status = CONNECTED), conn_status_name status).

(** [IsConnected] is the client's own answer; readiness is not that one, which also
    holds of a connection being drained. *)
Definition IsConnected {Conn JS} (connected : Conn -> bool) (b : Broker Conn JS) : bool := connected (b_conn b).

(** [account]: the error of [AccountInfo] within a time, if any. *)
Definition JetStreamAvailable (account : Z -> option string) : bool :=
  match account jetStreamProbeTimeout with None => true | Some _ => false end.

(** ** What is published *)

(** An event the broker can carry: JSON content in the payload, or bytes. *)
Definition publishable (event : StreamEvent) : bool :=
  if IsBinary event then negb (str_is_empty (se_Data event))
  else str_is_empty (raw_bytes (se_Payload event)) || json_valid (raw_bytes (se_Payload event)).

Lemma enc_payload_some p :
  is_Some (enc_payload p) <-> str_is_empty (raw_bytes p) || json_valid (raw_bytes p) = true.
Proof.
  unfold enc_payload, json_valid. destruct (str_is_empty (raw_bytes p)); simpl; [split; by eauto|].
  rewrite fmap_is_Some, bool_decide_eq_true. done.
Qed.

Lemma enc_event_some event :
  is_Some (enc_event event) <-> is_Some (enc_payload (se_Payload event)).
Proof. unfold enc_event. destruct (enc_payload _); simpl; split; intros [? ?]; by eauto. Qed.

Lemma encodeEvent_binary event :
  IsBinary event = true ->
  encodeEvent event = if str_is_empty (se_Data event) then Err (EEmptyData (se_Type event))
                      else Ok (se_Data event, se_ContentType event).
Proof.
  unfold IsBinary, encodeEvent. rewrite andb_true_iff, !negb_true_iff. intros [-> ->]. done.
Qed.

Lemma encodeEvent_json event :
  IsBinary event = false ->
  encodeEvent event = match print <$> enc_event event with
                      | None => Err EMarshalEvent
                      | Some data => Ok (data, ContentTypeJSON)
                      end.
Proof.
  unfold IsBinary, encodeEvent. rewrite andb_false_iff, !negb_false_iff.
  intros [->|H]; [done|]. destruct (str_is_empty (se_ContentType event)); [done|].
  rewrite H. apply bool_decide_eq_true in H. by rewrite H.
Qed.

(** An event is published exactly when it carries what its content type says:
    the message goes to the stream's topic, its type is always in the header, its
    sequence when there is one, and the body of a binary event is its data, byte
    for byte. *)
Theorem publish_carries_content answer topic event :
  (publishable event = false -> exists e, Publish answer topic event = Err e) /\
  (publishable event = true -> exists data,
     let msg := event_msg topic event data
                  (if IsBinary event then se_ContentType event else ContentTypeJSON) in
     Publish answer topic event = match answer msg with Some e => Err (EPublishMsg e) | None => Ok msg end /\
     msg_Subject msg = topic /\
     is_Some (msg_Header msg !! "Content-Type"%string) /\
     (msg_Header msg !! "X-Nephtys-Seq"%string = if 0 <? se_Seq event then Some (itoa (se_Seq event)) else None) /\
     (IsBinary event = true -> msg_Data msg = se_Data event)).
Proof.
  assert (Hhdr : forall data ct, ct <> EmptyString -> let msg := event_msg topic event data ct in
    msg_Subject msg = topic /\ is_Some (msg_Header msg !! "Content-Type"%string) /\
    (msg_Header msg !! "X-Nephtys-Seq"%string = if 0 <? se_Seq event then Some (itoa (se_Seq event)) else None)).
  { intros data ct Hct. unfold event_msg. simpl. destruct ct; [done|]. simpl. split; [done|].
    destruct (0 <? se_Seq event); rewrite ?lookup_insert_eq, ?lookup_insert_ne, ?lookup_insert_eq by done;
      (split; [by eexists|done]). }
  unfold publishable. destruct (IsBinary event) eqn:EB.
  - unfold Publish. rewrite encodeEvent_binary by done. destruct (str_is_empty (se_Data event)).
    + split; [by eexists|done].
    + split; [done|]. intros _. exists (se_Data event). split; [done|].
      assert (se_ContentType event <> EmptyString) as Hne by (unfold IsBinary in EB; by destruct (se_ContentType event)).
      destruct (Hhdr (se_Data event) (se_ContentType event) Hne) as (? & ? & ?). done.
  - unfold Publish. rewrite encodeEvent_json by done. rewrite <- not_true_iff_false.
    rewrite <- enc_payload_some, <- enc_event_some. split.
    + intros Hn. destruct (enc_event event); [by destruct Hn; eexists|]. by eexists.
    + intros [t ->]. exists (print t). split; [done|].
      destruct (Hhdr (print t) ContentTypeJSON ltac:(done)) as (? & ? & ?). done.
Qed.
