(* ===== verification/Replay.v ===== *)
(** * docs/replay/consumer.go: the replay consumer

    The program beside the documentation that reads published events back: where a
    replay starts, the loop that fetches, prints and acknowledges, the rendering of
    one message, and what of the broker's URL an error may show. *)

From Stdlib Require Import ZArith Lia Ascii.
From stdpp Require Import base tactics option strings gmap list.
From S2P Require Import Prelude GoLib GoTime GoDate GoDateText GoFloat GoUrl GoStrings.
From S2P Require Import GoJson GoJsonPrint GoJsonValue GoJsonString GoJsonSound GoJsonText.
From S2P Require Import GoJsonStruct Domain Broker.

#[local] Open Scope Z_scope.

(** ** Where a replay starts *)

(** A delivery policy of the NATS client. *)
Inductive delivery : Type :=
| DeliverAll | DeliverNew | DeliverLast | DeliverLastPerSubject
| StartSequence (seq : Z)
| StartTime (t : Z).

Inductive start_error : Type :=
| EZeroSequence
| ENegativeDuration (from : string)
| EUnknownStart (from : string).

(** [strconv.ParseUint(s, 10, 64)]. *)
Definition parse_uint (s : string) : option Z :=
  if str_is_empty s then None else n ← parse_digits 0 s; if n <? 2 ^ 64 then Some n else None.

Definition startOption (now : Z) (from : string) : result start_error delivery :=
  let word := to_lower (trim_space from) in
  if str_eqb word "all" || str_is_empty word then Ok DeliverAll
  else if str_eqb word "new" then Ok DeliverNew
  else if str_eqb word "last" then Ok DeliverLast
  else if str_eqb word "last-per-subject" then Ok DeliverLastPerSubject
  else match parse_uint from with
       | Some seq => if seq =? 0 then Err EZeroSequence else Ok (StartSequence seq)
       | None =>
           match parse_duration from with
           | Some d => if d <? 0 then Err (ENegativeDuration from) else Ok (StartTime (now - d))
           | None =>
               match parse_rfc3339 from with
               | Some t => Ok (StartTime t)
               | None => Err (EUnknownStart from)
               end
           end
       end.

Example start_ok : startOption 1000000000 <$>
    ["all"; " ALL "; ""; "Last-Per-Subject"; "4210"; "0"; "1s"; "-1s"; "1970-01-01T00:00:01Z"; " 5"; "2 hours"]%string
  = [Ok DeliverAll; Ok DeliverAll; Ok DeliverAll; Ok DeliverLastPerSubject; Ok (StartSequence 4210);
     Err EZeroSequence; Ok (StartTime 0); Err (ENegativeDuration "-1s"); Ok (StartTime 1000000000);
     Err (EUnknownStart " 5"); Err (EUnknownStart "2 hours")]%string.
Proof. vm_compute. reflexivity. Qed.

(** ** Messages *)

(** A received message; [jm_meta] is its stream sequence and timestamp, which a
    message from outside the stream does not have. *)
Record jmsg : Type := mkJmsg {
  jm_Subject : string; jm_Data : string; jm_Header : gmap string string; jm_meta : option (Z * Z)
}.

Record event : Type := mkReplayed {
  ev_Source : string; ev_Type : string; ev_Timestamp : Z; ev_Seq : Z; ev_ContentType : string;
  ev_Payload : string
}.

Definition zero_event : event := mkReplayed EmptyString EmptyString 0 0 EmptyString EmptyString.

(** The fields [json.Unmarshal] stores; a [RawMessage] is the text of its value. *)
Definition event_fields (text : string) : list (field event) :=
  [("source", setter ev_Source (fun v e => mkReplayed v (ev_Type e) (ev_Timestamp e) (ev_Seq e) (ev_ContentType e) (ev_Payload e)) dec_string);
   ("type", setter ev_Type (fun v e => mkReplayed (ev_Source e) v (ev_Timestamp e) (ev_Seq e) (ev_ContentType e) (ev_Payload e)) dec_string);
   ("timestamp", setter ev_Timestamp (fun v e => mkReplayed (ev_Source e) (ev_Type e) v (ev_Seq e) (ev_ContentType e) (ev_Payload e)) dec_int);
   ("seq", setter ev_Seq (fun v e => mkReplayed (ev_Source e) (ev_Type e) (ev_Timestamp e) v (ev_ContentType e) (ev_Payload e)) dec_int);
   ("content_type", setter ev_ContentType (fun v e => mkReplayed (ev_Source e) (ev_Type e) (ev_Timestamp e) (ev_Seq e) v (ev_Payload e)) dec_string);
   ("payload", setter ev_Payload (fun v e => mkReplayed (ev_Source e) (ev_Type e) (ev_Timestamp e) (ev_Seq e) (ev_ContentType e) v) (fun _ _ => Some text))]%string.

(** A value inside a top-level object: its tree, its text and what follows. *)
Definition scan_text (s : string) : option (jtree * string * string) :=
  let v0 := skip_ws s in
  '(v, s3) ← scan_value (json_fuel v0) 1 v0;
  Some (v, str_take (String.length v0 - String.length s3) v0, s3).

(** The members of a top-level object, each with the text of its value. *)
Fixpoint scan_texts (fuel : nat) (s : string) : option (list (string * jtree * string)) :=
  match fuel with
  | O => None
  | S f =>
      match skip_ws s with
      | String _ s0 =>
          '(k, s1) ← scan_string s0;
          match skip_ws s1 with
          | String _ s2 =>
              '(v, text, s3) ← scan_text s2;
              match skip_ws s3 with
              | String c r =>
                  if bool_decide (c = ","%char) then ms ← scan_texts f r; Some ((k, v, text) :: ms)
                  else Some [(k, v, text)]
              | EmptyString => None
              end
          | EmptyString => None
          end
      | EmptyString => None
      end
  end.

Definition dec_event_member (acc : option event) (m : string * jtree * string) : option event :=
  dec_member false (event_fields m.2) acc m.1.

(** [json.Unmarshal(data, &ev)]. *)
Definition decode_event (data : string) : option event :=
  match parse_json data with
  | Some TNull => Some zero_event
  | Some (TObj []) => Some zero_event
  | Some (TObj _) =>
      match skip_ws data with
      | String _ s => ms ← scan_texts (String.length s) s; foldl dec_event_member (Some zero_event) ms
      | EmptyString => None
      end
  | _ => None
  end.

Definition payloadPreview : nat := 160.

Definition rune_start (c : ascii) : bool := negb (Z.land (byte_val c) 192 =? 128).

(** The cut backs up to the start of a rune. *)
Fixpoint back_up (cut : nat) (s : string) : nat :=
  match cut with
  | O => O
  | S cut' => match String.get cut s with
              | Some c => if rune_start c then cut else back_up cut' s
              | None => back_up cut' s
              end
  end.

Definition ellipsis : string := String (byte_of 226) (String (byte_of 128) (String (byte_of 166) EmptyString)).

Definition preview (b : string) : string :=
  let s := trim_space b in
  if (String.length s <=? payloadPreview)%nat then s
  else (str_take (back_up payloadPreview s) s +:+ ellipsis)%string.

Inductive line : Type :=
| LForeign (subject preview : string)
| LBinary (seq ts : Z) (subject contentType : string) (bytes : Z) (nephtysSeq : string)
| LUnparsed (seq ts : Z) (subject preview : string)
| LEvent (seq ts : Z) (subject source type : string) (evSeq : Z) (preview : string).

Definition tab : string := String (byte_of 9) EmptyString.

(** The line that is printed. *)
Definition line_text (l : line) : string :=
  let prefix seq ts subject := (itoa seq +:+ tab +:+ format_rfc3339nano ts +:+ tab +:+ subject)%string in
  match l with
  | LForeign subject preview => "?" +:+ tab +:+ subject +:+ tab +:+ preview
  | LBinary seq ts subject contentType bytes nephtysSeq =>
      prefix seq ts subject +:+ tab +:+ contentType +:+ tab +:+ itoa bytes +:+ " bytes" +:+ tab +:+ "X-Nephtys-Seq=" +:+ nephtysSeq
  | LUnparsed seq ts subject preview => prefix seq ts subject +:+ tab +:+ "unparsed" +:+ tab +:+ preview
  | LEvent seq ts subject source type evSeq preview =>
      prefix seq ts subject +:+ tab +:+ "source=" +:+ source +:+ tab +:+ "type=" +:+ type +:+ tab +:+ "seq=" +:+ itoa evSeq
      +:+ tab +:+ preview
  end%string.

Definition header_get (k : string) (h : gmap string string) : string := default EmptyString (h !! k).

Definition printMessage (msg : jmsg) : line :=
  match jm_meta msg with
  | None => LForeign (jm_Subject msg) (preview (jm_Data msg))
  | Some (seq, ts) =>
      let contentType := header_get "Content-Type" (jm_Header msg) in
      if negb (str_is_empty contentType) && negb (str_eqb contentType ContentTypeJSON) then
        LBinary seq ts (jm_Subject msg) contentType (str_length (jm_Data msg))
          (header_get "X-Nephtys-Seq" (jm_Header msg))
      else match decode_event (jm_Data msg) with
           | None => LUnparsed seq ts (jm_Subject msg) (preview (jm_Data msg))
           | Some ev => LEvent seq ts (jm_Subject msg) (ev_Source ev) (ev_Type ev) (ev_Seq ev)
                          (preview (ev_Payload ev))
           end
  end.

Example print_event : printMessage (mkJmsg "s" (js "{'source':'a', 'seq':7,'x':[1], 'payload': { 'k': 1 } }") ∅ (Some (3, 9)))
  = LEvent 3 9 "s" "a" "" 7 (js "{ 'k': 1 }").
Proof. vm_compute. reflexivity. Qed.

(** ** The broker's URL in an error *)

Definition contains_sub (p s : string) : bool :=
  match find_sub p s with Some _ => true | None => false end.

Definition redactURL (raw : string) : option string :=
  let raw := if contains_sub "://" raw then raw else ("nats://" +:+ raw)%string in
  match url_parse raw with
  | None => None
  | Some parsed =>
      if str_is_empty (u_Host parsed) then None
      else Some (url_string (mkURL (u_Scheme parsed) (u_Opaque parsed) None (u_Host parsed) (u_Path parsed)
                   (u_RawPath parsed) (u_OmitHost parsed) (u_ForceQuery parsed) EmptyString EmptyString (u_RawFragment parsed)))
  end.

Definition envOr (value fallback : string) : string := if str_is_empty value then fallback else value.

(** ** The loop *)

Inductive fetch_error : Type :=
| FCanceled            (* context.Canceled *)
| FDeadlineExceeded    (* context.DeadlineExceeded *)
| FTimeout             (* nats.ErrTimeout *)
| FOther (e : string).

Definition quiet (err : fetch_error) : bool :=
  match err with FDeadlineExceeded | FTimeout => true | _ => false end.

(** One round trip: what [sub.Fetch] answers when asked for so many messages, and
    whether the parent context was cancelled by then. *)
Record round : Type := mkRound {
  r_fetch : Z -> result fetch_error (list jmsg);
  r_cancelled : bool
}.

Definition fetch (r : round) (want idle : Z) : result fetch_error (list jmsg) :=
  if idle <=? 0 then r_fetch r want
  else match r_fetch r want with
       | Ok msgs => Ok msgs
       | Err e => Err (if r_cancelled r then FCanceled else e)
       end.

Inductive effect : Type :=
| EDial (server : string)
| EPullSubscribe (subject durable stream : string) (start : delivery)
| ESummary (seen : Z)
| EFlush (timeout : Z)
| EWarnFlush (e : string)                (* "final acknowledgements may not have reached the broker" *)
| EClose
| EFetch (want : Z) (got : result fetch_error (list jmsg))
| EPrint (msg : jmsg)
| EAck (msg : jmsg).

Inductive replay_error : Type :=
| EStart (e : start_error)
| EBrokerURL
| EConnect (broker e : string)
| EJetStream (e : string)
| ESubscribe (subject stream e : string)
| EReceive (e : fetch_error)
| EAckFailed (e : string).

Definition fetchBatch : Z := 64.

Definition want_of (count seen : Z) : Z :=
  if (0 <? count) && (count - seen <? fetchBatch) then count - seen else fetchBatch.

Section Run.
(** [msg.Ack()], and the flags of the loop. *)
Variable ack : jmsg -> option string.
Variables count idle : Z.

(** The messages of one batch: each is printed, counted and acknowledged. *)
Fixpoint consume (msgs : list jmsg) (seen : Z) (out : list effect) : result string unit * Z * list effect :=
  match msgs with
  | [] => (Ok tt, seen, out)
  | msg :: msgs' =>
      let out := out ++ [EPrint msg] in
      match ack msg with
      | Some e => (Err e, seen + 1, out)
      | None => consume msgs' (seen + 1) (out ++ [EAck msg])
      end
  end.

(** Runs the loop on the round trips it is given; [None] when it would go on. *)
Fixpoint replay_loop (rounds : list round) (seen : Z) (out : list effect)
  : option (result replay_error Z * list effect) :=
  if negb ((count =? 0) || (seen <? count)) then Some (Ok seen, out)
  else match rounds with
       | [] => None
       | r :: rounds' =>
           let want := want_of count seen in
           let got := fetch r want idle in
           let out := out ++ [EFetch want got] in
           match got with
           | Err FCanceled => Some (Ok seen, out)
           | Err e =>
               if quiet e then
                 if idle <=? 0 then replay_loop rounds' seen out else Some (Ok seen, out)
               else Some (Err (EReceive e), out)
           | Ok msgs =>
               match consume msgs seen out with
               | (Err e, seen, out) => Some (Err (EAckFailed e), out)
               | (Ok _, seen, out) => replay_loop rounds' seen out
               end
           end
       end.
End Run.

Definition flushTimeout : Z := 5 * second.

(** The deferred calls, in the order they run: [Ack] leaves an acknowledgement in the
    client's buffer, and a flush that fails, which is a warning on the standard error,
    means that the last of them may not have reached the broker. *)
Definition finish (flush : option string) : list effect :=
  EFlush flushTimeout :: match flush with Some e => [EWarnFlush e] | None => [] end ++ [EClose].

(** [run]: the answers of the client's calls are arguments.  Whatever the flush answers,
    the result stands; the connection is closed, and the subscription neither drained
    nor removed. *)
Definition run (server stream subject from durable : string) (count idle now : Z)
    (connect : string -> option string) (jetstream : option string)
    (subscribe : string -> string -> string -> delivery -> option string)
    (ack : jmsg -> option string) (flush : option string) (rounds : list round) : option (result replay_error Z * list effect) :=
  match startOption now from with
  | Err e => Some (Err (EStart e), [])
  | Ok start =>
      match redactURL server with
      | None => Some (Err EBrokerURL, [])
      | Some broker =>
          match connect server with
          | Some e => Some (Err (EConnect broker e), [EDial server])
          | None =>
              match jetstream with
              | Some e => Some (Err (EJetStream e), [EDial server; EClose])
              | None =>
                  let out := [EDial server; EPullSubscribe subject durable stream start] in
                  match subscribe subject durable stream start with
                  | Some e => Some (Err (ESubscribe subject stream e), out ++ [EClose])
                  | None =>
                      '(r, out) ← replay_loop ack count idle rounds 0 out;
                      Some (r, out ++ (match r with Ok seen => [ESummary seen] | Err _ => [] end)
                                 ++ finish flush)
                  end
              end
          end
      end
  end.

(** The command line: a flag that is not given has its default. *)
Record flags : Type := mkFlags {
  f_server : option string; f_stream : option string; f_subject : option string; f_from : option string;
  f_durable : option string; f_count : option Z; f_idle : option Z
}.

(** [main]: the exit code, once the replay has ended; [DefaultURL] is the client's. *)
Definition main (DefaultURL : string) (getenv : string -> string) (f : flags) (now : Z)
    (connect : string -> option string) (jetstream : option string)
    (subscribe : string -> string -> string -> delivery -> option string)
    (ack : jmsg -> option string) (flush : option string) (rounds : list round) : option (Z * list effect) :=
  '(r, out) ← run (default (envOr (getenv "NATS_URL"%string) DefaultURL) (f_server f))
                (default "NEPHTYS"%string (f_stream f)) (default "nephtys.stream.>"%string (f_subject f))
                (default "all"%string (f_from f)) (default EmptyString (f_durable f)) (default 0 (f_count f))
                (default (5 * second) (f_idle f)) now connect jetstream subscribe ack flush rounds;
  Some (match r with Ok _ => 0 | Err _ => 1 end, out).

(** ** What a replay does *)

Definition printed (out : list effect) : list jmsg :=
  omap (fun e => match e with EPrint m => Some m | _ => None end) out.
Definition acked (out : list effect) : list jmsg :=
  omap (fun e => match e with EAck m => Some m | _ => None end) out.
Definition wanted (out : list effect) : list Z :=
  omap (fun e => match e with EFetch w _ => Some w | _ => None end) out.
Definition received (out : list effect) : list jmsg :=
  concat (omap (fun e => match e with EFetch _ (Ok msgs) => Some msgs | _ => None end) out).

(** What is done to messages, in order, and the order that is wanted: each is printed,
    then acknowledged. *)
Definition marks (out : list effect) : list (jmsg * bool) :=
  omap (fun e => match e with EPrint m => Some (m, false) | EAck m => Some (m, true) | _ => None end) out.
Definition paired (msgs : list jmsg) : list (jmsg * bool) := m ← msgs; [(m, false); (m, true)].

Lemma paired_snoc msgs m : paired (msgs ++ [m]) = (paired msgs ++ [(m, false)]) ++ [(m, true)].
Proof. unfold paired. by rewrite bind_app, <- app_assoc. Qed.

(** The client's promise: no more messages than were asked for. *)
Definition fetch_bounded (r : round) : Prop :=
  forall want msgs, 0 < want -> r_fetch r want = Ok msgs -> Z.of_nat (length msgs) <= want.

(** The views of a longer trace. *)
Lemma view_app {B} (f : effect -> option B) out e :
  omap f (out ++ [e]) = omap f out ++ match f e with Some b => [b] | None => [] end.
Proof. rewrite omap_app. simpl. by destruct (f e). Qed.

Lemma received_app out e :
  received (out ++ [e]) = received out ++ match e with EFetch _ (Ok msgs) => msgs | _ => [] end.
Proof.
  unfold received. rewrite view_app, concat_app. destruct e as [| | | | | |w [msgs|e]| |]; simpl; by rewrite ?app_nil_r.
Qed.

Ltac views := unfold printed, acked, marks, wanted in *; repeat (rewrite ?view_app, ?received_app in *; simpl in *);
  rewrite ?app_nil_r in *.

(** What holds between two rounds: as many messages have been seen as were
    printed, those are the ones received, each was acknowledged in that order, and
    no request was empty, oversized or past the limit. *)
Record trace_ok (count seen : Z) (out : list effect) : Prop := {
  tr_seen : seen = Z.of_nat (length (printed out));
  tr_acked : acked out = printed out;
  tr_marks : marks out = paired (printed out);
  tr_received : received out = printed out;
  tr_wanted : Forall (fun w => 0 < w <= fetchBatch) (wanted out);
  tr_limit : 0 < count -> seen <= count
}.

Lemma consume_spec ack msgs : forall seen out r seen' out',
  acked out = printed out -> marks out = paired (printed out) -> seen = Z.of_nat (length (printed out)) ->
  consume ack msgs seen out = (r, seen', out') ->
  wanted out' = wanted out /\ received out' = received out /\
  seen' = Z.of_nat (length (printed out')) /\
  match r with
  | Ok _ => acked out' = printed out' /\ marks out' = paired (printed out') /\ printed out' = printed out ++ msgs
  | Err e => exists m rest, printed out' = acked out' ++ [m] /\ marks out' = paired (acked out') ++ [(m, false)] /\
               ack m = Some e /\ printed out ++ msgs = printed out' ++ rest
  end.
Proof.
  induction msgs as [|m msgs IH]; intros seen out r seen' out' Ha Hp Hs H; simpl in H.
  - simplify_eq. by rewrite app_nil_r.
  - destruct (ack m) as [e|] eqn:E.
    + simplify_eq. views. rewrite length_app. simpl. split_and!; [done..|lia|].
      exists m, msgs. rewrite Ha, Hp, <- app_assoc. done.
    + apply IH in H; [|views; by rewrite Ha|views; by rewrite Hp, paired_snoc|views; rewrite length_app; simpl; lia].
      destruct H as (H1 & H2 & H3 & H4). destruct r as [|e].
      * destruct H4 as (H4 & H5 & H6). views. by rewrite <- app_assoc in H6.
      * destruct H4 as (m' & rest & H4 & H5 & H6 & H7). views. rewrite <- app_assoc in H7.
        split_and!; [done..|]. by exists m', rest.
Qed.

(** How a replay may end, given what it printed and acknowledged. *)
Definition ends_well (ack : jmsg -> option string) (r : result replay_error Z) (out : list effect) : Prop :=
  match r with
  | Ok n => n = Z.of_nat (length (printed out)) /\ marks out = paired (printed out) /\ acked out = printed out /\
            received out = printed out
  | Err (EAckFailed e) => exists m rest, printed out = acked out ++ [m] /\
                            marks out = paired (acked out) ++ [(m, false)] /\ ack m = Some e /\
                            received out = printed out ++ rest
  | Err _ => marks out = paired (printed out) /\ acked out = printed out /\ received out = printed out
  end.

Lemma want_of_bounds count seen : (count =? 0) || (seen <? count) = true ->
  0 < want_of count seen <= fetchBatch /\ (0 < count -> seen + want_of count seen <= count).
Proof.
  intros H. unfold want_of, fetchBatch. destruct (Z.ltb_spec 0 count), (Z.ltb_spec (count - seen) 64); simpl; lia.
Qed.

Lemma trace_ok_quiet count seen out want e :
  trace_ok count seen out -> 0 < want <= fetchBatch -> trace_ok count seen (out ++ [EFetch want (Err e)]).
Proof.
  intros [H1 H2 Hm H3 H4 H5] Hw. split; views; auto. apply Forall_app. split; [done|by apply Forall_singleton].
Qed.

Lemma replay_loop_spec ack count idle rounds : Forall fetch_bounded rounds ->
  forall seen out r out', trace_ok count seen out ->
  replay_loop ack count idle rounds seen out = Some (r, out') ->
  ends_well ack r out' /\ Forall (fun w => 0 < w <= fetchBatch) (wanted out') /\
  (0 < count -> Z.of_nat (length (printed out')) <= count).
Proof.
  induction 1 as [|rd rounds Hb Hrs IH]; intros seen out r out' Ht H; cbn [replay_loop] in H.
  all: destruct (negb _) eqn:Eg; [destruct Ht; simplify_eq; repeat split; auto; congruence|]; try done.
  apply negb_false_iff, want_of_bounds in Eg as [Hw Hlim]. set (want := want_of count seen) in *.
  destruct (fetch rd want idle) as [msgs|e] eqn:Ef.
  - assert (Hlen : Z.of_nat (length msgs) <= want).
    { unfold fetch in Ef. destruct (idle <=? 0); [apply Hb; [lia|done]|].
      destruct (r_fetch rd want) eqn:Er; simplify_eq. apply Hb; [lia|done]. }
    destruct (consume ack msgs seen _) as [[cr seen1] out1] eqn:Ec.
    pose proof Ht as [H1 H2 Hm H3 H4 H5].
    apply consume_spec in Ec; [|views; done..]. views. destruct Ec as (E1 & E2 & E3 & E4).
    assert (Hw1 : Forall (fun w => 0 < w <= fetchBatch) (wanted out1)).
    { unfold wanted. rewrite E1. apply Forall_app. split; [done|by apply Forall_singleton]. }
    destruct cr as [u|e].
    + destruct E4 as (E4 & E4' & E5). eapply (IH seen1 out1); [|exact H]. split; auto.
      * views. by rewrite E2, H3, E5.
      * intros Hc. rewrite E3, E5, length_app. specialize (Hlim Hc). lia.
    + destruct E4 as (m & rest & E4 & E4' & E5 & E6). simplify_eq. split; [|split; [done|]].
      * exists m, rest. split_and!; [done..|]. views. by rewrite E2, H3, E6.
      * intros Hc. specialize (Hlim Hc). views. apply (f_equal length) in E6.
        rewrite !length_app in E6. lia.
  - pose proof (trace_ok_quiet count seen out want e Ht Hw) as Ht'.
    assert (Hend : forall r', ends_well ack r' (out ++ [EFetch want (Err e)]) -> Some (r', out ++ [EFetch want (Err e)]) = Some (r, out') ->
      ends_well ack r out' /\ Forall (fun w => 0 < w <= fetchBatch) (wanted out') /\
      (0 < count -> Z.of_nat (length (printed out')) <= count)).
    { intros r' Hr' [= <- <-]. destruct Ht' as [T1 T2 T2' T3 T4 T5]. rewrite <- T1. auto. }
    destruct Ht' as [T1 T2 T2' T3 T4 T5] eqn:ET. clear ET.
    destruct e; simpl in H; try (destruct (idle <=? 0)); try (eapply Hend; [|exact H]; simpl; auto; fail);
      (eapply IH; [exact Ht'|exact H]).
Qed.

(** Effects that are no part of the loop's work leave its views as they are. *)
Definition outside (e : effect) : bool :=
  match e with EPrint _ | EAck _ | EFetch _ _ => false | _ => true end.

Lemma outside_views out more : Forall (fun e => outside e = true) more ->
  printed (out ++ more) = printed out /\ acked (out ++ more) = acked out /\ marks (out ++ more) = marks out /\
  wanted (out ++ more) = wanted out /\ received (out ++ more) = received out.
Proof.
  intros H. induction more as [|e more IH] using rev_ind; [by rewrite app_nil_r|].
  apply Forall_app in H as [H He]. apply Forall_cons in He as [He _].
  rewrite app_assoc. unfold printed, acked, marks, wanted. rewrite !view_app, received_app.
  destruct e; try discriminate He; cbn; rewrite !app_nil_r; exact (IH H).
Qed.

Lemma outside_ends ack r out more : Forall (fun e => outside e = true) more ->
  ends_well ack r out -> ends_well ack r (out ++ more).
Proof.
  intros H. unfold ends_well. destruct (outside_views out more H) as (-> & -> & -> & _ & ->). done.
Qed.

(** (C31) Whatever the broker delivers and however the replay ends, what is printed is
    what was received, in order and once each, or, when an acknowledgement fails, a
    first part of it; each event printed was acknowledged, that is handed to the
    client's buffer, before the next was printed, so that at the end at most the last
    one printed, the one whose acknowledgement failed, has not been; a limit is never
    passed and every request asks for at least one event and at most a batch; and once
    a request has been made, whatever else fails, the acknowledgements are flushed and
    the connection is then closed, which is the last thing done.  When the flush fails
    they may not have reached the broker; a warning says so, and neither what was
    printed nor the result is affected. *)
Theorem replay_acknowledges_what_it_prints server stream subject from durable count idle now connect jetstream
    subscribe ack flush rounds r out :
  Forall fetch_bounded rounds ->
  run server stream subject from durable count idle now connect jetstream subscribe ack flush rounds = Some (r, out) ->
  ends_well ack r out /\ Forall (fun w => 0 < w <= fetchBatch) (wanted out) /\
  (0 < count -> Z.of_nat (length (printed out)) <= count) /\
  (wanted out <> [] -> exists before, out = before ++ finish flush /\
     forall flush', run server stream subject from durable count idle now connect jetstream subscribe ack flush' rounds
                    = Some (r, before ++ finish flush')).
Proof.
  intros Hb H. unfold run in H |- *.
  assert (Hearly : forall e o (P : Prop), (forall x, e <> EAckFailed x) -> Forall (fun e => outside e = true) o ->
    ends_well ack (Err e) o /\ Forall (fun w => 0 < w <= fetchBatch) (wanted o) /\
    (0 < count -> Z.of_nat (length (printed o)) <= count) /\ (wanted o <> [] -> P)).
  { intros e o P He Ho. destruct (outside_views [] o Ho) as (E1 & E2 & E2' & E3 & E4). simpl in *.
    change (received []) with (@nil jmsg) in E4.
    rewrite E1, E3. split_and!; [|done|simpl; lia|done].
    destruct e; simpl; rewrite ?E1, ?E2, ?E2', ?E4; try done. by destruct (He e). }
  destruct (startOption now from) as [start|]; [|simplify_eq; apply Hearly; [done|constructor]].
  destruct (redactURL server); [|simplify_eq; apply Hearly; [done|constructor]].
  destruct (connect server); [simplify_eq; apply Hearly; [done|by repeat constructor]|].
  destruct jetstream; [simplify_eq; apply Hearly; [done|by repeat constructor]|].
  destruct (subscribe _ _ _ _); [simplify_eq; apply Hearly; [done|by repeat constructor]|].
  apply bind_Some in H as ([r1 out1] & Hl & H). injection H as <- <-.
  set (more := match r1 with Ok seen => [ESummary seen] | Err _ => [] end).
  assert (Ho : Forall (fun e => outside e = true) (more ++ finish flush))
    by (unfold more, finish; destruct r1, flush; by repeat constructor).
  assert (Ht : trace_ok count 0 [EDial server; EPullSubscribe subject durable stream start])
    by (split; [done..|by apply Forall_nil|lia]).
  destruct (replay_loop_spec ack count idle rounds Hb 0 _ r1 out1 Ht Hl) as (H1 & H2 & H3).
  destruct (outside_views out1 _ Ho) as (E1 & _ & _ & E3 & _). rewrite E1, E3.
  split_and!; [by apply outside_ends|done|done|]. intros _.
  exists (out1 ++ more). split; [by rewrite app_assoc|]. intros flush'. rewrite Hl. simpl. unfold more. by rewrite app_assoc.
Qed.

(** ** Following and backfilling *)

Definition quiet_round (r : round) : Prop :=
  r_cancelled r = false /\ forall want, exists e, r_fetch r want = Err e /\ quiet e = true.

Lemma quiet_fetch r want idle : quiet_round r -> exists e, fetch r want idle = Err e /\ quiet e = true.
Proof.
  intros [Hc Hq]. destruct (Hq want) as (e & He & Hqe). exists e. unfold fetch. rewrite He, Hc.
  by destruct (idle <=? 0).
Qed.

(** A consumer that follows the stream outlasts any number of quiet intervals; one
    that backfills stops at the first, with no error. *)
Lemma quiet_follow ack count idle rounds seen out :
  idle <= 0 -> (count = 0 \/ seen < count) -> Forall quiet_round rounds ->
  replay_loop ack count idle rounds seen out = None.
Proof.
  intros Hi Hc H. revert out. induction H as [|r rounds Hr Hrs IH]; intros out; cbn [replay_loop].
  all: assert ((count =? 0) || (seen <? count) = true) as -> by (apply orb_true_iff; rewrite Z.eqb_eq, Z.ltb_lt; lia).
  - done.
  - destruct (quiet_fetch r (want_of count seen) idle Hr) as (e & -> & He).
    rewrite (proj2 (Z.leb_le idle 0) Hi). destruct e; try done; apply IH.
Qed.

Lemma quiet_backfill ack count idle r rounds seen out :
  0 < idle -> (count = 0 \/ seen < count) -> quiet_round r ->
  exists out', replay_loop ack count idle (r :: rounds) seen out = Some (Ok seen, out').
Proof.
  intros Hi Hc Hr. cbn [replay_loop].
  assert ((count =? 0) || (seen <? count) = true) as -> by (apply orb_true_iff; rewrite Z.eqb_eq, Z.ltb_lt; lia).
  destruct (quiet_fetch r (want_of count seen) idle Hr) as (e & -> & He).
  rewrite (proj2 (Z.leb_gt idle 0)) by lia. destruct e; try done; by eexists.
Qed.

(** ** What was published is what is replayed *)

Lemma print_member_app k v tail : (print_member (k, v) +:+ tail =
  String quote_char (k +:+ String quote_char (String ":" (print v +:+ tail))))%string.
Proof.
  unfold print_member, quoted. simpl. autorewrite with gostr. rewrite !str_app_assoc.
  autorewrite with gostr. done.
Qed.

Lemma scan_text_print v tail : tree_ok v = true -> 1 + nesting v <= maxNestingDepth ->
  ends_number tail = true -> scan_text (print v +:+ tail)%string = Some (v, print v, tail).
Proof.
  intros Hv Hn Ht. unfold scan_text. destruct (print_start v Hv) as (c0 & s0 & Hp & Hc0).
  apply value_start_ws in Hc0 as [Hws _]. rewrite Hp, str_app_cons, skip_ws_start by done.
  rewrite <- str_app_cons, <- Hp. cbv zeta.
  rewrite (scan_print v Hv _ 1 tail); [|unfold json_fuel; rewrite string_length_app; lia|lia|done].
  cbn [mbind option_bind]. rewrite string_length_app.
  replace (String.length (print v) + String.length tail - String.length tail)%nat with (String.length (print v)) by lia.
  by rewrite str_take_app.
Qed.

Lemma scan_texts_print ms : forall fuel rest, (length ms <= fuel)%nat -> ms <> [] ->
  Forall (fun kv => raw_ok kv.1 = true /\ fits 1 kv.2) ms ->
  scan_texts fuel (join "," (print_member <$> ms) +:+ String "}" rest)%string
  = Some ((fun kv => (kv, print kv.2)) <$> ms).
Proof.
  induction ms as [|[k v] ms IH]; intros fuel rest Hf Hne Hok; [done|].
  apply Forall_cons in Hok as [[Hk Hv] Hok]. simpl in Hk, Hv. destruct Hv as [Hv Hn].
  destruct fuel as [|f]; [simpl in Hf; lia|]. cbn [scan_texts]. destruct ms as [|m2 ms].
  - change (join "," (print_member <$> [(k, v)])) with (print_member (k, v)). rewrite print_member_app.
    rewrite skip_ws_start by done. rewrite scan_quoted by done. cbn [mbind option_bind].
    rewrite skip_ws_start by done. rewrite scan_text_print by (lia || done). cbn [mbind option_bind].
    rewrite skip_ws_start by done. rewrite bool_decide_false by done. reflexivity.
  - rewrite join_cons2, str_app_assoc, str_app_cons, print_member_app.
    rewrite skip_ws_start by done. rewrite scan_quoted by done. cbn [mbind option_bind].
    rewrite skip_ws_start by done. rewrite scan_text_print by (lia || done). cbn [mbind option_bind].
    rewrite skip_ws_start by done. rewrite bool_decide_true by done.
    rewrite IH; [done|simpl in *; lia|done|done].
Qed.

Definition dec_texts (ms : list (string * jtree)) (e : event) : option event :=
  foldl dec_event_member (Some e) ((fun kv => (kv, print kv.2)) <$> ms).

Lemma decode_event_print ms : ms <> [] -> Forall (fun kv => raw_ok kv.1 = true /\ fits 1 kv.2) ms ->
  decode_event (print (TObj ms)) = dec_texts ms zero_event.
Proof.
  intros Hne Hok.
  assert (Hfit : fits 0 (TObj ms)) by (apply fits_obj; [done|exact Hok]).
  destruct Hfit as [Ht Hn]. unfold decode_event. rewrite parse_print by (done || lia).
  destruct ms as [|m ms]; [done|]. set (l := m :: ms) in *.
  change (print (TObj l)) with (String "{" (join "," (print_member <$> l) +:+ "}"))%string.
  rewrite skip_ws_start by done. rewrite scan_texts_print; [done| |done|done].
  rewrite string_length_app. assert (Hlen : forall ks, (length ks <= S (String.length (join "," (print_member <$> ks))))%nat).
  { clear. induction ks as [|[k v] [|k2 ks] IH]; [simpl; lia..|]. rewrite join_cons2, string_length_app.
    cbn [length String.length] in *. lia. }
  specialize (Hlen l). cbn [String.length] in *. lia.
Qed.

Lemma event_field {B} (get : event -> B) set dec name empty t v e e' ms r :
  find_field (event_fields (print t)) (unquote name) = Some (name, setter get set dec) ->
  dec t (get e) = Some v -> set v e = e' -> (empty = true -> e' = e) ->
  dec_texts ms e' = r -> dec_texts (unless_empty empty name t ++ ms) e = r.
Proof.
  intros Hf Hd <- He <-. unfold unless_empty. destruct empty; [by rewrite He|].
  unfold dec_texts. simpl. unfold dec_event_member at 2. simpl. rewrite Hf. simpl. unfold setter. by rewrite Hd.
Qed.

(** An event whose strings JSON can hold and whose payload the consumer's parser
    does not find too deep inside the envelope. *)
Definition replayable (e : StreamEvent) : Prop :=
  utf8_valid (se_Source e) && utf8_valid (se_Type e) && utf8_valid (se_ContentType e) = true /\
  in_int64 (se_Timestamp e) && in_int64 (se_Seq e) = true /\
  (forall t, parse_json (raw_bytes (se_Payload e)) = Some t -> nesting t < maxNestingDepth).

(** The payload as it travels: compact, or nothing. *)
Definition sent_payload (p : RawMessage) : string :=
  match parse_json (raw_bytes p) with Some t => print_json html_escape t | None => EmptyString end.

Lemma decode_enc_event e t : replayable e -> enc_event e = Some t ->
  decode_event (print t) =
  Some (mkReplayed (se_Source e) (se_Type e) (se_Timestamp e) (se_Seq e) (se_ContentType e)
          (sent_payload (se_Payload e))).
Proof.
  intros (Hs & Hi & Hp) H. valid_hyps Hs. valid_hyps Hi.
  destruct e as [src ty ts seq ct p data]. unfold enc_event in H.
  cbn [se_Source se_Type se_Timestamp se_Seq se_ContentType se_Payload se_Data] in *.
  apply bind_Some in H as (pt & Hpt & H). apply Some_inj in H. subst t.
  unfold enc_payload in Hpt.
  assert (Hpay : fits 1 pt /\ (str_is_empty (raw_bytes p) = false -> print pt = sent_payload p) /\
                 (str_is_empty (raw_bytes p) = true -> sent_payload p = EmptyString)).
  { unfold sent_payload. destruct (str_is_empty (raw_bytes p)) eqn:E.
    - injection Hpt as <-. apply empty_string in E. rewrite E. by repeat split.
    - apply fmap_Some in Hpt as (u & Hu & ->). rewrite Hu. split; [|by rewrite print_map_raws].
      destruct (raw_message_fits _ u Hu) as [Hok _]. split; [done|]. rewrite map_raws_nesting.
      specialize (Hp u Hu). lia. }
  destruct Hpay as (Hfit & Hne & Hem).
  assert (Hmem : forall t, good 0 t -> fits 1 t) by (intros u [? ?]; split; [done|unfold maxNestingDepth; lia]).
  rewrite decode_event_print; [|done|].
  - do 5 (eapply event_field; [reflexivity|decode_value|simpl; reflexivity|omitted|]).
    destruct (str_is_empty (raw_bytes p)) eqn:E.
    + rewrite Hem by done. reflexivity.
    + rewrite <- Hne by done. eapply event_field; [reflexivity|reflexivity|simpl; reflexivity|done|reflexivity].
  - unfold unless_empty.
    destruct (seq =? 0), (str_is_empty ct), (str_is_empty (raw_bytes p)); simpl;
      repeat apply Forall_cons_2; try apply Forall_nil_2; (split; [reflexivity|]); simpl;
      auto using good_string, good_int.
Qed.

(** (C18) What is published is what a replay shows, for an event whose source, type and
    content type are valid UTF-8, whose timestamp and sequence are 64-bit integers,
    and whose payload nests less than 10000 deep ([replayable]: otherwise bytes are
    replaced on the way, or the consumer cannot parse the envelope, which nests one
    deeper).  Such a JSON event comes back with the source, type and sequence it was
    published with and its payload compacted and cut to the preview; a binary one with
    its content type, its size and the sequence its header carries. *)
Theorem published_event_is_replayed topic e msg seq ts :
  replayable e -> Publish (fun _ => None) topic e = Ok msg ->
  printMessage (mkJmsg (msg_Subject msg) (msg_Data msg) (msg_Header msg) (Some (seq, ts))) =
  if IsBinary e then
    LBinary seq ts topic (se_ContentType e) (str_length (se_Data e))
      (if 0 <? se_Seq e then itoa (se_Seq e) else EmptyString)
  else LEvent seq ts topic (se_Source e) (se_Type e) (se_Seq e) (preview (sent_payload (se_Payload e))).
Proof.
  intros Hr H. unfold Publish, mbind, result_bind in H.
  assert (Hct : forall data ct, header_get "Content-Type" (msg_Header (event_msg topic e data ct)) = ct).
  { intros data ct. unfold event_msg, header_get. simpl.
    destruct (0 <? se_Seq e); rewrite ?lookup_insert_ne by done; destruct ct; simpl; by rewrite ?lookup_insert_eq. }
  assert (Hseq : forall data ct, header_get "X-Nephtys-Seq" (msg_Header (event_msg topic e data ct))
            = if 0 <? se_Seq e then itoa (se_Seq e) else EmptyString).
  { intros data ct. unfold event_msg, header_get. simpl.
    destruct (0 <? se_Seq e); [by rewrite lookup_insert_eq|].
    destruct ct; simpl; [done|]. by rewrite lookup_insert_ne. }
  destruct (IsBinary e) eqn:EB.
  - rewrite encodeEvent_binary in H by done. destruct (str_is_empty (se_Data e)); [discriminate H|]. injection H as <-.
    unfold printMessage. cbn [jm_meta jm_Header jm_Subject jm_Data]. rewrite Hct, Hseq.
    unfold IsBinary in EB. by rewrite EB.
  - rewrite encodeEvent_json in H by done. destruct (enc_event e) as [t|] eqn:Et; [|discriminate H]. injection H as <-.
    unfold printMessage. cbn [jm_meta jm_Header jm_Subject jm_Data]. rewrite Hct. simpl.
    by rewrite (decode_enc_event e t Hr Et).
Qed.

(** ** What the URL rule misses *)

(** The client takes a list of servers; the rule strips the credentials of the
    first and keeps those of the others, which the parser reads as a path. *)
Theorem server_list_leaks_credentials :
  redactURL "nats://u:p@h1:4222" = Some "nats://h1:4222"%string /\
  redactURL "nats://h1:4222,nats://user:secret@h2:4222" = Some "nats://h1:4222,nats://user:secret@h2:4222"%string.
Proof. split; vm_compute; reflexivity. Qed.

(** ** Witnesses *)

Definition demo_event : StreamEvent :=
  mkEvent "edge-1" "tick" 1700000000000 7 "" (Some (js " {'k': '<b>', 'n': [1, 2.50]} ")) EmptyString.

Lemma demo_replayable : replayable demo_event.
Proof.
  split; [vm_compute; reflexivity|]. split; [vm_compute; reflexivity|]. intros t.
  assert (E : bool_decide (nesting (default TNull (parse_json (raw_bytes (se_Payload demo_event)))) < maxNestingDepth) = true)
    by (vm_compute; reflexivity).
  apply bool_decide_eq_true in E. intros Ht. by rewrite Ht in E.
Qed.

Lemma published_event_is_replayed_witness :
  exists msg, Publish (fun _ => None) "t" demo_event = Ok msg /\
  printMessage (mkJmsg (msg_Subject msg) (msg_Data msg) (msg_Header msg) (Some (42, 0)))
  = LEvent 42 0 "t" "edge-1" "tick" 7 (js "{'k':'\u003cb\u003e','n':[1,2.50]}").
Proof.
  destruct (Publish (fun _ => None) "t" demo_event) as [msg|e] eqn:E.
  - exists msg. split; [done|].
    rewrite (published_event_is_replayed "t" demo_event msg 42 0 demo_replayable E).
    vm_compute. reflexivity.
  - assert (H : is_ok (Publish (fun _ => None) "t" demo_event) = true) by (vm_compute; reflexivity).
    rewrite E in H. discriminate H.
Defined.

Definition demo_jmsg (n : Z) : jmsg := mkJmsg "t" "{}" ∅ (Some (n, 0)).

(** A limit of three, a quiet round, a batch, and an acknowledgement that fails. *)
Definition demo_rounds : list round :=
  [mkRound (fun want => Ok (take (Z.to_nat want) [demo_jmsg 1; demo_jmsg 2])) false;
   mkRound (fun want => Ok (take (Z.to_nat want) [demo_jmsg 3; demo_jmsg 4])) false].

Definition demo_run := run "nats://localhost" "NEPHTYS" "t" "1" "d" 3 5 0 (fun _ => None) None
  (fun _ _ _ _ => None) (fun _ => None) (Some "timeout"%string) demo_rounds.

Lemma replay_acknowledges_what_it_prints_witness :
  fst <$> demo_run = Some (Ok 3) /\
  ends_well (fun _ => None) (Ok 3) (default (Ok 0, []) demo_run).2 /\
  printed (default (Ok 0, []) demo_run).2 = [demo_jmsg 1; demo_jmsg 2; demo_jmsg 3].
Proof.
  assert (Hb : Forall fetch_bounded demo_rounds).
  { repeat apply Forall_cons_2; [| |apply Forall_nil_2]; intros want msgs Hw [= <-];
      rewrite length_take; simpl; lia. }
  assert (Hr : fst <$> demo_run = Some (Ok 3)) by (vm_compute; reflexivity).
  split; [exact Hr|]. split; [|vm_compute; reflexivity].
  destruct demo_run as [[r out]|] eqn:E; [|discriminate Hr]. injection Hr as ->.
  exact (proj1 (replay_acknowledges_what_it_prints "nats://localhost" "NEPHTYS" "t" "1" "d" 3 5 0 (fun _ => None) None
    (fun _ _ _ _ => None) (fun _ => None) (Some "timeout"%string) demo_rounds (Ok 3) out Hb E)).
Defined.
