(* ===== verification/Connector.v ===== *)
(** * internal/connector: what the five sources share

    The contract of a session ([StreamSource] in source.go), the wrapping of bodies
    that are not JSON, the endpoint in an error message, and the trace every
    connector's [Run] leaves: when it reported ready, what it published, how it
    ended. *)

From Stdlib Require Import ZArith Lia Ascii.
From stdpp Require Import base tactics option strings gmap list.
From S2P Require Import Prelude GoLib GoFloat GoUrl GoJson GoJsonPrint GoJsonValue GoJsonString.
From S2P Require Import GoJsonText GoJsonStruct Domain Broker.

#[local] Open Scope Z_scope.

(** ** redact.go *)

Definition redactURL (raw : string) : string :=
  match url_parse raw with
  | None => "the configured endpoint"
  | Some parsed =>
      if str_is_empty (u_Host parsed) then "the configured endpoint"
      else url_string (mkURL (u_Scheme parsed) (u_Opaque parsed) None (u_Host parsed) (u_Path parsed)
             (u_RawPath parsed) (u_OmitHost parsed) (u_ForceQuery parsed) EmptyString EmptyString (u_RawFragment parsed))
  end.

Example redact_endpoint :
  redactURL <$> ["wss://user:pw@h.example:9/feed?token=abc#f"; "http://h"; "not a url"; "http://h/%zz"]%string
  = ["wss://h.example:9/feed"; "http://h"; "the configured endpoint"; "the configured endpoint"]%string.
Proof. vm_compute. reflexivity. Qed.

(** ** Bodies *)

(** [json.Marshal] of a Go string. *)
Definition marshal_string (s : string) : string := quote s.

(** A body that is JSON is kept as it is, any other becomes a JSON string. *)
Definition keep_or_wrap (body : string) : RawMessage :=
  Some (if json_valid body then body else marshal_string body).

(** The same through [json.Unmarshal] into a raw message: only the value's text is
    kept. *)
Definition repack (body : string) : RawMessage :=
  Some (match unmarshal_raw body with Some text => text | None => marshal_string body end).

Lemma marshal_string_valid s : json_valid (marshal_string s) = true.
Proof.
  unfold json_valid. apply bool_decide_eq_true.
  assert (Hg : good 0 (TStr (raw_of s))) by apply good_string. destruct Hg as [Hok Hn].
  change (marshal_string s) with (print (TStr (raw_of s))). rewrite parse_print; [by eexists|done|done].
Qed.

Definition payload_valid (m : RawMessage) : bool := json_valid (raw_bytes m).

Lemma keep_or_wrap_valid body : payload_valid (keep_or_wrap body) = true.
Proof.
  unfold payload_valid, keep_or_wrap. simpl. destruct (json_valid body) eqn:E; [done|]. apply marshal_string_valid.
Qed.

Lemma repack_valid body : payload_valid (repack body) = true.
Proof.
  unfold payload_valid, repack. simpl. destruct (unmarshal_raw body) as [text|] eqn:E; [|apply marshal_string_valid].
  apply unmarshal_raw_parse in E as [Hs He]. unfold json_valid. apply bool_decide_eq_true. by rewrite He.
Qed.

(** ** Sessions *)

(** What a session does that others see. [CPublish] has the answer of the publish
    callback. *)
Inductive conn_effect : Type :=
| CReady
| CPublish (topic : string) (event : StreamEvent) (answer : option string).

Inductive run_error : Type :=
| RNotOpened
| RBuildRequest
| RConnect (e : string)
| RStatus (code : Z)
| RStreamEnded (e : string)
| RStreamClosed (endpoint : string)
| RDial (endpoint e : string)
| RPostConnect (e : string)
| RConnectionLost (e : string)
| RServe (e : string).

(** An outgoing request. *)
Record http_request : Type := mkHttpRequest {
  hq_Method : string;
  hq_URL : string;
  hq_Header : gmap string string
}.

(** The characters of an HTTP token. *)
Definition token_char (c : ascii) : bool :=
  is_alpha c || is_digit c || negb (str_forallb (fun d => negb (bool_decide (c = d))) "!#$%&'*+-.^_`|~").

Definition valid_token (s : string) : bool := negb (str_is_empty s) && str_forallb token_char s.

(** [textproto.CanonicalMIMEHeaderKey]: upper case at the start and after a hyphen,
    lower case elsewhere; a key that is not a token is kept. *)
Fixpoint canonical_from (start : bool) (s : string) : string :=
  match s with
  | EmptyString => EmptyString
  | String c s' =>
      String (if start then (if is_lower c then byte_of (byte_val c - 32) else c) else lower_byte c)
        (canonical_from (bool_decide (c = "-"%char)) s')
  end.

Definition canonical_key (k : string) : string := if valid_token k then canonical_from true k else k.

Definition header_set (h : gmap string string) (kv : string * string) : gmap string string :=
  <[canonical_key kv.1 := kv.2]> h.

(** [http.NewRequestWithContext] without a body: [None] for a method that is not a
    token or a URL that does not parse. *)
Definition new_request (method url : string) : option http_request :=
  let method := if str_is_empty method then "GET"%string else method in
  if negb (valid_token method) then None
  else match url_parse url with
       | None => None
       | Some _ => Some (mkHttpRequest method url ∅)
       end.

(** [req.Header.Set] in the order given, which for a map is any. *)
Definition set_headers (headers : list (string * string)) (r : http_request) : http_request :=
  mkHttpRequest (hq_Method r) (hq_URL r) (foldl header_set (hq_Header r) headers).

(** The order does not show unless two keys are one header; then the last one wins. *)
Lemma set_headers_order l1 l2 r :
  l1 ≡ₚ l2 -> NoDup ((canonical_key ∘ fst) <$> l1) -> set_headers l1 r = set_headers l2 r.
Proof.
  set (canon := fun kv : string * string => (canonical_key kv.1, kv.2)). intros Hp Hnd.
  assert (Hf : forall l h, foldl header_set h l = foldl (fun m kv => <[kv.1 := kv.2]> m) h (canon <$> l)).
  { induction l as [|kv l IH]; intros h; [done|]. rewrite fmap_cons. simpl. apply IH. }
  assert (Hk : (canon <$> l1).*1 = (canonical_key ∘ fst) <$> l1) by (by rewrite <- list_fmap_compose).
  unfold set_headers. rewrite !Hf, !foldl_insert.
  - do 2 f_equal. apply list_to_map_proper; [by rewrite Hk|by rewrite Hp].
  - by rewrite <- Hp, Hk.
  - by rewrite Hk.
Qed.

Example headers_clash :
  let send l := hq_Header (set_headers l (mkHttpRequest "GET" "http://h" ∅)) !! "X-Key"%string in
  (send [("x-key", "1"); ("X-KEY", "2")], send [("X-KEY", "2"); ("x-key", "1")])%string = (Some "2", Some "1")%string.
Proof. vm_compute. reflexivity. Qed.

Example canonical_ok :
  canonical_key <$> ["x-api-KEY"; "accept"; "a b"; "ETag"]%string = ["X-Api-Key"; "Accept"; "a b"; "Etag"]%string.
Proof. vm_compute. reflexivity. Qed.

(** What a request got; [read_error]: what ended the body, if not its end. *)
Inductive http_answer : Type :=
| HFailed (e : string)
| HResponse (code : Z) (body : string) (read_error : option string).

(** A session: its trace, and what [Run] returned. *)
Definition session : Type := list conn_effect * option run_error.

Definition is_ready (c : conn_effect) : bool := match c with CReady => true | _ => false end.

Definition readies (tr : list conn_effect) : nat := length (filter (fun c => is_ready c = true) tr).

Definition published (tr : list conn_effect) : list StreamEvent :=
  omap (fun c => match c with CPublish _ e _ => Some e | CReady => None end) tr.

(** The contract: an event is published on the stream's topic, in its name, and
    carries something the broker can encode; [ready] is called at most once. *)
Definition event_ok (id topic : string) (c : conn_effect) : Prop :=
  match c with
  | CReady => True
  | CPublish t e _ =>
      t = topic /\ se_Source e = id /\
      (publishable e = true \/ (IsBinary e = true /\ se_Data e = EmptyString))
  end.

Record conforms (id topic : string) (s : session) : Prop := {
  cf_ready : (readies s.1 <= 1)%nat;
  cf_events : Forall (event_ok id topic) s.1
}.

(** A text event with a valid payload can be encoded. *)
Lemma text_event_ok id topic type ts seq payload answer : payload_valid payload = true ->
  event_ok id topic (CPublish topic (mkEvent id type ts seq EmptyString payload EmptyString) answer).
Proof.
  intros H. split; [done|]. split; [done|]. left. unfold publishable. simpl.
  unfold payload_valid in H. by rewrite H, orb_true_r.
Qed.

Lemma readies_app tr1 tr2 : readies (tr1 ++ tr2) = (readies tr1 + readies tr2)%nat.
Proof. unfold readies. by rewrite filter_app, length_app. Qed.

Lemma readies_ready tr : readies (CReady :: tr) = S (readies tr).
Proof. unfold readies. by rewrite filter_cons_True. Qed.

Lemma publishes_not_ready tr : Forall (fun c => is_ready c = false) tr -> readies tr = 0%nat.
Proof.
  unfold readies. induction 1 as [|c tr Hc Htr IH]; [done|]. rewrite filter_cons_False; [done|]. by rewrite Hc.
Qed.

(** A session that published nothing, and one that reported ready once and then
    published. *)
Lemma conforms_nothing id topic e : conforms id topic ([], e).
Proof. split; [unfold readies; simpl; lia|by apply Forall_nil]. Qed.

Lemma conforms_ready id topic tr e :
  Forall (event_ok id topic) tr -> Forall (fun c => is_ready c = false) tr -> conforms id topic (CReady :: tr, e).
Proof.
  intros H1 H2. split; cbn [fst]; [by rewrite readies_ready, publishes_not_ready|]. by constructor.
Qed.
