(* ===== verification/Sse.v ===== *)
(** * internal/connector/sse.go: the event-stream source

    One response body, line by line: how lines make frames, how frames make events,
    and how the session ends. *)

From Stdlib Require Import ZArith Lia Ascii.
From stdpp Require Import base tactics option strings gmap list.
From S2P Require Import Prelude GoLib GoFloat GoUrl GoStrings GoJson GoJsonPrint.
From S2P Require Import GoJsonValue GoJsonString GoJsonStruct Domain Broker Connector.

#[local] Open Scope Z_scope.

(** ** [bufio.Scanner] on lines *)

Definition newline : ascii := byte_of 10.
Definition carriage : ascii := byte_of 13.

(** [bufio.MaxScanTokenSize]: a line and its newline fit the buffer or the scanner
    gives up. *)
Definition MaxScanTokenSize : Z := 65536.

Fixpoint dropCR (s : string) : string :=
  match s with
  | EmptyString => EmptyString
  | String c EmptyString => if bool_decide (c = carriage) then EmptyString else s
  | String c s' => String c (dropCR s')
  end.

(** The lines of a body, and whether one of them did not fit; text after the last
    newline is a line unless it is empty. *)
Fixpoint scan_lines (pieces : list string) : list string * bool :=
  match pieces with
  | [] => ([], false)
  | [last] =>
      if str_is_empty last then ([], false)
      else if MaxScanTokenSize <=? str_length last then ([], true) else ([dropCR last], false)
  | p :: pieces' =>
      if MaxScanTokenSize <=? str_length p then ([], true)
      else let '(ls, long) := scan_lines pieces' in (dropCR p :: ls, long)
  end.

Definition body_lines (body : string) : list string * bool := scan_lines (split newline body).

(** ** The read loop *)

Record sse_state : Type := mkSse { currentEvent : string; currentData : string }.

Definition no_frame : sse_state := mkSse EmptyString EmptyString.

(** A payload that is not JSON is wrapped in an object. *)
Definition sse_payload (data : string) : RawMessage :=
  Some (if json_valid data then data
        else print (TObj [("data"%string, TStr (raw_of data))])).

Definition sse_event (id : string) (now : Z) (st : sse_state) : StreamEvent :=
  mkEvent id (if str_is_empty (currentEvent st) then "sse_message"%string else currentEvent st) now 0
    EmptyString (sse_payload (currentData st)) EmptyString.

Definition sse_field (line : string) (st : sse_state) : sse_state :=
  match cut_prefix "event:" line with
  | Some v => mkSse (trim_space v) (currentData st)
  | None =>
      match cut_prefix "data:" line with
      | Some v =>
          let content := match v with
                         | String c v' => if bool_decide (c = " "%char) then v' else v
                         | EmptyString => v
                         end in
          mkSse (currentEvent st)
            (currentData st +:+ (if str_is_empty (currentData st) then "" else String newline "") +:+ content)%string
      | None => st
      end
  end.

Section Sse.
Context (id topic : string) (publish : StreamEvent -> option string).

(** One line; [now] is the clock when it is read.  A failed publish is logged. *)
Definition sse_line (now : Z) (line : string) (st : sse_state) : sse_state * list conn_effect :=
  if str_is_empty line then
    if str_is_empty (currentData st) then (st, [])
    else let event := sse_event id now st in (no_frame, [CPublish topic event (publish event)])
  else (sse_field line st, []).

Inductive loop_end : Type := LCancelled | LError (e : string) | LEof.

(** [clock i] is the time, and [done i] whether the context has ended, when the
    line is scanned. *)
Fixpoint read_lines (clock : nat -> Z) (done : nat -> bool) (i : nat) (lines : list string) (st : sse_state)
    (rest : loop_end) : list conn_effect * loop_end :=
  match lines with
  | [] => ([], rest)
  | line :: lines' =>
      if done i then ([], LCancelled)
      else
        let '(st, out) := sse_line (clock i) line st in
        let '(out', e) := read_lines clock done (S i) lines' st rest in
        (out ++ out', e)
  end.

(** [read_error]: what ended the body, if not its end. *)
Definition readLoop (clock : nat -> Z) (done : nat -> bool) (body : string) (read_error : option string)
  : list conn_effect * loop_end :=
  let '(lines, long) := body_lines body in
  read_lines clock done 0 lines no_frame
    (if long then LError "bufio.Scanner: token too long"
     else match read_error with Some e => LError e | None => LEof end).

(** The request [Run] sends; [headers] are the configured ones, in the order the map
    was ranged over. *)
Definition sse_request (url : string) (headers : list (string * string)) : option http_request :=
  set_headers ([("Accept", "text/event-stream"); ("Cache-Control", "no-cache"); ("Connection", "keep-alive")]%string
                 ++ headers) <$> new_request "GET" url.

(** [Run]; [done_at_end] is whether the context has ended when the loop returns. *)
Definition sse_run (url : string) (headers : list (string * string)) (answer : http_request -> http_answer)
    (clock : nat -> Z) (done : nat -> bool) (done_at_end : bool) : session :=
  match sse_request url headers with
  | None => ([], Some RBuildRequest)
  | Some req =>
      match answer req with
      | HFailed e => ([], Some (RConnect e))
      | HResponse code body read_error =>
          if (code <? 200) || (300 <=? code) then ([], Some (RStatus code))
          else
            let '(out, e) := readLoop clock done body read_error in
            (CReady :: out,
             if done_at_end then None
             else Some (match e with
                        | LError e => RStreamEnded e
                        | LCancelled => RStreamEnded "context canceled"
                        | LEof => RStreamClosed (redactURL url)
                        end))
      end
  end.
End Sse.

Definition lf (ls : list string) : string := join newline ls.
Definition seen (s : list conn_effect) : list (string * string) :=
  (fun e => (se_Type e, raw_bytes (se_Payload e))) <$> published s.

Definition read_all (body : string) : list conn_effect * loop_end :=
  readLoop "s" "t" (fun _ => None) (fun _ => 0) (fun _ => false) body None.

Example sse_frames_ok :
  seen (read_all (lf ["event: tick"; "data: 1"; ""; ": comment"; "data: a"; "data:b"; ""; "data: 2"])).1
  = [("tick", "1"); ("sse_message", js "{'data':'a\nb'}")]%string.
Proof. vm_compute. reflexivity. Qed.

(** ** What a session publishes *)

Lemma sse_payload_valid data : payload_valid (sse_payload data) = true.
Proof.
  unfold payload_valid, sse_payload. destruct (json_valid data) eqn:E; [done|].
  change (raw_bytes (Some ?s)) with s. unfold json_valid. apply bool_decide_eq_true.
  assert (Hg : good 1 (TObj [("data"%string, TStr (raw_of data))])).
  { apply (good_obj 0); [done|]. constructor; [|by apply Forall_nil]. split; [done|apply good_string]. }
  destruct Hg as [Hok Hn]. rewrite parse_print; [by eexists|done|unfold maxNestingDepth; lia].
Qed.

Lemma read_lines_publishes id topic publish clock done lines : forall i st rest,
  let tr := (read_lines id topic publish clock done i lines st rest).1 in
  Forall (event_ok id topic) tr /\ Forall (fun c => is_ready c = false) tr.
Proof.
  induction lines as [|line lines IH]; intros i st rest; simpl; [done|].
  destruct (done i); [done|]. unfold sse_line.
  destruct (str_is_empty line); [destruct (str_is_empty (currentData st))|].
  2: specialize (IH (S i) no_frame rest); destruct (read_lines _ _ _ _ _ _ _ no_frame _) as [tr e]; simpl in *;
     destruct IH as [IH1 IH2]; split; constructor; try done;
     apply text_event_ok, sse_payload_valid.
  - specialize (IH (S i) st rest). by destruct (read_lines _ _ _ _ _ _ _ _ _) as [tr e].
  - specialize (IH (S i) (sse_field line st) rest). by destruct (read_lines _ _ _ _ _ _ _ _ _) as [tr e].
Qed.

(** The contract of source.go, for this source. *)
Lemma sse_conforms id topic publish url headers answer clock done done_at_end :
  conforms id topic (sse_run id topic publish url headers answer clock done done_at_end).
Proof.
  unfold sse_run. destruct (sse_request url headers) as [req|]; [|apply conforms_nothing].
  destruct (answer req) as [e|code body rerr]; [apply conforms_nothing|].
  destruct (_ || _); [apply conforms_nothing|].
  unfold readLoop. destruct (body_lines body) as [lines long].
  pose proof (read_lines_publishes id topic publish clock done lines 0 no_frame
    (if long then LError "bufio.Scanner: token too long"
     else match rerr with Some e => LError e | None => LEof end)) as [H1 H2].
  destruct (read_lines _ _ _ _ _ _ _ _ _) as [tr e]. by apply conforms_ready.
Qed.

(** ** Frames *)

(** What a server writes: a type and the lines of the data. *)
Record frame : Type := mkFrame { f_Type : string; f_Data : list string }.

Definition frame_lines (f : frame) : list string :=
  ("event: " +:+ f_Type f)%string :: ((fun d => "data: " +:+ d)%string <$> f_Data f) ++ [EmptyString].

(** The body: every line ends in a newline. *)
Definition frames_body (fs : list frame) : string :=
  join newline (concat (frame_lines <$> fs) ++ [EmptyString]).

Definition line_ok (limit : Z) (s : string) : bool :=
  str_forallb (fun c => negb (bool_decide (c = newline)) && negb (bool_decide (c = carriage))) s
  && (str_length s <? limit).

(** A type that survives trimming, some data whose first line is not empty, and
    lines the scanner can take. *)
Definition frame_ok (f : frame) : bool :=
  negb (str_is_empty (f_Type f)) && bool_decide (trim_space (String " " (f_Type f)) = f_Type f)
  && match f_Data f with d :: _ => negb (str_is_empty d) | [] => false end
  && line_ok (MaxScanTokenSize - 7) (f_Type f) && forallb (line_ok (MaxScanTokenSize - 6)) (f_Data f).

Lemma split_join ws : ws <> [] -> Forall (no_byte newline) ws -> split newline (join newline ws) = ws.
Proof.
  intros Hne H. induction H as [|w ws Hw Hws IH]; [done|]. clear Hne.
  assert (Hone : forall w, no_byte newline w -> split newline w = [w]).
  { clear. induction w as [|c w IH]; [done|]. intros [Hc Hw]. simpl. rewrite bool_decide_false by done. by rewrite IH. }
  destruct ws as [|w2 ws]; [by apply Hone|]. specialize (IH ltac:(done)).
  change (join newline (w :: w2 :: ws)) with (w +:+ String newline (join newline (w2 :: ws)))%string.
  revert IH. generalize (join newline (w2 :: ws)) (w2 :: ws). intros s l Hl. clear -Hw Hl.
  induction w as [|c w IH].
  - rewrite str_app_nil. simpl. rewrite Hl. done.
  - destruct Hw as [Hc Hw]. rewrite str_app_cons. simpl. rewrite bool_decide_false by done. by rewrite IH.
Qed.

Lemma line_ok_facts limit s : line_ok limit s = true ->
  no_byte newline s /\ dropCR s = s /\ str_length s < limit.
Proof.
  unfold line_ok. rewrite andb_true_iff, Z.ltb_lt. intros [H Hl]. split_and!; [| |done]; clear Hl.
  - induction s as [|c s IH]; [done|]. simpl in H. rewrite !andb_true_iff, !negb_true_iff, !bool_decide_eq_false in H.
    destruct H as [[H1 H2] H]. split; [done|by apply IH].
  - induction s as [|c s IH]; [done|]. simpl in H. rewrite !andb_true_iff, !negb_true_iff, !bool_decide_eq_false in H.
    destruct H as [[H1 H2] H]. simpl. destruct s as [|d s]; [by rewrite bool_decide_false|]. by rewrite (IH H).
Qed.

Lemma body_lines_ok ls : Forall (fun l => line_ok MaxScanTokenSize l = true) ls ->
  body_lines (join newline (ls ++ [EmptyString])) = (ls, false).
Proof.
  intros H. unfold body_lines. rewrite split_join.
  - induction H as [|l ls Hl Hls IH]; [done|]. cbn [app scan_lines].
    destruct (ls ++ [EmptyString]) as [|x xs] eqn:E; [by destruct ls|].
    apply line_ok_facts in Hl as (_ & Hcr & Hlen).
    rewrite (proj2 (Z.leb_gt MaxScanTokenSize (str_length l)) Hlen). by rewrite IH, Hcr.
  - by destruct ls.
  - apply Forall_app. split; [|by repeat constructor].
    eapply Forall_impl; [exact H|]. intros l Hl. by destruct (line_ok_facts _ _ Hl).
Qed.

Lemma frame_lines_ok f : frame_ok f = true -> Forall (fun l => line_ok MaxScanTokenSize l = true) (frame_lines f).
Proof.
  unfold frame_ok. rewrite !andb_true_iff. intros [[[[_ _] _] Ht] Hd].
  assert (Hp : forall p s n, line_ok (MaxScanTokenSize - n) s = true -> line_ok MaxScanTokenSize p = true ->
    str_length p <= n -> line_ok MaxScanTokenSize (p +:+ s)%string = true).
  { unfold line_ok. intros p s n. rewrite !andb_true_iff, !Z.ltb_lt, str_forallb_app, str_length_app.
    intros [-> ?] [-> ?] ?. split; [done|lia]. }
  unfold frame_lines. constructor; [by apply (Hp _ _ 7)|]. apply Forall_app. split; [|by repeat constructor].
  apply Forall_fmap. apply forallb_Forall in Hd. eapply Forall_impl; [exact Hd|]. intros d Hdd. by apply (Hp _ _ 6).
Qed.

(** *** Reading a frame back *)

Lemma sse_field_event v st : sse_field ("event: " +:+ v)%string st = mkSse (trim_space (String " " v)) (currentData st).
Proof. done. Qed.

Lemma sse_field_data d ty acc :
  sse_field ("data: " +:+ d)%string (mkSse ty acc)
  = mkSse ty (acc +:+ (if str_is_empty acc then "" else String newline "") +:+ d)%string.
Proof. done. Qed.

Lemma data_join ds : forall ty acc, acc <> EmptyString ->
  foldl (fun st l => sse_field l st) (mkSse ty acc) ((fun d => "data: " +:+ d)%string <$> ds)
  = mkSse ty (join newline (acc :: ds)).
Proof.
  induction ds as [|d ds IH]; intros ty acc Hne; [done|]. rewrite fmap_cons. cbn [foldl]. rewrite sse_field_data.
  destruct acc as [|c acc]; [done|]. cbn [str_is_empty]. rewrite IH by done. f_equal.
  assert (Hj : forall a b l, join newline ((a +:+ String newline b)%string :: l) = (a +:+ String newline (join newline (b :: l)))%string).
  { intros a b [|x l]; [done|].
    change (join newline ((a +:+ String newline b)%string :: x :: l))
      with ((a +:+ String newline b) +:+ String newline (join newline (x :: l)))%string.
    rewrite str_app_assoc. by rewrite str_app_cons. }
  change (String newline "" +:+ d)%string with (String newline d). apply Hj.
Qed.

Definition never (_ : nat) : bool := false.

Section Frames.
Context (id topic : string) (publish : StreamEvent -> option string) (clock : nat -> Z).

Let loop := read_lines id topic publish clock never.

Lemma loop_fields ls : forall i st rest r, Forall (fun l => str_is_empty l = false) ls ->
  loop i (ls ++ rest) st r = loop (i + length ls) rest (foldl (fun st l => sse_field l st) st ls) r.
Proof.
  induction ls as [|l ls IH]; intros i st rest r H; [by rewrite Nat.add_0_r|].
  apply Forall_cons in H as [Hl H]. unfold loop. cbn [app read_lines]. unfold never at 1, sse_line. rewrite Hl.
  fold loop. rewrite (IH (S i) _ rest r H). cbn [foldl length]. rewrite Nat.add_succ_r.
  by destruct (loop _ _ _ _).
Qed.

Lemma loop_frame f i rest r : frame_ok f = true ->
  loop i (frame_lines f ++ rest) no_frame r =
  let j := (i + S (length (f_Data f)))%nat in
  let event := sse_event id (clock j) (mkSse (f_Type f) (join newline (f_Data f))) in
  let '(tr, e) := loop (S j) rest no_frame r in (CPublish topic event (publish event) :: tr, e).
Proof.
  unfold frame_ok. rewrite !andb_true_iff, negb_true_iff, bool_decide_eq_true. intros [[[[Hne Ht] Hd] _] _].
  unfold frame_lines. rewrite <- app_comm_cons, <- app_assoc, app_comm_cons.
  rewrite loop_fields; [|constructor; [done|]; apply Forall_fmap; by apply Forall_true].
  cbn [foldl length]. rewrite sse_field_event, Ht, length_fmap. cbn [currentData no_frame].
  destruct (f_Data f) as [|d ds]; [done|]. apply negb_true_iff in Hd. rewrite fmap_cons. cbn [foldl].
  rewrite sse_field_data. cbn [str_is_empty]. rewrite !str_app_nil.
  rewrite data_join by (by destruct d).
  set (st := mkSse (f_Type f) (join newline (d :: ds))). cbn [length].
  assert (Hst : str_is_empty (currentData st) = false).
  { unfold st. cbn [currentData]. destruct d as [|c d]; [done|]. by destruct ds. }
  unfold loop at 1. cbn [app read_lines]. unfold never at 1, sse_line. rewrite Hst. cbn [str_is_empty].
  fold loop. by destruct (loop _ _ _ _).
Qed.

Lemma loop_frames fs : forall i r, Forall (fun f => frame_ok f = true) fs ->
  seen (loop i (concat (frame_lines <$> fs)) no_frame r).1
    = (fun f => (f_Type f, raw_bytes (sse_payload (join newline (f_Data f))))) <$> fs /\
  (loop i (concat (frame_lines <$> fs)) no_frame r).2 = r.
Proof.
  induction fs as [|f fs IH]; intros i r H; [done|]. apply Forall_cons in H as [Hf H].
  rewrite fmap_cons. cbn [concat]. rewrite (loop_frame f i _ r Hf). cbv zeta.
  destruct (IH (S (i + S (length (f_Data f)))) r H) as [H1 H2].
  destruct (loop _ _ _ _) as [tr e]. cbn [fst snd] in *. split; [|done].
  rewrite fmap_cons, <- H1. unfold seen, published. cbn [omap list_omap fmap list_fmap].
  f_equal. unfold sse_event. cbn [se_Type se_Payload currentEvent currentData].
  unfold frame_ok in Hf. destruct (f_Type f); [done|done].
Qed.
End Frames.

(** (C30) A stream of well-formed frames is read back exactly: one event per frame,
    in order, with the frame's type and its data lines joined by newlines (wrapped
    when they are not JSON), whatever the publish callback answers; and the session
    then ends because the stream did. *)
Theorem sse_frames_roundtrip id topic publish clock fs :
  Forall (fun f => frame_ok f = true) fs ->
  let '(tr, e) := readLoop id topic publish clock never (frames_body fs) None in
  seen tr = (fun f => (f_Type f, raw_bytes (sse_payload (join newline (f_Data f))))) <$> fs /\ e = LEof.
Proof.
  intros H. unfold readLoop, frames_body. rewrite body_lines_ok.
  - pose proof (loop_frames id topic publish clock fs 0 LEof H) as [H1 H2].
    destruct (read_lines _ _ _ _ _ _ _ _ _) as [tr e]. done.
  - apply Forall_concat, Forall_fmap. eapply Forall_impl; [exact H|]. intros f Hf. by apply frame_lines_ok.
Qed.

(** A blank line with no data before it ends a frame, and the standard's event type
    with it; here the type survives and is given to the next frame's data. *)
Theorem dataless_frame_leaks_type type data :
  type <> EmptyString -> trim_space type = type -> data <> EmptyString ->
  let '(st1, tr1) := sse_line "s" "t" (fun _ => None) 0 ("event:" +:+ type)%string no_frame in
  let '(st2, tr2) := sse_line "s" "t" (fun _ => None) 0 EmptyString st1 in
  let '(st3, tr3) := sse_line "s" "t" (fun _ => None) 0 ("data: " +:+ data)%string st2 in
  let '(st4, tr4) := sse_line "s" "t" (fun _ => None) 0 EmptyString st3 in
  tr1 = [] /\ tr2 = [] /\ tr3 = [] /\ seen tr4 = [(type, raw_bytes (sse_payload data))].
Proof.
  intros Ht Htrim Hd. unfold sse_line. cbn [str_is_empty].
  change (str_is_empty ("event:" +:+ type)%string) with false. cbv iota.
  change (sse_field ("event:" +:+ type)%string no_frame) with (mkSse (trim_space type) EmptyString).
  cbn [currentData str_is_empty]. change (str_is_empty ("data: " +:+ data)%string) with false. cbv iota.
  rewrite Htrim. rewrite sse_field_data. cbn [str_is_empty]. rewrite !str_app_nil.
  cbn [currentData]. destruct data; [done|]. cbn [str_is_empty]. split_and!; try done.
  unfold seen, published. cbn [omap list_omap fmap list_fmap]. unfold sse_event. cbn [se_Type se_Payload currentEvent].
  by destruct type.
Qed.

(** ** Witnesses *)

Definition demo_frames : list frame :=
  [mkFrame "tick" [js "{'n':1}"]; mkFrame "note" ["two"; "lines"]]%string.

Lemma sse_frames_roundtrip_witness :
  let '(tr, e) := readLoop "s" "t" (fun _ => Some "down"%string) (fun _ => 5) never (frames_body demo_frames) None in
  seen tr = [("tick", js "{'n':1}"); ("note", js "{'data':'two\nlines'}")]%string /\ e = LEof.
Proof.
  assert (H : Forall (fun f => frame_ok f = true) demo_frames).
  { repeat constructor; vm_compute; reflexivity. }
  pose proof (sse_frames_roundtrip "s" "t" (fun _ => Some "down"%string) (fun _ => 5) demo_frames H) as Hr.
  destruct (readLoop _ _ _ _ _ _ _) as [tr e]. destruct Hr as [-> ->]. split; [vm_compute; reflexivity|reflexivity].
Defined.

Lemma dataless_frame_leaks_type_witness :
  let '(st1, _) := sse_line "s" "t" (fun _ => None) 0 "event:tick" no_frame in
  let '(st2, _) := sse_line "s" "t" (fun _ => None) 0 EmptyString st1 in
  let '(st3, _) := sse_line "s" "t" (fun _ => None) 0 "data: 1" st2 in
  let '(_, tr) := sse_line "s" "t" (fun _ => None) 0 EmptyString st3 in
  seen tr = [("tick", "1")]%string.
Proof.
  pose proof (dataless_frame_leaks_type "tick" "1") as H.
  assert (Ht : trim_space "tick" = "tick"%string) by (vm_compute; reflexivity).
  specialize (H ltac:(discriminate) Ht ltac:(discriminate)). revert H. cbn. intros (_ & _ & _ & H). exact H.
Defined.
