(* ===== verification/Loadgen.v ===== *)
(** * docs/benchmarks/power/loadgen.go: the load generator

    The server that benchmarks feed the connector from: the sensor reading it makes
    up, the event stream at a declared rate, and its counters.  Any number of
    connections take their ticks in any order. *)

From Stdlib Require Import ZArith Lia Ascii.
From stdpp Require Import base tactics option strings gmap list.
From S2P Require Import Prelude GoLib GoFloat GoNumber GoJson GoJsonPrint GoFloatText.
From S2P Require Import GoJsonString GoJsonStruct Domain Broker Connector Sse.

#[local] Open Scope Z_scope.

Definition wrap_uint64 (z : Z) : Z := z mod 2 ^ 64.

Lemma wrap_uint64_range z : 0 <= wrap_uint64 z < 2 ^ 64.
Proof. apply Z.mod_pos_bound. lia. Qed.

Lemma wrap_uint64_add a b : wrap_uint64 (wrap_uint64 a + b) = wrap_uint64 (a + b).
Proof. unfold wrap_uint64. apply Zplus_mod_idemp_l. Qed.

(** ** Readings *)

Record payload : Type := mkReading {
  SensorID : string; p_Seq : Z; p_Timestamp : Z; Temperature : float64; Humidity : float64;
  Pressure : float64; p_Status : string
}.

Definition reading (base step modulus seq : Z) : float64 :=
  fadd (f_of_Z base) (fdiv (f_of_Z (seq mod modulus)) (f_of_Z step)).

Definition newPayload (now seq : Z) : payload :=
  mkReading "loadgen-01" seq now (reading 20 10 100 seq) (reading 45 10 50 seq) (reading 1013 10 20 seq) "ok".

(** [json.Marshal] of one, by its tags. *)
Definition enc_reading (p : payload) : option jtree :=
  temperature ← enc_float (Temperature p);
  humidity ← enc_float (Humidity p);
  pressure ← enc_float (Pressure p);
  Some (TObj [("sensor_id", enc_string (SensorID p)); ("seq", TNum (utoa (p_Seq p)));
              ("timestamp", enc_int (p_Timestamp p)); ("temperature_c", temperature);
              ("humidity_pct", humidity); ("pressure_hpa", pressure); ("status", enc_string (p_Status p))])%string.

(** An error of [Marshal] is ignored: the text is then empty. *)
Definition reading_text (now seq : Z) : string :=
  default EmptyString (print <$> enc_reading (newPayload now seq)).

Example reading_ok : reading_text 5 7 =
  js "{'sensor_id':'loadgen-01','seq':7,'timestamp':5,'temperature_c':20.7,'humidity_pct':45.7,'pressure_hpa':1013.7,'status':'ok'}".
Proof. vm_compute. reflexivity. Qed.

(** ** The event stream *)

(** [v] is the query's [rate]. *)
Definition sse_rate (v : string) : Z :=
  match atoi v with Some n => if 0 <? n then n else 10 | None => 10 end.

Definition tickHz : Z := 100.

(** A connection: its rate, its sequence, what the remainders have added up to, and
    the events written to it so far, each as when it was made. *)
Record sse_conn : Type := mkConn { c_rate : Z; c_seq : Z; c_acc : Z; c_out : list (Z * Z) }.

Definition new_sse_conn (v : string) : sse_conn := mkConn (sse_rate v) 0 0 [].

(** How many events the next tick is for, and the remainder it leaves. *)
Definition tick_events (c : sse_conn) : Z * Z :=
  let perTick := c_rate c / tickHz in
  let remainder := c_rate c mod tickHz in
  let acc := c_acc c + remainder in
  if tickHz <=? acc then (perTick + 1, acc - tickHz) else (perTick, acc).

(** The events of one tick; [write] says whether an event could be written, the
    first that could not ends the connection. *)
Fixpoint emit (clock : Z -> Z) (write : Z -> bool) (n : nat) (c : sse_conn) : sse_conn * bool :=
  match n with
  | O => (c, true)
  | S n' =>
      let seq := wrap_uint64 (c_seq c + 1) in
      let c := mkConn (c_rate c) seq (c_acc c) (c_out c) in
      if write seq then emit clock write n' (mkConn (c_rate c) seq (c_acc c) (c_out c ++ [(clock seq, seq)]))
      else (c, false)
  end.

Definition tick (clock : Z -> Z) (write : Z -> bool) (c : sse_conn) : sse_conn * bool :=
  let '(n, acc) := tick_events c in
  emit clock write (Z.to_nat n) (mkConn (c_rate c) (c_seq c) acc (c_out c)).

(** What has been sent on the connection. *)
Definition conn_body (c : sse_conn) : string :=
  String.concat EmptyString ((fun ts => "data: " +:+ reading_text ts.1 ts.2 +:+ String newline (String newline ""))%string <$> c_out c).

(** ** The server *)

Record loadgen : Type := mkLoadgen {
  eventsSent : Z;
  connections : Z;
  startTime : Z;
  conns : gmap nat sse_conn;
  opened : nat
}.

Definition load_start (now : Z) : loadgen := mkLoadgen 0 0 now ∅ 0.

Inductive load_request : Type :=
| QOpen (rate : string)                              (* /sse *)
| QTick (i : nat) (clock : Z -> Z) (write : Z -> bool)
| QDone (i : nat)                                    (* the request's context ends *)
| QData                                              (* /data *)
| QReset (now : Z).                                  (* /reset *)

Definition drop_conn (i : nat) (s : loadgen) : loadgen :=
  mkLoadgen (eventsSent s) (connections s - 1) (startTime s) (delete i (conns s)) (opened s).

Definition load_step (q : load_request) (s : loadgen) : option loadgen :=
  match q with
  | QOpen rate =>
      Some (mkLoadgen (eventsSent s) (connections s + 1) (startTime s)
              (<[opened s := new_sse_conn rate]> (conns s)) (S (opened s)))
  | QTick i clock write =>
      c ← conns s !! i;
      let '(c', alive) := tick clock write c in
      let s := mkLoadgen (wrap_uint64 (eventsSent s + Z.of_nat (length (c_out c') - length (c_out c))))
                 (connections s) (startTime s) (<[i := c']> (conns s)) (opened s) in
      Some (if alive then s else drop_conn i s)
  | QDone i => _ ← conns s !! i; Some (drop_conn i s)
  | QData =>
      Some (mkLoadgen (wrap_uint64 (eventsSent s + 1)) (connections s) (startTime s) (conns s) (opened s))
  | QReset now => Some (mkLoadgen 0 (connections s) now (conns s) (opened s))
  end.

(** [handleData] answers the reading of the event it has counted. *)
Definition handleData (now : Z) (s : loadgen) : string :=
  (reading_text now (wrap_uint64 (eventsSent s + 1)) +:+ String newline "")%string.

Definition handleReset : string := js "{'reset':true}".

(** [Duration.Seconds]. *)
Definition seconds (d : Z) : float64 :=
  fadd (f_of_Z (Z.quot d 1000000000)) (fdiv (f_of_Z (Z.rem d 1000000000)) (f_of_Z 1000000000)).

(** [handleStats]: a map, so its members come in order; nothing is written when a
    number is not one JSON has. *)
Definition handleStats (now : Z) (s : loadgen) : option string :=
  let elapsed := seconds (now - startTime s) in
  avg ← enc_float (fdiv (f_of_Z (eventsSent s)) elapsed);
  uptime ← enc_float elapsed;
  Some (print (TObj [("avg_rate_events_s", avg); ("connections", enc_int (connections s));
                     ("events_sent", TNum (utoa (eventsSent s))); ("uptime_s", uptime)])
        +:+ String newline "")%string.

Example stats_ok : handleStats 3500000000 (mkLoadgen 7 1 0 ∅ 0)
  = Some (js "{'avg_rate_events_s':2,'connections':1,'events_sent':7,'uptime_s':3.5}" +:+ String newline "")%string
  /\ handleStats 5 (mkLoadgen 0 0 5 ∅ 0) = None.
Proof. split; vm_compute; reflexivity. Qed.

(** ** The rate *)

Definition always (_ : Z) : bool := true.

Definition ticks (clock : nat -> Z -> Z) (k : nat) (c : sse_conn) : sse_conn :=
  foldl (fun c i => (tick (clock i) always c).1) c (seq 0 k).

Lemma emit_always clock n : forall c, 0 <= c_seq c < 2 ^ 64 ->
  emit clock always n c =
  (mkConn (c_rate c) (wrap_uint64 (c_seq c + Z.of_nat n)) (c_acc c)
     (c_out c ++ ((fun i => (clock (wrap_uint64 i), wrap_uint64 i)) <$> seqZ (c_seq c + 1) (Z.of_nat n))), true).
Proof.
  induction n as [|n IH]; intros c Hc; cbn [emit].
  - rewrite Z.add_0_r. unfold wrap_uint64. rewrite Z.mod_small by done. cbn. rewrite app_nil_r. by destruct c.
  - unfold always at 1. rewrite IH by apply wrap_uint64_range. cbn [c_rate c_seq c_acc c_out].
    rewrite wrap_uint64_add. replace (c_seq c + 1 + Z.of_nat n) with (c_seq c + Z.of_nat (S n)) by lia.
    do 2 f_equal. rewrite Nat2Z.inj_succ, (seqZ_cons (c_seq c + 1)) by lia. rewrite fmap_cons, <- app_assoc. cbn [app].
    replace (Z.pred (Z.succ (Z.of_nat n))) with (Z.of_nat n) by lia. do 2 f_equal.
    apply list_eq. intros j. rewrite !list_lookup_fmap.
    destruct (decide (Z.of_nat j < Z.of_nat n)).
    + rewrite !lookup_seqZ_lt by lia. cbn [fmap option_fmap option_map]. rewrite <- Z.add_assoc, wrap_uint64_add.
      by replace (c_seq c + 1 + (1 + Z.of_nat j)) with (Z.succ (c_seq c + 1) + Z.of_nat j) by lia.
    + by rewrite !lookup_seqZ_ge by lia.
Qed.

Lemma sse_rate_pos v : 0 < sse_rate v.
Proof. unfold sse_rate. destruct (atoi v) as [n|]; [|done]. destruct (Z.ltb_spec 0 n); lia. Qed.

(** After [k] ticks: the whole part of the rate times the time, and the remainder. *)
Lemma ticks_exact clock v k :
  let c := ticks clock k (new_sse_conn v) in
  let sent := sse_rate v * Z.of_nat k / tickHz in
  c_rate c = sse_rate v /\ c_acc c = (sse_rate v * Z.of_nat k) mod tickHz /\
  c_seq c = wrap_uint64 sent /\ snd <$> c_out c = wrap_uint64 <$> seqZ 1 sent.
Proof.
  cbv zeta. unfold ticks, tickHz. pose proof (sse_rate_pos v) as Hpos. induction k as [|k IH].
  - change (Z.of_nat 0) with 0. rewrite Z.mul_0_r. done.
  - rewrite seq_S, foldl_app. cbn [foldl]. simpl (0 + k)%nat. set (c := foldl _ _ _) in *.
    destruct IH as (IR & IA & IS & IO). unfold tick, tick_events, tickHz. rewrite IR, IA.
    rewrite Nat2Z.inj_succ, Z.mul_succ_r.
    set (r := sse_rate v) in *. set (p := r * Z.of_nat k) in *.
    assert (Hp : 0 <= p) by (apply Z.mul_nonneg_nonneg; lia).
    pose proof (Z.div_mod r 100 ltac:(lia)) as Dr. pose proof (Z.mod_pos_bound r 100 ltac:(lia)) as Br.
    pose proof (Z.div_mod p 100 ltac:(lia)) as Dp. pose proof (Z.mod_pos_bound p 100 ltac:(lia)) as Bp.
    pose proof (Z.div_pos p 100 Hp ltac:(lia)). pose proof (Z.div_pos r 100 ltac:(lia) ltac:(lia)).
    assert (Hgo : forall n acc, 0 <= n -> p + r = 100 * (p / 100 + n) + acc -> 0 <= acc < 100 ->
      let c' := (emit (clock k) always (Z.to_nat n) (mkConn r (c_seq c) acc (c_out c))).1 in
      c_rate c' = r /\ c_acc c' = (p + r) mod 100 /\ c_seq c' = wrap_uint64 ((p + r) / 100) /\
      snd <$> c_out c' = wrap_uint64 <$> seqZ 1 ((p + r) / 100)).
    { intros n acc Hn E Hacc. rewrite emit_always by (cbn [c_seq]; rewrite IS; apply wrap_uint64_range).
      cbn [fst c_rate c_seq c_acc c_out]. rewrite Z2Nat.id by done.
      assert ((p + r) / 100 = p / 100 + n) as -> by (symmetry; by apply (Z.div_unique _ _ _ acc); [lia|]).
      assert ((p + r) mod 100 = acc) as -> by (symmetry; by apply (Z.mod_unique _ _ (p / 100 + n)); [lia|]).
      rewrite IS, wrap_uint64_add. split_and!; [done..|].
      rewrite fmap_app, IO, <- list_fmap_compose. rewrite seqZ_app by lia. rewrite fmap_app. f_equal.
      apply list_eq. intros j. rewrite !list_lookup_fmap. destruct (decide (Z.of_nat j < n)).
      - rewrite !lookup_seqZ_lt by lia. cbn [fmap option_fmap option_map compose snd]. rewrite <- Z.add_assoc, wrap_uint64_add.
        do 2 f_equal. lia.
      - by rewrite !lookup_seqZ_ge by lia. }
    destruct (Z.leb_spec 100 (p mod 100 + r mod 100)); apply Hgo; lia.
Qed.

(** ** What is sent can be read *)

(** The three numbers of a reading take finitely many values; each has a short
    decimal. *)
Definition short_literal (f : float64) : bool :=
  match format_json f with Some l => num_ok l && line_ok 16 l | None => false end.

Definition readings_ok (base step modulus : Z) : bool :=
  forallb (fun r => short_literal (reading base step modulus r)) (seqZ 0 modulus).

Lemma readings_checked :
  readings_ok 20 10 100 = true /\ readings_ok 45 10 50 = true /\ readings_ok 1013 10 20 = true.
Proof. split_and!; vm_compute; reflexivity. Qed.

Lemma reading_short base step modulus seq : 0 < modulus -> readings_ok base step modulus = true ->
  exists l, enc_float (reading base step modulus seq) = Some (TNum l) /\ num_ok l = true /\ line_ok 16 l = true.
Proof.
  unfold readings_ok. intros Hm H. rewrite forallb_forall in H.
  pose proof (Z.mod_pos_bound seq modulus Hm). specialize (H (seq mod modulus)).
  assert (Hr : reading base step modulus (seq mod modulus) = reading base step modulus seq).
  { unfold reading. by rewrite Z.mod_mod by lia. }
  rewrite Hr in H. unfold short_literal in H. unfold enc_float.
  destruct (format_json _) as [l|]; [|discriminate H; apply list_elem_of_In, elem_of_seqZ; lia].
  exists l. split; [done|]. apply andb_true_iff, H, list_elem_of_In, elem_of_seqZ. lia.
Qed.

Lemma line_ok_app n m s t : line_ok n s = true -> line_ok m t = true -> line_ok (n + m) (s +:+ t)%string = true.
Proof.
  unfold line_ok. rewrite !andb_true_iff, !Z.ltb_lt, str_forallb_app, str_length_app. intros [-> ?] [-> ?].
  split; [done|lia].
Qed.

Lemma line_ok_weaken n m s : line_ok n s = true -> n <= m -> line_ok m s = true.
Proof. unfold line_ok. rewrite !andb_true_iff, !Z.ltb_lt. intros [-> ?] ?. split; [done|lia]. Qed.

Lemma digits_line s n : all_digits s = true -> str_length s < n -> line_ok n s = true.
Proof.
  intros Hs Hn. unfold line_ok. rewrite (proj2 (Z.ltb_lt _ _) Hn), andb_true_r. clear Hn.
  induction s as [|c s IH]; [done|]. simpl in *. apply andb_true_iff in Hs as [Hc Hs]. rewrite IH by done.
  rewrite !bool_decide_false; [done|..]; intros ->; by vm_compute in Hc.
Qed.

Lemma utoa_line n : 0 <= n < 10 ^ 20 -> line_ok 21 (utoa n) = true.
Proof.
  intros Hn. destruct (utoa_digits n ltac:(lia)) as (H1 & H2 & H3). apply digits_line; [done|].
  destruct (Z.eq_dec n 0) as [->|Hz]; [by vm_compute|].
  unfold utoa in *. destruct (udigits_first (S (Z.to_nat (Z.log2 n))) n "") as (c & s & E & Hc & H0).
  { rewrite Nat2Z.inj_succ, Z2Nat.id by apply Z.log2_nonneg. pose proof (Z.log2_spec n). lia. }
  rewrite E in *. cbn [digits_value str_length] in *. rewrite digits_value_shift in H2.
  assert (1 <= digit_val c).
  { pose proof (digit_val_range c Hc). destruct (Z.eq_dec (digit_val c) 0) as [Hd|]; [|lia]. destruct H0.
    unfold digit_val in Hd. assert (byte_val c = 48) as Hv by lia. apply (f_equal byte_of) in Hv.
    by rewrite byte_of_val in Hv. }
  simpl in H1. apply andb_true_iff in H1 as [_ H1]. pose proof (digits_value_bound s H1).
  pose proof (str_length_nonneg s).
  destruct (Z.lt_ge_cases (str_length s) 20) as [|Hge]; [lia|].
  assert (10 ^ 20 <= 10 ^ str_length s) by (apply Z.pow_le_mono_r; lia).
  assert (1 * 10 ^ str_length s <= (0 * 10 + digit_val c) * 10 ^ str_length s) by (apply Z.mul_le_mono_nonneg_r; lia).
  lia.
Qed.

Lemma itoa_line z : in_int64 z = true -> line_ok 23 (itoa z) = true.
Proof.
  rewrite in_int64_spec. unfold min_int64, max_int64, itoa. intros Hz. destruct (Z.ltb_spec z 0).
  - apply (line_ok_app 2 21 "-"); [done|apply utoa_line; lia].
  - eapply line_ok_weaken; [apply utoa_line; lia|lia].
Qed.

Lemma num_ok_utoa n : 0 <= n -> num_ok (utoa n) = true.
Proof. intros Hn. pose proof (num_ok_itoa n) as H. unfold itoa in H. by rewrite (proj2 (Z.ltb_ge n 0)) in H by lia. Qed.

#[local] Opaque utoa itoa line_ok.

(** The text of a reading: a JSON object on one short line. *)
Lemma reading_line now seq : in_int64 now = true -> 0 <= seq < 2 ^ 64 ->
  line_ok 400 (reading_text now seq) = true /\
  json_valid (reading_text now seq) = true /\ str_is_empty (reading_text now seq) = false.
Proof.
  intros Hnow Hseq. pose proof readings_checked as (H1 & H2 & H3).
  destruct (reading_short 20 10 100 seq ltac:(lia) H1) as (t & Et & Nt & Lt).
  destruct (reading_short 45 10 50 seq ltac:(lia) H2) as (h & Eh & Nh & Lh).
  destruct (reading_short 1013 10 20 seq ltac:(lia) H3) as (p & Ep & Np & Lp).
  unfold reading_text, enc_reading, newPayload. cbn [Temperature Humidity Pressure]. rewrite Et, Eh, Ep.
  cbn [mbind option_bind fmap option_fmap option_map default from_option SensorID p_Seq p_Timestamp p_Status].
  set (tree := TObj _). split; [|split].
  - assert (print tree = (js "{'sensor_id':'loadgen-01','seq':" +:+ utoa seq +:+ js ",'timestamp':" +:+ itoa now
      +:+ js ",'temperature_c':" +:+ t +:+ js ",'humidity_pct':" +:+ h +:+ js ",'pressure_hpa':" +:+ p
      +:+ js ",'status':'ok'}")%string) as ->.
    { unfold tree, enc_int. generalize (utoa seq) (itoa now). clear. intros sq ts. simpl.
      repeat (rewrite ?str_app_assoc; autorewrite with gostr). reflexivity. }
    apply (line_ok_app 100 300); [vm_compute; reflexivity|]. apply (line_ok_app 21 279); [apply utoa_line; lia|].
    apply (line_ok_app 30 249); [vm_compute; reflexivity|]. apply (line_ok_app 23 226); [exact (itoa_line now Hnow)|].
    apply (line_ok_app 30 196); [vm_compute; reflexivity|]. apply (line_ok_app 16 180); [assumption|].
    apply (line_ok_app 30 150); [vm_compute; reflexivity|]. apply (line_ok_app 16 134); [assumption|].
    apply (line_ok_app 30 104); [vm_compute; reflexivity|]. apply (line_ok_app 16 88); [assumption|]. vm_compute. reflexivity.
  - assert (Hg : good 1 tree).
    { assert (Hsq : num_ok (utoa seq) = true).
      { apply num_ok_utoa. lia. }
      apply (good_obj 0); [done|]. repeat (apply Forall_cons_2; [split; [done|]|]); [| | | | | | |apply Forall_nil_2].
      - apply good_string.
      - by split.
      - apply good_int.
      - by split.
      - by split.
      - by split.
      - apply good_string. }
    destruct Hg as [Hok Hn]. unfold json_valid. apply bool_decide_eq_true. change (is_Some (parse_json (print tree))).
    rewrite parse_print; [by eexists|done|unfold maxNestingDepth; lia].
  - done.
Qed.

(** A frame of data alone. *)
Lemma loop_data id topic publish clock i d rest r : str_is_empty d = false ->
  read_lines id topic publish clock never i (("data: " +:+ d)%string :: EmptyString :: rest) no_frame r =
  let event := sse_event id (clock (S i)) (mkSse EmptyString d) in
  let '(tr, e) := read_lines id topic publish clock never (S (S i)) rest no_frame r in
  (CPublish topic event (publish event) :: tr, e).
Proof.
  intros Hd. cbn [read_lines]. unfold never, sse_line.
  change (str_is_empty ("data: " +:+ d)%string) with false.
  change (sse_field ("data: " +:+ d)%string no_frame) with (mkSse EmptyString d).
  cbn [str_is_empty currentData]. rewrite Hd. cbv zeta.
  by destruct (read_lines _ _ _ _ _ _ _ _ _).
Qed.

Definition data_lines (ts : Z * Z) : list string := [("data: " +:+ reading_text ts.1 ts.2)%string; EmptyString].

Lemma conn_body_lines out :
  String.concat EmptyString ((fun ts => "data: " +:+ reading_text ts.1 ts.2 +:+ String newline (String newline ""))%string <$> out)
  = join newline (concat (data_lines <$> out) ++ [EmptyString]).
Proof.
  assert (Hc : forall (x : string) xs, String.concat EmptyString (x :: xs) = (x +:+ String.concat EmptyString xs)%string).
  { intros x [|y xs]; [simpl; by rewrite str_app_empty_r|]. simpl. by rewrite str_app_nil. }
  induction out as [|ts out IH]; [done|]. rewrite !fmap_cons, Hc, IH. cbn [concat data_lines app].
  assert (Hj : forall (w : string) ws, ws <> [] -> join newline (w :: ws) = (w +:+ String newline (join newline ws))%string)
    by (by intros w [|]).
  rewrite Hj by done. rewrite Hj by (by destruct (concat _)). rewrite !str_app_assoc, str_app_nil. done.
Qed.

Lemma loop_readings id topic publish clock out r : forall i,
  Forall (fun ts => in_int64 ts.1 = true /\ 0 <= ts.2 < 2 ^ 64) out ->
  let '(tr, e) := read_lines id topic publish clock never i (concat (data_lines <$> out)) no_frame r in
  seen tr = (fun ts => ("sse_message"%string, reading_text ts.1 ts.2)) <$> out /\ e = r.
Proof.
  induction out as [|ts out IH]; intros i H; [done|]. apply Forall_cons in H as [[Ht Hs] H].
  destruct (reading_line ts.1 ts.2 Ht Hs) as (_ & Hv & He). rewrite fmap_cons. cbn [concat data_lines app].
  rewrite loop_data by done. cbv zeta. specialize (IH (S (S i)) H).
  destruct (read_lines _ _ _ _ _ _ _ _ _) as [tr e]. destruct IH as [IH ->]. split; [|done].
  rewrite fmap_cons, <- IH. unfold seen, published. cbn [omap list_omap fmap list_fmap].
  f_equal. unfold sse_event, sse_payload. cbn [se_Type se_Payload currentEvent currentData str_is_empty]. by rewrite Hv.
Qed.


(** ** The generator feeds the connector *)

(** What holds of a connection between its ticks: its events carry the numbers from
    one on, and were made at times the clock gives. *)
Record conn_inv (c : sse_conn) : Prop := {
  ci_rate : 0 < c_rate c;
  ci_acc : 0 <= c_acc c < tickHz;
  ci_seq : c_seq c = wrap_uint64 (Z.of_nat (length (c_out c)));
  ci_out : snd <$> c_out c = wrap_uint64 <$> seqZ 1 (Z.of_nat (length (c_out c)))
}.

Lemma new_conn_inv v : conn_inv (new_sse_conn v).
Proof. split; [apply sse_rate_pos|unfold tickHz; cbn; lia|done|done]. Qed.

Lemma tick_events_acc c : 0 < c_rate c -> 0 <= c_acc c < tickHz ->
  0 <= (tick_events c).1 /\ 0 <= (tick_events c).2 < tickHz.
Proof.
  unfold tick_events, tickHz. intros Hr Ha. pose proof (Z.mod_pos_bound (c_rate c) 100 ltac:(lia)).
  pose proof (Z.div_pos (c_rate c) 100 ltac:(lia) ltac:(lia)).
  destruct (Z.leb_spec 100 (c_acc c + c_rate c mod 100)); cbn [fst snd]; lia.
Qed.

(** A tick only appends; while it can write, it keeps the invariant. *)
Lemma emit_spec clock write n : forall c, conn_inv c ->
  let '(c', alive) := emit clock write n c in
  (exists more, c_out c' = c_out c ++ more /\ Z.of_nat (length more) <= Z.of_nat n /\
     Forall (fun ts => exists seq, ts.1 = clock seq) more) /\
  (alive = true -> conn_inv c').
Proof.
  induction n as [|n IH]; intros c Hc; cbn [emit].
  - split; [|done]. exists []. rewrite app_nil_r. cbn. split_and!; [done|lia|done].
  - destruct (write _); [|split; [|done]; exists []; rewrite app_nil_r; cbn; split_and!; [done|lia|done]].
    cbn [c_seq c_rate c_acc c_out]. set (seq := wrap_uint64 (c_seq c + 1)).
    assert (Hc' : conn_inv (mkConn (c_rate c) seq (c_acc c) (c_out c ++ [(clock seq, seq)]))).
    { destruct Hc as [H1 H2 H3 H4]. assert (Hs : seq = wrap_uint64 (Z.of_nat (length (c_out c)) + 1)).
      { unfold seq. by rewrite H3, wrap_uint64_add. }
      split; cbn [c_rate c_acc c_seq c_out]; [done|done| |]; rewrite length_app; cbn [length];
        rewrite Nat2Z.inj_add; change (Z.of_nat 1) with 1; [done|].
      rewrite fmap_app, H4, seqZ_app, fmap_app by lia. f_equal. rewrite Hs, Z.add_comm. done. }
    specialize (IH _ Hc'). destruct (emit clock write n _) as [c' alive].
    destruct IH as [(more & E & Hl & Hm) Ha]. split; [|done]. exists ((clock seq, seq) :: more).
    rewrite E. cbn [c_out]. rewrite <- app_assoc. split_and!; [done|cbn [length]; lia|].
    constructor; [by exists seq|done].
Qed.

Lemma tick_spec clock write c : conn_inv c ->
  let '(c', alive) := tick clock write c in
  (exists more, c_out c' = c_out c ++ more /\ Forall (fun ts => exists seq, ts.1 = clock seq) more) /\
  (alive = true -> conn_inv c').
Proof.
  intros Hc. unfold tick. pose proof (tick_events_acc c (ci_rate c Hc) (ci_acc c Hc)) as [_ Ha].
  destruct (tick_events c) as [n acc]. cbn [fst snd] in Ha.
  assert (Hc' : conn_inv (mkConn (c_rate c) (c_seq c) acc (c_out c))) by (destruct Hc; by split).
  pose proof (emit_spec clock write (Z.to_nat n) _ Hc') as H. destruct (emit _ _ _ _) as [c' alive].
  destruct H as [(more & E & _ & Hm) Hal]. split; [by exists more|done].
Qed.

Lemma ticks_inv made v k :
  conn_inv (ticks made k (new_sse_conn v)) /\
  Forall (fun ts => exists i seq, ts.1 = made i seq) (c_out (ticks made k (new_sse_conn v))).
Proof.
  induction k as [|k [IH IT]]; [split; [apply new_conn_inv|constructor]|].
  unfold ticks in *. rewrite seq_S, foldl_app. cbn [foldl]. set (c := foldl _ _ _) in *.
  pose proof (tick_spec (made (0 + k)%nat) always c IH) as H.
  assert (Ha : (tick (made (0 + k)%nat) always c).2 = true).
  { unfold tick. destruct (tick_events c). rewrite emit_always; [done|]. cbn [c_seq].
    rewrite (ci_seq c IH). apply wrap_uint64_range. }
  destruct (tick _ _ c) as [c' alive]. cbn [fst snd] in *. destruct H as [(more & E & Hm) Hal].
  split; [by apply Hal|]. rewrite E. apply Forall_app. split; [done|].
  eapply Forall_impl; [exact Hm|]. intros ts [seq Hs]. by exists (0 + k)%nat, seq.
Qed.

Lemma ticks_readable made v k : (forall i seq, in_int64 (made i seq) = true) ->
  Forall (fun ts => in_int64 ts.1 = true /\ 0 <= ts.2 < 2 ^ 64) (c_out (ticks made k (new_sse_conn v))).
Proof.
  intros Hm. destruct (ticks_inv made v k) as [[_ _ _ Ho] Ht]. set (c := ticks _ _ _) in *.
  rewrite Forall_forall in Ht |- *. intros ts Hin. split.
  - destruct (Ht ts Hin) as (i & seq & ->). apply Hm.
  - assert (Hs : ts.2 ∈ snd <$> c_out c) by (apply list_elem_of_fmap; by exists ts).
    rewrite Ho in Hs. apply list_elem_of_fmap in Hs as (i & -> & _). apply wrap_uint64_range.
Qed.

Lemma data_lines_ok ts : in_int64 ts.1 = true -> 0 <= ts.2 < 2 ^ 64 ->
  Forall (fun l => line_ok MaxScanTokenSize l = true) (data_lines ts).
Proof.
  intros Ht Hs. destruct (reading_line ts.1 ts.2 Ht Hs) as (Hl & _ & _). constructor; [|by repeat constructor].
  apply (line_ok_weaken (7 + 400)); [|by unfold MaxScanTokenSize].
  apply (line_ok_app 7 _ "data: "); [by vm_compute|done].
Qed.

(** (C19) The load generator and the connector agree, whatever number a request asks
    for as its rate: after [k] of its ticks, with the clock at any times and every
    write done, a connection has been sent exactly the whole part of rate * k / 100
    events, numbered from one on in order; and the connector's read loop over those
    bytes publishes exactly these events, in that order, each a message whose payload
    is the reading as it was sent, and then ends because the stream did. *)
Theorem loadgen_feeds_connector id topic publish clock made v k :
  (forall i seq, in_int64 (made i seq) = true) ->
  let c := ticks made k (new_sse_conn v) in
  let '(tr, e) := readLoop id topic publish clock never (conn_body c) None in
  snd <$> c_out c = wrap_uint64 <$> seqZ 1 (sse_rate v * Z.of_nat k / tickHz) /\
  seen tr = (fun ts => ("sse_message"%string, reading_text ts.1 ts.2)) <$> c_out c /\ e = LEof.
Proof.
  intros Hm. cbv zeta. pose proof (ticks_readable made v k Hm) as Hr.
  pose proof (ticks_exact made v k) as (_ & _ & _ & Ho). set (c := ticks _ _ _) in *.
  unfold readLoop, conn_body. rewrite conn_body_lines, body_lines_ok.
  - pose proof (loop_readings id topic publish clock (c_out c) LEof 0 Hr) as H.
    destruct (read_lines _ _ _ _ _ _ _ _ _) as [tr e]. by destruct H.
  - apply Forall_concat, Forall_fmap. eapply Forall_impl; [exact Hr|]. intros ts [Ht Hs]. by apply data_lines_ok.
Qed.

(** ** The server's counters *)

Inductive load_reach : loadgen -> Prop :=
| lr_start now : load_reach (load_start now)
| lr_step q s s' : load_reach s -> load_step q s = Some s' -> load_reach s'.

Record load_inv (s : loadgen) : Prop := {
  li_conns : connections s = Z.of_nat (size (conns s));
  li_opened : forall i, (opened s <= i)%nat -> conns s !! i = None;
  li_sent : 0 <= eventsSent s < 2 ^ 64;
  li_each : map_Forall (fun _ c => conn_inv c) (conns s)
}.

Lemma drop_conn_inv i s : is_Some (conns s !! i) ->
  connections s = Z.of_nat (size (conns s)) -> (forall j, (opened s <= j)%nat -> conns s !! j = None) ->
  0 <= eventsSent s < 2 ^ 64 -> map_Forall (fun _ c => conn_inv c) (delete i (conns s)) ->
  load_inv (drop_conn i s).
Proof.
  intros [c Hi] H1 H2 H3 H4. split; cbn [drop_conn connections conns eventsSent opened]; [|..|done|done].
  - rewrite map_size_delete_Some by done.
    assert (size (conns s) <> 0%nat).
    { intros Hz. apply map_size_empty_inv in Hz. by rewrite Hz, lookup_empty in Hi. }
    lia.
  - intros j Hj. rewrite lookup_delete_None. right. by apply H2.
Qed.

Lemma load_step_inv q s s' : load_inv s -> load_step q s = Some s' -> load_inv s'.
Proof.
  intros [H1 H2 H3 H4]. destruct q as [rate|i clock write|i| |now]; cbn [load_step].
  - intros [= <-]. split; cbn [connections conns eventsSent opened]; [| |done|].
    + rewrite map_size_insert_None by (apply H2; lia). lia.
    + intros i Hi. rewrite lookup_insert_ne by lia. apply H2. lia.
    + apply map_Forall_insert_2; [apply new_conn_inv|done].
  - destruct (conns s !! i) as [c|] eqn:Hi; [|done]. cbn [mbind option_bind].
    pose proof (tick_spec clock write c (H4 i c Hi)) as Ht. destruct (tick clock write c) as [c' alive].
    destruct Ht as [_ Hal].
    assert (Hop : forall j, (opened s <= j)%nat -> <[i:=c']> (conns s) !! j = None).
    { intros j Hj. rewrite lookup_insert_ne; [by apply H2|]. intros ->. by rewrite H2 in Hi. }
    intros [= <-]. destruct alive.
    + split; cbn [connections conns eventsSent opened]; [|done|apply wrap_uint64_range|].
      * by rewrite map_size_insert_Some.
      * apply map_Forall_insert_2; [by apply Hal|done].
    + apply drop_conn_inv; cbn [connections conns eventsSent opened]; [|..|apply wrap_uint64_range|].
      * rewrite lookup_insert_eq. by eexists.
      * by rewrite map_size_insert_Some.
      * done.
      * rewrite delete_insert_eq. by apply map_Forall_delete.
  - destruct (conns s !! i) as [c|] eqn:Hi; [|done]. intros [= <-].
    apply drop_conn_inv; [by eexists|done..|by apply map_Forall_delete].
  - intros [= <-]. split; [done|done|apply wrap_uint64_range|done].
  - intros [= <-]. split; [done|done|cbn; lia|done].
Qed.

(** In every state the load generator reaches, whatever requests, ticks, failed
    writes and resets came in whatever order: the connection counter is the number of
    open connections, the event counter is an unsigned 64-bit number, no connection
    has a number that is still to be given, and each open connection has a positive
    rate, a remainder below one tick's worth, and has been sent events numbered from
    one on without a gap, its sequence the number of the last. *)
Theorem load_reach_inv s : load_reach s -> load_inv s.
Proof.
  induction 1 as [now|q s s' _ IH Hs]; [|by apply (load_step_inv q s)].
  split; [done|done|cbn; lia|apply map_Forall_empty].
Qed.

(** ** Witnesses *)

Lemma loadgen_feeds_connector_witness :
  (forall i seq : Z, in_int64 ((fun _ _ => 5) i seq) = true) /\
  let c := ticks (fun _ _ => 5) 3 (new_sse_conn "75") in
  let '(tr, e) := readLoop "s" "t" (fun _ => None) (fun _ => 9) never (conn_body c) None in
  seen tr = [("sse_message", reading_text 5 1); ("sse_message", reading_text 5 2)]%string /\ e = LEof.
Proof.
  split; [done|].
  pose proof (loadgen_feeds_connector "s" "t" (fun _ => None) (fun _ => 9) (fun _ _ => 5) "75" 3 ltac:(done)) as H.
  cbv zeta in *. destruct (readLoop _ _ _ _ _ _ _) as [tr e]. destruct H as (_ & -> & ->). done.
Defined.

Definition demo_requests : list load_request :=
  [QOpen "250"; QOpen "x"; QTick 0 (fun _ => 5) always; QTick 0 (fun _ => 15) (fun seq => (seq <? 4)%Z); QData]%string.

Definition load_run (qs : list load_request) (s : loadgen) : option loadgen :=
  foldl (fun s q => s ≫= load_step q) (Some s) qs.

Lemma load_run_reach qs : forall s s', load_reach s -> load_run qs s = Some s' -> load_reach s'.
Proof.
  unfold load_run. induction qs as [|q qs IH]; intros s s' Hs; cbn [foldl]; [by intros [= <-]|].
  cbn [mbind option_bind]. destruct (load_step q s) as [s1|] eqn:E.
  - intros H. apply (IH s1); [by apply (lr_step q s)|done].
  - intros H. exfalso. clear -H. induction qs as [|q' qs IH]; [done|]. by apply IH.
Qed.

Lemma load_reach_inv_witness : exists s, load_run demo_requests (load_start 0) = Some s /\ load_reach s /\
  eventsSent s = 4 /\ connections s = 1 /\ load_inv s.
Proof.
  destruct (load_run demo_requests (load_start 0)) as [s|] eqn:E; [|vm_compute in E; discriminate E].
  assert (Hr : load_reach s) by (apply (load_run_reach _ _ _ (lr_start 0) E)).
  exists s. split; [done|]. split; [done|]. pose proof (load_reach_inv s Hr).
  assert (He : (fun s => (eventsSent s, connections s)) <$> load_run demo_requests (load_start 0) = Some (4, 1))
    by (vm_compute; reflexivity).
  rewrite E in He. injection He as H1 H2. done.
Defined.
