(* ===== verification/WebSocket.v ===== *)
(** * internal/connector/websocket.go: the WebSocket source

    The frames sent after the handshake, the read loop, and what is inferred from a
    message about the event it carries. *)

From Stdlib Require Import ZArith Lia Ascii.
From stdpp Require Import base tactics option strings gmap list.
From S2P Require Import Prelude GoLib GoFloat GoUrl GoJson GoJsonPrint GoJsonValue GoJsonString.
From S2P Require Import GoJsonStruct Domain Broker Connector.

#[local] Open Scope Z_scope.

(** ** Metadata *)

(** What a [json.Decoder] with [UseNumber] makes of a message it decodes into a
    map: its first value, whatever follows; [null] is an empty map. *)
Definition message_members (message : string) : option (list (string * jtree)) :=
  match scan_value (json_fuel message) 0 message with
  | Some (TObj ms, _) => Some ms
  | Some (TNull, _) => Some []
  | _ => None
  end.

(** [obj[key]]: the last member of that name. *)
Definition obj_get (key : string) (ms : list (string * jtree)) : option jtree :=
  foldl (fun acc kt => if str_eqb (unquote kt.1) key then Some kt.2 else acc) None ms.

Definition int64FromAny (value : option jtree) : option Z :=
  match value with Some (TNum lit) => atoi lit | _ => None end.

(** A value that is there, an integer, and positive. *)
Definition positive_int (key : string) (ms : list (string * jtree)) : option Z :=
  match int64FromAny (obj_get key ms) with
  | Some n => if 0 <? n then Some n else None
  | None => None
  end.

Definition seq_keys : list string := ["seq"; "u"; "lastUpdateId"; "t"]%string.

Fixpoint first_seq (keys : list string) (ms : list (string * jtree)) : Z :=
  match keys with
  | [] => 0
  | k :: keys' => match positive_int k ms with Some n => n | None => first_seq keys' ms end
  end.

Definition inferWebSocketMetadata (message : string) (fallbackTimestamp : Z) : string * Z * Z :=
  match message_members message with
  | None => ("websocket_message"%string, fallbackTimestamp, 0)
  | Some obj =>
      let eventType := match obj_get "e" obj with
                       | Some (TStr raw) => if str_is_empty (unquote raw) then "websocket_message"%string
                                            else unquote raw
                       | _ => "websocket_message"%string
                       end in
      (eventType, default fallbackTimestamp (positive_int "E" obj), first_seq seq_keys obj)
  end.

Inductive ws_kind : Type := TextMessage | BinaryMessage.

Definition eventFromMessage (id : string) (now : Z) (messageType : ws_kind) (message : string) : StreamEvent :=
  match messageType with
  | BinaryMessage => mkEvent id "websocket_binary" now 0 ContentTypeBinary None message
  | TextMessage =>
      let '(eventType, timestamp, seq) := inferWebSocketMetadata message now in
      mkEvent id eventType timestamp seq EmptyString (keep_or_wrap message) EmptyString
  end.

Example metadata_ok :
  (fun s => inferWebSocketMetadata (js s) 9) <$>
    ["{'e':'trade','E':1700,'u':5,'t':7}"; "{'e':'','E':-1,'seq':'3','t':1e3}"; "{'E':1.5,'seq':0,'u':2} trailing";
     "[1]"; "{'e':'a','e':'b','E':99999999999999999999}"]%string
  = [("trade", 1700, 5); ("websocket_message", 9, 0); ("websocket_message", 9, 2);
     ("websocket_message", 9, 0); ("b", 9, 0)]%string.
Proof. vm_compute. reflexivity. Qed.

(** ** The session *)

(** One turn of the loop: whether the context has ended before the read, the clock,
    and what [ReadMessage] answers. *)
Record ws_read : Type := mkRead {
  wr_done : bool;
  wr_now : Z;
  wr_message : result string (ws_kind * string)
}.

Section WebSocket.
Context (id url topic : string) (publish : StreamEvent -> option string).

(** The error [readLoop] returns; [None] when the reads given run out. *)
Fixpoint readLoop (reads : list ws_read) : list conn_effect * option string :=
  match reads with
  | [] => ([], None)
  | r :: reads' =>
      if wr_done r then ([], Some "context canceled"%string)
      else match wr_message r with
           | Err e => ([], Some e)
           | Ok (kind, message) =>
               let event := eventFromMessage id (wr_now r) kind message in
               let '(out, e) := readLoop reads' in
               (CPublish topic event (publish event) :: out, e)
           end
  end.

(** The frames written, and the write that failed. *)
Fixpoint sendOnConnect (write : string -> option string) (frames : list string)
  : list string * option string :=
  match frames with
  | [] => ([], None)
  | msg :: frames' =>
      match write msg with
      | Some e => ([], Some e)
      | None => let '(sent, e) := sendOnConnect write frames' in (msg :: sent, e)
      end
  end.

(** [Run] and the frames it sent; [done_at_end]: the context has ended when the
    loop returns. *)
Definition ws_run (onConnectSend : list string) (dial : option string) (write : string -> option string)
    (reads : list ws_read) (done_at_end : bool) : session * list string :=
  match dial with
  | Some e => (([], Some (RDial (redactURL url) e)), [])
  | None =>
      match sendOnConnect write onConnectSend with
      | (sent, Some e) => (([], Some (RPostConnect e)), sent)
      | (sent, None) =>
          let '(out, e) := readLoop reads in
          ((CReady :: out,
            match e with
            | Some e => if done_at_end then None else Some (RConnectionLost e)
            | None => None
            end), sent)
      end
  end.

(** ** What a session does *)

Lemma positive_int_range key ms n : positive_int key ms = Some n -> 0 < n <= max_int64.
Proof.
  unfold positive_int, int64FromAny. destruct (obj_get key ms) as [[]|]; try done.
  destruct (atoi lit) as [z|] eqn:E; [|done]. destruct (Z.ltb_spec 0 z); [|done]. intros [= <-].
  apply atoi_range, in_int64_spec in E. lia.
Qed.

Lemma first_seq_range keys ms : 0 <= first_seq keys ms <= max_int64.
Proof.
  induction keys as [|k keys IH]; [unfold max_int64; simpl; lia|]. simpl.
  destruct (positive_int k ms) eqn:E; [|done]. apply positive_int_range in E. lia.
Qed.

Lemma event_valid now r kind message : wr_message r = Ok (kind, message) ->
  event_ok id topic (CPublish topic (eventFromMessage id now kind message)
                       (publish (eventFromMessage id now kind message))).
Proof.
  intros _. destruct kind.
  - unfold eventFromMessage. destruct (inferWebSocketMetadata message now) as [[ty ts] seq].
    apply text_event_ok, keep_or_wrap_valid.
  - split; [done|]. split; [done|]. unfold publishable. simpl. destruct message; [by right|by left].
Qed.

Lemma readLoop_publishes reads :
  Forall (event_ok id topic) (readLoop reads).1 /\ Forall (fun c => is_ready c = false) (readLoop reads).1.
Proof.
  induction reads as [|r reads [IH1 IH2]]; [done|]. simpl. destruct (wr_done r); [done|].
  destruct (wr_message r) as [[kind message]|e] eqn:E; [|done]. pose proof (event_valid (wr_now r) r kind message E).
  destruct (readLoop reads) as [out e]. simpl in *. split; by constructor.
Qed.

(** The contract of source.go, for this source. *)
Lemma ws_conforms onConnectSend dial write reads done_at_end :
  conforms id topic (ws_run onConnectSend dial write reads done_at_end).1.
Proof.
  unfold ws_run. destruct dial; [apply conforms_nothing|].
  destruct (sendOnConnect write onConnectSend) as [sent [e|]]; [apply conforms_nothing|].
  pose proof (readLoop_publishes reads) as [H1 H2]. destruct (readLoop reads) as [out e].
  by apply conforms_ready.
Qed.

Lemma sendOnConnect_all write frames sent :
  sendOnConnect write frames = (sent, None) -> sent = frames /\ Forall (fun f => write f = None) frames.
Proof.
  revert sent. induction frames as [|f frames IH]; intros sent H; simpl in H; [by simplify_eq|].
  destruct (write f) eqn:E; [done|]. destruct (sendOnConnect write frames) as [s e]. simplify_eq.
  destruct (IH s eq_refl) as [-> ?]. split; [done|]. by constructor.
Qed.

(** A WebSocket session is ready, and publishes, only once every configured
    frame has been sent, in order, on the new connection.  What it then publishes
    is one event per message read: a binary message keeps its bytes; a text one is
    kept if it is JSON and wrapped if not, under a type that is never empty, with a
    positive event time or the clock, and a sequence that is never negative and
    fits the field. *)
Theorem websocket_session onConnectSend dial write reads done_at_end :
  let '((tr, err), sent) := ws_run onConnectSend dial write reads done_at_end in
  (tr <> [] -> exists out, tr = CReady :: out /\ sent = onConnectSend /\
     Forall (fun f => write f = None) onConnectSend /\ (done_at_end = true -> err = None)) /\
  forall topic' e answer, CPublish topic' e answer ∈ tr -> exists r kind message,
    r ∈ reads /\ wr_message r = Ok (kind, message) /\ e = eventFromMessage id (wr_now r) kind message /\
    0 <= se_Seq e <= max_int64 /\ se_Type e <> EmptyString /\
    (0 < wr_now r -> 0 < se_Timestamp e).
Proof.
  assert (Hev : forall reads topic' e answer, CPublish topic' e answer ∈ (readLoop reads).1 ->
    exists r kind message, r ∈ reads /\ wr_message r = Ok (kind, message) /\
      e = eventFromMessage id (wr_now r) kind message).
  { clear. induction reads as [|r reads IH]; intros topic' e answer H; simpl in H; [by apply elem_of_nil in H|].
    destruct (wr_done r); [by apply elem_of_nil in H|].
    destruct (wr_message r) as [[kind message]|e1] eqn:E; [|by apply elem_of_nil in H].
    destruct (readLoop reads) as [out e1]. simpl in H. apply elem_of_cons in H as [[= -> -> ->]|H].
    - exists r, kind, message. split; [left|done].
    - destruct (IH topic' e answer H) as (r' & k & m & Hr & ?). exists r', k, m. split; [by right|done]. }
  assert (Hbounds : forall now kind message, let e := eventFromMessage id now kind message in
    0 <= se_Seq e <= max_int64 /\ se_Type e <> EmptyString /\ (0 < now -> 0 < se_Timestamp e)).
  { clear. intros now kind message. destruct kind; [|simpl; unfold max_int64; split_and!; [lia..|done|done]].
    unfold eventFromMessage, inferWebSocketMetadata. destruct (message_members message) as [obj|].
    2: { simpl. unfold max_int64. split_and!; [lia..|done|done]. }
    cbn [se_Seq se_Type se_Timestamp]. split; [apply first_seq_range|]. split.
    - destruct (obj_get "e" obj) as [[]|]; try done. by destruct (unquote raw).
    - intros Hn. destruct (positive_int "E" obj) eqn:E; simpl; [apply positive_int_range in E; lia|done]. }
  unfold ws_run. destruct dial as [e|]; [split; [done|by intros ??? ?%elem_of_nil]|].
  destruct (sendOnConnect write onConnectSend) as [sent [e|]] eqn:Es; [split; [done|by intros ??? ?%elem_of_nil]|].
  apply sendOnConnect_all in Es as [-> Hw]. specialize (Hev reads).
  destruct (readLoop reads) as [out e]. split.
  - intros _. exists out. split_and!; try done. intros ->. by destruct e.
  - intros topic' ev answer H. apply elem_of_cons in H as [[=]|H].
    destruct (Hev topic' ev answer H) as (r & kind & message & Hr & Hm & ->).
    exists r, kind, message. split; [done|]. split; [done|]. split; [done|]. apply Hbounds.
Qed.
End WebSocket.
