(* ===== verification/Pipeline.v ===== *)
(** * internal/pipeline/pipeline.go: handlers, middlewares and their chain

    A handler is a Go function that may read the clock, change the state its
    closure captured and write metrics before it returns an error or nil.  All of
    that is the [world] it runs in; [outcome] says how the call ended. *)

From Stdlib Require Import ZArith Lia.
From stdpp Require Import base tactics list strings gmap.
From S2P Require Import Prelude GoLib GoFloat Domain Telemetry.

#[local] Open Scope Z_scope.

(** ** Closure state *)

(** An element of dedup's [container/list], and the entry it holds. *)
Record entry : Type := mkEntry { en_hash : Z; en_ts : Z }.

(** The LRU of [NewDedup]: the list front to back, each element under its
    address, and the map from hash to element.  [next_elem] is a fresh address. *)
Record dedup_state : Type := mkDedup {
  ll : list (nat * entry);
  cache : gmap Z nat;
  next_elem : nat
}.

Definition empty_dedup : dedup_state := mkDedup [] ∅ 0.

(** The per-group state of [NewThreshold]. *)
Record group_state : Type := mkGroup { hasLast : bool; lastVal : float64 }.

Record world : Type := mkWorld {
  w_now : Z;                          (* what time.Now() returns during this call *)
  w_metrics : metrics;
  w_dedup : dedup_state;
  w_states : gmap string group_state;
  w_sent : list (string * StreamEvent) (* calls to the terminal handler, in order *)
}.

Definition set_metrics f w := mkWorld (w_now w) (f (w_metrics w)) (w_dedup w) (w_states w) (w_sent w).
Definition set_dedup d w := mkWorld (w_now w) (w_metrics w) d (w_states w) (w_sent w).
Definition set_states s w := mkWorld (w_now w) (w_metrics w) (w_dedup w) s (w_sent w).
Definition set_sent l w := mkWorld (w_now w) (w_metrics w) (w_dedup w) (w_states w) l.
Definition set_now t w := mkWorld t (w_metrics w) (w_dedup w) (w_states w) (w_sent w).

Definition new_world : world := mkWorld 0 no_metrics empty_dedup ∅ [].

(** ** Handlers *)

Inductive outcome : Type :=
| Returned (err : option string)
| Panicked.

#[export] Instance outcome_eq_dec : EqDecision outcome.
Proof. solve_decision. Defined.

Definition Handler : Type := string -> StreamEvent -> world -> outcome * world.
Definition Middleware : Type := Handler -> Handler.

(** [New(middlewares...)] and [Execute]: the loop wraps from the last middleware
    to the first, so the first one sees an event first. *)
Definition PipelineT : Type := list Middleware.
Definition NewPipeline (middlewares : list Middleware) : PipelineT := middlewares.

Definition Execute (p : PipelineT) (publish : Handler) : Handler :=
  foldr (fun mw handler => mw handler) publish p.

(** A handler that drops: count it and return nil. *)
Definition drop_event (streamID middleware : string) : world -> outcome * world :=
  fun w => (Returned None,
            set_metrics (set_EventsDropped (counter_add (streamID, middleware) 1)) w).

(** ** Running a stream of events through a handler *)

(** Each event comes with the clock reading of its call. *)
Fixpoint feed (h : Handler) (calls : list (Z * string * StreamEvent)) (w : world)
  : list outcome * world :=
  match calls with
  | [] => ([], w)
  | (now, topic, ev) :: calls' =>
      let '(o, w1) := h topic ev (set_now now w) in
      let '(os, w2) := feed h calls' w1 in
      (o :: os, w2)
  end.

(** A terminal handler that records what reaches it and always succeeds. *)
Definition sink : Handler := fun topic ev w =>
  (Returned None, set_sent (w_sent w ++ [(topic, ev)]) w).

Lemma Execute_nil publish : Execute (NewPipeline []) publish = publish.
Proof. done. Qed.

Lemma Execute_cons mw mws publish :
  Execute (NewPipeline (mw :: mws)) publish = mw (Execute (NewPipeline mws) publish).
Proof. done. Qed.

Lemma Execute_app mws1 mws2 publish :
  Execute (NewPipeline (mws1 ++ mws2)) publish
  = Execute (NewPipeline mws1) (Execute (NewPipeline mws2) publish).
Proof. unfold Execute, NewPipeline. by rewrite foldr_app. Qed.
