(* ===== verification/Dedup.v ===== *)
(** * internal/pipeline/dedup.go

    FNV-1a hashing of the event body, the LRU keyed by hash, and the middleware
    that drops a body seen within the TTL.  The LRU is modelled with its pointer
    structure (list elements by address, a map into them); [lru_see] is what it
    promises: a bounded association list in recency order. *)

From Stdlib Require Import ZArith Lia Ascii.
From stdpp Require Import base tactics list strings gmap.
From S2P Require Import Prelude GoLib GoTime Domain Telemetry ConfigError PipelineConfig Pipeline.

#[local] Open Scope Z_scope.

(** ** hash/fnv, New64a *)

Definition fnv_offset64 : Z := 14695981039346656037.
Definition fnv_prime64 : Z := 1099511628211.

Fixpoint fnv64a_from (h : Z) (s : string) : Z :=
  match s with
  | EmptyString => h
  | String c s' => fnv64a_from ((Z.lxor h (byte_val c) * fnv_prime64) mod 2 ^ 64) s'
  end.

Definition fnv64a (s : string) : Z := fnv64a_from fnv_offset64 s.

Example fnv64a_empty : fnv64a "" = 14695981039346656037.
Proof. reflexivity. Qed.
Example fnv64a_a : fnv64a "a" = 12638187200555641996.
Proof. vm_compute. reflexivity. Qed.

(** ** container/list on addressed elements *)

Fixpoint list_elem (a : nat) (l : list (nat * entry)) : option entry :=
  match l with
  | [] => None
  | (b, e) :: l' => if decide (b = a) then Some e else list_elem a l'
  end.

Definition list_remove (a : nat) (l : list (nat * entry)) : list (nat * entry) :=
  filter (fun be => be.1 <> a) l.

Definition list_move_to_front (a : nat) (l : list (nat * entry)) : list (nat * entry) :=
  match list_elem a l with
  | Some e => (a, e) :: list_remove a l
  | None => l
  end.

(** ** The handler *)

(** [ll.Remove(oldest); delete(cache, oldest.hash)] when the cache is full;
    reports whether an entry was evicted. *)
Definition evict (cacheSize : Z) (d : dedup_state) : dedup_state * bool :=
  if cacheSize <=? Z.of_nat (size (cache d)) then
    match last (ll d) with
    | Some (a, e) => (mkDedup (list_remove a (ll d)) (delete (en_hash e) (cache d)) (next_elem d), true)
    | None => (d, false)
    end
  else (d, false).

(** [ll.PushFront(&entry{hash, now}); cache[hash] = elem] *)
Definition push_front (hash now : Z) (d : dedup_state) : dedup_state :=
  mkDedup ((next_elem d, mkEntry hash now) :: ll d) (<[hash := next_elem d]> (cache d))
    (S (next_elem d)).

(** The body of the handler up to the call of [next]: [true] when the event is
    a duplicate, with the new cache and whether an entry was evicted. *)
Definition see (ttl cacheSize now hash : Z) (d : dedup_state) : bool * bool * dedup_state :=
  let fresh_entry := a ← cache d !! hash; e ← list_elem a (ll d); Some (a, e) in
  match fresh_entry with
  | Some (a, e) =>
      if time_sub now (en_ts e) <=? ttl then
        (true, false, mkDedup (list_move_to_front a (ll d)) (cache d) (next_elem d))
      else
        let d := mkDedup (list_remove a (ll d)) (delete hash (cache d)) (next_elem d) in
        let '(d, evicted) := evict cacheSize d in
        (false, evicted, push_front hash now d)
  | None =>
      let '(d, evicted) := evict cacheSize d in
      (false, evicted, push_front hash now d)
  end.

Definition dedup_handler (streamID : string) (ttl cacheSize : Z) : Middleware :=
  fun next topic event w =>
    let hash := fnv64a (Body event) in
    let '(dup, evicted, d) := see ttl cacheSize (w_now w) hash (w_dedup w) in
    let w := set_dedup d w in
    if dup then drop_event streamID "dedup" w
    else
      let w := if evicted
               then set_metrics (set_DedupCacheEvictions (counter_add streamID 1)) w else w in
      let w := set_metrics (set_DedupCacheSize
                 (fun g => <[streamID := Z.of_nat (size (cache d))]> g)) w in
      next topic event w.

(** [NewDedup]: nothing for an absent or disabled block; an error for a value it
    cannot honour; otherwise the capacity gauge is set, the closure starts from
    an empty cache, and the middleware is returned. *)
Definition NewDedup (streamID : string) (cfg : option DedupConfig) (w : world)
  : result cfg_error (option Middleware) * world :=
  match cfg with
  | None => (Ok None, w)
  | Some c =>
      if negb (dc_Enabled c) then (Ok None, w)
      else
        match resolveDuration "pipeline.dedup.ttl" (dc_TTL c) defaultDedupTTL with
        | Err e => (Err e, w)
        | Ok ttl =>
            match resolveCount "pipeline.dedup.cache_size" (dc_CacheSize c)
                    defaultDedupCacheSize maxDedupCacheSize with
            | Err e => (Err e, w)
            | Ok cacheSize =>
                (Ok (Some (dedup_handler streamID ttl cacheSize)),
                 set_dedup empty_dedup
                   (set_metrics (set_DedupCacheCapacity (fun g => <[streamID := cacheSize]> g)) w))
            end
        end
  end.

(** ** The promise: a bounded recency list *)

(** Hashes with the instant each was last accepted, most recent use first. *)
Abbreviation lru := (list (Z * Z)).

Fixpoint lru_find (h : Z) (l : lru) : option Z :=
  match l with
  | [] => None
  | (k, ts) :: l' => if decide (k = h) then Some ts else lru_find h l'
  end.

Definition lru_drop (h : Z) (l : lru) : lru := filter (fun kt => kt.1 <> h) l.

(** A duplicate moves to the front and keeps its instant; anything else is
    recorded as of now, the oldest use making room when the list is full. *)
Definition lru_see (ttl cap now h : Z) (l : lru) : bool * lru :=
  match lru_find h l with
  | Some ts =>
      if time_sub now ts <=? ttl then (true, (h, ts) :: lru_drop h l)
      else (false, (h, now) :: lru_drop h l)
  | None => (false, (h, now) :: take (Z.to_nat (cap - 1)) l)
  end.

Definition abstract (d : dedup_state) : lru := (fun be => (en_hash be.2, en_ts be.2)) <$> ll d.

(** The map the list determines: the address of the element holding each hash. *)
Definition index (l : list (nat * entry)) : list (Z * nat) := (fun be => (en_hash be.2, be.1)) <$> l.

(** The invariant that makes the pointer structure an LRU: addresses and hashes
    are unique in the list, the map is exactly the one the list determines, new
    addresses are fresh, and the capacity is respected. *)
Record dedup_inv (cap : Z) (d : dedup_state) : Prop := {
  di_addr : NoDup (ll d).*1;
  di_hash : NoDup (abstract d).*1;
  di_map : cache d = list_to_map (index (ll d));
  di_fresh : forall a, a ∈ (ll d).*1 -> (a < next_elem d)%nat;
  di_size : Z.of_nat (length (ll d)) <= cap
}.

Lemma abstract_index d : (abstract d).*1 = (index (ll d)).*1.
Proof. unfold abstract, index. rewrite <- !list_fmap_compose. by apply list_fmap_ext. Qed.

Lemma list_elem_Some a e l : NoDup l.*1 -> list_elem a l = Some e <-> (a, e) ∈ l.
Proof.
  induction l as [|[b f] l IH]; csimpl; [set_solver|].
  rewrite NoDup_cons. intros [Hb Hl]. rewrite elem_of_cons. case_decide as Hd.
  - subst. split; [naive_solver|]. intros [[= ->]|Hin]; [done|].
    destruct Hb. apply list_elem_of_fmap. by exists (a, e).
  - rewrite IH by done. naive_solver.
Qed.

(** Removing an element by its address is removing its entry from the list. *)
Lemma list_remove_perm a e l :
  NoDup l.*1 -> (a, e) ∈ l -> l ≡ₚ (a, e) :: list_remove a l.
Proof.
  unfold list_remove. induction l as [|[b f] l IH]; csimpl; [set_solver|].
  rewrite NoDup_cons, elem_of_cons. intros [Hb Hl] [Heq|Hin].
  - simplify_eq. rewrite filter_cons_False by naive_solver. f_equiv.
    rewrite filter_all; [done|]. intros [c g] Hc Heq. simpl in Heq. subst.
    destruct Hb. apply list_elem_of_fmap. by exists (b, g).
  - rewrite filter_cons_True.
    + etrans; [apply perm_skip, IH; done|]. apply perm_swap.
    + simpl. intros ->. destruct Hb. apply list_elem_of_fmap. by exists (a, e).
Qed.

(** Removing by address and by hash is the same thing. *)
Lemma abstract_remove a e d c n :
  NoDup (ll d).*1 -> NoDup (index (ll d)).*1 -> (a, e) ∈ ll d ->
  abstract (mkDedup (list_remove a (ll d)) c n) = lru_drop (en_hash e) (abstract d).
Proof.
  intros Ha Hh Hin. unfold abstract, lru_drop, list_remove. simpl.
  rewrite filter_fmap. f_equal. apply filter_ext_in. intros [b f] Hb. simpl.
  unfold index in Hh. rewrite <- list_fmap_compose in Hh.
  pose proof (NoDup_fmap_eq _ (ll d) (a, e) (b, f) Hh Hin Hb) as H1.
  pose proof (NoDup_fmap_eq _ (ll d) (a, e) (b, f) Ha Hin Hb) as H2. naive_solver.
Qed.

Lemma lru_find_Some d h ts :
  NoDup (abstract d).*1 ->
  lru_find h (abstract d) = Some ts <-> (h, ts) ∈ abstract d.
Proof.
  generalize (abstract d). intros l. induction l as [|[k t] l IH]; csimpl; [set_solver|].
  rewrite NoDup_cons, elem_of_cons. intros [Hk Hl]. case_decide as Hd.
  - subst. split; [naive_solver|]. intros [[= ->]|Hin]; [done|].
    destruct Hk. apply list_elem_of_fmap. by exists (h, ts).
  - rewrite IH by done. naive_solver.
Qed.

Lemma lru_find_None l h : lru_find h l = None <-> h ∉ l.*1.
Proof.
  induction l as [|[k t] l IH]; csimpl; [set_solver|].
  rewrite elem_of_cons. case_decide; naive_solver.
Qed.

Section Lru.
Variables (cap : Z) (d : dedup_state).
Hypothesis cap_pos : 0 < cap.
Hypothesis I : dedup_inv cap d.

Lemma inv_index_nodup : NoDup (index (ll d)).*1.
Proof. rewrite <- abstract_index. apply I. Qed.

Lemma cache_size : Z.of_nat (size (cache d)) = Z.of_nat (length (ll d)).
Proof.
  rewrite (di_map _ _ I), map_size_list_to_map by apply inv_index_nodup.
  unfold index. by rewrite length_fmap.
Qed.

(** A cached hash has its element in the list, and conversely. *)
Lemma cache_elem h a e :
  (x ← cache d !! h; y ← list_elem x (ll d); Some (x, y)) = Some (a, e) <->
  (a, e) ∈ ll d /\ en_hash e = h.
Proof.
  pose proof (di_addr _ _ I) as Ha. pose proof inv_index_nodup as Hh.
  rewrite (di_map _ _ I). split.
  - intros H. apply bind_Some in H as (x & Hx & H). apply bind_Some in H as (y & Hy & H).
    simplify_eq. apply elem_of_list_to_map_2 in Hx. apply list_elem_Some in Hy; [|done].
    split; [done|]. unfold index in Hx. apply list_elem_of_fmap in Hx as ([b f] & Heq & Hin).
    simplify_eq/=. pose proof (NoDup_fmap_eq fst _ (b, f) (b, e) Ha Hin Hy). naive_solver.
  - intros [Hin <-].
    assert (list_to_map (M := gmap Z nat) (index (ll d)) !! en_hash e = Some a) as ->.
    { apply elem_of_list_to_map_1; [done|]. unfold index. apply list_elem_of_fmap.
      by exists (a, e). }
    simpl. apply list_elem_Some in Hin; [|done]. by rewrite Hin.
Qed.

Lemma lookup_abstract h :
  (e ← (x ← cache d !! h; y ← list_elem x (ll d); Some (x, y)); Some (en_ts e.2))
  = lru_find h (abstract d).
Proof.
  destruct (x ← cache d !! h; y ← list_elem x (ll d); Some (x, y)) as [[a e]|] eqn:E; simpl.
  - apply cache_elem in E as [Hin <-]. symmetry. apply lru_find_Some; [apply I|].
    unfold abstract. apply list_elem_of_fmap. by exists (a, e).
  - symmetry. apply lru_find_None. intros Hin. unfold abstract in Hin.
    rewrite <- list_fmap_compose in Hin. apply list_elem_of_fmap in Hin as ([a e] & -> & Hin).
    assert (Some (a, e) = None) as [=]. rewrite <- E. symmetry. by apply cache_elem.
Qed.

(** Taking an element out leaves an LRU one entry smaller. *)
Lemma remove_inv a e :
  (a, e) ∈ ll d ->
  dedup_inv (cap - 1) (mkDedup (list_remove a (ll d)) (delete (en_hash e) (cache d)) (next_elem d))
  /\ en_hash e ∉ (index (list_remove a (ll d))).*1
  /\ S (length (list_remove a (ll d))) = length (ll d).
Proof.
  intros Hin. destruct I as [Ha Hh Hm Hf Hs]. rewrite abstract_index in Hh.
  pose proof (list_remove_perm a e (ll d) Ha Hin) as Hp.
  assert (Ha' := Ha). rewrite Hp in Ha'. csimpl in Ha'. apply NoDup_cons in Ha' as [Hn Ha'].
  assert (Hpi : index (ll d) ≡ₚ (en_hash e, a) :: index (list_remove a (ll d))).
  { unfold index. rewrite Hp at 1. done. }
  assert (Hh' := Hh). rewrite Hpi in Hh'. csimpl in Hh'. apply NoDup_cons in Hh' as [Hnh Hh'].
  split_and!; [|done|by rewrite Hp at 2].
  split; [|rewrite abstract_index|..]; simpl.
  - done.
  - done.
  - rewrite Hm, (list_to_map_proper _ _ Hh Hpi). simpl.
    rewrite delete_insert_id; [done|]. by apply not_elem_of_list_to_map_1.
  - intros b Hb. apply Hf. rewrite Hp. csimpl. by right.
  - rewrite Hp in Hs. simpl in Hs. lia.
Qed.

Lemma push_inv h now :
  h ∉ (index (ll d)).*1 -> dedup_inv (cap + 1) (push_front h now d).
Proof.
  intros Hh. pose proof inv_index_nodup as Hnd. destruct I as [Ha _ Hm Hf Hs].
  split; [|rewrite abstract_index|..]; unfold push_front; csimpl.
  - apply NoDup_cons. split; [|done]. intros Hin. specialize (Hf _ Hin). lia.
  - apply NoDup_cons. done.
  - by rewrite Hm.
  - intros b Hb. csimpl in Hb. apply elem_of_cons in Hb as [->|Hb]; [lia|].
    specialize (Hf _ Hb). lia.
  - lia.
Qed.

(** A duplicate only changes the order. *)
Lemma front_inv a e :
  (a, e) ∈ ll d ->
  dedup_inv cap (mkDedup (list_move_to_front a (ll d)) (cache d) (next_elem d)).
Proof.
  intros Hin. pose proof inv_index_nodup as Hh. destruct I as [Ha _ Hm Hf Hs].
  pose proof (list_remove_perm a e (ll d) Ha Hin) as Hp.
  unfold list_move_to_front. apply list_elem_Some in Hin; [|done]. rewrite Hin.
  split; [|rewrite abstract_index|..]; simpl.
  - change (NoDup ((a, e) :: list_remove a (ll d)).*1). by rewrite <- Hp.
  - change (NoDup (index ((a, e) :: list_remove a (ll d))).*1).
    unfold index in *. by rewrite <- Hp.
  - rewrite Hm. change (list_to_map (M := gmap Z nat) (index (ll d))
      = list_to_map (index ((a, e) :: list_remove a (ll d)))).
    apply list_to_map_proper; [done|]. unfold index. by rewrite <- Hp.
  - intros b Hb. apply Hf. rewrite Hp. done.
  - rewrite Hp in Hs. done.
Qed.

(** Making room: the entry used longest ago goes, and only when the cache is
    full. *)
Lemma evict_spec :
  let '(d', evicted) := evict cap d in
  dedup_inv (cap - 1) d' /\ abstract d' = take (Z.to_nat (cap - 1)) (abstract d) /\
  evicted = bool_decide (Z.of_nat (length (ll d)) = cap).
Proof.
  unfold evict. rewrite cache_size. destruct (Z.leb_spec cap (Z.of_nat (length (ll d)))) as [Hle|Hlt].
  - pose proof (di_size _ _ I) as Hs.
    destruct (last (ll d)) as [[a e]|] eqn:Hl.
    + apply last_Some in Hl as [l' Hl].
      assert (Hin : (a, e) ∈ ll d) by (rewrite Hl; set_solver).
      pose proof (remove_inv a e Hin) as (Hinv & _ & Hlen).
      split_and!; [done| |symmetry; apply bool_decide_eq_true; lia].
      rewrite (abstract_remove a e d _ _ (di_addr _ _ I)
                 inv_index_nodup Hin).
      pose proof (di_hash _ _ I) as Hnd. revert Hnd.
      unfold abstract. csimpl. rewrite Hl, !fmap_app. rewrite Hl, length_app in Hlen, Hs, Hle. csimpl in *.
      intros Hnd. apply NoDup_app in Hnd as (_ & Hdisj & _).
      rewrite take_app_length' by (rewrite length_fmap; lia).
      unfold lru_drop. rewrite filter_app, filter_cons_False, filter_nil, app_nil_r by naive_solver.
      apply filter_all. intros [k t] Hk Hkt. simpl in Hkt. subst. apply (Hdisj (en_hash e)); [|set_solver].
      apply list_elem_of_fmap. by exists (en_hash e, t).
    + apply last_None in Hl. rewrite Hl in *. simpl in *. lia.
  - split_and!.
    + destruct I. split; try done. lia.
    + rewrite take_ge; [done|]. unfold abstract. rewrite length_fmap. lia.
    + symmetry. apply bool_decide_eq_false. lia.
Qed.
End Lru.

Lemma push_abstract h now d : abstract (push_front h now d) = (h, now) :: abstract d.
Proof. done. Qed.

Lemma lru_drop_notin h l : h ∉ (lru_drop h l).*1.
Proof.
  unfold lru_drop. intros Hin. apply list_elem_of_fmap in Hin as ([k t] & -> & Hin).
  by apply list_elem_of_filter in Hin as [H _].
Qed.

(** The pointer structure implements the recency list: the verdict is the
    list's, and so is the resulting content. *)
Lemma see_spec ttl cap now h d :
  0 < cap -> dedup_inv cap d ->
  let '(dup, evicted, d') := see ttl cap now h d in
  dedup_inv cap d' /\ (dup, abstract d') = lru_see ttl cap now h (abstract d) /\
  evicted = negb dup && bool_decide (lru_find h (abstract d) = None)
            && bool_decide (Z.of_nat (length (abstract d)) = cap).
Proof.
  intros Hcap I. unfold see, lru_see. pose proof (lookup_abstract cap d I h) as Hlk.
  destruct (a ← cache d !! h; e ← list_elem a (ll d); Some (a, e)) as [[a e]|] eqn:E; simpl in Hlk.
  - apply (cache_elem cap d I h a e) in E as [Hin <-]. rewrite <- Hlk.
    destruct (_ <=? ttl) eqn:Httl.
    + split_and!; [by apply (front_inv cap d I a e)| |done].
      f_equal. unfold list_move_to_front.
      pose proof (proj2 (list_elem_Some a e _ (di_addr _ _ I)) Hin) as ->.
      by rewrite <- (abstract_remove a e d (cache d) (next_elem d) (di_addr _ _ I)
                       (inv_index_nodup cap d I) Hin).
    + destruct (remove_inv cap d I a e Hin) as (I1 & Hn & Hlen).
      set (d1 := mkDedup _ _ _) in *.
      assert (I1' : dedup_inv cap d1) by (destruct I1; split; try done; lia).
      pose proof (evict_spec cap d1 Hcap I1') as Hev. destruct (evict cap d1) as [d2 ev].
      destruct Hev as (I2 & Ha2 & ->).
      pose proof (di_size _ _ I1) as Hs1.
      assert (abstract d2 = lru_drop (en_hash e) (abstract d)) as Ha.
      { rewrite Ha2, take_ge.
        - apply abstract_remove; [apply I|by apply (inv_index_nodup cap)|done].
        - unfold abstract. rewrite length_fmap. lia. }
      split_and!.
      * replace cap with (cap - 1 + 1) by lia. apply push_inv; [done|].
        rewrite <- abstract_index, Ha. apply lru_drop_notin.
      * by rewrite push_abstract, Ha.
      * rewrite bool_decide_eq_false_2 by lia. simpl. done.
  - rewrite <- Hlk. pose proof (evict_spec cap d Hcap I) as Hev. destruct (evict cap d) as [d2 ev].
    destruct Hev as (I2 & Ha2 & ->). simpl. split_and!.
    + replace cap with (cap - 1 + 1) by lia. apply push_inv; [done|].
      rewrite <- abstract_index, Ha2. symmetry in Hlk. apply lru_find_None in Hlk.
      contradict Hlk. apply list_elem_of_fmap in Hlk as (x & -> & Hx). apply list_elem_of_fmap.
      exists x. split; [done|]. apply elem_of_take in Hx as (i & Hx & _). by eapply list_elem_of_lookup_2.
    + by rewrite push_abstract, Ha2.
    + unfold abstract. by rewrite length_fmap.
Qed.

(** ** Streams of events *)

(** What gets through a deduplicator given by a verdict and a state update: the
    hashes of the bodies decide. *)
Fixpoint dedup_run {S} (step : Z -> Z -> S -> bool * S) (calls : list (Z * string * StreamEvent))
    (s : S) : list (string * StreamEvent) :=
  match calls with
  | [] => []
  | (now, topic, ev) :: calls' =>
      let '(dup, s') := step now (fnv64a (Body ev)) s in
      (if dup then [] else [(topic, ev)]) ++ dedup_run step calls' s'
  end.

(** Without a bound on memory: every accepted hash and its instant. *)
Definition seen_step (ttl now h : Z) (m : gmap Z Z) : bool * gmap Z Z :=
  match m !! h with
  | Some ts => if time_sub now ts <=? ttl then (true, m) else (false, <[h := now]> m)
  | None => (false, <[h := now]> m)
  end.

Definition call_hashes (calls : list (Z * string * StreamEvent)) : gset Z :=
  list_to_set ((fun c => fnv64a (Body c.2)) <$> calls).

Lemma empty_dedup_inv cap : 0 <= cap -> dedup_inv cap empty_dedup.
Proof. intros H. split; simpl; first [apply NoDup_nil_2|done|set_solver|lia]. Qed.

Lemma NewDedup_ok streamID cfg w mw w' :
  NewDedup streamID cfg w = (Ok (Some mw), w') <->
  exists c ttl cap, cfg = Some c /\ dc_Enabled c = true /\
    resolveDuration "pipeline.dedup.ttl" (dc_TTL c) defaultDedupTTL = Ok ttl /\
    resolveCount "pipeline.dedup.cache_size" (dc_CacheSize c) defaultDedupCacheSize
      maxDedupCacheSize = Ok cap /\
    mw = dedup_handler streamID ttl cap /\
    w' = set_dedup empty_dedup
           (set_metrics (set_DedupCacheCapacity (fun g => <[streamID := cap]> g)) w).
Proof.
  unfold NewDedup. split.
  - intros H. destruct cfg as [c|]; [|done]. destruct (dc_Enabled c) eqn:He; [|done]. simpl in H.
    destruct (resolveDuration _ _ _) as [ttl|] eqn:Ht; [|done].
    destruct (resolveCount _ _ _ _) as [cap|] eqn:Hc; [|done]. simplify_eq. by exists c, ttl, cap.
  - intros (c & ttl & cap & -> & He & Ht & Hc & -> & ->). by rewrite He, Ht, Hc.
Qed.

Lemma feed_dedup streamID ttl cap calls : 0 < cap -> forall w,
  dedup_inv cap (w_dedup w) ->
  let '(os, w') := feed (dedup_handler streamID ttl cap sink) calls w in
  os = replicate (length calls) (Returned None) /\
  dedup_inv cap (w_dedup w') /\
  w_sent w' = w_sent w ++ dedup_run (lru_see ttl cap) calls (abstract (w_dedup w)).
Proof.
  intros Hcap. induction calls as [|[[now topic] ev] calls IH]; intros w I.
  { simpl. by rewrite app_nil_r. }
  cbn [feed dedup_run length replicate]. unfold dedup_handler at 1. cbn [w_now set_now w_dedup].
  pose proof (see_spec ttl cap now (fnv64a (Body ev)) (w_dedup w) Hcap I) as Hs.
  destruct (see _ _ _ _ _) as [[dup evicted] d]. destruct Hs as (Id & Hd & _).
  destruct (lru_see _ _ _ _ _) as [dup' l']. simplify_eq/=.
  destruct dup'; [|destruct evicted]; simpl;
    match goal with |- context [feed _ calls ?w1] => specialize (IH w1 Id) end;
    destruct (feed _ calls _) as [os w']; simpl in IH; destruct IH as (-> & I' & ->);
    rewrite <- ?(assoc_L (++)); done.
Qed.

(** The deduplicator of a validated configuration. *)
Lemma NewDedup_stream streamID c ttl cap w :
  dc_Enabled c = true ->
  resolveDuration "pipeline.dedup.ttl" (dc_TTL c) defaultDedupTTL = Ok ttl ->
  resolveCount "pipeline.dedup.cache_size" (dc_CacheSize c) defaultDedupCacheSize
    maxDedupCacheSize = Ok cap ->
  0 < cap /\ exists mw w1, NewDedup streamID (Some c) w = (Ok (Some mw), w1) /\
  forall calls, let '(os, w2) := feed (Execute (NewPipeline [mw]) sink) calls w1 in
    os = replicate (length calls) (Returned None) /\
    w_sent w2 = w_sent w ++ dedup_run (lru_see ttl cap) calls [].
Proof.
  intros He Ht Hc.
  assert (0 < cap) by (apply resolveCount_bounds in Hc; [lia|done..]).
  split; [done|]. eexists _, _. split; [apply NewDedup_ok; eauto 10|].
  intros calls. rewrite Execute_cons, Execute_nil.
  match goal with |- context [feed _ _ ?w1] =>
    pose proof (feed_dedup streamID ttl cap calls ltac:(done) w1
                  (empty_dedup_inv cap ltac:(lia))) as H' end.
  destruct (feed _ _ _) as [os w2]. destruct H' as (-> & _ & ->). done.
Qed.

(** ** Unbounded reference *)

Section Reference.
Variables (ttl cap : Z) (H : gset Z).
Hypothesis cap_size : Z.of_nat (size H) <= cap.

(** The list and the map know the same hashes, all of them from [H]. *)
Definition agree (l : lru) (m : gmap Z Z) : Prop :=
  NoDup l.*1 /\ (forall h, lru_find h l = m !! h) /\ (forall h, h ∈ l.*1 -> h ∈ H).

Lemma lru_find_drop h k l : lru_find h (lru_drop k l) = if decide (h = k) then None else lru_find h l.
Proof.
  induction l as [|[j t] l IH]; [by case_decide|]. unfold lru_drop in *.
  rewrite filter_cons. simpl. repeat case_decide; simplify_eq/=; repeat case_decide; naive_solver.
Qed.

Lemma lru_drop_fst k l : (lru_drop k l).*1 = filter (fun h => h <> k) l.*1.
Proof. by rewrite filter_fmap. Qed.

Lemma lru_drop_nodup k l : NoDup l.*1 -> NoDup (lru_drop k l).*1.
Proof. rewrite lru_drop_fst. apply NoDup_filter. Qed.

Lemma lru_drop_sub h k l : h ∈ (lru_drop k l).*1 -> h ∈ l.*1.
Proof. rewrite lru_drop_fst, list_elem_of_filter. naive_solver. Qed.

(** Below capacity nothing has to go. *)
Lemma agree_room h l m : agree l m -> h ∈ H -> h ∉ l.*1 -> Z.of_nat (length l) <= cap - 1.
Proof.
  intros (Hnd & _ & Hsub) Hh Hn.
  assert (size (list_to_set (h :: l.*1) : gset Z) <= size H)%nat as Hs.
  { apply subseteq_size. intros k. rewrite elem_of_list_to_set, elem_of_cons. naive_solver. }
  rewrite size_list_to_set in Hs by (by apply NoDup_cons). simpl in Hs.
  rewrite length_fmap in Hs. lia.
Qed.

Lemma agree_step now h l m : agree l m -> h ∈ H ->
  let '(dup, l') := lru_see ttl cap now h l in
  let '(dup', m') := seen_step ttl now h m in
  dup = dup' /\ agree l' m'.
Proof.
  intros A Hh. pose proof A as (Hnd & Hl & Hsub).
  unfold lru_see, seen_step. rewrite <- Hl. destruct (lru_find h l) as [ts|] eqn:E.
  - assert (forall t, NoDup ((h, t) :: lru_drop h l).*1) as Hnd'.
    { intros t. csimpl. apply NoDup_cons. split; [apply lru_drop_notin|by apply lru_drop_nodup]. }
    assert (forall k t, k ∈ ((h, t) :: lru_drop h l).*1 -> k ∈ H) as Hsub'.
    { intros k t. csimpl. rewrite elem_of_cons. intros [->|Hk]; [done|].
      eapply Hsub, lru_drop_sub, Hk. }
    destruct (_ <=? ttl); (split; [done|]); split_and!; eauto; intros k; simpl;
      rewrite lru_find_drop; repeat case_decide; subst; simplify_map_eq; congruence.
  - split; [done|]. pose proof E as Hn. apply lru_find_None in Hn.
    rewrite take_ge by (pose proof (agree_room h l m A Hh Hn); lia).
    split_and!.
    + csimpl. by apply NoDup_cons.
    + intros k. simpl. case_decide; subst; simplify_map_eq; [done|apply Hl].
    + intros k. csimpl. rewrite elem_of_cons. naive_solver.
Qed.

Lemma agree_run calls : forall l m,
  agree l m -> (forall c, c ∈ calls -> fnv64a (Body c.2) ∈ H) ->
  dedup_run (lru_see ttl cap) calls l = dedup_run (seen_step ttl) calls m.
Proof.
  induction calls as [|[[now topic] ev] calls IH]; intros l m A Hin; [done|]. simpl.
  pose proof (agree_step now (fnv64a (Body ev)) l m A (Hin _ ltac:(by left))) as Hs.
  destruct (lru_see _ _ _ _ _) as [dup l'], (seen_step _ _ _ _) as [dup' m'].
  destruct Hs as [-> A']. f_equal. apply IH; [done|]. intros c Hc. apply Hin. by right.
Qed.
End Reference.

(** (C21) The deduplicator a valid configuration builds, run on any stream of
    events over any clock readings, never fails and forwards exactly what a
    recency list of at most [cache_size] hashes lets through: a body is dropped
    when its hash is in the list and was accepted at most [ttl] ago. *)
Theorem dedup_implements_lru streamID c ttl cap w calls :
  dc_Enabled c = true ->
  resolveDuration "pipeline.dedup.ttl" (dc_TTL c) defaultDedupTTL = Ok ttl ->
  resolveCount "pipeline.dedup.cache_size" (dc_CacheSize c) defaultDedupCacheSize
    maxDedupCacheSize = Ok cap ->
  exists mw w1, NewDedup streamID (Some c) w = (Ok (Some mw), w1) /\
  let '(os, w2) := feed (Execute (NewPipeline [mw]) sink) calls w1 in
  os = replicate (length calls) (Returned None) /\
  w_sent w2 = w_sent w ++ dedup_run (lru_see ttl cap) calls [].
Proof.
  intros He Ht Hc. destruct (NewDedup_stream streamID c ttl cap w He Ht Hc) as (_ & mw & w1 & Hn & Hf).
  exists mw, w1. split; [done|apply Hf].
Qed.

(** (C36) While the stream's distinct bodies fit in the cache, deduplication is
    exact: what is forwarded is what an unbounded table of accepted hashes
    would forward. *)
Theorem dedup_exact_within_capacity streamID c ttl cap w calls :
  dc_Enabled c = true ->
  resolveDuration "pipeline.dedup.ttl" (dc_TTL c) defaultDedupTTL = Ok ttl ->
  resolveCount "pipeline.dedup.cache_size" (dc_CacheSize c) defaultDedupCacheSize
    maxDedupCacheSize = Ok cap ->
  Z.of_nat (size (call_hashes calls)) <= cap ->
  exists mw w1, NewDedup streamID (Some c) w = (Ok (Some mw), w1) /\
  w_sent (feed (Execute (NewPipeline [mw]) sink) calls w1).2
  = w_sent w ++ dedup_run (seen_step ttl) calls ∅.
Proof.
  intros He Ht Hc Hs. destruct (NewDedup_stream streamID c ttl cap w He Ht Hc) as (_ & mw & w1 & Hn & Hf).
  exists mw, w1. split; [done|]. specialize (Hf calls).
  destruct (feed _ _ _) as [os w2]. destruct Hf as [_ Hw]. simpl. rewrite Hw. f_equal.
  apply (agree_run ttl cap (call_hashes calls) Hs).
  - split_and!; [apply NoDup_nil_2|done|set_solver].
  - intros c0 Hc0. unfold call_hashes. apply elem_of_list_to_set.
    by apply (list_elem_of_fmap_2 (fun c => fnv64a (Body c.2))).
Qed.

(** The window runs from the copy that was let through, not from the last
    one seen: a body accepted at [t0] and dropped as a duplicate at [t1] is let
    through again at [t2] once [t2] is more than [ttl] after [t0], however
    recently the duplicate came. *)
Theorem duplicate_does_not_refresh streamID ttl cap t0 t1 t2 topic ev w :
  0 < cap -> w_dedup w = empty_dedup ->
  time_sub t1 t0 <= ttl -> ttl < time_sub t2 t0 ->
  w_sent (feed (dedup_handler streamID ttl cap sink)
            [(t0, topic, ev); (t1, topic, ev); (t2, topic, ev)] w).2
  = w_sent w ++ [(topic, ev); (topic, ev)].
Proof.
  intros Hcap He H1 H2.
  pose proof (feed_dedup streamID ttl cap [(t0, topic, ev); (t1, topic, ev); (t2, topic, ev)]
                Hcap w ltac:(rewrite He; by apply empty_dedup_inv; lia)) as Hf.
  destruct (feed _ _ _) as [os w2]. destruct Hf as (_ & _ & Hw). simpl. rewrite Hw, He. f_equal.
  apply Z.leb_le in H1. apply Z.leb_gt in H2.
  unfold dedup_run, lru_see. simpl.
  rewrite decide_True, H1 by done. simpl. by rewrite decide_True, H2 by done.
Qed.

(** A body is recorded before the rest of the chain runs: when the publish
    behind the deduplicator fails, the caller gets the error, and a retry of
    the same event within the TTL is answered with success without reaching
    the publish at all. *)
Theorem failed_publish_is_deduplicated streamID ttl cap t0 t1 topic ev e w :
  let failing : Handler := fun _ _ w => (Returned (Some e), w) in
  0 < cap -> dedup_inv cap (w_dedup w) ->
  (dedup_handler streamID ttl cap failing topic ev (set_now t0 w)).1 = Returned (Some e) ->
  time_sub t1 t0 <= ttl ->
  let w1 := (dedup_handler streamID ttl cap failing topic ev (set_now t0 w)).2 in
  forall next, exists w2,
    dedup_handler streamID ttl cap next topic ev (set_now t1 w1) = (Returned None, w2) /\
    w_sent w2 = w_sent w1.
Proof.
  intros failing Hcap I. unfold dedup_handler. cbn [w_now set_now w_dedup].
  pose proof (see_spec ttl cap t0 (fnv64a (Body ev)) (w_dedup w) Hcap I) as Hs.
  destruct (see ttl cap t0 _ _) as [[dup evicted] d1]. destruct Hs as (I1 & Hd1 & _).
  destruct dup; [done|]. intros _ Ht next.
  match goal with |- context [failing topic ev ?w0] => set (w1 := w0) end.
  change (failing topic ev w1).2 with w1.
  assert (w_dedup w1 = d1) as E1 by (subst w1; by destruct evicted). rewrite E1.
  pose proof (see_spec ttl cap t1 (fnv64a (Body ev)) d1 Hcap I1) as Hs.
  destruct (see ttl cap t1 _ _) as [[dup2 evicted2] d2]. destruct Hs as (_ & Hd2 & _).
  assert (exists l, abstract d1 = (fnv64a (Body ev), t0) :: l) as [l Hl].
  { unfold lru_see in Hd1. destruct (lru_find _ _); [case_match; [done|]|]; naive_solver. }
  rewrite Hl in Hd2. unfold lru_see in Hd2. simpl in Hd2. rewrite decide_True in Hd2 by done.
  rewrite (proj2 (Z.leb_le _ _) Ht) in Hd2. simplify_eq. eauto.
Qed.

(** ** Witnesses *)

Definition demo_event (payload : string) : StreamEvent :=
  mkEvent "ws" "data" 0 0 ContentTypeJSON (Some payload) EmptyString.

Definition demo_config : DedupConfig := mkDedupConfig true 2 "10s".

(** Capacity two: the third distinct body evicts the first, which then passes
    again inside its own TTL; the second body is still remembered. *)
Definition demo_calls : list (Z * string * StreamEvent) :=
  [(0, "t", demo_event "1"); (1, "t", demo_event "2"); (2, "t", demo_event "1");
   (3, "t", demo_event "3"); (4, "t", demo_event "2")].

Lemma dedup_implements_lru_witness :
  (exists mw w1, NewDedup "s" (Some demo_config) new_world = (Ok (Some mw), w1) /\
   let '(os, w2) := feed (Execute (NewPipeline [mw]) sink) demo_calls w1 in
   os = replicate 5 (Returned None) /\
   w_sent w2 = w_sent new_world ++ dedup_run (lru_see 10000000000 2) demo_calls []) /\
  (fun te => se_Payload te.2) <$> dedup_run (lru_see 10000000000 2) demo_calls []
  = [Some "1"; Some "2"; Some "3"; Some "2"].
Proof.
  split; [|vm_compute; reflexivity].
  apply (dedup_implements_lru "s" demo_config 10000000000 2 new_world demo_calls);
    vm_compute; reflexivity.
Defined.

Lemma dedup_exact_within_capacity_witness :
  exists mw w1, NewDedup "s" (Some demo_config) new_world = (Ok (Some mw), w1) /\
  w_sent (feed (Execute (NewPipeline [mw]) sink) (take 3 demo_calls) w1).2
  = w_sent new_world ++ dedup_run (seen_step 10000000000) (take 3 demo_calls) ∅.
Proof.
  apply (dedup_exact_within_capacity "s" demo_config 10000000000 2 new_world (take 3 demo_calls));
    [vm_compute; reflexivity..|]. vm_compute. discriminate.
Defined.

Lemma duplicate_does_not_refresh_witness :
  let ev := demo_event "1" in
  w_sent (feed (dedup_handler "s" 10 5 sink) [(0, "t", ev); (9, "t", ev); (11, "t", ev)] new_world).2
  = w_sent new_world ++ [("t", ev); ("t", ev)].
Proof.
  apply (duplicate_does_not_refresh "s" 10 5 0 9 11 "t" (demo_event "1") new_world);
    vm_compute; done.
Defined.

Lemma failed_publish_is_deduplicated_witness :
  let failing : Handler := fun _ _ w => (Returned (Some "nats: timeout"), w) in
  let w1 := (dedup_handler "s" 10 5 failing "t" (demo_event "1") (set_now 0 new_world)).2 in
  exists w2, dedup_handler "s" 10 5 sink "t" (demo_event "1") (set_now 5 w1) = (Returned None, w2)
             /\ w_sent w2 = w_sent w1.
Proof.
  apply (failed_publish_is_deduplicated "s" 10 5 0 5 "t" (demo_event "1") "nats: timeout" new_world).
  - done.
  - apply empty_dedup_inv. lia.
  - vm_compute. reflexivity.
  - vm_compute. discriminate.
Defined.
