(* ===== verification/Middleware.v ===== *)
(** * internal/pipeline: filter, transform, enrich and threshold

    The middlewares that look at one event at a time (threshold also at the last
    value of its group), and [extractValue], the path lookup two of them share. *)

From Stdlib Require Import ZArith Lia Ascii.
From stdpp Require Import base tactics list strings gmap.
From S2P Require Import Prelude GoLib GoFloat GoNumber GoJson GoJsonValue Domain Telemetry.
From S2P Require Import Pipeline.

#[local] Open Scope Z_scope.

(** ** pipeline.go: extractValue *)

Fixpoint extract_parts (current : jvalue) (parts : list string) : option jvalue :=
  match parts with
  | [] => Some current
  | part :: parts' =>
      match current with
      | JObj ms => match obj_lookup part ms with
                   | Some v => extract_parts v parts'
                   | None => None
                   end
      | JArr vs =>
          match atoi part with
          | Some idx =>
              if (idx <? 0) || (Z.of_nat (length vs) <=? idx) then None
              else match vs !! Z.to_nat idx with
                   | Some v => extract_parts v parts'
                   | None => None
                   end
          | None => None
          end
      | _ => None
      end
  end.

Definition extractValue (obj : jvalue) (path : string) : option jvalue :=
  extract_parts obj (split "."%char path).

(** [len(event.Payload) == 0] *)
Definition empty_payload (event : StreamEvent) : bool := str_is_empty (raw_bytes (se_Payload event)).

(** ** filter.go *)

Definition filter_handler (streamID : string) (allowedTypes : gset string) : Middleware :=
  fun next topic event w =>
    if bool_decide (se_Type event ∈ allowedTypes) then next topic event w
    else drop_event streamID "filter" w.

Definition NewFilter (streamID : string) (cfg : option FilterConfig) : option Middleware :=
  match cfg with
  | Some c => if bool_decide (fc_MatchTypes c = []) then None
              else Some (filter_handler streamID (list_to_set (fc_MatchTypes c)))
  | None => None
  end.

(** ** transform.go *)

(** The new object: one member per mapping entry whose path resolves.  Entries
    have distinct keys, so the order of the range does not matter. *)
Definition transform_value (mapping : gmap string string) (original : jvalue) : jvalue :=
  JObj (foldr (fun kp acc => match extractValue original kp.2 with
                             | Some v => obj_insert kp.1 v acc
                             | None => acc
                             end) [] (map_to_list mapping)).

Definition transform_handler (mapping : gmap string string) : Middleware :=
  fun next topic event w =>
    if empty_payload event then next topic event w
    else match unmarshal_any (raw_bytes (se_Payload event)) with
         | None => next topic event w
         | Some original =>
             match marshal (transform_value mapping original) with
             | None => next topic event w
             | Some newPayload => next topic (with_payload event (Some newPayload)) w
             end
         end.

Definition NewTransform (cfg : option TransformConfig) : option Middleware :=
  match cfg with
  | Some c => if bool_decide (tc_Mapping c = ∅) then None else Some (transform_handler (tc_Mapping c))
  | None => None
  end.

(** ** enrich.go *)

Definition inject (tags : gmap string string) (obj : list (string * jvalue)) : list (string * jvalue) :=
  foldr (fun kv acc => obj_insert kv.1 (JStr kv.2) acc) obj (map_to_list tags).

(** The handler is built only for a non-empty set of tags, so assigning into the
    nil map a [null] payload leaves behind panics. *)
Definition enrich_handler (tags : gmap string string) : Middleware :=
  fun next topic event w =>
    if empty_payload event then next topic event w
    else match unmarshal_map (raw_bytes (se_Payload event)) with
         | None => next topic event w
         | Some None => (Panicked, w)
         | Some (Some obj) =>
             match marshal (JObj (inject tags obj)) with
             | None => next topic event w
             | Some newPayload => next topic (with_payload event (Some newPayload)) w
             end
         end.

Definition NewEnrich (cfg : option EnrichConfig) : option Middleware :=
  match cfg with
  | Some c => if bool_decide (ec_Tags c = ∅) then None else Some (enrich_handler (ec_Tags c))
  | None => None
  end.

(** ** threshold.go *)

(** The type switch on the value at the path: a decoded document holds no
    [float32] and no [int]. *)
Definition numeric_value (v : jvalue) : option float64 :=
  match v with
  | JNum f => Some f
  | JStr s => parse_float s
  | _ => None
  end.

(** The group's key: [Some ""] without [group_by], [None] when the path of
    [group_by] does not resolve. *)
Definition group_key (group_by : string) (original : jvalue) : option string :=
  if str_is_empty group_by then Some EmptyString
  else sprint <$> extractValue original group_by.

Definition zero_group : group_state := mkGroup false (FFin false 0 0).

Definition threshold_passes (delta currentVal : float64) (st : group_state) : bool :=
  negb (hasLast st) || fge (fabs (fsub currentVal (lastVal st))) delta.

(** What the event's value and group are, when it has both. *)
Definition threshold_key (cfg : ThresholdConfig) (event : StreamEvent) : option (string * float64) :=
  if empty_payload event then None
  else
    original ← unmarshal_any (raw_bytes (se_Payload event));
    v ← extractValue original (th_Path cfg);
    currentVal ← numeric_value v;
    groupKey ← group_key (th_GroupBy cfg) original;
    Some (groupKey, currentVal).

Definition threshold_handler (streamID : string) (cfg : ThresholdConfig) : Middleware :=
  fun next topic event w =>
    match threshold_key cfg event with
    | None => next topic event w
    | Some (groupKey, currentVal) =>
        let groupState := default zero_group (w_states w !! groupKey) in
        if threshold_passes (th_Delta cfg) currentVal groupState then
          next topic event (set_states (<[groupKey := mkGroup true currentVal]> (w_states w)) w)
        else drop_event streamID "threshold" w
    end.

(** The closure starts with an unset entry for the ungrouped key. *)
Definition NewThreshold (streamID : string) (cfg : option ThresholdConfig) (w : world)
  : option Middleware * world :=
  match cfg with
  | Some c =>
      if negb (th_Enabled c) || str_is_empty (th_Path c) then (None, w)
      else (Some (threshold_handler streamID c), set_states {[ EmptyString := zero_group ]} w)
  | None => (None, w)
  end.

(** ** Members of the rebuilt objects *)

Lemma obj_lookup_insert {A} k k' (v : A) l :
  obj_lookup k' (obj_insert k v l) = if decide (k = k') then Some v else obj_lookup k' l.
Proof.
  induction l as [|[j u] l IH]; simpl.
  - repeat case_bool_decide; repeat case_decide; naive_solver.
  - destruct (str_cmp k j) eqn:Hc; simpl.
    + apply str_cmp_eq in Hc. subst. repeat case_bool_decide; case_decide; naive_solver.
    + repeat case_bool_decide; case_decide; naive_solver.
    + rewrite IH. assert (k <> j) by (intros ->; by rewrite (proj2 (str_cmp_eq j j)) in Hc).
      case_bool_decide; case_decide; naive_solver.
Qed.

(** Folding over the entries of a finite map: each key is treated once. *)
Lemma foldr_obj_lookup {B} (f : B -> option jvalue) (m : gmap string B) base k :
  obj_lookup k (foldr (fun kp acc => match f kp.2 with
                                     | Some v => obj_insert kp.1 v acc
                                     | None => acc
                                     end) base (map_to_list m))
  = match m !! k ≫= f with Some v => Some v | None => obj_lookup k base end.
Proof.
  rewrite <- (list_to_map_to_list m) at 2. pose proof (NoDup_fst_map_to_list m) as Hnd.
  induction (map_to_list m) as [|[j b] l IH]; [done|].
  rewrite fmap_cons in Hnd. apply NoDup_cons in Hnd as [Hj Hnd]. simpl.
  destruct (decide (j = k)) as [->|Hne].
  - rewrite lookup_insert_eq. simpl.
    destruct (f b) as [v|] eqn:Hf; [by rewrite obj_lookup_insert, decide_True|].
    rewrite IH by done. by rewrite (not_elem_of_list_to_map_1 l k Hj).
  - rewrite lookup_insert_ne by done.
    destruct (f b) as [v|]; [rewrite obj_lookup_insert, decide_False by done|]; by apply IH.
Qed.

Lemma transform_members mapping original k :
  match transform_value mapping original with
  | JObj ms => obj_lookup k ms = path ← mapping !! k; extractValue original path
  | _ => False
  end.
Proof.
  unfold transform_value.
  rewrite (foldr_obj_lookup (extractValue original)). by destruct (_ ≫= _).
Qed.

Lemma inject_members tags obj k :
  obj_lookup k (inject tags obj)
  = match tags !! k with Some v => Some (JStr v) | None => obj_lookup k obj end.
Proof.
  unfold inject. rewrite (foldr_obj_lookup (fun v => Some (JStr v))). by destruct (tags !! k).
Qed.

(** ** Threshold, group by group *)

Definition call_key (cfg : ThresholdConfig) (c : Z * string * StreamEvent) : option (string * float64) :=
  threshold_key cfg c.2.

(** The calls of one group. *)
Definition in_group (cfg : ThresholdConfig) (g : string) (ev : StreamEvent) : bool :=
  match threshold_key cfg ev with Some (g', _) => str_eqb g g' | None => false end.

(** What one group lets through: the first value, then those at least [delta]
    away from the last one let through. *)
Fixpoint threshold_run (cfg : ThresholdConfig) (st : group_state) (calls : list (Z * string * StreamEvent))
  : list (string * StreamEvent) :=
  match calls with
  | [] => []
  | (_, topic, ev) :: calls' =>
      match threshold_key cfg ev with
      | Some (_, v) =>
          if threshold_passes (th_Delta cfg) v st
          then (topic, ev) :: threshold_run cfg (mkGroup true v) calls'
          else threshold_run cfg st calls'
      | None => threshold_run cfg st calls'
      end
  end.

Lemma in_group_key cfg g g' ev v :
  threshold_key cfg ev = Some (g', v) -> in_group cfg g ev = true <-> g = g'.
Proof. unfold in_group. intros ->. unfold str_eqb. by rewrite bool_decide_eq_true. Qed.

Lemma feed_threshold streamID cfg calls : forall w, exists l,
  w_sent (feed (threshold_handler streamID cfg sink) calls w).2 = w_sent w ++ l /\
  forall g, base.filter (fun te => in_group cfg g te.2 = true) l
  = threshold_run cfg (default zero_group (w_states w !! g))
      (base.filter (fun c => in_group cfg g c.2 = true) calls).
Proof.
  induction calls as [|[[now topic] ev] calls IH]; intros w.
  { exists []. simpl. by rewrite app_nil_r. }
  cbn [feed]. unfold threshold_handler at 1. cbn [w_states set_now].
  destruct (threshold_key cfg ev) as [[g' v]|] eqn:Hk.
  - destruct (threshold_passes _ _ _) eqn:Hp; cbn [sink drop_event];
      match goal with |- context [feed _ calls ?w1] => destruct (IH w1) as [l [Hl Hg]] end;
      destruct (feed _ calls _) as [os w2]; simpl in *.
    + exists ((topic, ev) :: l). split; [by rewrite Hl, <- (assoc_L (++))|]. intros g.
      rewrite !filter_cons. simpl.
      destruct (decide (g = g')) as [->|Hne].
      * rewrite !decide_True by (by apply (in_group_key cfg g' g' ev v)). simpl.
        rewrite Hk, Hp, Hg. simpl. by rewrite lookup_insert_eq.
      * rewrite !decide_False by (by rewrite (in_group_key cfg g g' ev v)).
        rewrite Hg. simpl. by rewrite lookup_insert_ne by done.
    + exists l. split; [done|]. intros g. rewrite Hg, filter_cons. simpl.
      destruct (decide (g = g')) as [->|Hne].
      * rewrite decide_True by (by apply (in_group_key cfg g' g' ev v)). simpl. by rewrite Hk, Hp.
      * by rewrite decide_False by (by rewrite (in_group_key cfg g g' ev v)).
  - cbn [sink]. match goal with |- context [feed _ calls ?w1] => destruct (IH w1) as [l [Hl Hg]] end.
    destruct (feed _ calls _) as [os w2]. simpl in *.
    exists ((topic, ev) :: l). split; [by rewrite Hl, <- (assoc_L (++))|]. intros g.
    assert (~ in_group cfg g ev = true) by (unfold in_group; by rewrite Hk).
    rewrite !filter_cons. simpl. by rewrite !decide_False by done.
Qed.

(** (C40) Threshold filtering treats each group on its own and never drifts: of
    any stream of events, the ones of a group that get through are its first
    value and then exactly those at least [delta] away from the last value of
    that group let through. *)
Theorem threshold_per_group streamID cfg mw w1 w calls g :
  NewThreshold streamID (Some cfg) w = (Some mw, w1) ->
  exists l, w_sent (feed (Execute (NewPipeline [mw]) sink) calls w1).2 = w_sent w ++ l /\
  base.filter (fun te => in_group cfg g te.2 = true) l
  = threshold_run cfg zero_group (base.filter (fun c => in_group cfg g c.2 = true) calls).
Proof.
  unfold NewThreshold. destruct (_ || _); [done|]. intros [= <- <-].
  rewrite Execute_cons, Execute_nil.
  destruct (feed_threshold streamID cfg calls (set_states {[ EmptyString := zero_group ]} w))
    as [l [Hl Hg]].
  exists l. split; [done|]. rewrite Hg. simpl. f_equal.
  destruct (decide (g = EmptyString)) as [->|Hne].
  - by rewrite lookup_singleton_eq.
  - by rewrite lookup_singleton_ne.
Qed.

(** A group whose last value let through is not a number is silent for
    ever: a string such as ["NaN"] parses as a value, passes as the group's first,
    and no later event of the group gets through, whatever it carries. *)
Theorem threshold_nan_silences streamID cfg calls g :
  Forall (fun c => in_group cfg g c.2 = true) calls -> forall w,
  w_states w !! g = Some (mkGroup true FNaN) ->
  let '(os, w') := feed (threshold_handler streamID cfg sink) calls w in
  os = replicate (length calls) (Returned None) /\ w_sent w' = w_sent w.
Proof.
  induction 1 as [|[[now topic] ev] calls Hc _ IH]; intros w Hw; [done|].
  cbn [feed]. unfold threshold_handler at 1. cbn [w_states set_now].
  unfold in_group in Hc. simpl in Hc. destruct (threshold_key cfg ev) as [[g' v]|]; [|done].
  unfold str_eqb in Hc. apply bool_decide_eq_true in Hc as <-. rewrite Hw. simpl.
  unfold threshold_passes. simpl. rewrite fsub_nan_r. simpl. rewrite fge_nan_l. simpl.
  specialize (IH (set_metrics (set_EventsDropped (counter_add (streamID, "threshold"%string) 1))
                    (set_now now w)) Hw).
  destruct (feed _ calls _) as [os w']. destruct IH as [-> ->]. done.
Qed.

(** What transform publishes, when it rewrites: an object with one member
    per mapping entry whose path resolves in the payload, under the entry's key,
    holding the value found there, and nothing else. *)
Theorem transform_projects mapping next topic ev w original payload :
  unmarshal_any (raw_bytes (se_Payload ev)) = Some original -> empty_payload ev = false ->
  marshal (transform_value mapping original) = Some payload ->
  transform_handler mapping next topic ev w = next topic (with_payload ev (Some payload)) w /\
  exists ms, transform_value mapping original = JObj ms /\
  forall k, obj_lookup k ms = path ← mapping !! k; extractValue original path.
Proof.
  intros Hu He Hm. unfold transform_handler. rewrite He, Hu, Hm. split; [done|].
  eexists. split; [done|]. intros k. apply (transform_members mapping original k).
Qed.

(** What enrich publishes for a JSON object: every tag under its name as a
    string, replacing a member of that name, and every other member as it was. *)
Theorem enrich_adds_tags tags next topic ev w obj payload :
  unmarshal_map (raw_bytes (se_Payload ev)) = Some (Some obj) -> empty_payload ev = false ->
  marshal (JObj (inject tags obj)) = Some payload ->
  enrich_handler tags next topic ev w = next topic (with_payload ev (Some payload)) w /\
  forall k, obj_lookup k (inject tags obj)
  = match tags !! k with Some v => Some (JStr v) | None => obj_lookup k obj end.
Proof.
  intros Hu He Hm. unfold enrich_handler. rewrite He, Hu, Hm. split; [done|].
  intros k. apply inject_members.
Qed.

(** An event whose payload is the JSON document [null] makes the enrich
    middleware panic, whatever the tags and the rest of the chain: [null] is
    accepted as a map and leaves it nil. *)
Theorem enrich_null_panics cfg mw next topic ev w :
  NewEnrich (Some cfg) = Some mw -> unmarshal_any (raw_bytes (se_Payload ev)) = Some JNull ->
  mw next topic ev w = (Panicked, w).
Proof.
  unfold NewEnrich. case_bool_decide; [done|]. intros [= <-] Hu. unfold enrich_handler, empty_payload.
  destruct (raw_bytes (se_Payload ev)) as [|c s] eqn:E; [by vm_compute in Hu|]. simpl.
  unfold unmarshal_map. by rewrite Hu.
Qed.

(** ** Witnesses *)

(** JSON text, with ['] for the quotation mark. *)
Definition json_text (s : string) : string :=
  str_map (fun c => if bool_decide (c = "'"%char) then byte_of 34 else c) s.

Definition event_of (payload : string) : StreamEvent :=
  mkEvent "s" "tick" 0 0 ContentTypeJSON (Some (json_text payload)) EmptyString.

Definition price_threshold : ThresholdConfig := mkThresholdConfig true "p" (f_of_Z 2) "sym".

(** Two symbols interleaved; the second and last prices of [a] are too close to
    the last one let through, although they drift by three in all. *)
Definition ticks : list (Z * string * StreamEvent) :=
  (fun p => (0, "t"%string, event_of p)) <$>
    ["{'sym':'a','p':10}"; "{'sym':'a','p':11}"; "{'sym':'b','p':11}"; "{'sym':'a','p':12.5}";
     "{'sym':'b','p':9}"; "{'sym':'a','p':'13'}"]%string.

Lemma threshold_per_group_witness :
  let '(mw, w) := NewThreshold "s" (Some price_threshold) new_world in
  exists l, w_sent (feed (Execute (NewPipeline (option_list mw)) sink) ticks w).2 = l /\
  base.filter (fun te => in_group price_threshold "a" te.2 = true) l
  = [("t"%string, event_of "{'sym':'a','p':10}"); ("t"%string, event_of "{'sym':'a','p':12.5}")].
Proof.
  destruct (threshold_per_group "s" price_threshold (threshold_handler "s" price_threshold)
              (set_states {[ EmptyString := zero_group ]} new_world) new_world ticks "a" eq_refl)
    as (l & Hl & Hg).
  exists l. split; [exact Hl|]. rewrite Hg. vm_compute. reflexivity.
Defined.

Definition nan_world : world := set_states {[ "a"%string := mkGroup true FNaN ]} new_world.
Definition nan_ticks : list (Z * string * StreamEvent) :=
  [(0, "t"%string, event_of "{'sym':'a','p':10}"); (0, "t"%string, event_of "{'sym':'a','p':1e300}")].

Lemma threshold_nan_silences_witness :
  let '(os, w') := feed (threshold_handler "s" price_threshold sink) nan_ticks nan_world in
  os = replicate (length nan_ticks) (Returned None) /\ w_sent w' = w_sent nan_world.
Proof.
  refine (threshold_nan_silences "s" price_threshold nan_ticks "a" _ nan_world _).
  - repeat constructor; vm_compute; reflexivity.
  - vm_compute. reflexivity.
Defined.

(** A nested path, an array index, and a path that does not resolve. *)
Definition trade_mapping : gmap string string :=
  {[ "price" := "data.p"; "first" := "xs.0"; "gone" := "data.q" ]}%string.

Lemma transform_projects_witness :
  transform_handler trade_mapping sink "t" (event_of "{'data':{'p':1.5},'xs':['a','b']}") new_world
  = sink "t" (event_of "{'first':'a','price':1.5}") new_world.
Proof.
  edestruct (transform_projects trade_mapping sink "t"
    (event_of "{'data':{'p':1.5},'xs':['a','b']}") new_world) as [H _];
    [vm_compute; reflexivity|vm_compute; reflexivity|vm_compute; reflexivity|].
  rewrite H. vm_compute. reflexivity.
Defined.

Lemma enrich_adds_tags_witness :
  enrich_handler {[ "env" := "prod"; "x" := "new" ]}%string sink "t" (event_of "{'x':1,'y':[2]}") new_world
  = sink "t" (event_of "{'env':'prod','x':'new','y':[2]}") new_world.
Proof.
  edestruct (enrich_adds_tags {[ "env" := "prod"; "x" := "new" ]}%string sink "t"
    (event_of "{'x':1,'y':[2]}") new_world) as [H _];
    [vm_compute; reflexivity|vm_compute; reflexivity|vm_compute; reflexivity|].
  rewrite H. vm_compute. reflexivity.
Defined.

Lemma enrich_null_panics_witness :
  enrich_handler {[ "env" := "prod" ]}%string sink "t" (event_of " null ") new_world
  = (Panicked, new_world).
Proof.
  refine (enrich_null_panics (mkEnrichConfig {[ "env" := "prod" ]}%string)
            (enrich_handler {[ "env" := "prod" ]}%string) sink "t" (event_of " null ") new_world eq_refl _).
  vm_compute. reflexivity.
Defined.
