(* ===== verification/Builder.v ===== *)
(** * internal/pipeline/builder.go: from a configuration to a chain

    [buildFromConfig] in the code's order, with the dedup series it publishes and
    retracts.  The batch middleware is the last of the chain; what the rest of the
    model needs from it here is whether it is there and with which limits: its
    concurrent behaviour is the subject of [Generation]. *)

From Stdlib Require Import ZArith Lia.
From stdpp Require Import base tactics list strings gmap.
From S2P Require Import Prelude GoLib GoFloat GoTime Domain Telemetry ConfigError PipelineConfig.
From S2P Require Import Pipeline Dedup Middleware.

#[local] Open Scope Z_scope.

Record batch_params : Type := mkBatchParams { bp_maxSize : Z; bp_flushInterval : Z }.

Definition NewBatch (cfg : option BatchConfig) : result cfg_error (option batch_params) :=
  match cfg with
  | None => Ok None
  | Some c =>
      if negb (bc_Enabled c) then Ok None
      else
        resolveCount "pipeline.batch.max_batch_size" (bc_MaxBatchSize c) defaultMaxBatchSize
          maxBatchSize ≫= fun maxSize =>
        resolveDuration "pipeline.batch.flush_interval" (bc_FlushInterval c)
          defaultFlushInterval ≫= fun flushInterval =>
        Ok (Some (mkBatchParams maxSize flushInterval))
  end.

(** The chain up to the batch middleware, and the batch middleware. *)
Record built : Type := mkBuilt { b_upstream : PipelineT; b_batch : option batch_params }.

(** [if mw := ...; mw != nil { middlewares = append(middlewares, mw) }] *)
Definition append_some (mws : list Middleware) (mw : option Middleware) : list Middleware :=
  match mw with Some m => mws ++ [m] | None => mws end.

Definition buildFromConfig (streamID : string) (cfg : option PipelineConfig) (w : world)
  : result cfg_error built * world :=
  match cfg with
  | None => (Ok (mkBuilt (NewPipeline []) None), w)
  | Some c =>
      let mws := append_some [] (NewFilter streamID (pc_Filter c)) in
      let mws := append_some mws (NewTransform (pc_Transform c)) in
      let '(dedup, w) := NewDedup streamID (pc_Dedup c) w in
      match dedup with
      | Err e => (Err e, w)
      | Ok dedup =>
          let w := match dedup with
                   | Some _ => w
                   | None => set_metrics (DeleteDedupSeries streamID) w
                   end in
          let mws := append_some mws dedup in
          let mws := append_some mws (NewEnrich (pc_Enrich c)) in
          let '(threshold, w) := NewThreshold streamID (pc_Threshold c) w in
          let mws := append_some mws threshold in
          match NewBatch (pc_Batch c) with
          | Err e =>
              (Err e, match dedup with
                      | Some _ => set_metrics (DeleteDedupSeries streamID) w
                      | None => w
                      end)
          | Ok batch => (Ok (mkBuilt (NewPipeline mws) batch), w)
          end
      end
  end.

(** ** Validation and construction agree *)

Lemma NewDedup_valid streamID c w :
  (forall d, c = Some d -> validateDedup d = Ok tt) ->
  exists o w', NewDedup streamID c w = (Ok o, w').
Proof.
  intros H. unfold NewDedup. destruct c as [d|]; [|eauto].
  destruct (dc_Enabled d); simpl; [|eauto]. specialize (H d eq_refl). unfold validateDedup in H.
  apply bind_ok in H as (ttl & -> & H). apply bind_ok in H as (cap & -> & _). eauto.
Qed.

Lemma NewBatch_ok cfg r :
  NewBatch cfg = Ok r <->
  match cfg with
  | None => r = None
  | Some c =>
      if bc_Enabled c then
        exists n d, r = Some (mkBatchParams n d) /\
          resolveCount "pipeline.batch.max_batch_size" (bc_MaxBatchSize c) defaultMaxBatchSize
            maxBatchSize = Ok n /\
          resolveDuration "pipeline.batch.flush_interval" (bc_FlushInterval c)
            defaultFlushInterval = Ok d
      else r = None
  end.
Proof.
  unfold NewBatch. destruct cfg as [c|]; [|naive_solver].
  destruct (bc_Enabled c); simpl; [|naive_solver].
  rewrite bind_ok. setoid_rewrite bind_ok. naive_solver.
Qed.

Lemma NewBatch_valid cfg :
  (forall b, cfg = Some b -> validateBatch b = Ok tt) -> exists r, NewBatch cfg = Ok r.
Proof.
  intros H. setoid_rewrite NewBatch_ok. destruct cfg as [c|]; [|eauto].
  destruct (bc_Enabled c); [|eauto]. specialize (H c eq_refl). unfold validateBatch in H.
  apply bind_ok in H as (d & Hd & H). apply bind_ok in H as (n & Hn & _). eauto 10.
Qed.

Lemma ValidateConfig_blocks c :
  ValidateConfig (Some c) = Ok tt ->
  (forall d, pc_Dedup c = Some d -> validateDedup d = Ok tt) /\
  (forall b, pc_Batch c = Some b -> validateBatch b = Ok tt).
Proof.
  unfold ValidateConfig. autorewrite with result. rewrite !when_present_ok. naive_solver.
Qed.

(** What building does to the registry: it touches the dedup series of its own
    stream and nothing else. *)
Lemma DeleteDedupSeries_other id id' m :
  id <> id' -> same_stream id' (DeleteDedupSeries id m) m.
Proof.
  intros Hne. unfold same_stream, DeleteDedupSeries. simpl.
  repeat split; intros; rewrite ?lookup_delete_ne by congruence; done.
Qed.

Lemma NewDedup_other id id' c w :
  id <> id' -> same_stream id' (w_metrics (NewDedup id c w).2) (w_metrics w).
Proof.
  intros Hne. unfold NewDedup. destruct c as [d|]; [|apply same_stream_refl].
  destruct (negb _); [apply same_stream_refl|].
  destruct (resolveDuration _ _ _); [|apply same_stream_refl].
  destruct (resolveCount _ _ _ _); [|apply same_stream_refl].
  unfold same_stream. simpl. repeat split; intros; rewrite ?lookup_insert_ne by congruence; done.
Qed.

Lemma NewThreshold_metrics id c w : w_metrics (NewThreshold id c w).2 = w_metrics w.
Proof. unfold NewThreshold. destruct c as [t|]; [destruct (_ || _)|]; done. Qed.

Lemma NewThreshold_dedup id c w : w_dedup (NewThreshold id c w).2 = w_dedup w.
Proof. unfold NewThreshold. destruct c as [t|]; [destruct (_ || _)|]; done. Qed.

Lemma buildFromConfig_other id id' cfg w :
  id <> id' -> same_stream id' (w_metrics (buildFromConfig id cfg w).2) (w_metrics w).
Proof.
  intros Hne. unfold buildFromConfig. destruct cfg as [c|]; [|apply same_stream_refl].
  pose proof (NewDedup_other id id' (pc_Dedup c) w Hne) as Hd.
  destruct (NewDedup id (pc_Dedup c) w) as [r w1]. simpl in Hd.
  destruct r as [dedup|e]; [|done].
  set (w2 := match dedup with Some _ => w1 | None => _ end).
  assert (same_stream id' (w_metrics w2) (w_metrics w)) as H2.
  { subst w2. destruct dedup; [done|]. eapply same_stream_trans; [|exact Hd].
    by apply DeleteDedupSeries_other. }
  pose proof (NewThreshold_metrics id (pc_Threshold c) w2) as Ht.
  destruct (NewThreshold id (pc_Threshold c) w2) as [t w3]. simpl in Ht.
  destruct (NewBatch _); simpl; [by rewrite Ht|].
  destruct dedup; [|by rewrite Ht]. simpl. rewrite Ht.
  eapply same_stream_trans; [|exact H2]. by apply DeleteDedupSeries_other.
Qed.

(** The capacity gauge of the stream says what was built: a capacity when there
    is a dedup middleware, no series otherwise, and never one after a batch block
    has made the build fail. *)
Definition dedup_capacity (cfg : PipelineConfig) : option Z :=
  d ← pc_Dedup cfg;
  if dc_Enabled d then Some (if dc_CacheSize d =? 0 then defaultDedupCacheSize else dc_CacheSize d)
  else None.

Lemma NewDedup_capacity id c w o w' :
  NewDedup id (pc_Dedup c) w = (Ok o, w') ->
  match o with
  | Some _ => exists n, DedupCacheCapacity (w_metrics w') !! id = Some n /\ dedup_capacity c = Some n
  | None => w' = w /\ dedup_capacity c = None
  end.
Proof.
  unfold NewDedup, dedup_capacity. destruct (pc_Dedup c) as [d|]; simpl; [|by intros [= <- <-]].
  destruct (dc_Enabled d); simpl; [|by intros [= <- <-]].
  destruct (resolveDuration _ _ _); [|done].
  destruct (resolveCount _ _ _ _) as [n|] eqn:Hn; [|done]. intros [= <- <-]. simpl.
  exists n. rewrite lookup_insert_eq. split; [done|].
  apply resolveCount_ok in Hn as [[-> ->]|[Hr ->]]; [done|].
  by rewrite (proj2 (Z.eqb_neq _ _)) by lia.
Qed.

(** The middlewares that were built, in their order. *)
Definition built_list (mws : list (option Middleware)) : list Middleware := omap (fun x => x) mws.

Lemma append_some_list mws mw : append_some (built_list mws) mw = built_list (mws ++ [mw]).
Proof.
  unfold built_list. rewrite omap_app. destruct mw; simpl; [done|by rewrite app_nil_r].
Qed.

Lemma valid_pipeline_ok id c w :
  ValidateConfig (Some c) = Ok tt -> exists b w', buildFromConfig id (Some c) w = (Ok b, w').
Proof.
  intros Hv. apply ValidateConfig_blocks in Hv as [Hd Hb]. unfold buildFromConfig.
  destruct (NewDedup_valid id (pc_Dedup c) w Hd) as (dedup & w1 & ->).
  destruct (NewBatch_valid (pc_Batch c) Hb) as [batch ->].
  destruct (NewThreshold _ _ _) as [t w3]. eauto.
Qed.

(** (C38) A pipeline configuration the validator accepts always builds, whatever
    the state of the process: the configured middlewares in the order filter,
    transform, dedup, enrich, threshold, and a batch worker exactly when the
    batch block is enabled, with limits inside the allocation ceilings. *)
Theorem valid_pipeline_builds id c w :
  ValidateConfig (Some c) = Ok tt ->
  exists dedup w1 batch w',
    NewDedup id (pc_Dedup c) w = (Ok dedup, w1) /\
    buildFromConfig id (Some c) w =
      (Ok (mkBuilt (built_list [NewFilter id (pc_Filter c); NewTransform (pc_Transform c); dedup;
                                NewEnrich (pc_Enrich c); (NewThreshold id (pc_Threshold c) w).1])
             batch), w') /\
    (is_Some batch <-> exists b, pc_Batch c = Some b /\ bc_Enabled b = true) /\
    (forall p, batch = Some p -> 0 < bp_maxSize p <= maxBatchSize /\ 0 < bp_flushInterval p).
Proof.
  intros Hv. apply ValidateConfig_blocks in Hv as [Hd Hb].
  destruct (NewDedup_valid id (pc_Dedup c) w Hd) as (dedup & w1 & Ed).
  destruct (NewBatch_valid (pc_Batch c) Hb) as [batch Eb].
  exists dedup, w1, batch. unfold buildFromConfig. rewrite Ed.
  set (w2 := match dedup with Some _ => w1 | None => _ end).
  destruct (NewThreshold id (pc_Threshold c) w2) as [t w3] eqn:Et. rewrite Eb. exists w3.
  split; [done|]. split.
  - assert ((NewThreshold id (pc_Threshold c) w).1 = t) as ->.
    { change t with (t, w3).1. rewrite <- Et. unfold NewThreshold.
      destruct (pc_Threshold c) as [th|]; [destruct (_ || _)|]; done. }
    unfold NewPipeline. change (append_some []) with (append_some (built_list [])).
    by rewrite !append_some_list.
  - pose proof (proj1 (NewBatch_ok _ _) Eb) as H. destruct (pc_Batch c) as [b|].
    + destruct (bc_Enabled b) eqn:He.
      * destruct H as (n & d & -> & Hn & Hdur).
        apply resolveCount_bounds in Hn; [|done]. apply resolveDuration_pos in Hdur; [|done].
        split; [split; eauto|]. by intros p [= <-].
      * subst. split; [|done]. split; [by intros [? [=]]|]. intros (b' & [= <-] & He'). congruence.
    + subst. split; [|done]. split; [by intros [? [=]]|]. naive_solver.
Qed.

Lemma build_capacity id c w b w' :
  buildFromConfig id (Some c) w = (Ok b, w') -> DedupCacheCapacity (w_metrics w') !! id = dedup_capacity c.
Proof.
  intros Eb. unfold buildFromConfig in Eb.
  destruct (NewDedup id (pc_Dedup c) w) as [[dedup|e] w1] eqn:Ed; [|done].
  pose proof (NewDedup_capacity id c w dedup w1 Ed) as Hcap.
  set (w2 := match dedup with Some _ => w1 | None => _ end) in Eb.
  pose proof (NewThreshold_metrics id (pc_Threshold c) w2) as Ht.
  destruct (NewThreshold id (pc_Threshold c) w2) as [t w3]. simpl in Ht.
  destruct (NewBatch (pc_Batch c)); [|done]. injection Eb as _ <-. rewrite Ht. subst w2.
  destruct dedup as [d|].
  - destruct Hcap as (n & -> & ->). done.
  - destruct Hcap as [-> ->]. simpl. apply lookup_delete_eq.
Qed.

(** A build that fails after dedup took over the stream's gauges drops them. *)
Lemma failed_build_capacity id c w e w' :
  buildFromConfig id (Some c) w = (Err e, w') ->
  w_metrics w' = w_metrics w \/ DedupCacheCapacity (w_metrics w') !! id = None.
Proof.
  intros Eb. unfold buildFromConfig in Eb.
  destruct (NewDedup id (pc_Dedup c) w) as [[dedup|e1] w1] eqn:Ed.
  - set (w2 := match dedup with Some _ => w1 | None => _ end) in Eb.
    pose proof (NewThreshold_metrics id (pc_Threshold c) w2) as Ht.
    destruct (NewThreshold id (pc_Threshold c) w2) as [t w3]. simpl in Ht.
    destruct (NewBatch (pc_Batch c)); [done|]. injection Eb as _ <-. right.
    destruct dedup; simpl; [apply lookup_delete_eq|]. rewrite Ht. apply lookup_delete_eq.
  - injection Eb as _ <-. left. unfold NewDedup in Ed.
    destruct (pc_Dedup c) as [d|]; [|done]. destruct (negb _); [done|].
    destruct (resolveDuration _ _ _); [|by simplify_eq].
    destruct (resolveCount _ _ _ _); by simplify_eq.
Qed.

(** Building keeps the registry truthful about dedup: other streams' series
    are untouched; a successful build of an enabled dedup publishes its capacity;
    a build without dedup leaves no dedup series behind; and a build that fails
    never leaves the series of a pipeline that never ran. *)
Theorem build_dedup_series id c w :
  let '(r, w') := buildFromConfig id (Some c) w in
  (forall id', id <> id' -> same_stream id' (w_metrics w') (w_metrics w)) /\
  match r with
  | Ok _ => DedupCacheCapacity (w_metrics w') !! id = dedup_capacity c
  | Err _ => w_metrics w' = w_metrics w \/ DedupCacheCapacity (w_metrics w') !! id = None
  end.
Proof.
  pose proof (fun id' => buildFromConfig_other id id' (Some c) w) as Ho.
  destruct (buildFromConfig id (Some c) w) as [[b|e] w'] eqn:Eb; split; [exact Ho| |exact Ho|].
  - by apply (build_capacity id c w b).
  - by apply (failed_build_capacity id c w e).
Qed.

(** ** Witness *)

Definition full_pipeline : PipelineConfig :=
  mkPipelineConfig (Some (mkFilterConfig ["trade"%string])) (Some (mkTransformConfig {[ "p" := "price" ]}%string))
    None (Some (mkDedupConfig true 100 "30s")) (Some (mkThresholdConfig true "p" (f_of_Z 1) EmptyString))
    (Some (mkBatchConfig true 0 "250ms")).

Definition is_some_ok (r : result cfg_error (option Middleware)) : bool :=
  match r with Ok (Some _) => true | _ => false end.

Lemma full_pipeline_valid : ValidateConfig (Some full_pipeline) = Ok tt.
Proof. vm_compute. reflexivity. Qed.

Lemma valid_pipeline_builds_witness :
  exists mws p w', buildFromConfig "s" (Some full_pipeline) new_world = (Ok (mkBuilt mws (Some p)), w') /\ length mws = 4%nat.
Proof.
  destruct (valid_pipeline_builds "s" full_pipeline new_world full_pipeline_valid)
    as (dedup & w1 & batch & w' & Hd & Hb & Hbatch & _).
  destruct batch as [p|]; [|by destruct (proj2 Hbatch (ex_intro _ _ (conj eq_refl eq_refl)))].
  assert (is_Some dedup) as [d ->].
  { apply (f_equal (fun r => is_some_ok r.1)) in Hd. destruct dedup; [by eexists|by vm_compute in Hd]. }
  eexists _, p, w'. split; [exact Hb|reflexivity].
Defined.
