(* ===== verification/Restart.v ===== *)
(** * internal/server/restart.go: the resolved restart policy

    The attempt budget and the backoff ladder of a stream, resolved from its
    kind and its [restart] block. *)

From Stdlib Require Import ZArith Lia.
From stdpp Require Import base tactics list strings gmap.
From S2P Require Import Prelude GoLib GoFloat GoTime Domain.

#[local] Open Scope Z_scope.

Definition defaultInitialBackoff : Z := 1 * second.
Definition defaultMaxBackoff : Z := 30 * second.
Definition defaultBackoffFactor : float64 := f_of_Z 2.
Definition defaultResetAfter : Z := 60 * second.
Definition defaultPushAttempts : Z := 5.
Definition unlimitedAttempts : Z := -1.

Record restartPolicy : Type := mkPolicy {
  maxAttempts : Z;
  initialBackoff : Z;
  maxBackoff : Z;
  factor : float64;
  resetAfter : Z
}.

(** [next]: the attempt number after a session ended, and whether the budget
    allows it. *)
Definition next (p : restartPolicy) (attempt : Z) : Z * bool :=
  let n := wrap64 (attempt + 1) in
  if maxAttempts p =? unlimitedAttempts then (n, true) else (n, n <=? maxAttempts p).

Definition delay (p : restartPolicy) (attempt : Z) : Z :=
  if attempt <=? 1 then initialBackoff p
  else
    let grown := fmul (f_of_Z (initialBackoff p)) (fpow (factor p) (f_of_Z (wrap64 (attempt - 1)))) in
    f_to_int64 (fmin grown (f_of_Z (maxBackoff p))).

Definition pullKinds : gset string := {[ "websocket"; "sse"; "rest_poller" ]}.

(** One overridable duration: [if d, err := time.ParseDuration(raw); err == nil
    && raw != "" { field = d }]. *)
Definition override_duration (raw : string) (def : Z) : Z :=
  match parse_duration raw with
  | Some d => if str_is_empty raw then def else d
  | None => def
  end.

Definition restartPolicyFor (cfg : StreamSourceConfig) : restartPolicy :=
  let attempts := if bool_decide (sc_Kind cfg ∈ pullKinds) then unlimitedAttempts
                  else defaultPushAttempts in
  match sc_Restart cfg with
  | None => mkPolicy attempts defaultInitialBackoff defaultMaxBackoff defaultBackoffFactor
              defaultResetAfter
  | Some rc =>
      mkPolicy
        (default attempts (rc_MaxAttempts rc))
        (override_duration (rc_InitialBackoff rc) defaultInitialBackoff)
        (override_duration (rc_MaxBackoff rc) defaultMaxBackoff)
        (if fgt (rc_Factor rc) (f_of_Z 0) then rc_Factor rc else defaultBackoffFactor)
        (override_duration (rc_ResetAfter rc) defaultResetAfter)
  end.

(** What a policy must satisfy for the supervisor's ladder to make sense. *)
Record policy_wf (p : restartPolicy) : Prop := {
  wf_attempts : maxAttempts p = unlimitedAttempts \/ 0 <= maxAttempts p;
  wf_initial : 0 < initialBackoff p;
  wf_max : initialBackoff p <= maxBackoff p;
  wf_factor : flt (factor p) (f_of_Z 1) = false;
  wf_reset : 0 < resetAfter p
}.

Example delay_ladder :
  delay (mkPolicy 5 second (30 * second) (f_of_Z 2) minute) <$> [0; 1; 2; 3; 4; 5; 6; 7]
  = [second; second; 2 * second; 4 * second; 8 * second; 16 * second; 30 * second; 30 * second].
Proof. vm_compute. reflexivity. Qed.

Lemma delay_bounds p attempt :
  policy_wf p -> fnumber (factor p) -> finite (factor p) -> maxBackoff p < 2 ^ 53 ->
  1 <= attempt <= max_int64 ->
  initialBackoff p <= delay p attempt <= maxBackoff p.
Proof.
  intros [_ Hi Hm Hf _] Hn Hfin Hmax Ha. unfold delay.
  destruct (Z.leb_spec attempt 1); [lia|].
  rewrite wrap64_id by (unfold min_int64, max_int64 in *; lia).
  apply fmin_to_int64; [lia..|].
  replace 0 with (0 + 0) by lia. apply fmul_above; [lia|lia|apply f_of_Z_above; lia|].
  change (f_of_Z 1) with (FFin false (2 ^ 52) (-52)) in Hf.
  apply above_not_flt in Hf; [|done|lia].
  apply fpow_above_one; [|done|].
  - eapply above_weaken; [|exact Hf]. apply (dle_intro _ _ _ _ 52); [lia..|]. vm_compute. discriminate.
  - apply f_of_Z_finite. unfold max_int64 in *. lia.
Qed.

(** The ladder of a stream without a [restart] block. *)
Lemma default_ladder cfg attempt :
  sc_Restart cfg = None -> 1 <= attempt <= 64 ->
  delay (restartPolicyFor cfg) attempt = Z.min (2 ^ (attempt - 1) * second) (30 * second).
Proof.
  intros Hr Ha.
  assert (forallb (fun n => bool_decide
            (delay (mkPolicy 0 defaultInitialBackoff defaultMaxBackoff defaultBackoffFactor
                      defaultResetAfter) n
             = Z.min (2 ^ (n - 1) * second) (30 * second))) (seqZ 1 64) = true) as Hall
    by (vm_compute; reflexivity).
  rewrite forallb_forall in Hall.
  specialize (Hall attempt ltac:(apply list_elem_of_In, elem_of_seqZ; lia)).
  apply bool_decide_eq_true in Hall. rewrite <- Hall.
  unfold restartPolicyFor. by rewrite Hr.
Qed.
