(* ===== verification/Validate.v ===== *)
(** * internal/server/validate.go: what a stream configuration must satisfy

    The checks run in the code's order, so that the error is the code's. *)

From Stdlib Require Import ZArith Lia Ascii.
From stdpp Require Import base tactics list strings gmap.
From S2P Require Import Prelude GoLib GoFloat GoTime GoUrl Domain ConfigError PipelineConfig.
From S2P Require Import Restart.

#[local] Open Scope Z_scope.

(** [topicPattern] and [idPattern] are the same expression. *)
Definition name_char (c : ascii) : bool := is_alpha c || is_digit c || one_of "._-" c.
Definition matches_name (s : string) : bool := negb (str_is_empty s) && str_forallb name_char s.
Definition idPattern : string -> bool := matches_name.
Definition topicPattern : string -> bool := matches_name.

Definition minPollInterval : Z := 100 * millisecond.

Definition connectorBlocks : gmap string string :=
  list_to_map [("websocket", "websocket"); ("sse", "sse"); ("rest_poller", "rest_poller");
               ("webhook", "webhook"); ("grpc", "grpc")].

Definition validateRestartDuration (path raw : string) : result cfg_error Z :=
  if str_is_empty raw then Ok 0
  else match parse_duration raw with
       | None => Err (ERestartDurationSyntax path raw)
       | Some parsed => if parsed <=? 0 then Err (ERestartDurationNotPositive path raw) else Ok parsed
       end.

Definition validateRestart (rc : option RestartConfig) : result cfg_error unit :=
  match rc with
  | None => Ok tt
  | Some rc =>
      fail_if (match rc_MaxAttempts rc with Some n => n <? 0 | None => false end)
        EMaxAttemptsNegative;;
      fail_if (negb (feq (rc_Factor rc) (f_of_Z 0)) && flt (rc_Factor rc) (f_of_Z 1))
        (EFactorTooSmall (rc_Factor rc));;
      validateRestartDuration "restart.initial_backoff" (rc_InitialBackoff rc) ≫= fun initial =>
      validateRestartDuration "restart.max_backoff" (rc_MaxBackoff rc) ≫= fun maximum =>
      validateRestartDuration "restart.reset_after" (rc_ResetAfter rc) ≫= fun _ =>
      let effectiveInitial := if 0 <? initial then initial else defaultInitialBackoff in
      let effectiveMax := if 0 <? maximum then maximum else defaultMaxBackoff in
      fail_if (effectiveMax <? effectiveInitial) (EBackoffInverted effectiveMax effectiveInitial)
  end.

Definition validatePollInterval (raw : string) : result cfg_error unit :=
  if str_is_empty raw then Ok tt
  else match parse_duration raw with
       | None => Err (EPollIntervalSyntax raw)
       | Some parsed => fail_if (parsed <? minPollInterval) (EPollIntervalTooShort raw)
       end.

Definition pollMethods : gset string :=
  {[ "GET"; "POST"; "PUT"; "PATCH"; "DELETE"; "HEAD"; "OPTIONS" ]}.

Definition validatePollMethod (raw : string) : result cfg_error unit :=
  if str_is_empty raw then Ok tt
  else fail_if (negb (bool_decide (raw ∈ pollMethods))) (EPollMethod raw).

Definition validateHeaders (path : string) (headers : gmap string string) : result cfg_error unit :=
  fail_if (bool_decide (is_Some (headers !! EmptyString))) (EHeaderNameEmpty path).

Definition validatePort (path s : string) : result cfg_error unit :=
  match atoi s with
  | None => Err (EPortSyntax path s)
  | Some port => fail_if ((port <? 1) || (65535 <? port)) (EPortRange path port)
  end.

Definition presentConnectorBlocks (cfg : StreamSourceConfig) : list string :=
  let block {A} (x : option A) (name : string) : list string :=
    match x with Some _ => [name] | None => [] end in
  block (sc_Websocket cfg) "websocket" ++ block (sc_Sse cfg) "sse" ++
  block (sc_RestPoller cfg) "rest_poller" ++ block (sc_Webhook cfg) "webhook" ++
  block (sc_Grpc cfg) "grpc".

(** [cfg.Kind == "webhook" || cfg.Kind == "grpc"] *)
Definition push_kind (kind : string) : bool := str_eqb kind "webhook" || str_eqb kind "grpc".

Definition validateUrl (cfg : StreamSourceConfig) : result cfg_error unit :=
  if push_kind (sc_Kind cfg) then Ok tt
  else if str_is_empty (sc_URL cfg) then Err (EUrlRequired (sc_Kind cfg))
  else match url_parse (sc_URL cfg) with
       | None => Err (EUrlInvalid (sc_URL cfg))
       | Some u =>
           fail_if (str_is_empty (u_Host u)) EUrlHost;;
           fail_if (str_eqb (sc_Kind cfg) "websocket"
                    && negb (str_eqb (u_Scheme u) "ws") && negb (str_eqb (u_Scheme u) "wss"))
             EUrlWebsocketScheme;;
           fail_if ((str_eqb (sc_Kind cfg) "rest_poller" || str_eqb (sc_Kind cfg) "sse")
                    && negb (str_eqb (u_Scheme u) "http") && negb (str_eqb (u_Scheme u) "https"))
             (EUrlHttpScheme (sc_Kind cfg))
       end.

(** [for _, block := range present]: the first block of another kind.  An
    unsupported kind reads [""] from the map. *)
Fixpoint foreign_block (kind : string) (present : list string) : result cfg_error unit :=
  match present with
  | [] => Ok tt
  | block :: rest =>
      if str_eqb block (default EmptyString (connectorBlocks !! kind)) then foreign_block kind rest
      else Err (EBlockDoesNotApply block kind)
  end.

Definition validatePushPort (path port : string) : result cfg_error unit :=
  if str_is_empty port then Ok tt else validatePort path port.

Definition validateConnector (cfg : StreamSourceConfig) : result cfg_error unit :=
  validateUrl cfg;;
  foreign_block (sc_Kind cfg) (presentConnectorBlocks cfg);;
  when_present (sc_Websocket cfg) (fun ws =>
    match first_empty 0 (ws_OnConnectSend ws) with Some i => Err (EFrameEmpty i) | None => Ok tt end);;
  when_present (sc_RestPoller cfg) (fun rp =>
    validatePollInterval (rp_Interval rp);;
    validatePollMethod (rp_Method rp);;
    validateHeaders "rest_poller.headers" (rp_Headers rp));;
  when_present (sc_Sse cfg) (fun s => validateHeaders "sse.headers" (sse_Headers s));;
  when_present (sc_Webhook cfg) (fun wh => validatePushPort "webhook.port" (wh_Port wh));;
  when_present (sc_Grpc cfg) (fun g => validatePushPort "grpc.port" (grpc_Port g)).

Definition validateStreamConfig (cfg : StreamSourceConfig) : result cfg_error unit :=
  fail_if (str_is_empty (sc_ID cfg)) EIdRequired;;
  fail_if (negb (idPattern (sc_ID cfg))) (EIdInvalid (sc_ID cfg));;
  fail_if (str_is_empty (sc_Kind cfg)) EKindRequired;;
  fail_if (bool_decide (connectorBlocks !! sc_Kind cfg = None)) (EKindUnsupported (sc_Kind cfg));;
  fail_if (str_is_empty (sc_Topic cfg)) ETopicRequired;;
  fail_if (negb (topicPattern (sc_Topic cfg))) (ETopicInvalid (sc_Topic cfg));;
  validateConnector cfg;;
  validateRestart (sc_Restart cfg);;
  ValidateConfig (sc_Pipeline cfg).

Definition ValidateStreamConfig (cfg : StreamSourceConfig) : result cfg_error unit :=
  validateStreamConfig cfg.

(** ** What acceptance means *)

Lemma validateRestartDuration_ok path raw n :
  validateRestartDuration path raw = Ok n <->
  (raw = EmptyString /\ n = 0) \/ (raw <> EmptyString /\ parse_duration raw = Some n /\ 0 < n).
Proof.
  unfold validateRestartDuration. destruct raw as [|c s]; simpl; [naive_solver|].
  destruct (parse_duration _) as [q|]; [|naive_solver].
  destruct (Z.leb_spec q 0); split; intros; destruct_or?; destruct_and?; simplify_eq; try lia; auto.
Qed.

(** One duration of the block: what validation saw is what the policy uses. *)
Lemma override_validated path raw n def :
  0 < def -> validateRestartDuration path raw = Ok n ->
  override_duration raw def = (if 0 <? n then n else def) /\ 0 < override_duration raw def /\
  (raw <> EmptyString -> parse_duration raw = Some (override_duration raw def)).
Proof.
  intros Hd H. apply validateRestartDuration_ok in H as [[-> ->]|(Hne & Hp & Hn)].
  - unfold override_duration. replace (parse_duration EmptyString) with (@None Z) by reflexivity.
    by split_and!.
  - unfold override_duration. rewrite Hp. destruct raw; [done|]. simpl.
    rewrite (proj2 (Z.ltb_lt 0 n)) by done. by split_and!.
Qed.

Lemma validateRestart_policy cfg rc :
  sc_Restart cfg = Some rc -> validateRestart (sc_Restart cfg) = Ok tt ->
  let p := restartPolicyFor cfg in
  policy_wf p /\
  (forall n, rc_MaxAttempts rc = Some n -> maxAttempts p = n) /\
  (rc_InitialBackoff rc <> EmptyString -> parse_duration (rc_InitialBackoff rc) = Some (initialBackoff p)) /\
  (rc_MaxBackoff rc <> EmptyString -> parse_duration (rc_MaxBackoff rc) = Some (maxBackoff p)) /\
  (rc_ResetAfter rc <> EmptyString -> parse_duration (rc_ResetAfter rc) = Some (resetAfter p)) /\
  (fgt (rc_Factor rc) (f_of_Z 0) = true -> factor p = rc_Factor rc).
Proof.
  intros Hrc Hv. rewrite Hrc in Hv. unfold validateRestart in Hv.
  apply seq_ok in Hv as [Ha Hv]. apply fail_if_ok in Ha.
  apply seq_ok in Hv as [Hf Hv]. apply fail_if_ok in Hf.
  apply bind_ok in Hv as (i & Hi & Hv). apply bind_ok in Hv as (m & Hm & Hv).
  apply bind_ok in Hv as (r & Hr & Hord). apply fail_if_ok, Z.ltb_ge in Hord.
  destruct (override_validated _ _ _ defaultInitialBackoff ltac:(done) Hi) as (Ei & Pi & Xi).
  destruct (override_validated _ _ _ defaultMaxBackoff ltac:(done) Hm) as (Em & Pm & Xm).
  destruct (override_validated _ _ _ defaultResetAfter ltac:(done) Hr) as (Er & Pr & Xr).
  unfold restartPolicyFor. rewrite Hrc. cbn zeta.
  split; [split; simpl; [| |by rewrite Ei, Em| |done]|].
  - destruct (rc_MaxAttempts rc) as [n|]; simpl; [apply Z.ltb_ge in Ha; by right|].
    case_bool_decide; [by left|by right].
  - done.
  - destruct (fgt (rc_Factor rc) (f_of_Z 0)) eqn:Hg; [|by vm_compute].
    by rewrite (fgt_zero_not_feq _ Hg) in Hf.
  - split_and!; simpl; try done; [by intros n ->|by intros ->].
Qed.

Lemma default_policy_wf cfg : sc_Restart cfg = None -> policy_wf (restartPolicyFor cfg).
Proof.
  intros Hr. unfold restartPolicyFor. rewrite Hr.
  split; simpl; [case_bool_decide; [by left|by right]|done|done|by vm_compute|done].
Qed.

Lemma validateStreamConfig_ok cfg :
  validateStreamConfig cfg = Ok tt <->
  idPattern (sc_ID cfg) = true /\ is_Some (connectorBlocks !! sc_Kind cfg) /\
  topicPattern (sc_Topic cfg) = true /\ validateConnector cfg = Ok tt /\
  validateRestart (sc_Restart cfg) = Ok tt /\ ValidateConfig (sc_Pipeline cfg) = Ok tt.
Proof.
  unfold validateStreamConfig. autorewrite with result.
  rewrite bool_decide_eq_false, <- not_eq_None_Some, !negb_false_iff.
  assert (Hn : forall s, matches_name s = true -> str_is_empty s = false) by (by intros []).
  assert (Hk : connectorBlocks !! sc_Kind cfg <> None -> str_is_empty (sc_Kind cfg) = false).
  { by destruct (sc_Kind cfg). }
  unfold idPattern, topicPattern. naive_solver.
Qed.

(** (C37) The restart block of an accepted configuration is honoured as written:
    every field that is set is the value the policy uses, and the policy is
    well-formed.  When moreover the maximal backoff is below 2^53 nanoseconds (about
    104 days) and the factor is a finite number, as every number of a JSON document
    is, the delay before each attempt, from the first to the largest an [int] counts,
    lies between the initial and the maximal backoff, even though it is computed in
    floating point and the factor is raised to an arbitrary power.  (Validation does
    not impose that bound, and beyond it the ladder can overflow: see
    [overlong_backoff_overflows].) *)
Theorem accepted_restart_is_honoured cfg rc attempt :
  validateStreamConfig cfg = Ok tt -> sc_Restart cfg = Some rc ->
  let p := restartPolicyFor cfg in
  (policy_wf p /\
   (forall n, rc_MaxAttempts rc = Some n -> maxAttempts p = n) /\
   (rc_InitialBackoff rc <> EmptyString ->
      parse_duration (rc_InitialBackoff rc) = Some (initialBackoff p)) /\
   (rc_MaxBackoff rc <> EmptyString -> parse_duration (rc_MaxBackoff rc) = Some (maxBackoff p)) /\
   (rc_ResetAfter rc <> EmptyString -> parse_duration (rc_ResetAfter rc) = Some (resetAfter p)) /\
   (fgt (rc_Factor rc) (f_of_Z 0) = true -> factor p = rc_Factor rc)) /\
  (fnumber (factor p) -> finite (factor p) -> maxBackoff p < 2 ^ 53 -> 1 <= attempt <= max_int64 ->
   initialBackoff p <= delay p attempt <= maxBackoff p).
Proof.
  intros Hv Hrc p. apply validateStreamConfig_ok in Hv as (_ & _ & _ & _ & Hr & _).
  pose proof (validateRestart_policy cfg rc Hrc Hr) as H. split; [exact H|].
  destruct H as [Hwf _]. intros. by apply delay_bounds.
Qed.

(** An accepted maximal backoff close to the largest duration: as a float it rounds up to
    2^63, and once the ladder gets there the conversion back overflows.  The delay is
    negative, so the fifth attempt and all later ones follow at once. *)
Definition overlong_config : StreamSourceConfig :=
  mkSourceConfig "prices" "websocket" "wss://feed.example.com/ws" "market.btc" ∅ None None None None
    None None (Some (mkRestartConfig None "1s" "2562047h47m16.854775807s" (FFin false (2 ^ 52) (-42)) "")).

Lemma overlong_backoff_overflows :
  validateStreamConfig overlong_config = Ok tt /\
  let p := restartPolicyFor overlong_config in
  initialBackoff p = second /\ maxBackoff p = max_int64 /\
  delay p <$> [4; 5; 6; 1000] = [1073741824 * second; min_int64; min_int64; min_int64].
Proof. split; [|cbv zeta; split; [|split]]; vm_compute; reflexivity. Qed.

(** Without a restart block the ladder is one second doubling up to thirty,
    for pull and push kinds alike, with unlimited attempts for the pull kinds and
    five for the others. *)
Theorem default_restart_ladder cfg attempt :
  sc_Restart cfg = None -> 1 <= attempt <= 64 ->
  delay (restartPolicyFor cfg) attempt = Z.min (2 ^ (attempt - 1) * second) (30 * second) /\
  maxAttempts (restartPolicyFor cfg)
  = (if bool_decide (sc_Kind cfg ∈ pullKinds) then unlimitedAttempts else 5).
Proof.
  intros Hr Ha. split; [by apply default_ladder|]. unfold restartPolicyFor. by rewrite Hr.
Qed.

Definition sample_config : StreamSourceConfig :=
  mkSourceConfig "prices" "websocket" "wss://feed.example.com/ws" "market.btc" ∅ None None None None
    None None (Some (mkRestartConfig (Some 7) "500ms" "1m" (FFin false (3 * 2 ^ 51) (-52)) "5m")).

Lemma sample_config_valid : validateStreamConfig sample_config = Ok tt.
Proof. vm_compute. reflexivity. Qed.

Lemma accepted_restart_is_honoured_witness :
  let p := restartPolicyFor sample_config in
  initialBackoff p <= delay p 1000000000000 <= maxBackoff p /\
  initialBackoff p = 500 * millisecond /\ maxBackoff p = minute /\ maxAttempts p = 7.
Proof.
  split; [|vm_compute; done].
  apply (accepted_restart_is_honoured sample_config _ 1000000000000 sample_config_valid eq_refl);
    vm_compute; done.
Defined.

Lemma default_restart_ladder_witness :
  let cfg := mkSourceConfig "a" "grpc" EmptyString "t" ∅ None None None None None None None in
  delay (restartPolicyFor cfg) 6 = Z.min (2 ^ (6 - 1) * second) (30 * second) /\
  maxAttempts (restartPolicyFor cfg) = 5.
Proof.
  intros cfg. destruct (default_restart_ladder cfg 6) as [H1 H2]; [reflexivity|lia|].
  split; [exact H1|]. rewrite H2. reflexivity.
Defined.
