(* ===== verification/Redact.v ===== *)
(** * internal/server/redact.go: what the API may hand back

    The redaction of a configuration field by field, of a URL part by part, and of
    the URLs inside an error message. *)

From Stdlib Require Import ZArith Lia Ascii.
From stdpp Require Import base tactics list strings gmap.
From S2P Require Import Prelude GoLib GoUrl Domain.

#[local] Open Scope Z_scope.

Definition redactedValue : string := "[REDACTED]".

Definition redactHeaders (headers : gmap string string) : gmap string string :=
  (fun _ => redactedValue) <$> headers.

Definition redactFrames (frames : StringList) : StringList := (fun _ => redactedValue) <$> frames.

Definition redactPathSegments (path : string) : string :=
  if str_is_empty path || str_eqb path "/" then path
  else join "/" ((fun seg => if str_is_empty seg then seg else redactedValue) <$> split "/" path).

Definition redactParam (param : string) : string :=
  match cut "=" param with
  | (key, Some _) => (key +:+ String "=" redactedValue)%string
  | (_, None) => if str_is_empty param then param else redactedValue
  end.

Definition redactQueryValues (rawQuery : string) : string :=
  if str_is_empty rawQuery then EmptyString
  else join "&" (redactParam <$> split "&" rawQuery).

(** The assignments to [parsed] before it is printed. *)
Definition redactParsed (u : URL) : URL :=
  let redactedPath := redactPathSegments (u_Path u) in
  mkURL (u_Scheme u) (u_Opaque u) None (u_Host u) redactedPath redactedPath (u_OmitHost u)
    (u_ForceQuery u) (redactQueryValues (u_RawQuery u)) EmptyString (u_RawFragment u).

Definition redactURL (raw : string) : string :=
  if str_is_empty raw then raw
  else match url_parse raw with
       | None => redactedValue
       | Some parsed => url_string (redactParsed parsed)
       end.

Definition redactConfig (cfg : StreamSourceConfig) : StreamSourceConfig :=
  mkSourceConfig (sc_ID cfg) (sc_Kind cfg) (redactURL (sc_URL cfg)) (sc_Topic cfg) (sc_Metadata cfg)
    ((fun rp => mkRestPollerConfig (rp_Interval rp) (rp_Method rp) (redactHeaders (rp_Headers rp)))
       <$> sc_RestPoller cfg)
    ((fun wh => mkWebhookConfig (wh_Port wh) (wh_Path wh)
                  (if str_is_empty (wh_AuthToken wh) then wh_AuthToken wh else redactedValue))
       <$> sc_Webhook cfg)
    (sc_Grpc cfg)
    ((fun s => mkSseConfig (redactHeaders (sse_Headers s))) <$> sc_Sse cfg)
    ((fun ws => mkWebsocketConfig (redactFrames (ws_OnConnectSend ws))) <$> sc_Websocket cfg)
    (sc_Pipeline cfg) (sc_Restart cfg).

(** ** Error messages *)

Definition scheme_char (c : ascii) : bool := is_alpha c || is_digit c || one_of "+.-" c.

(** [\s], a single or a double quote ends the URL. *)
Definition url_char (c : ascii) : bool :=
  let b := byte_val c in
  negb ((b =? 9) || (b =? 10) || (b =? 12) || (b =? 13) || (b =? 32) || (b =? 34) || (b =? 39)).

Fixpoint span (f : ascii -> bool) (s : string) : string * string :=
  match s with
  | String c s' => if f c then let '(a, b) := span f s' in (String c a, b) else (EmptyString, s)
  | EmptyString => (EmptyString, s)
  end.

(** [urlInMessage] anchored here: the match and what follows it.  The run of
    scheme characters is maximal, because a colon is not one of them. *)
Definition match_url (s : string) : option (string * string) :=
  match s with
  | String c _ =>
      if is_alpha c then
        let '(scheme, rest) := span scheme_char s in
        body ← cut_prefix "://" rest;
        let '(url, after) := span url_char body in
        if str_is_empty url then None else Some ((scheme +:+ "://" +:+ url)%string, after)
      else None
  | EmptyString => None
  end.

Fixpoint trim_right (cutset : string) (s : string) : string :=
  match s with
  | EmptyString => EmptyString
  | String c s' =>
      match trim_right cutset s' with
      | EmptyString => if one_of cutset c then EmptyString else String c EmptyString
      | t => String c t
      end
  end.

(** The suffix that [trim_right] removed. *)
Fixpoint str_drop (n : nat) (s : string) : string :=
  match n, s with
  | S k, String _ s' => str_drop k s'
  | _, _ => s
  end.

Definition redactMatch (raw : string) : string :=
  let trimmed := trim_right ".,;:!?)]}" raw in
  let suffix := str_drop (String.length trimmed) raw in
  match url_parse trimmed with
  | Some parsed =>
      if str_is_empty (u_Host parsed) then raw
      else
        (url_string (mkURL (u_Scheme parsed) (u_Opaque parsed) None (u_Host parsed) (u_Path parsed)
                       (u_RawPath parsed) (u_OmitHost parsed) (u_ForceQuery parsed) EmptyString
                       EmptyString (u_RawFragment parsed)) +:+ suffix)%string
  | None => raw
  end.

(** [ReplaceAllStringFunc]: leftmost matches, none overlapping. *)
Fixpoint replace_urls (fuel : nat) (s : string) : string :=
  match fuel with
  | O => s
  | S f =>
      match s with
      | EmptyString => EmptyString
      | String c s' =>
          match match_url s with
          | Some (url, rest) => (redactMatch url +:+ replace_urls f rest)%string
          | None => String c (replace_urls f s')
          end
      end
  end.

(** Every round consumes at least one byte. *)
Definition redactForAPI (message : string) : string := replace_urls (String.length message) message.

Example redact_url_ok :
  redactURL "wss://user:pw@feed.example.com:9443/v2/tok/?a=1&flag&b=x=y#frag"
  = "wss://feed.example.com:9443/[REDACTED]/[REDACTED]/?a=[REDACTED]&[REDACTED]&b=[REDACTED]"%string.
Proof. vm_compute. reflexivity. Qed.
Example redact_for_api_ok :
  redactForAPI "dial wss://u:p@h/ws?token=1: bad handshake (see http://x/y?z.)."
  = "dial wss://h/ws: bad handshake (see http://x/y.)."%string.
Proof. vm_compute. reflexivity. Qed.
Example redact_for_api_invalid :
  redactForAPI "url: invalid: wss://user:secret@h/%zz refused" = "url: invalid: wss://user:secret@h/%zz refused"%string.
Proof. vm_compute. reflexivity. Qed.

(** ** Non-interference

    Two configurations an API reader must not tell apart: they differ only in
    values that are presented as credentials. *)

(** Where the slashes are, and which segments are empty. *)
Definition path_shape (path : string) : list bool := str_is_empty <$> split "/" path.

(** A parameter with its key, a bare parameter, or an empty one. *)
Definition param_shape (param : string) : option (option string) :=
  match cut "=" param with
  | (key, Some _) => Some (Some key)
  | (_, None) => if str_is_empty param then None else Some None
  end.

Definition url_alike (r1 r2 : string) : Prop :=
  str_is_empty r1 = str_is_empty r2 /\
  match url_parse r1, url_parse r2 with
  | Some u1, Some u2 =>
      u_Scheme u1 = u_Scheme u2 /\ u_Opaque u1 = u_Opaque u2 /\ u_Host u1 = u_Host u2 /\
      u_OmitHost u1 = u_OmitHost u2 /\ u_ForceQuery u1 = u_ForceQuery u2 /\
      path_shape (u_Path u1) = path_shape (u_Path u2) /\
      (str_is_empty (u_RawQuery u1) = str_is_empty (u_RawQuery u2) /\
       param_shape <$> split "&" (u_RawQuery u1) = param_shape <$> split "&" (u_RawQuery u2))
  | None, None => True
  | _, _ => False
  end.

Definition blocks_alike {A} (alike : A -> A -> Prop) (x y : option A) : Prop :=
  match x, y with Some a, Some b => alike a b | None, None => True | _, _ => False end.

Record config_alike (c1 c2 : StreamSourceConfig) : Prop := {
  al_id : sc_ID c1 = sc_ID c2;
  al_kind : sc_Kind c1 = sc_Kind c2;
  al_url : url_alike (sc_URL c1) (sc_URL c2);
  al_topic : sc_Topic c1 = sc_Topic c2;
  al_metadata : sc_Metadata c1 = sc_Metadata c2;
  al_poller : blocks_alike (fun a b => rp_Interval a = rp_Interval b /\ rp_Method a = rp_Method b /\
                              dom (rp_Headers a) = dom (rp_Headers b))
                (sc_RestPoller c1) (sc_RestPoller c2);
  al_webhook : blocks_alike (fun a b => wh_Port a = wh_Port b /\ wh_Path a = wh_Path b /\
                               str_is_empty (wh_AuthToken a) = str_is_empty (wh_AuthToken b))
                 (sc_Webhook c1) (sc_Webhook c2);
  al_grpc : sc_Grpc c1 = sc_Grpc c2;
  al_sse : blocks_alike (fun a b => dom (sse_Headers a) = dom (sse_Headers b)) (sc_Sse c1) (sc_Sse c2);
  al_ws : blocks_alike (fun a b => length (ws_OnConnectSend a) = length (ws_OnConnectSend b))
            (sc_Websocket c1) (sc_Websocket c2);
  al_pipeline : sc_Pipeline c1 = sc_Pipeline c2;
  al_restart : sc_Restart c1 = sc_Restart c2
}.

Lemma redactHeaders_alike h1 h2 : dom h1 = dom h2 -> redactHeaders h1 = redactHeaders h2.
Proof.
  intros Hd. apply map_eq. intros k. unfold redactHeaders. rewrite !lookup_fmap.
  assert (is_Some (h1 !! k) <-> is_Some (h2 !! k)) as H by (by rewrite <- !elem_of_dom, Hd).
  destruct (h1 !! k), (h2 !! k); simpl; try done; exfalso;
    [destruct H as [H _]|destruct H as [_ H]]; destruct H as [? [=]]; eauto.
Qed.

Lemma redactFrames_alike f1 f2 : length f1 = length f2 -> redactFrames f1 = redactFrames f2.
Proof.
  unfold redactFrames. revert f2. induction f1 as [|x f1 IH]; intros [|y f2] [=]; csimpl; [done|].
  f_equal. by apply IH.
Qed.

(** The redacted path and query are functions of their shapes. *)
Lemma redactPath_shape path :
  redactPathSegments path
  = join "/" ((fun e : bool => if e then EmptyString else redactedValue) <$> path_shape path).
Proof.
  unfold redactPathSegments, path_shape. rewrite <- list_fmap_compose.
  destruct (str_is_empty path) eqn:E1; [by destruct path|]. simpl.
  unfold str_eqb. case_bool_decide as E2; [by subst|].
  f_equal. apply list_fmap_ext. intros i seg _. simpl. by destruct seg.
Qed.

Lemma redactParam_shape param :
  redactParam param
  = match param_shape param with
    | Some (Some key) => (key +:+ String "=" redactedValue)%string
    | Some None => redactedValue
    | None => EmptyString
    end.
Proof.
  unfold redactParam, param_shape. destruct (cut _ param) as [key [v|]]; [done|]. by destruct param.
Qed.

Lemma redactQuery_alike q1 q2 :
  str_is_empty q1 = str_is_empty q2 ->
  param_shape <$> split "&" q1 = param_shape <$> split "&" q2 ->
  redactQueryValues q1 = redactQueryValues q2.
Proof.
  intros He Hs. unfold redactQueryValues. rewrite He. destruct (str_is_empty q2); [done|]. f_equal.
  rewrite !(list_fmap_ext redactParam
    (fun p => match param_shape p with
              | Some (Some key) => (key +:+ String "=" redactedValue)%string
              | Some None => redactedValue
              | None => EmptyString
              end)) by (intros; apply redactParam_shape).
  change (fun p => match param_shape p with
                   | Some (Some key) => (key +:+ String "=" redactedValue)%string
                   | Some None => redactedValue
                   | None => EmptyString
                   end)
    with ((fun o : option (option string) =>
             match o with
             | Some (Some key) => (key +:+ String "=" redactedValue)%string
             | Some None => redactedValue
             | None => EmptyString
             end) ∘ param_shape).
  by rewrite !list_fmap_compose, Hs.
Qed.

Lemma url_string_redacted u1 u2 :
  u_Scheme u1 = u_Scheme u2 -> u_Opaque u1 = u_Opaque u2 -> u_Host u1 = u_Host u2 ->
  u_OmitHost u1 = u_OmitHost u2 -> u_ForceQuery u1 = u_ForceQuery u2 ->
  redactPathSegments (u_Path u1) = redactPathSegments (u_Path u2) ->
  redactQueryValues (u_RawQuery u1) = redactQueryValues (u_RawQuery u2) ->
  url_string (redactParsed u1) = url_string (redactParsed u2).
Proof.
  intros H1 H2 H3 H4 H5 H6 H7. unfold redactParsed. rewrite H1, H2, H3, H4, H5, H6, H7. done.
Qed.

Lemma redactURL_alike r1 r2 : url_alike r1 r2 -> redactURL r1 = redactURL r2.
Proof.
  unfold url_alike, redactURL. intros [He H]. rewrite He.
  destruct (str_is_empty r2) eqn:E2; [by destruct r1, r2|].
  destruct (url_parse r1) as [u1|], (url_parse r2) as [u2|]; try done.
  destruct H as (? & ? & ? & ? & ? & Hp & Hq & Hs).
  apply url_string_redacted; try done.
  - by rewrite !redactPath_shape, Hp.
  - by apply redactQuery_alike.
Qed.

(** Reading a stream's configuration back is non-interfering: two
    configurations that differ only in auth tokens, header values, connect frames,
    userinfo, path segments, parameter values, bare parameters and fragments are
    served as the same document. *)
Lemma redactConfig_alike c1 c2 : config_alike c1 c2 -> redactConfig c1 = redactConfig c2.
Proof.
  intros [? ? Hu ? ? Hp Hw Hg Hs Hws ? ?]. unfold redactConfig.
  f_equal; try done; [by apply redactURL_alike|..].
  - destruct (sc_RestPoller c1), (sc_RestPoller c2); simpl in *; try done.
    destruct Hp as (-> & -> & Hd). by rewrite (redactHeaders_alike _ _ Hd).
  - destruct (sc_Webhook c1), (sc_Webhook c2); simpl in *; try done.
    destruct Hw as (-> & -> & Ht). rewrite Ht.
    destruct (wh_AuthToken w), (wh_AuthToken w0); by simplify_eq/=.
  - destruct (sc_Sse c1), (sc_Sse c2); simpl in *; try done. by rewrite (redactHeaders_alike _ _ Hs).
  - destruct (sc_Websocket c1), (sc_Websocket c2); simpl in *; try done.
    by rewrite (redactFrames_alike _ _ Hws).
Qed.

(** What redaction keeps of a URL with a scheme and no slash after it is all
    of it: the part after the colon is served as written. *)
Theorem opaque_url_is_served raw u :
  url_parse raw = Some u -> str_is_empty (u_Opaque u) = false -> str_is_empty (u_Scheme u) = false ->
  u_RawQuery u = EmptyString -> u_ForceQuery u = false ->
  redactURL raw = (u_Scheme u +:+ ":" +:+ u_Opaque u)%string.
Proof.
  intros Hp Ho Hs Hq Hf. unfold redactURL.
  destruct raw as [|c raw]; [by vm_compute in Hp; simplify_eq|]. simpl. rewrite Hp.
  unfold url_string, redactParsed. simpl. rewrite Ho, Hs, Hf, Hq. simpl.
  by rewrite !str_app_empty_r, str_app_assoc.
Qed.

Definition secret_config (token : string) : StreamSourceConfig :=
  mkSourceConfig "s" "rest_poller" ("https://user:" +:+ token +:+ "@api.example.com/v1/" +:+ token
                                    +:+ "?key=" +:+ token +:+ "#" +:+ token)%string
    "topic" ∅
    (Some (mkRestPollerConfig "5s" "GET" {[ "X-Thing" := token ]}))
    (Some (mkWebhookConfig "8081" "/hook" token)) None
    (Some (mkSseConfig {[ "Authorization" := token ]}))
    (Some (mkWebsocketConfig [token; token])) None None.

Lemma secrets_alike : config_alike (secret_config "hunter2") (secret_config "Tr0ub4dor").
Proof.
  split; try reflexivity.
  - split; [done|]. vm_compute. done.
  - split_and!; [done..|]. simpl. by rewrite !dom_singleton_L.
  - by split_and!.
Qed.

Lemma opaque_url_is_served_witness : redactURL "foo:secret" = "foo:secret"%string.
Proof.
  apply (opaque_url_is_served "foo:secret"
           (mkURL "foo" "secret" None EmptyString EmptyString EmptyString false false EmptyString
              EmptyString EmptyString)); vm_compute; reflexivity.
Defined.
