(* ===== verification/Supervisor.v ===== *)
(** * internal/server/manager.go: the supervisor of one stream

    [supervise] as a state machine: what the goroutine does between two points
    where it waits for something else (its sleep, the source's [Open], the source's
    [Run]), driven by the answers it gets.  Operators cancel it at any time; while
    a session runs, the source reports readiness and publishes events. *)

From Stdlib Require Import ZArith Lia.
From stdpp Require Import base tactics list strings gmap.
From S2P Require Import Prelude GoLib GoFloat GoTime Domain Telemetry Restart Redact.

#[local] Open Scope Z_scope.

(** ** Runtime facts *)

Definition metricState (status : SourceStatus) : string :=
  match status with
  | StatusRunning => "connected"
  | StatusError => "errored"
  | StatusStopped => "stopped"
  | _ => "reconnecting"
  end.

Definition sourceHealth (status : SourceStatus) : string :=
  match status with
  | StatusRunning => "healthy"
  | StatusError => "errored"
  | _ => "degraded"
  end.

Record streamFailure : Type := mkFailure { sf_message : string; sf_at : Z }.

Record streamRuntime : Type := mkRuntime {
  lastMessageUnixNano : Z;
  status : SourceStatus;
  restarts : Z;
  lastError : option streamFailure
}.

Definition newStreamRuntime (st : SourceStatus) : streamRuntime := mkRuntime 0 st 0 None.

Definition errSessionClosed : string := "session ended without reporting an error".

Definition recordFailure (err : option string) (at_ : Z) (rt : streamRuntime) : streamRuntime :=
  mkRuntime (lastMessageUnixNano rt) (status rt) (restarts rt)
    (Some (mkFailure (redactForAPI (default errSessionClosed err)) at_)).

Definition eventPayloadSize (e : StreamEvent) : Z :=
  if 0 <? str_length (se_Data e) then str_length (se_Data e) else str_length (raw_bytes (se_Payload e)).

(** ** The goroutine *)

Inductive sup_pc : Type :=
| CStart                              (* started, first session not begun *)
| CSleep (attempt : Z)                (* in m.sleep *)
| COpen (attempt : Z)                 (* in source.Open *)
| CRun (attempt : Z) (readyAt : Z)    (* in source.Run *)
| CDone.                              (* returned, [done] closed *)

(** What it does to its source, in order. *)
Inductive sup_call : Type :=
| KOpen (ok : bool)
| KRun
| KClose
| KSleep (d : Z).

Record sup_state : Type := mkSup {
  s_pc : sup_pc;
  s_runtime : streamRuntime;
  s_metrics : metrics;
  s_cancelled : bool;           (* ctx.Err() != nil *)
  s_calls : list sup_call;
  s_resets : Z                  (* ghost: sessions that earned the budget back *)
}.

Inductive sup_action : Type :=
| AStart
| AWake (ok : bool)                              (* m.sleep returned *)
| AOpened (err : option string) (now : Z)        (* source.Open returned; m.now() if it is read *)
| AReady (now : Z)                               (* ready() was called *)
| APublish (start : Z) (event : StreamEvent)     (* publish was called *)
| ARunEnd (err : option string) (now1 now2 : Z)  (* source.Run returned; m.now() twice *)
| ACancel.

Section Supervise.
Variable id : string.
Variable policy : restartPolicy.

Definition set_pc pc s :=
  mkSup pc (s_runtime s) (s_metrics s) (s_cancelled s) (s_calls s) (s_resets s).
Definition call k s :=
  mkSup (s_pc s) (s_runtime s) (s_metrics s) (s_cancelled s) (s_calls s ++ [k]) (s_resets s).
Definition on_runtime f s :=
  mkSup (s_pc s) (f (s_runtime s)) (s_metrics s) (s_cancelled s) (s_calls s) (s_resets s).
Definition on_metrics f s :=
  mkSup (s_pc s) (s_runtime s) (f (s_metrics s)) (s_cancelled s) (s_calls s) (s_resets s).
Definition cancel s :=
  mkSup (s_pc s) (s_runtime s) (s_metrics s) true (s_calls s) (s_resets s).
Definition earn s :=
  mkSup (s_pc s) (s_runtime s) (s_metrics s) (s_cancelled s) (s_calls s) (s_resets s + 1).

(** [runtime.setStatus]: the status and then its gauges, as one step of the goroutine;
    [status_writes] below lists its writes one by one, for what others see in between. *)
Definition setStatus (st : SourceStatus) (s : sup_state) : sup_state :=
  on_metrics (SetStreamState id (metricState st))
    (on_runtime (fun rt => mkRuntime (lastMessageUnixNano rt) st (restarts rt) (lastError rt)) s).

(** Its writes, in order: a scrape, or the API, can come between any two of them. *)
Definition status_writes (st : SourceStatus) : list (sup_state -> sup_state) :=
  on_runtime (fun rt => mkRuntime (lastMessageUnixNano rt) st (restarts rt) (lastError rt))
  :: ((fun state => on_metrics (set_gauge id (metricState st) state)) <$> streamStates).

(** The state when [setStatus] has made [n] of them. *)
Definition setting (st : SourceStatus) (n : nat) (s : sup_state) : sup_state :=
  foldl (fun s write => write s) s (take n (status_writes st)).

Lemma setStatus_writes st s : setStatus st s = setting st (length (status_writes st)) s.
Proof. reflexivity. Qed.

(** [runtime.restarts.Add(1); telemetry.StreamRestarts.Inc()] *)
Definition count_restart (s : sup_state) : sup_state :=
  on_metrics (set_StreamRestarts (counter_add id 1))
    (on_runtime (fun rt => mkRuntime (lastMessageUnixNano rt) (status rt) (wrap64 (restarts rt + 1))
                             (lastError rt)) s).

Definition stop (s : sup_state) : sup_state := set_pc CDone (setStatus StatusStopped s).
Definition markFailed (s : sup_state) : sup_state := set_pc CDone (setStatus StatusError s).

(** The rest of the loop's body once its source is held. *)
Definition start_session (attempt : Z) (s : sup_state) : sup_state :=
  call KRun (set_pc (CRun attempt 0) (setStatus StatusConnecting s)).

(** The head of the loop on every pass but the first. *)
Definition restart (attempt : Z) (s : sup_state) : sup_state :=
  call (KSleep (delay policy attempt)) (set_pc (CSleep attempt) (setStatus StatusReconnecting s)).

(** A failed attempt: the reason is recorded, then the budget decides. *)
Definition attempt_failed (attempt : Z) (err : option string) (now : Z) (s : sup_state) : sup_state :=
  let s := on_runtime (recordFailure err now) s in
  let '(n, ok) := next policy attempt in
  if ok then restart n (count_restart s) else markFailed s.

(** [instrumentedPublish], up to the generation's [Publish]. *)
Definition ingest (start : Z) (event : StreamEvent) (s : sup_state) : sup_state :=
  on_metrics (fun m => set_Duration (counter_add id 1)
                         (set_BytesIngested (counter_add id (eventPayloadSize event))
                            (set_EventsIngested (counter_add id 1) m)))
    (on_runtime (fun rt => mkRuntime start (status rt) (restarts rt) (lastError rt)) s).

(** The session outlived [reset_after]: it was ready, and long enough ago. *)
Definition earned_reset (readyAt now : Z) : bool :=
  (0 <? readyAt) && (resetAfter policy <=? time_sub now readyAt).

Definition sup_exec (a : sup_action) (s : sup_state) : option sup_state :=
  match a, s_pc s with
  | ACancel, _ => Some (cancel s)
  | AStart, CStart => Some (start_session 0 s)
  | AWake true, CSleep attempt =>
      (* with nothing to wait for, sleep only reports on the context *)
      if (delay policy attempt <=? 0) && s_cancelled s then None
      else Some (set_pc (COpen attempt) s)
  | AWake false, CSleep attempt => if s_cancelled s then Some (stop s) else None
  | AOpened None _, COpen attempt => Some (start_session attempt (call (KOpen true) s))
  | AOpened (Some e) now, COpen attempt =>
      let s := call (KOpen false) s in
      if s_cancelled s then Some (stop s) else Some (attempt_failed attempt (Some e) now s)
  | AReady now, CRun attempt _ => Some (set_pc (CRun attempt now) (setStatus StatusRunning s))
  | APublish start event, CRun _ _ => Some (ingest start event s)
  | ARunEnd err now1 now2, CRun attempt readyAt =>
      let s := call KClose s in
      if s_cancelled s then Some (stop s)
      else if earned_reset readyAt now1 then Some (attempt_failed 0 err now2 (earn s))
      else Some (attempt_failed attempt err now2 s)
  | _, _ => None
  end.

Definition sup_step (s s' : sup_state) : Prop := exists a, sup_exec a s = Some s'.

Fixpoint sup_run (sched : list sup_action) (s : sup_state) : option sup_state :=
  match sched with
  | [] => Some s
  | a :: sched' => s' ← sup_exec a s; sup_run sched' s'
  end.

(** What [admitLocked] leaves behind: an open source, the status set. *)
Definition sup_init (m : metrics) : sup_state :=
  mkSup CStart (newStreamRuntime StatusConnecting)
    (SetStreamState id (metricState StatusConnecting) m) false [] 0.
(** ** Reasoning by cases on a step *)


(** The protocol a source may rely on: a session runs once on an open source
    and is closed after it, and the source is acquired again only once closed. *)
Inductive phase : Type := Held | Running | Free.

Definition protocol (p : option phase) (k : sup_call) : option phase :=
  match p, k with
  | Some Held, KRun => Some Running
  | Some Running, KClose => Some Free
  | Some Free, KSleep _ => Some Free
  | Some Free, KOpen ok => Some (if ok then Held else Free)
  | _, _ => None
  end.

Definition protocol_run (calls : list sup_call) : option phase := foldl protocol (Some Held) calls.

Lemma protocol_snoc calls k : protocol_run (calls ++ [k]) = protocol (protocol_run calls) k.
Proof. unfold protocol_run. by rewrite foldl_app. Qed.

Definition pc_phase (pc : sup_pc) : phase :=
  match pc with CStart => Held | CRun _ _ => Running | _ => Free end.

Fixpoint sleeps (calls : list sup_call) : Z :=
  match calls with
  | [] => 0
  | KSleep _ :: calls' => 1 + sleeps calls'
  | _ :: calls' => sleeps calls'
  end.

Lemma sleeps_snoc calls k :
  sleeps (calls ++ [k]) = sleeps calls + match k with KSleep _ => 1 | _ => 0 end.
Proof. induction calls as [|[] calls IH]; simpl; rewrite ?IH; destruct k; lia. Qed.

Definition pc_attempt (pc : sup_pc) : Z :=
  match pc with CStart | CDone => 0 | CSleep a | COpen a | CRun a _ => a end.

(** Restarts still allowed are counted from here. *)
Definition spent (pc : sup_pc) : Z :=
  match pc with CDone => maxAttempts policy | _ => pc_attempt pc end.

(** What holds in the middle of an iteration, with the phase the source is in and
    the attempt number in hand. *)
Record sup_core (ph : phase) (attempt : Z) (s : sup_state) : Prop := {
  co_protocol : protocol_run (s_calls s) = Some ph;
  co_budget : 0 <= maxAttempts policy < max_int64 ->
    0 <= attempt <= maxAttempts policy /\
    sleeps (s_calls s) <= maxAttempts policy * s_resets s + attempt;
  co_restarts : restarts (s_runtime s) = wrap64 (sleeps (s_calls s))
}.

(** Everything the loop keeps true at the points where it waits. *)
Record sup_ok (s : sup_state) : Prop := {
  so_protocol : protocol_run (s_calls s) = Some (pc_phase (s_pc s));
  so_budget : 0 <= maxAttempts policy < max_int64 ->
    0 <= spent (s_pc s) <= maxAttempts policy /\
    sleeps (s_calls s) <= maxAttempts policy * s_resets s + spent (s_pc s);
  so_restarts : restarts (s_runtime s) = wrap64 (sleeps (s_calls s));
  so_gauge : one_hot id (metricState (status (s_runtime s))) (s_metrics s);
  so_error : status (s_runtime s) = StatusError ->
    s_pc s = CDone /\ is_Some (lastError (s_runtime s)) /\ maxAttempts policy <> unlimitedAttempts;
  so_stopped : status (s_runtime s) = StatusStopped -> s_pc s = CDone /\ s_cancelled s = true;
  so_done : s_pc s = CDone ->
    status (s_runtime s) = StatusError \/ status (s_runtime s) = StatusStopped
}.

Lemma sup_ok_core s : sup_ok s -> s_pc s <> CDone -> sup_core (pc_phase (s_pc s)) (pc_attempt (s_pc s)) s.
Proof.
  intros [H1 H2 H3 _ _ _ _] Hpc. split; [done| |done]. unfold spent in H2. by destruct (s_pc s).
Qed.

Lemma core_call ph ph' k a s :
  sup_core ph a s -> protocol (Some ph) k = Some ph' -> (forall d, k <> KSleep d) ->
  sup_core ph' a (call k s).
Proof.
  intros [H1 H2 H3] Hk Hns.
  assert (sleeps (s_calls (call k s)) = sleeps (s_calls s)) as E.
  { simpl. rewrite sleeps_snoc. destruct k; try lia. by destruct (Hns d). }
  split; simpl; [by rewrite protocol_snoc, H1| |by rewrite H3, <- E].
  simpl in E. by rewrite E.
Qed.

Lemma sup_init_ok m : sup_ok (sup_init m).
Proof. split; simpl; try done; [lia|apply SetStreamState_hot]. Qed.

Lemma stop_ok a s : sup_core Free a s -> s_cancelled s = true -> sup_ok (stop s).
Proof.
  intros [H1 H2 H3] Hc. split; simpl; try done; [lia|apply SetStreamState_hot|by right].
Qed.

Lemma start_session_ok a s : sup_core Held a s -> sup_ok (start_session a s).
Proof.
  intros [H1 H2 H3]. split; simpl; try done.
  - by rewrite protocol_snoc, H1.
  - rewrite sleeps_snoc, Z.add_0_r. done.
  - by rewrite sleeps_snoc, Z.add_0_r.
  - apply SetStreamState_hot.
Qed.

Lemma attempt_failed_ok a err now s : sup_core Free a s -> sup_ok (attempt_failed a err now s).
Proof.
  intros [H1 H2 H3]. unfold attempt_failed, next.
  assert (Hw : 0 <= maxAttempts policy < max_int64 -> wrap64 (a + 1) = a + 1).
  { intros Hm. apply wrap64_id. destruct (H2 Hm). unfold min_int64, max_int64 in *. lia. }
  assert (Hr : forall n, (0 <= maxAttempts policy < max_int64 -> n = a + 1 /\ n <= maxAttempts policy) ->
            sup_ok (restart n (count_restart (on_runtime (recordFailure err now) s)))).
  { intros n Hn. split; simpl; try done.
    - by rewrite protocol_snoc, H1.
    - intros Hm. rewrite sleeps_snoc. destruct (Hn Hm), (H2 Hm). lia.
    - rewrite sleeps_snoc, H3. unfold wrap64.
      replace (sleeps (s_calls s) + 1 + 2 ^ 63) with ((sleeps (s_calls s) + 2 ^ 63) + 1) by lia.
      rewrite <- (Z.add_mod_idemp_l (_ + 2 ^ 63) 1) by lia. f_equal. f_equal. lia.
    - apply SetStreamState_hot. }
  destruct (Z.eqb_spec (maxAttempts policy) unlimitedAttempts) as [Hu|Hu].
  - apply Hr. unfold unlimitedAttempts in Hu. lia.
  - destruct (Z.leb_spec (wrap64 (a + 1)) (maxAttempts policy)).
    + apply Hr. intros Hm. rewrite Hw in * by done. lia.
    + split; simpl; try done; [lia|apply SetStreamState_hot|by left].
Qed.

Lemma sup_ok_step s s' : sup_ok s -> sup_step s s' -> sup_ok s'.
Proof.
  intros Hok [a Ha]. pose proof (sup_ok_core s Hok) as Hc.
  assert (Hcall : forall ph k, s_pc s <> CDone -> protocol (Some (pc_phase (s_pc s))) k = Some ph ->
            (forall d, k <> KSleep d) -> sup_core ph (pc_attempt (s_pc s)) (call k s)).
  { intros ph k Hd Hk Hns. eapply core_call; eauto. }
  destruct a as [|ok|err now|now|start event|err n1 n2|]; cbn [sup_exec] in Ha.
  - destruct (s_pc s) eqn:Hpc; simplify_eq. apply start_session_ok. by apply Hc.
  - destruct ok, (s_pc s) as [|at_|at_|at_ ra|] eqn:Hpc; try done.
    + destruct (_ && _); [done|]. injection Ha as <-. destruct Hok as [H1 H2 H3 H4 H5 H6 H7].
      rewrite Hpc in *. split; simpl; try done.
      * intros Hs. by destruct (H5 Hs).
      * intros Hs. by destruct (H6 Hs).
    + destruct (s_cancelled s) eqn:Hcan; [|done]. injection Ha as <-. eapply stop_ok; [by apply Hc|done].
  - destruct err as [e|], (s_pc s) as [|at_|at_|at_ ra|] eqn:Hpc; try done.
    + specialize (Hcall Free (KOpen false) ltac:(done) eq_refl ltac:(done)).
      simpl in Ha. destruct (s_cancelled s) eqn:Hcan; injection Ha as <-.
      * by eapply stop_ok.
      * by apply attempt_failed_ok.
    + injection Ha as <-. apply start_session_ok. by apply (Hcall Held).
  - destruct (s_pc s) as [|at_|at_|at_ ra|] eqn:Hpc; try done. injection Ha as <-.
    destruct Hok as [H1 H2 H3 H4 H5 H6 H7]. rewrite Hpc in *.
    split; simpl; try done. apply SetStreamState_hot.
  - destruct (s_pc s) as [|at_|at_|at_ ra|] eqn:Hpc; try done. injection Ha as <-.
    destruct Hok as [H1 H2 H3 H4 H5 H6 H7]. rewrite Hpc in *. by split; simpl; rewrite ?Hpc.
  - destruct (s_pc s) as [|at_|at_|at_ ra|] eqn:Hpc; try done.
    specialize (Hcall Free KClose ltac:(done) eq_refl ltac:(done)). simpl in Ha.
    destruct (s_cancelled s) eqn:Hcan; [injection Ha as <-; by eapply stop_ok|].
    destruct (earned_reset _ _); injection Ha as <-; apply attempt_failed_ok; [|done].
    destruct Hcall as [K1 K2 K3]. split; simpl; try done. simpl in *. intros Hm. destruct (K2 Hm). lia.
  - injection Ha as <-. destruct Hok as [H1 H2 H3 H4 H5 H6 H7]. split; try done. simpl.
    intros Hs. by destruct (H6 Hs).
Qed.

Lemma sup_reach_ok m s : reach sup_step (sup_init m) s -> sup_ok s.
Proof. apply (reach_invariant sup_step sup_ok); [apply sup_init_ok|eauto using sup_ok_step]. Qed.
End Supervise.

(** ** What the supervisor guarantees *)

(** What it still has to do once cancelled: at most a session and its end. *)
Definition wind_down (pc : sup_pc) : nat :=
  match pc with CStart => 2 | CSleep _ => 3 | COpen _ => 2 | CRun _ _ => 1 | CDone => 0 end.

(** The answers that move the goroutine on; readiness, publishing and repeated
    cancellation do not. *)
Definition moves_on (a : sup_action) : bool :=
  match a with AReady _ | APublish _ _ | ACancel => false | _ => true end.

Lemma cancelled_step id p a s s' :
  s_cancelled s = true -> status (s_runtime s) <> StatusError -> sup_exec id p a s = Some s' ->
  s_cancelled s' = true /\ status (s_runtime s') <> StatusError /\
  restarts (s_runtime s') = restarts (s_runtime s) /\
  (if moves_on a then (wind_down (s_pc s') < wind_down (s_pc s))%nat
   else wind_down (s_pc s') = wind_down (s_pc s)).
Proof.
  intros Hc Hs Ha. destruct s as [pc rt m c calls rs]; simpl in *. subst c.
  destruct a as [|[]|[e|] now|now|st ev|err n1 n2|], pc as [|at_|at_|at_ ra|]; simpl in Ha;
    try done; try (destruct (_ && _); [done|]); simplify_eq/=; split_and!; try done; lia.
Qed.

Lemma cancelled_reach id p s s' :
  s_cancelled s = true -> status (s_runtime s) <> StatusError -> reach (sup_step id p) s s' ->
  s_cancelled s' = true /\ status (s_runtime s') <> StatusError /\
  restarts (s_runtime s') = restarts (s_runtime s) /\ (wind_down (s_pc s') <= wind_down (s_pc s))%nat.
Proof.
  intros Hc Hs. induction 1 as [|s1 s2 _ IH [a Ha]]; [done|].
  destruct IH as (Hc1 & Hs1 & Hr1 & Hw1).
  destruct (cancelled_step id p a s1 s2 Hc1 Hs1 Ha) as (Hc2 & Hs2 & Hr2 & Hw2).
  split_and!; [done|done|by rewrite Hr2|]. destruct (moves_on a); lia.
Qed.

(** (C29) The supervisor respects the source's contract on every schedule: the
    source opened at admission runs first; every session that ran is closed once,
    right after it ends; the source is acquired again only when closed; and a
    supervisor that has returned holds nothing. *)
Theorem supervisor_protocol id p m s :
  reach (sup_step id p) (sup_init id m) s ->
  protocol_run (s_calls s) = Some (pc_phase (s_pc s)) /\
  (s_pc s = CDone -> protocol_run (s_calls s) = Some Free).
Proof.
  intros Hr. apply sup_reach_ok in Hr as [H1 _ _ _ _ _ _].
  split; [done|]. intros Hd. by rewrite H1, Hd.
Qed.

(** (C20) The attempt budget bounds restarts: with [max_attempts] = n, a stream
    whose sessions earned their budget back k times has been restarted at most
    n * (k + 1) times, its restart count says exactly how often (as an [int64]),
    and it reports a terminal error only once it has stopped, with a reason
    recorded; a stream with unlimited attempts never does. *)
Theorem supervisor_budget id p m s :
  reach (sup_step id p) (sup_init id m) s ->
  (0 <= maxAttempts p < max_int64 -> sleeps (s_calls s) <= maxAttempts p * (s_resets s + 1)) /\
  restarts (s_runtime s) = wrap64 (sleeps (s_calls s)) /\
  (status (s_runtime s) = StatusError ->
     s_pc s = CDone /\ is_Some (lastError (s_runtime s)) /\ maxAttempts p <> unlimitedAttempts).
Proof.
  intros Hr. apply sup_reach_ok in Hr as [_ H2 H3 _ H5 _ _].
  split_and!; [|done|done]. intros Hm. destruct (H2 Hm). lia.
Qed.

(** In the middle of [setStatus], what the API and the gauges show is the old status or
    the new one. *)
Lemma setting_mixed id st n s :
  one_hot id (metricState (status (s_runtime s))) (s_metrics s) ->
  let v := setting id st n s in
  (status (s_runtime v) = status (s_runtime s) \/ status (s_runtime v) = st) /\
  old_or_new id (metricState (status (s_runtime s))) (metricState st) (s_metrics v).
Proof.
  intros H. set (old := status (s_runtime s)).
  unfold setting. assert (Hw : Forall (fun write => forall v,
    (status (s_runtime v) = old \/ status (s_runtime v) = st) /\ old_or_new id (metricState old) (metricState st) (s_metrics v) ->
    (status (s_runtime (write v)) = old \/ status (s_runtime (write v)) = st) /\
    old_or_new id (metricState old) (metricState st) (s_metrics (write v))) (take n (status_writes id st))).
  { apply Forall_take, Forall_cons. split; [intros v [_ Hg]; split; [by right|done]|].
    apply Forall_fmap, Forall_true. intros state v [Hs Hg]. split; [done|]. by apply set_gauge_mixed. }
  assert (H0 : (status (s_runtime s) = old \/ status (s_runtime s) = st) /\
               old_or_new id (metricState old) (metricState st) (s_metrics s)).
  { split; [by left|]. intros state Hin. left. by apply H. }
  revert H0. generalize s. induction Hw as [|write l Hwrite _ IH]; intros v Hv; [done|]. apply IH. by apply Hwrite.
Qed.

(** A step sets the status once, or not at all. *)
Definition unset (s s0 : sup_state) : Prop :=
  status (s_runtime s0) = status (s_runtime s) /\ StreamState (s_metrics s0) = StreamState (s_metrics s).

Definition set_once (id : string) (s s' : sup_state) : Prop :=
  exists s0 st, unset s s0 /\ s_runtime s' = s_runtime (setStatus id st s0) /\ s_metrics s' = s_metrics (setStatus id st s0).

Lemma attempt_failed_once id p a err now s s0 : unset s s0 -> set_once id s (attempt_failed id p a err now s0).
Proof.
  intros H. unfold attempt_failed. destruct (next p a) as [n []].
  - exists (count_restart id (on_runtime (recordFailure err now) s0)), StatusReconnecting. by repeat split; apply H.
  - exists (on_runtime (recordFailure err now) s0), StatusError. by repeat split; apply H.
Qed.

Lemma step_sets_once id p a s s' : sup_exec id p a s = Some s' -> unset s s' \/ set_once id s s'.
Proof.
  assert (Hset : forall s0 st s2, unset s s0 -> s_runtime s2 = s_runtime (setStatus id st s0) ->
            s_metrics s2 = s_metrics (setStatus id st s0) -> unset s s2 \/ set_once id s s2).
  { intros s0 st s2 ???. right. by exists s0, st. }
  assert (Hstart : forall a s0, unset s s0 -> unset s (start_session id a s0) \/ set_once id s (start_session id a s0)).
  { intros a0 s0 H0. by apply (Hset s0 StatusConnecting). }
  assert (Hstop : forall s0, unset s s0 -> unset s (stop id s0) \/ set_once id s (stop id s0)).
  { intros s0 H0. by apply (Hset s0 StatusStopped). }
  destruct a as [|[]|[e|] now|now|start ev|err n1 n2|], (s_pc s) as [|at_|at_|at_ ra|] eqn:Hpc; cbn [sup_exec];
    rewrite ?Hpc; try done; repeat case_match; intros [= <-];
    first [by left | by apply Hstart | by apply Hstop | by apply (Hset s StatusRunning)
          | right; by apply attempt_failed_once].
Qed.

(** (C35) The state gauges follow the status the API reports.  Whenever the goroutine
    of an admitted stream waits for its sleep or its source, the gauges are one-hot on
    that status.  A step changes the status at most once, by one write of the status
    and then one of each gauge, which a scrape can fall between: after any number of
    them the API reports the old status or the new one, and so does each gauge.  A
    stream is reported stopped only when it was cancelled, and a supervisor that has
    returned left its stream either stopped or in error. *)
Theorem supervisor_reports_status id p m s :
  reach (sup_step id p) (sup_init id m) s ->
  one_hot id (metricState (status (s_runtime s))) (s_metrics s) /\
  (forall a s', sup_exec id p a s = Some s' -> unset s s' \/
     exists s0 st, unset s s0 /\
       s_runtime s' = s_runtime (setStatus id st s0) /\ s_metrics s' = s_metrics (setStatus id st s0) /\
       forall n, let v := setting id st n s0 in
         (status (s_runtime v) = status (s_runtime s) \/ status (s_runtime v) = status (s_runtime s')) /\
         old_or_new id (metricState (status (s_runtime s))) (metricState (status (s_runtime s'))) (s_metrics v)) /\
  (status (s_runtime s) = StatusStopped -> s_cancelled s = true) /\
  (s_pc s = CDone -> status (s_runtime s) = StatusError \/ status (s_runtime s) = StatusStopped).
Proof.
  intros Hr. apply sup_reach_ok in Hr as [_ _ _ H4 _ H6 H7].
  split; [done|]. split; [|split; [intros Hs; by destruct (H6 Hs)|done]].
  intros a s' Ha. apply step_sets_once in Ha as [?|(s0 & st & [Es Eg] & Er & Em)]; [by left|right].
  exists s0, st. split_and!; try done. intros n. rewrite <- Es, Er. change (status (s_runtime (setStatus id st s0))) with st.
  apply setting_mixed. rewrite Es. intros state Hin. rewrite Eg. by apply H4.
Qed.

(** In between, none of the gauges may be 1, or two of them: after the first gauge of a
    session that was ready and ends, and of one that becomes ready. *)
Example gauges_in_between :
  let at_status st := mkSup CStart (newStreamRuntime st) (SetStreamState "s" (metricState st) no_metrics) false [] 0 in
  let shown v := (fun state => default 0 (StreamState (s_metrics v) !! ("s"%string, state))) <$> streamStates in
  shown (setting "s" StatusReconnecting 2 (at_status StatusRunning)) = [0; 0; 0; 0] /\
  shown (setting "s" StatusRunning 2 (at_status StatusConnecting)) = [1; 1; 0; 0].
Proof. split; vm_compute; reflexivity. Qed.

(** (C28) Cancelling is never a restart and always ends: from the moment the
    context of a live stream is cancelled no restart is counted and no error is
    reported, whatever the source answers; the goroutine needs at most three more
    answers to return, and returning then means the stream is stopped. *)
Theorem cancellation_stops id p m s s' a s'' :
  reach (sup_step id p) (sup_init id m) s -> s_pc s <> CDone -> s_cancelled s = true ->
  reach (sup_step id p) s s' -> sup_exec id p a s' = Some s'' ->
  restarts (s_runtime s'') = restarts (s_runtime s) /\
  status (s_runtime s'') <> StatusError /\
  (wind_down (s_pc s) <= 3)%nat /\
  (moves_on a = true -> (wind_down (s_pc s'') < wind_down (s_pc s'))%nat) /\
  (s_pc s'' = CDone -> status (s_runtime s'') = StatusStopped).
Proof.
  intros Hr Hpc Hc Hr' Ha. pose proof (sup_reach_ok _ _ _ _ Hr) as [_ _ _ _ H5 _ _].
  assert (status (s_runtime s) <> StatusError) as Hs by (intros E; by destruct (H5 E)).
  destruct (cancelled_reach id p s s' Hc Hs Hr') as (Hc1 & Hs1 & Hr1 & _).
  destruct (cancelled_step id p a s' s'' Hc1 Hs1 Ha) as (_ & Hs2 & Hr2 & Hw).
  split_and!; [by rewrite Hr2|done|by destruct (s_pc s); simpl; lia| |].
  - intros Hm. by rewrite Hm in Hw.
  - intros Hd. assert (reach (sup_step id p) (sup_init id m) s'') as Hr''.
    { eapply reach_trans; [exact Hr|]. eapply reach_step; [exact Hr'|by exists a]. }
    apply sup_reach_ok in Hr'' as [_ _ _ _ _ _ H7]. by destruct (H7 Hd).
Qed.

(** ** Witnesses *)

Lemma sup_run_reach id p sched s s' : sup_run id p sched s = Some s' -> reach (sup_step id p) s s'.
Proof.
  revert s. induction sched as [|a sched IH]; simpl; intros s H; [simplify_eq; auto|].
  apply bind_Some in H as (s1 & H1 & H). eapply reach_trans; [|by apply IH].
  apply reach_one. by exists a.
Qed.

(** A push stream that loses its listener, cannot bind it again, and exhausts a
    budget of two. *)
Definition push_policy : restartPolicy := mkPolicy 2 second (30 * second) (f_of_Z 2) minute.

Definition failing_schedule : list sup_action :=
  [AStart; AReady 5; ARunEnd None 6 7; AWake true; AOpened (Some "bind: address in use") 8;
   AWake true; AOpened (Some "bind http://u:p@h/: address in use") 9].

Definition failed_state : sup_state :=
  default (sup_init "s" no_metrics) (sup_run "s" push_policy failing_schedule (sup_init "s" no_metrics)).

Lemma failed_state_reach : reach (sup_step "s" push_policy) (sup_init "s" no_metrics) failed_state.
Proof. apply (sup_run_reach _ _ failing_schedule). vm_compute. reflexivity. Qed.

Lemma supervisor_protocol_witness :
  protocol_run (s_calls failed_state) = Some Free /\
  s_calls failed_state = [KRun; KClose; KSleep second; KOpen false; KSleep (2 * second); KOpen false].
Proof.
  split; [|vm_compute; reflexivity].
  apply (supervisor_protocol "s" push_policy no_metrics failed_state failed_state_reach).
  vm_compute. reflexivity.
Defined.

Lemma supervisor_budget_witness :
  sleeps (s_calls failed_state) <= 2 * (0 + 1) /\ status (s_runtime failed_state) = StatusError /\
  (sf_message <$> lastError (s_runtime failed_state)) = Some "bind http://h/: address in use"%string.
Proof.
  split; [|by vm_compute].
  apply (supervisor_budget "s" push_policy no_metrics failed_state failed_state_reach).
  vm_compute. split; [discriminate|reflexivity].
Defined.

Lemma supervisor_reports_status_witness : one_hot "s" "errored" (s_metrics failed_state).
Proof. apply (supervisor_reports_status "s" push_policy no_metrics failed_state failed_state_reach). Defined.

(** Cancelled during the backoff; the sleep still returns, the source opens, and
    its session ends at once. *)
Definition cancelling_schedule : list sup_action :=
  [AStart; ARunEnd (Some "eof") 6 7; ACancel; AWake true; AOpened None 0].

Definition cancel_at (n : nat) : sup_state :=
  default (sup_init "s" no_metrics)
    (sup_run "s" push_policy (take n cancelling_schedule) (sup_init "s" no_metrics)).

Definition cancelled_final : sup_state :=
  default (sup_init "s" no_metrics) (sup_exec "s" push_policy (ARunEnd None 0 0) (cancel_at 5)).

Lemma cancellation_stops_witness :
  restarts (s_runtime cancelled_final) = restarts (s_runtime (cancel_at 3)) /\
  status (s_runtime cancelled_final) <> StatusError.
Proof.
  edestruct (cancellation_stops "s" push_policy no_metrics (cancel_at 3) (cancel_at 5)
               (ARunEnd None 0 0) cancelled_final) as (Hr & Hs & _); [..|by split].
  - apply (sup_run_reach _ _ (take 3 cancelling_schedule)). vm_compute. reflexivity.
  - vm_compute. discriminate.
  - vm_compute. reflexivity.
  - apply (sup_run_reach _ _ (drop 3 cancelling_schedule)). vm_compute. reflexivity.
  - vm_compute. reflexivity.
Defined.
