(* ===== verification/Source.v ===== *)
(** * internal/connector: the sources a configuration stands for

    One constructor per connector type, with the fields its [New...Source] fills
    in, and [sourceFromConfig] of internal/server/manager.go.  The constructors
    that apply defaults write them through the pointer they are given, so the
    caller's configuration changes too: it is returned beside the source. *)

From Stdlib Require Import ZArith Lia Ascii.
From stdpp Require Import base tactics list strings gmap.
From S2P Require Import Prelude GoLib GoTime Domain ConfigError.

#[local] Open Scope Z_scope.

Inductive Source : Type :=
| WebSocketSource (id url topic : string) (onConnectSend : list string)
| RESTPollerSource (id url topic : string) (config : RestPollerConfig)
| WebhookSource (id topic : string) (config : WebhookConfig)
| GrpcSource (id topic : string) (config : GrpcConfig)
| SSESource (id url topic : string) (config : option SseConfig).

Definition ID (s : Source) : string :=
  match s with
  | WebSocketSource id _ _ _ | RESTPollerSource id _ _ _ | WebhookSource id _ _ | GrpcSource id _ _
  | SSESource id _ _ _ => id
  end.

(** The configuration each constructor ends up with. *)
Definition poller_defaults (config : option RestPollerConfig) : RestPollerConfig :=
  match config with
  | None => mkRestPollerConfig "1m" "GET" ∅
  | Some c =>
      mkRestPollerConfig (if str_is_empty (rp_Interval c) then "1m" else rp_Interval c)
        (if str_is_empty (rp_Method c) then "GET" else rp_Method c) (rp_Headers c)
  end%string.

Definition webhook_defaults (config : option WebhookConfig) : WebhookConfig :=
  let c := default (mkWebhookConfig "8081" "/webhook" EmptyString) config in
  let port := if str_is_empty (wh_Port c) then "8081"%string else wh_Port c in
  let path := if str_is_empty (wh_Path c) then "/webhook"%string else wh_Path c in
  let path := if has_prefix "/" path then path else String "/" path in
  mkWebhookConfig port path (wh_AuthToken c).

Definition grpc_defaults (config : option GrpcConfig) : GrpcConfig :=
  let c := default (mkGrpcConfig "50051") config in
  mkGrpcConfig (if str_is_empty (grpc_Port c) then "50051"%string else grpc_Port c).

(** The caller's configuration after the call: a block that is present has been
    completed in place. *)
Definition with_defaults (cfg : StreamSourceConfig) : StreamSourceConfig :=
  let rp := if str_eqb (sc_Kind cfg) "rest_poller"
            then (fun c => poller_defaults (Some c)) <$> sc_RestPoller cfg else sc_RestPoller cfg in
  let wh := if str_eqb (sc_Kind cfg) "webhook"
            then (fun c => webhook_defaults (Some c)) <$> sc_Webhook cfg else sc_Webhook cfg in
  let g := if str_eqb (sc_Kind cfg) "grpc"
           then (fun c => grpc_defaults (Some c)) <$> sc_Grpc cfg else sc_Grpc cfg in
  mkSourceConfig (sc_ID cfg) (sc_Kind cfg) (sc_URL cfg) (sc_Topic cfg) (sc_Metadata cfg) rp wh g
    (sc_Sse cfg) (sc_Websocket cfg) (sc_Pipeline cfg) (sc_Restart cfg).

(** The constructors. *)
Definition NewWebSocketSource (id url topic : string) (cfg : option WebsocketConfig) : Source :=
  WebSocketSource id url topic (match cfg with Some c => ws_OnConnectSend c | None => [] end).
Definition NewRESTPollerSource (id url topic : string) (config : option RestPollerConfig) : Source :=
  RESTPollerSource id url topic (poller_defaults config).
Definition NewWebhookSource (id topic : string) (config : option WebhookConfig) : Source :=
  WebhookSource id topic (webhook_defaults config).
Definition NewGrpcSource (id topic : string) (config : option GrpcConfig) : Source :=
  GrpcSource id topic (grpc_defaults config).
Definition NewSSESource (id url topic : string) (config : option SseConfig) : Source :=
  SSESource id url topic config.

Definition sourceFromConfig (cfg : StreamSourceConfig)
  : result cfg_error Source * StreamSourceConfig :=
  let id := sc_ID cfg in
  let kind := sc_Kind cfg in
  let r :=
    if str_eqb kind "websocket" then Ok (NewWebSocketSource id (sc_URL cfg) (sc_Topic cfg) (sc_Websocket cfg))
    else if str_eqb kind "rest_poller" then Ok (NewRESTPollerSource id (sc_URL cfg) (sc_Topic cfg) (sc_RestPoller cfg))
    else if str_eqb kind "webhook" then Ok (NewWebhookSource id (sc_Topic cfg) (sc_Webhook cfg))
    else if str_eqb kind "grpc" then Ok (NewGrpcSource id (sc_Topic cfg) (sc_Grpc cfg))
    else if str_eqb kind "sse" then Ok (NewSSESource id (sc_URL cfg) (sc_Topic cfg) (sc_Sse cfg))
    else Err (EUnsupportedKind kind) in
  (r, with_defaults cfg).

(** ** Open

    Acquisition: a parsed interval, or a listener on the configured port.  What
    the operating system answers to the bind is [listen]'s: [None] when the
    listener is bound. *)

Inductive open_error : Type :=
| EInterval (raw : string)
| EIntervalNotPositive (raw : string)
| EBindWebhook (cause : string)
| EBindGrpc (port cause : string).

Definition Open (listen : string -> option string) (s : Source) : option open_error :=
  match s with
  | WebSocketSource _ _ _ _ | SSESource _ _ _ _ => None
  | RESTPollerSource _ _ _ c =>
      match parse_duration (rp_Interval c) with
      | None => Some (EInterval (rp_Interval c))
      | Some interval => if interval <=? 0 then Some (EIntervalNotPositive (rp_Interval c)) else None
      end
  | WebhookSource _ _ c => EBindWebhook <$> listen (wh_Port c)
  | GrpcSource _ _ c => EBindGrpc (grpc_Port c) <$> listen (grpc_Port c)
  end.

Lemma with_defaults_fields cfg :
  sc_ID (with_defaults cfg) = sc_ID cfg /\ sc_Kind (with_defaults cfg) = sc_Kind cfg /\
  sc_Topic (with_defaults cfg) = sc_Topic cfg /\ sc_URL (with_defaults cfg) = sc_URL cfg /\
  sc_Pipeline (with_defaults cfg) = sc_Pipeline cfg /\ sc_Restart (with_defaults cfg) = sc_Restart cfg.
Proof. done. Qed.

(** The source of a configuration carries its id. *)
Lemma sourceFromConfig_id cfg s : (sourceFromConfig cfg).1 = Ok s -> ID s = sc_ID cfg.
Proof. unfold sourceFromConfig. simpl. repeat case_match; intros; by simplify_eq. Qed.

Lemma poller_defaults_idem c : poller_defaults (Some (poller_defaults (Some c))) = poller_defaults (Some c).
Proof. destruct c as [i m h]. unfold poller_defaults. simpl. by destruct i, m. Qed.

Lemma has_prefix_slash s : has_prefix "/" (String "/" s) = true.
Proof. unfold has_prefix. simpl. by destruct s. Qed.

Lemma webhook_defaults_idem c :
  webhook_defaults (Some (webhook_defaults (Some c))) = webhook_defaults (Some c).
Proof.
  destruct c as [p path t]. unfold webhook_defaults.
  cbn [default from_option wh_Port wh_Path wh_AuthToken id]. f_equal; [by destruct p|].
  destruct path as [|c path]; [by vm_compute|]. cbn [str_is_empty].
  destruct (has_prefix "/" (String c path)) eqn:H; cbn [str_is_empty].
  - by rewrite H.
  - by rewrite has_prefix_slash.
Qed.

(** Completing a completed configuration changes nothing: what is persisted after
    a registration is what a restart completes it to. *)
Lemma with_defaults_idem cfg : with_defaults (with_defaults cfg) = with_defaults cfg.
Proof.
  unfold with_defaults.
  cbn [sc_ID sc_Kind sc_URL sc_Topic sc_Metadata sc_RestPoller sc_Webhook sc_Grpc sc_Sse
       sc_Websocket sc_Pipeline sc_Restart].
  f_equal.
  - destruct (str_eqb _ "rest_poller"), (sc_RestPoller cfg); cbn [fmap option_fmap option_map];
      try done. by rewrite poller_defaults_idem.
  - destruct (str_eqb _ "webhook"), (sc_Webhook cfg); cbn [fmap option_fmap option_map]; try done.
    by rewrite webhook_defaults_idem.
  - destruct (str_eqb _ "grpc"), (sc_Grpc cfg) as [[p]|]; try done.
    unfold grpc_defaults. by destruct p.
Qed.

Lemma with_defaults_pipeline cfg p :
  with_defaults (with_pipeline cfg p) = with_pipeline (with_defaults cfg) p.
Proof. done. Qed.
