(* ===== verification/ConfigSound.v ===== *)
(** * Configurations: what is accepted can be stored

    A document the API decodes, completed with its defaults, is encodable, and the
    store reads it back as it was. *)

From Stdlib Require Import ZArith Lia Ascii.
From stdpp Require Import base tactics option strings gmap list.
From S2P Require Import Prelude GoLib GoFloat GoNumber GoJson GoJsonPrint GoJsonValue GoJsonString.
From S2P Require Import GoJsonSound GoJsonStruct GoJsonDecode Domain ConfigJson ConfigError Store Source.

#[local] Open Scope Z_scope.

Lemma keeps_string_list : keeps strings_valid dec_string_list.
Proof.
  intros t old x Ht Ho H. unfold dec_string_list in H. destruct (dec_string t EmptyString) as [s|] eqn:Es.
  - injection H as <-. unfold strings_valid. simpl. rewrite andb_true_r. by apply (keeps_string t EmptyString).
  - by apply (keeps_strings t []).
Qed.
#[export] Hint Resolve keeps_string_list : decodes.

Ltac decoder_keeps :=
  first [ apply keeps_ptr; [apply keeps_struct|apply zero_valid]
        | apply keeps_ptr; [apply keeps_int|reflexivity]
        | auto 1 with decodes ].

(** A setter that replaces one component of an encodable value by a decoded one. *)
Ltac keep_field valid :=
  let t := fresh "t" in let c := fresh "c" in let x := fresh "x" in
  let Ht := fresh "Ht" in let Hc := fresh "Hc" in let v := fresh "v" in let Hd := fresh "Hd" in
  intros t c x Ht Hc; cbn [snd]; unfold setter; intros (v & Hd & [= <-])%bind_Some;
  change (valid c = true) in Hc; match goal with |- struct_valid ?y = true => change (valid y = true) end;
  destruct c; unfold valid in *; simpl in Hc |- *; rewrite ?andb_true_iff in Hc |- *; destruct_and?;
  split_and?; try assumption; try reflexivity;
  match goal with |- ?P ?w = true =>
    match type of Hd with ?dec _ ?old = _ =>
      refine ((_ : keeps P dec) t old w Ht _ Hd); [decoder_keeps|first [assumption|reflexivity]] end end.

Ltac sound_struct fields valid :=
  split; [reflexivity|intros strict; change (struct_fields strict) with (fields strict); unfold fields;
    repeat (apply Forall_cons_2; [keep_field valid|]); apply Forall_nil_2].

#[export] Instance restart_sound : StructSound RestartConfig.
Proof. sound_struct restart_fields restart_valid. Qed.

#[export] Instance websocket_sound : StructSound WebsocketConfig.
Proof. sound_struct websocket_fields websocket_valid. Qed.

#[export] Instance sse_sound : StructSound SseConfig.
Proof. sound_struct sse_fields sse_valid. Qed.

#[export] Instance grpc_sound : StructSound GrpcConfig.
Proof. sound_struct grpc_fields grpc_valid. Qed.

#[export] Instance rest_poller_sound : StructSound RestPollerConfig.
Proof. sound_struct rest_poller_fields rest_poller_valid. Qed.

#[export] Instance webhook_sound : StructSound WebhookConfig.
Proof. sound_struct webhook_fields webhook_valid. Qed.

#[export] Instance threshold_sound : StructSound ThresholdConfig.
Proof. sound_struct threshold_fields threshold_valid. Qed.

#[export] Instance batch_sound : StructSound BatchConfig.
Proof. sound_struct batch_fields batch_valid. Qed.

#[export] Instance filter_sound : StructSound FilterConfig.
Proof. sound_struct filter_fields filter_valid. Qed.

#[export] Instance transform_sound : StructSound TransformConfig.
Proof. sound_struct transform_fields transform_valid. Qed.

#[export] Instance enrich_sound : StructSound EnrichConfig.
Proof. sound_struct enrich_fields enrich_valid. Qed.

#[export] Instance dedup_sound : StructSound DedupConfig.
Proof. sound_struct dedup_fields dedup_valid. Qed.

#[export] Instance pipeline_sound : StructSound PipelineConfig.
Proof. sound_struct pipeline_fields pipeline_valid. Qed.

#[export] Instance stream_sound : StructSound StreamSourceConfig.
Proof. sound_struct stream_fields stream_valid. Qed.

(** ** Defaults *)

Lemma utf8_or_default s d : utf8_valid s = true -> utf8_valid d = true ->
  utf8_valid (if str_is_empty s then d else s) = true.
Proof. by destruct (str_is_empty s). Qed.

Lemma utf8_slash s : utf8_valid s = true -> utf8_valid (if has_prefix "/" s then s else String "/" s) = true.
Proof.
  intros H. destruct (has_prefix "/" s); [done|].
  apply (utf8_prefix "/" EmptyString); [by apply ascii_prefix; vm_compute|done].
Qed.

Lemma poller_defaults_valid c : rest_poller_valid c = true -> rest_poller_valid (poller_defaults (Some c)) = true.
Proof.
  destruct c. unfold rest_poller_valid. simpl. rewrite !andb_true_iff. intros [[H1 H2] H3].
  split_and!; try done; by apply utf8_or_default.
Qed.

Lemma webhook_defaults_valid c : webhook_valid c = true -> webhook_valid (webhook_defaults (Some c)) = true.
Proof.
  destruct c as [port path token]. unfold webhook_valid, webhook_defaults. cbn [default from_option wh_Port wh_Path wh_AuthToken id].
  rewrite !andb_true_iff. intros [[H1 H2] H3].
  split_and!; try done; [by apply utf8_or_default|by apply utf8_slash, utf8_or_default].
Qed.

Lemma grpc_defaults_valid c : grpc_valid c = true -> grpc_valid (grpc_defaults (Some c)) = true.
Proof.
  destruct c as [port]. unfold grpc_valid, grpc_defaults. cbn [default from_option grpc_Port id]. intros H.
  by apply utf8_or_default.
Qed.

Lemma defaults_option {A} (P : A -> bool) (f : A -> A) (b : bool) o :
  (forall a, P a = true -> P (f a) = true) -> option_valid P o = true ->
  option_valid P (if b then f <$> o else o) = true.
Proof. intros Hf. destruct b, o; simpl; auto. Qed.

Lemma with_defaults_valid cfg : struct_valid cfg = true -> struct_valid (with_defaults cfg) = true.
Proof.
  intros H. change (stream_valid cfg = true) in H. change (stream_valid (with_defaults cfg) = true).
  unfold stream_valid in *. cbn [with_defaults sc_ID sc_Kind sc_URL sc_Topic sc_Metadata sc_RestPoller sc_Webhook
    sc_Grpc sc_Sse sc_Websocket sc_Pipeline sc_Restart]. rewrite !andb_true_iff in *. destruct_and!.
  split_and!; try assumption; apply defaults_option; try assumption.
  - apply poller_defaults_valid.
  - apply webhook_defaults_valid.
  - apply grpc_defaults_valid.
Qed.

Lemma with_pipeline_valid cfg p : struct_valid cfg = true -> option_valid struct_valid p = true ->
  struct_valid (with_pipeline cfg p) = true.
Proof.
  intros H Hp. change (stream_valid cfg = true) in H. change (stream_valid (with_pipeline cfg p) = true).
  unfold stream_valid in *. cbn [with_pipeline sc_ID sc_Kind sc_URL sc_Topic sc_Metadata sc_RestPoller sc_Webhook
    sc_Grpc sc_Sse sc_Websocket sc_Pipeline sc_Restart]. rewrite !andb_true_iff in *. by destruct_and!.
Qed.

(** ** From the API to the store *)

Section Stored.
Context {K : Type} `{KeyValueLaws K}.

(** (C25) What the API accepts the store can hold.  Whatever bytes a document's
    strings are made of, however its numbers and names are written, as long as no
    number is a negative zero: the configuration it decodes to,
    completed with its defaults, is never refused for its encoding, only by the
    bucket; and once it is stored, a read that the bucket answers returns exactly
    that configuration.  The same holds of a stored configuration whose pipeline a
    second document replaces. *)
Theorem accepted_documents_are_stored text t (Hparse : parse_json text = Some t) (Hzero : no_negative_zero t = true) :
  (forall cfg, DecodeStreamConfig text = Some cfg ->
     struct_valid (with_defaults cfg) = true /\
     forall s : K,
       match Put (with_defaults cfg) s with
       | (Ok _, s') => forall v, kv_Get s' (sc_ID cfg) = Ok v -> Get s' (sc_ID cfg) = Ok (with_defaults cfg)
       | (Err e, _) => exists why, e = EKvPut (sc_ID cfg) why
       end) /\
  (forall p cfg, DecodePipelineConfig text = Some p -> struct_valid cfg = true ->
     struct_valid (with_pipeline cfg (Some p)) = true).
Proof.
  split.
  - intros cfg Hd. assert (Hv : struct_valid (with_defaults cfg) = true).
    { by apply with_defaults_valid, (decoded_valid true text t). }
    split; [done|]. intros s. unfold Put.
    destruct (decode_marshal (with_defaults cfg) Hv) as (doc & -> & Hread); [done|].
    change (sc_ID (with_defaults cfg)) with (sc_ID cfg).
    destruct (kv_Put (sc_ID cfg) doc s) as [[[]|why] s'] eqn:Ek; simpl; [|by eexists]. apply kv_Put_ok in Ek.
    intros v Hv'. unfold Get. rewrite Hv'. apply kv_Get_ok in Hv'. rewrite Ek, lookup_insert_eq in Hv'.
    injection Hv' as <-. by rewrite Hread.
  - intros p cfg Hd Hv. apply with_pipeline_valid; [done|]. simpl. by apply (decoded_valid true text t).
Qed.
End Stored.

(** A document with a byte that is not UTF-8, a lone surrogate, an escaped name and
    a float. *)
Definition odd_document : string :=
  (js "{'id':'a','\u006bind':'webhook','TOPIC':'t','metadata':{'k':'\ud800" +:+ String (byte_of 255)
     (js "'},'webhook':{},'restart':{'factor':15e-1}}"))%string.

Lemma accepted_documents_are_stored_witness :
  exists cfg, DecodeStreamConfig odd_document = Some cfg /\ struct_valid (with_defaults cfg) = true /\
    sc_Kind cfg = "webhook"%string /\ sc_Metadata cfg !! "k"%string = Some (replacement +:+ replacement)%string.
Proof.
  assert (Hp : is_some (parse_json odd_document) = true) by (vm_compute; reflexivity).
  assert (Hf : option_valid no_negative_zero (parse_json odd_document) = true) by (vm_compute; reflexivity).
  assert (Hd : (fun c => (sc_Kind c, sc_Metadata c !! "k"%string)) <$> DecodeStreamConfig odd_document
    = Some ("webhook", Some (replacement +:+ replacement))%string) by (vm_compute; reflexivity).
  destruct (parse_json odd_document) as [t|] eqn:Et; [|discriminate Hp].
  destruct (DecodeStreamConfig odd_document) as [cfg|] eqn:Ed; [|discriminate Hd].
  injection Hd as Hk Hm. exists cfg. split; [reflexivity|]. split; [|split; assumption].
  refine (proj1 (proj1 (accepted_documents_are_stored (K := gmap string string) odd_document t Et _) cfg Ed)).
  exact Hf.
Defined.
