(* ===== verification/Poller.v ===== *)
(** * internal/connector/rest_poller.go: the polling source

    One poll, and the loop of polls that is a session: what each of them publishes
    and when the session reports ready. *)

From Stdlib Require Import ZArith Lia.
From stdpp Require Import base tactics option strings gmap list.
From S2P Require Import Prelude GoLib GoJson GoJsonPrint Domain Broker Connector.

#[local] Open Scope Z_scope.

(** What one poll meets: the order the map of headers is ranged over, what its
    request gets, the clock when the body has been read, and the answer a publish
    would get. *)
Record poll_input : Type := mkPoll {
  pi_headers : list (string * string);
  pi_answer : http_request -> http_answer;
  pi_now : Z;
  pi_publish : StreamEvent -> option string
}.

Inductive poll_error : Type :=
| PBuild
| PRequest (e : string)
| PStatus (code : Z)
| PRead (e : string).

Section Poller.
Context (id url topic : string) (config : RestPollerConfig).

Definition poll_event (now : Z) (body : string) : StreamEvent :=
  mkEvent id "rest_poller_response" now 0 EmptyString (repack body) EmptyString.

Definition poll_request (p : poll_input) : option http_request :=
  set_headers (pi_headers p) <$> new_request (rp_Method config) url.

(** [poll]: its trace and its error.  A failed publish is logged. *)
Definition poll (p : poll_input) : list conn_effect * option poll_error :=
  match poll_request p with
  | None => ([], Some PBuild)
  | Some req =>
      match pi_answer p req with
      | HFailed e => ([], Some (PRequest e))
      | HResponse code body read_error =>
          if (code <? 200) || (300 <=? code) then ([], Some (PStatus code))
          else match read_error with
               | Some e => ([], Some (PRead e))
               | None =>
                   if str_is_empty body then ([], None)
                   else let event := poll_event (pi_now p) body in
                        ([CPublish topic event (pi_publish p event)], None)
               end
      end
  end.

(** [reachedEndpoint]. *)
Definition reachedEndpoint (err : option poll_error) (reported : bool) : list conn_effect * bool :=
  if bool_decide (is_Some err) || reported then ([], reported) else ([CReady], true).

(** The polls of a session until the select takes [ctx.Done]. *)
Fixpoint poll_loop (polls : list poll_input) (reported : bool) : list conn_effect :=
  match polls with
  | [] => []
  | p :: polls' =>
      let '(out, err) := poll p in
      let '(r, reported) := reachedEndpoint err reported in
      out ++ r ++ poll_loop polls' reported
  end.

(** [Run]: the first poll is immediate, the others are the ticker's. *)
Definition poller_run (first : poll_input) (ticks : list poll_input) : session :=
  (poll_loop (first :: ticks) false, None).

(** ** What a session does *)

Definition poll_ok (p : poll_input) : bool := bool_decide ((poll p).2 = None).

#[export] Instance poll_error_eq_dec : EqDecision poll_error.
Proof. solve_decision. Defined.

Lemma poll_publishes p :
  Forall (event_ok id topic) (poll p).1 /\ Forall (fun c => is_ready c = false) (poll p).1.
Proof.
  unfold poll. destruct (poll_request p) as [req|]; [|done]. destruct (pi_answer p req) as [e|code body [e|]]; [done| |].
  1: by destruct (_ || _).
  destruct (_ || _); [done|]. destruct (str_is_empty body); [done|].
  split; constructor; [|done|done|done]. apply text_event_ok, repack_valid.
Qed.

(** Once the session has reported ready it never does again. *)
Lemma poll_loop_readies polls reported :
  readies (poll_loop polls reported) = if reported || negb (existsb poll_ok polls) then 0%nat else 1%nat.
Proof.
  revert reported. induction polls as [|p polls IH]; intros reported; simpl; [by rewrite orb_true_r|].
  pose proof (poll_publishes p) as [_ Hp]. unfold poll_ok. destruct (poll p) as [out err]. cbn [fst snd] in *.
  unfold reachedEndpoint. destruct err as [e|]; destruct reported; simpl;
    rewrite ?readies_app, ?readies_ready, IH, (publishes_not_ready _ Hp); done.
Qed.

Lemma poll_loop_events polls : forall reported, Forall (event_ok id topic) (poll_loop polls reported).
Proof.
  induction polls as [|p polls IH]; intros reported; simpl; [done|].
  pose proof (poll_publishes p) as [Hp _]. destruct (poll p) as [out err].
  destruct (reachedEndpoint err reported) as [r rep] eqn:E. apply Forall_app. split; [done|].
  apply Forall_app. split; [|apply IH].
  unfold reachedEndpoint in E. destruct (_ || _); simplify_eq; [done|]. by constructor.
Qed.

(** The contract of source.go, for this source. *)
Lemma poller_conforms first ticks : conforms id topic (poller_run first ticks).
Proof.
  split; cbn [fst poller_run]; [|apply poll_loop_events]. rewrite poll_loop_readies. destruct (_ || _); lia.
Qed.

(** What a session publishes is decided poll by poll: an endpoint that answers
    again after failures is ingested from again. *)
Lemma poll_loop_published polls reported :
  published (poll_loop polls reported) = concat (published ∘ fst ∘ poll <$> polls).
Proof.
  revert reported. induction polls as [|p polls IH]; intros reported; [done|].
  simpl. destruct (poll p) as [out err] eqn:E. destruct (reachedEndpoint err reported) as [r rep] eqn:Er.
  unfold published at 1. rewrite !omap_app. fold (published (poll_loop polls rep)). rewrite IH.
  simpl. rewrite ?E.
  unfold reachedEndpoint in Er. destruct (_ || _); by simplify_eq.
Qed.

(** A poller never ends its own session; it reports ready exactly when some
    poll has reached the endpoint, and once; and each poll that got a non-empty
    successful answer publishes that one body, whatever the polls before it met and
    whatever became of their events. *)
Theorem poller_session first ticks :
  let s := poller_run first ticks in
  s.2 = None /\
  readies s.1 = (if existsb poll_ok (first :: ticks) then 1%nat else 0%nat) /\
  published s.1 = omap (fun p =>
    req ← poll_request p;
    match pi_answer p req with
    | HResponse code body None =>
        if (200 <=? code) && (code <? 300) && negb (str_is_empty body)
        then Some (poll_event (pi_now p) body) else None
    | _ => None
    end) (first :: ticks).
Proof.
  split; [done|]. split.
  - unfold poller_run. cbn [fst]. rewrite poll_loop_readies. by destruct (existsb _ _).
  - unfold poller_run. cbn [fst]. rewrite poll_loop_published. generalize (first :: ticks). clear.
    induction l as [|p polls IH]; [done|]. rewrite fmap_cons. cbn [concat]. rewrite IH. simpl. unfold poll.
    destruct (poll_request p) as [req|]; [|done]. cbn [mbind option_bind]. destruct (pi_answer p req) as [e|code body [e|]]; [done| |].
    1: by destruct (_ || _).
    destruct (Z.ltb_spec code 200), (Z.leb_spec 300 code), (Z.leb_spec 200 code), (Z.ltb_spec code 300),
      (str_is_empty body); try lia; done.
Qed.
End Poller.

Example poller_ok :
  let ok body := mkPoll [] (fun _ => HResponse 200 body None) 5 (fun _ => None) in
  let config := mkRestPollerConfig "1m" "POST" ∅ in
  (fun c => match c with CReady => None | CPublish _ e _ => Some (raw_bytes (se_Payload e)) end)
    <$> (poller_run "s" "http://h/x" "t" config (mkPoll [] (fun _ => HFailed "refused") 1 (fun _ => None))
           [ok " {} "; mkPoll [] (fun _ => HResponse 500 "x" None) 6 (fun _ => None); ok "hi"; ok EmptyString]).1
  = [Some "{}"; None; Some (js "'hi'")]%string.
Proof. vm_compute. reflexivity. Qed.
