(* ===== verification/Webhook.v ===== *)
(** * internal/connector/webhook.go: the HTTP source

    The handler of one request, the session that serves them through a [ServeMux] of
    the configured path, and what [Open], [Run] and [Close] do to the listener and its
    connections. *)

From Stdlib Require Import ZArith Lia.
From stdpp Require Import base tactics option strings gmap list.
From S2P Require Import Prelude GoLib GoUrl GoMux GoJson GoJsonPrint Domain Broker Connector.

#[local] Open Scope Z_scope.

(** ** The handler *)

(** One request in origin form: [ib_Host] without its port, [ib_Target] the escaped
    path; [ib_Authorization] is what [Header.Get] answers, [ib_read_error] what cut
    the body short, and the last two are the clock and the answer the publish would
    get. *)
Record inbound : Type := mkInbound {
  ib_Host : string;
  ib_Method : string;
  ib_Target : string;
  ib_Authorization : string;
  ib_Body : string;
  ib_read_error : option string;
  ib_now : Z;
  ib_publish : StreamEvent -> option string
}.

Definition StatusAccepted : Z := 202.
Definition StatusMovedPermanently : Z := 301.
Definition StatusNotFound : Z := 404.
Definition StatusBadRequest : Z := 400.
Definition StatusUnauthorized : Z := 401.
Definition StatusMethodNotAllowed : Z := 405.
Definition StatusInternalServerError : Z := 500.

Definition maxWebhookBody : Z := 5 * 1024 * 1024.

(** [io.ReadAll] of a [MaxBytesReader]: [None] is an error. *)
Definition read_limited (r : inbound) : option string :=
  if maxWebhookBody <? str_length (ib_Body r) then None
  else match ib_read_error r with Some _ => None | None => Some (ib_Body r) end.

Section Webhook.
(** [wide_name] is the mux's ([parsePattern]). *)
Context (wide_name : string -> bool) (id topic : string) (config : WebhookConfig).

Definition webhook_event (now : Z) (body : string) : StreamEvent :=
  mkEvent id "webhook_recv" now 0 EmptyString (repack body) EmptyString.

(** [handleWebhook]: what it did and the status it wrote. *)
Definition handleWebhook (r : inbound) : list conn_effect * Z :=
  if negb (str_eqb (ib_Method r) "POST") then ([], StatusMethodNotAllowed)
  else if negb (str_is_empty (wh_AuthToken config)) &&
          negb (str_eqb (ib_Authorization r) ("Bearer " +:+ wh_AuthToken config)%string)
  then ([], StatusUnauthorized)
  else match read_limited r with
       | None => ([], StatusBadRequest)
       | Some body =>
           if str_is_empty body then ([], StatusBadRequest)
           else let event := webhook_event (ib_now r) body in
                match ib_publish r event with
                | Some e => ([CPublish topic event (Some e)], StatusInternalServerError)
                | None => ([CPublish topic event None], StatusAccepted)
                end
       end.

(** How the select of [Run] ends: the server failed, was closed, or the context
    has ended. *)
Inductive serve_end : Type :=
| ServeFailed (e : string)
| ServerClosed
| Stopped.

(** The mux of a session; [None] when [HandleFunc] panics on the path. *)
Definition webhook_mux : option (ServeMux unit) := handle wide_name (wh_Path config) tt [].

(** What the server does with a request. *)
Definition webhook_request (mux : ServeMux unit) (r : inbound) : list conn_effect * Z :=
  match findHandler (ib_Host r) (ib_Method r) (ib_Target r) mux with
  | MRedirect => ([], StatusMovedPermanently)
  | MNotFound => ([], StatusNotFound)
  | MMethodNotAllowed => ([], StatusMethodNotAllowed)
  | MServe _ _ _ => handleWebhook r
  end.

(** [Run], [None] when it panics: a handler publishes at most once, so requests in
    the order of their publishes are every interleaving of the handlers. *)
Definition webhook_run (listener : option nat) (requests : list inbound) (ending : serve_end) : option session :=
  match listener with
  | None => Some ([], Some RNotOpened)
  | Some _ =>
      mux ← webhook_mux;
      Some (CReady :: concat (fst ∘ webhook_request mux <$> requests),
            match ending with
            | ServeFailed e => Some (RServe e)
            | ServerClosed | Stopped => None
            end)
  end.

(** ** What a session does *)

(** A request that may publish: posted, with the token if there is one, and a body
    that is there, whole and within the limit. *)
Definition admissible (r : inbound) : bool :=
  str_eqb (ib_Method r) "POST" &&
  (str_is_empty (wh_AuthToken config) ||
   str_eqb (ib_Authorization r) ("Bearer " +:+ wh_AuthToken config)%string) &&
  negb (str_is_empty (ib_Body r)) &&
  (str_length (ib_Body r) <=? maxWebhookBody) &&
  bool_decide (ib_read_error r = None).

Lemma handleWebhook_cases r :
  let event := webhook_event (ib_now r) (ib_Body r) in
  if admissible r
  then handleWebhook r = ([CPublish topic event (ib_publish r event)],
                          match ib_publish r event with None => StatusAccepted | Some _ => StatusInternalServerError end)
  else exists code, handleWebhook r = ([], code) /\
       code ∈ [StatusMethodNotAllowed; StatusUnauthorized; StatusBadRequest].
Proof.
  unfold admissible, handleWebhook, read_limited.
  destruct (str_eqb (ib_Method r) "POST"); simpl; [|eexists; split; [done|set_solver]].
  destruct (str_is_empty (wh_AuthToken config)); simpl.
  2: destruct (str_eqb (ib_Authorization r) _); simpl; [|eexists; split; [done|set_solver]].
  all: destruct (Z.ltb_spec maxWebhookBody (str_length (ib_Body r))), (Z.leb_spec (str_length (ib_Body r)) maxWebhookBody);
    try lia; rewrite ?andb_false_r; simpl; [eexists; split; [done|set_solver]|].
  all: destruct (ib_read_error r); simpl; rewrite ?andb_false_r; [eexists; split; [done|set_solver]|].
  all: destruct (str_is_empty (ib_Body r)); simpl; [eexists; split; [done|set_solver]|].
  all: by destruct (ib_publish r _).
Qed.

(** A request for the path of the pattern [p], written cleanly. *)
Definition for_path (p : pattern) (r : inbound) : bool :=
  bool_decide (cleanPath (ib_Target r) = ib_Target r) && takes (raw_segments (ib_Target r)) (pt_segments p).

Lemma webhook_mux_single p : has_prefix "/" (wh_Path config) = true ->
  parsePattern wide_name (wh_Path config) = Some p ->
  webhook_mux = Some [(p, tt)] /\ pt_host p = EmptyString /\ pt_method p = EmptyString.
Proof.
  intros Hr Hp. destruct (parse_rooted wide_name _ p Hr Hp) as [Hm Hh].
  split; [|done]. unfold webhook_mux, handle. by rewrite Hp.
Qed.

(** (C32) A webhook answers 202 exactly for the requests whose event has been
    published: sent to the configured path, posted, with the configured token,
    exactly, when there is one, and with a body that is neither empty nor past the
    limit; 500 exactly when the pipeline refused the event.  Anything else is
    redirected or refused with a 4xx and publishes nothing. *)
Theorem webhook_answers p r : has_prefix "/" (wh_Path config) = true ->
  parsePattern wide_name (wh_Path config) = Some p ->
  exists mux, webhook_mux = Some mux /\
  let event := webhook_event (ib_now r) (ib_Body r) in
  let taken := for_path p r && admissible r in
  let '(tr, code) := webhook_request mux r in
  published tr = (if taken then [event] else []) /\
  (code = StatusAccepted <-> taken = true /\ ib_publish r event = None) /\
  (code = StatusInternalServerError <-> taken = true /\ is_Some (ib_publish r event)) /\
  (taken = false -> 300 <= code < 500).
Proof.
  intros Hrooted Hp. destruct (webhook_mux_single p Hrooted Hp) as (Hmux & Hh & Hm).
  exists [(p, tt)]. split; [done|]. cbv zeta. set (event := webhook_event _ _).
  unfold StatusAccepted, StatusInternalServerError.
  assert (Hrefused : forall code, for_path p r && admissible r = false -> 300 <= code < 500 ->
    (code = 202 <-> for_path p r && admissible r = true /\ ib_publish r event = None) /\
    (code = 500 <-> for_path p r && admissible r = true /\ is_Some (ib_publish r event)) /\
    (for_path p r && admissible r = false -> 300 <= code < 500)).
  { intros code -> Hc. split_and!; [| |done]; (split; [lia|by intros [? _]]). }
  pose proof (handleWebhook_cases r) as Hcases. cbv zeta in Hcases. fold event in Hcases.
  unfold webhook_request. destruct (decide (ib_Method r = "CONNECT"%string)) as [Hc|Hc].
  { assert (admissible r = false) as Ha by (unfold admissible; by rewrite Hc).
    rewrite Ha in Hcases. destruct Hcases as (code & Hw & Hin).
    assert (300 <= code < 500).
    { rewrite !elem_of_cons, elem_of_nil in Hin.
      unfold StatusMethodNotAllowed, StatusUnauthorized, StatusBadRequest in Hin. lia. }
    assert (for_path p r && admissible r = false) as Ht by (by rewrite Ha, andb_false_r).
    rewrite Ht in *. destruct (findHandler _ _ _ _); rewrite ?Hw; (split; [done|]); apply Hrefused; try done; unfold StatusMovedPermanently, StatusNotFound, StatusMethodNotAllowed; lia. }
  pose proof (findHandler_single p tt Hh Hm (ib_Host r) (ib_Method r) (ib_Target r) Hc) as Hs. fold (for_path p r) in Hs.
  destruct (findHandler _ _ _ _) as [| | |p1 h1 ms]; cbn [served] in Hs; rewrite <- Hs in Hrefused |- *.
  1-3: (split; [done|]); apply Hrefused; try done; unfold StatusMovedPermanently, StatusNotFound, StatusMethodNotAllowed; lia.
  cbn [andb] in *. destruct (admissible r).
  - rewrite Hcases. destruct (ib_publish r event) as [e|].
    + split_and!; [done| | |done]; split; try done; by intros [_ [=]].
    + split_and!; [done| | |done]; split; try done. by intros [_ [? [=]]].
  - destruct Hcases as (code & -> & Hin). split; [done|]. apply Hrefused; [done|].
    rewrite !elem_of_cons, elem_of_nil in Hin.
    unfold StatusMethodNotAllowed, StatusUnauthorized, StatusBadRequest in Hin. lia.
Qed.

(** A path that has no braces or blanks, is clean and does not end in a slash is
    served: the requests for that very path are the ones handled. *)
Lemma webhook_path_served p r : plain (wh_Path config) = true -> cleanPath (wh_Path config) = wh_Path config ->
  parsePattern wide_name (wh_Path config) = Some p -> ib_Target r = wh_Path config -> for_path p r = true.
Proof.
  intros Hp Hc Hparse Ht. unfold for_path. rewrite Ht, bool_decide_true by done.
  by apply (plain_takes_itself wide_name).
Qed.

Lemma handleWebhook_publishes r :
  Forall (event_ok id topic) (handleWebhook r).1 /\ Forall (fun c => is_ready c = false) (handleWebhook r).1.
Proof.
  pose proof (handleWebhook_cases r) as H. simpl in H. destruct (admissible r).
  - rewrite H. split; constructor; [|done|done|done]. apply text_event_ok, repack_valid.
  - by destruct H as (code & -> & _).
Qed.

(** The contract of source.go, for this source. *)
Lemma webhook_conforms listener requests ending sess :
  webhook_run listener requests ending = Some sess -> conforms id topic sess.
Proof.
  unfold webhook_run. destruct listener; [|intros [= <-]; apply conforms_nothing].
  intros H. apply bind_Some in H as (mux & _ & [= <-]).
  apply conforms_ready; apply Forall_concat, Forall_fmap, Forall_true; intros r; cbn [compose]; unfold webhook_request;
    destruct (findHandler _ _ _ _); try constructor; apply handleWebhook_publishes.
Qed.
End Webhook.

Example webhook_ok :
  let cfg := mkWebhookConfig "8081" "/webhook" "s3cret" in
  let mux := default [] (webhook_mux no_wide cfg) in
  let ask m p a b := (webhook_request "s" "t" cfg mux (mkInbound "h" m p a b None 7 (fun _ => None))).2 in
  [ask "POST" "/webhook" "Bearer s3cret" "x"; ask "GET" "/webhook" "Bearer s3cret" "x";
   ask "POST" "/webhook" "bearer s3cret" "x"; ask "POST" "/webhook" "Bearer s3cret" EmptyString;
   ask "POST" "/other" "Bearer s3cret" "x"; ask "POST" "/a/../webhook" "Bearer s3cret" "x"]%string
  = [202; 405; 401; 400; 404; 301].
Proof. vm_compute. reflexivity. Qed.

(** ** Open, Run and Close

    The source's own fields and the listeners the host has bound for it.  A server
    has the listener it serves and the connections that are open. *)

Record http_server : Type := mkServer { sv_listener : nat; sv_conns : gset nat }.

Record webhook_state : Type := mkWebhook {
  w_listener : option nat;
  w_server : option http_server;
  w_bound : gset nat
}.

Definition webhook_new : webhook_state := mkWebhook None None ∅.

(** [Open]: the bind's answer. *)
Definition webhook_open (bind : result string nat) (st : webhook_state) : option string * webhook_state :=
  match bind with
  | Err e => (Some e, st)
  | Ok l => (None, mkWebhook (Some l) (w_server st) ({[l]} ∪ w_bound st))
  end.

(** [shutdown]: [Shutdown] closes the listener at once and waits for the
    connections; those still open when the grace is over ([stuck]) are closed. *)
Definition webhook_shutdown (stuck : gset nat) (st : webhook_state) : webhook_state :=
  match w_server st with
  | None => st
  | Some srv =>
      let waited := mkServer (sv_listener srv) (sv_conns srv ∩ stuck) in
      mkWebhook (w_listener st)
        (Some (if bool_decide (sv_conns waited = ∅) then waited else mkServer (sv_listener srv) ∅))
        (w_bound st ∖ {[sv_listener srv]})
  end.

(** [Run] on the same state: [conns] are the connections open when it leaves its
    select.  [Serve] closes the listener when it fails. *)
Definition webhook_serve (conns stuck : gset nat) (ending : serve_end) (st : webhook_state) : webhook_state :=
  match w_listener st with
  | None => st
  | Some l =>
      let st := mkWebhook (w_listener st) (Some (mkServer l conns)) (w_bound st) in
      match ending with
      | Stopped => webhook_shutdown stuck st
      | ServeFailed _ | ServerClosed => mkWebhook (w_listener st) (w_server st) (w_bound st ∖ {[l]})
      end
  end.

Definition webhook_close (stuck : gset nat) (st : webhook_state) : webhook_state :=
  let st := webhook_shutdown stuck st in
  match w_listener st with
  | None => st
  | Some l => mkWebhook None (w_server st) (w_bound st ∖ {[l]})
  end.

Definition server_idle (st : webhook_state) : Prop :=
  match w_server st with Some srv => sv_conns srv = ∅ | None => True end.

Lemma webhook_shutdown_idle stuck st : server_idle (webhook_shutdown stuck st).
Proof.
  unfold server_idle, webhook_shutdown. destruct (w_server st) eqn:E; [|by rewrite E]. simpl.
  by destruct (decide (sv_conns h ∩ stuck = ∅)) as [H|H];
    [rewrite bool_decide_true by done|rewrite bool_decide_false by done].
Qed.

Lemma webhook_shutdown_listener stuck st :
  w_listener (webhook_shutdown stuck st) = w_listener st /\
  w_bound (webhook_shutdown stuck st) = w_bound st ∖ (match w_server st with Some s => {[sv_listener s]} | None => ∅ end).
Proof. unfold webhook_shutdown. destruct (w_server st); simpl; [done|]. split; [done|set_solver]. Qed.

(** Closing closed things changes nothing. *)
Lemma webhook_close_idem stuck st : webhook_close stuck (webhook_close stuck st) = webhook_close stuck st.
Proof.
  destruct st as [[l|] [[sl conns]|] b]; unfold webhook_close, webhook_shutdown; simpl; try done.
  all: repeat (case_bool_decide; simpl in * ); try (f_equal; set_solver);
    by f_equal; [do 2 f_equal; set_solver|set_solver].
Qed.

(** A session from [Open] to [Close]. *)
Definition webhook_cycle (l : nat) (run : option (gset nat * gset nat * serve_end)) (stuck : gset nat)
    (st : webhook_state) : webhook_state :=
  let st := (webhook_open (Ok l) st).2 in
  webhook_close stuck (match run with
                       | Some (conns, stuck', ending) => webhook_serve conns stuck' ending st
                       | None => st
                       end).

(** A session that was opened is released by [Close] however it went: whether
    it was served or not, whether it was stopped or failed, and whatever handlers
    were stuck, its listener is gone, no connection is left open, and the host has
    bound for the source what it had before. *)
Theorem webhook_releases l run stuck st (Hfresh : l ∉ w_bound st)
    (Hold : match w_server st with Some srv => sv_listener srv ∉ w_bound st | None => True end)
    (Hidle : server_idle st) :
  let st' := webhook_cycle l run stuck st in
  w_listener st' = None /\ w_bound st' = w_bound st /\ server_idle st'.
Proof.
  unfold webhook_cycle, webhook_close. simpl.
  set (st1 := match run with Some _ => _ | None => _ end).
  assert (H1 : w_listener st1 = Some l /\ w_bound st ⊆ w_bound st1 ⊆ {[l]} ∪ w_bound st /\
               match w_server st1 with Some srv => sv_listener srv ∉ w_bound st | None => True end).
  { subst st1. destruct st as [l0 srv b]. simpl in *. clear Hidle.
    destruct run as [[[conns stuck'] []]|]; simpl; (split; [done|]); (split; [clear Hold; set_solver|by repeat case_bool_decide]). }
  destruct H1 as (Hl & [Hb1 Hb2] & Hs). pose proof (webhook_shutdown_listener stuck st1) as [Hl' Hb'].
  pose proof (webhook_shutdown_idle stuck st1) as Hi. rewrite Hl', Hl. simpl. split_and!; [done| |done].
  rewrite Hb'. destruct (w_server st1); set_solver.
Qed.

Lemma webhook_releases_witness :
  let st' := webhook_cycle 3 (Some ({[1; 2]}, {[2]}, Stopped)%nat) ∅ webhook_new in
  w_listener st' = None /\ w_bound st' = ∅ /\ server_idle st'.
Proof.
  apply (webhook_releases 3 (Some ({[1; 2]}%nat, {[2]}%nat, Stopped)) ∅ webhook_new); [set_solver|done|done].
Defined.

Lemma webhook_answers_witness :
  let cfg := mkWebhookConfig "8081" "/in/{tag}" EmptyString in
  let p := mkPattern EmptyString EmptyString [SLit "in"; SWild "tag"] in
  let r := mkInbound "h" "POST" "/in/a" EmptyString "x" None 7 (fun _ => None) in
  has_prefix "/" (wh_Path cfg) = true /\ parsePattern no_wide (wh_Path cfg) = Some p /\
  for_path p r && admissible cfg r = true /\ exists mux, (webhook_request "s" "t" cfg mux r).2 = StatusAccepted.
Proof.
  cbv zeta. set (cfg := mkWebhookConfig _ _ _). set (p := mkPattern _ _ _). set (r := mkInbound _ _ _ _ _ _ _ _).
  assert (H1 : has_prefix "/" (wh_Path cfg) = true) by (vm_compute; reflexivity).
  assert (H2 : parsePattern no_wide (wh_Path cfg) = Some p) by (vm_compute; reflexivity).
  assert (H3 : for_path p r && admissible cfg r = true) by (vm_compute; reflexivity).
  split; [exact H1|]. split; [exact H2|]. split; [exact H3|].
  destruct (webhook_answers no_wide "s" "t" cfg p r H1 H2) as (mux & _ & H). exists mux. cbv zeta in H.
  destruct (webhook_request "s" "t" cfg mux r) as [tr code]. destruct H as (_ & H & _).
  apply H. split; [exact H3|reflexivity].
Defined.
