(* ===== verification/Grpc.v ===== *)
(** * internal/connector/grpc.go: the client-streaming source

    The service method of one client's stream, the session that serves many of them
    at once, and what [Open], [Run] and [Close] do to the listener. *)

From Stdlib Require Import ZArith Lia.
From stdpp Require Import base tactics option strings gmap list.
From S2P Require Import Prelude GoLib GoJson GoJsonPrint Domain Broker Connector.

#[local] Open Scope Z_scope.

(** ** One client *)

(** A message received: the clock then, and the answer its publish would get. *)
Record received : Type := mkReceived {
  rc_Type : string;
  rc_Payload : string;
  rc_now : Z;
  rc_publish : StreamEvent -> option string
}.

(** How [Recv] ends: the client is done, and [SendAndClose] answers; or an error. *)
Inductive recv_end : Type :=
| RecvEOF (send_and_close : option string)
| RecvFailed (e : string).

(** What the method leaves its client with: an acknowledgement, if one was sent,
    and the error it returned. *)
Record stream_result : Type := mkStreamResult {
  sr_ProcessedCount : option Z;
  sr_error : option string
}.

Section Grpc.
Context (id topic : string).

Definition grpc_event (r : received) : StreamEvent :=
  mkEvent id (rc_Type r) (rc_now r) 0 EmptyString (keep_or_wrap (rc_Payload r)) EmptyString.

Fixpoint stream_loop (msgs : list received) (ending : recv_end) (processedCount : Z)
  : list conn_effect * stream_result :=
  match msgs with
  | [] =>
      ([], match ending with
           | RecvEOF answer => mkStreamResult (Some processedCount) answer
           | RecvFailed e => mkStreamResult None (Some e)
           end)
  | r :: msgs' =>
      let event := grpc_event r in
      match rc_publish r event with
      | Some e => ([CPublish topic event (Some e)], mkStreamResult None (Some e))
      | None =>
          let '(out, res) := stream_loop msgs' ending (wrap64 (processedCount + 1)) in
          (CPublish topic event None :: out, res)
      end
  end.

Definition StreamEvents (msgs : list received) (ending : recv_end) : list conn_effect * stream_result :=
  stream_loop msgs ending 0.

(** ** The session *)

(** Every way the traces of concurrent clients can interleave. *)
Inductive interleaving : list (list conn_effect) -> list conn_effect -> Prop :=
| il_done ts : Forall (fun t => t = []) ts -> interleaving ts []
| il_step ts i c t out :
    ts !! i = Some (c :: t) -> interleaving (<[i:=t]> ts) out -> interleaving ts (c :: out).

Inductive grpc_end : Type :=
| GServe (e : option string)
| GStopped.

(** [Run], given the order in which its clients' publishes happened. *)
Definition grpc_run (listener : option nat) (out : list conn_effect) (ending : grpc_end) : session :=
  match listener with
  | None => ([], Some RNotOpened)
  | Some _ =>
      (CReady :: out,
       match ending with
       | GServe (Some e) => Some (RServe e)
       | GServe None | GStopped => None
       end)
  end.

Definition client_trace (client : list received * recv_end) : list conn_effect :=
  (StreamEvents client.1 client.2).1.

(** ** What a session does *)

Lemma stream_loop_publishes msgs ending : forall n,
  Forall (event_ok id topic) (stream_loop msgs ending n).1 /\
  Forall (fun c => is_ready c = false) (stream_loop msgs ending n).1.
Proof.
  induction msgs as [|r msgs IH]; intros n; simpl; [done|].
  assert (Hr : forall a : option string, event_ok id topic (CPublish topic (grpc_event r) a)).
  { intros a. apply text_event_ok, keep_or_wrap_valid. }
  destruct (rc_publish r _); [split; constructor; by try apply Hr|].
  specialize (IH (wrap64 (n + 1))). destruct (stream_loop msgs ending _). destruct IH. split; by constructor.
Qed.

Lemma interleaving_forall (P : conn_effect -> Prop) ts out :
  interleaving ts out -> Forall (Forall P) ts -> Forall P out.
Proof.
  induction 1 as [|ts i c t out Hi Hil IH]; intros Hts; [done|].
  pose proof (Forall_lookup_1 _ _ _ _ Hts Hi) as Hct. apply Forall_cons in Hct as [Hc Ht]. constructor; [done|].
  apply IH. by apply Forall_insert.
Qed.

(** The contract of source.go, for this source, however its clients interleave. *)
Lemma grpc_conforms listener clients out ending :
  interleaving (client_trace <$> clients) out -> conforms id topic (grpc_run listener out ending).
Proof.
  intros Hil. unfold grpc_run. destruct listener; [|apply conforms_nothing].
  apply conforms_ready; eapply interleaving_forall; try done; apply Forall_fmap, Forall_true; intros c;
    apply stream_loop_publishes.
Qed.

Lemma wrap64_add a b : wrap64 (wrap64 a + b) = wrap64 (a + b).
Proof.
  unfold wrap64. replace ((a + 2 ^ 63) mod 2 ^ 64 - 2 ^ 63 + b + 2 ^ 63) with ((a + 2 ^ 63) mod 2 ^ 64 + b) by lia.
  rewrite Zplus_mod_idemp_l. f_equal. f_equal. lia.
Qed.

Lemma stream_loop_spec msgs ending : forall n, wrap64 n = n ->
  let '(tr, res) := stream_loop msgs ending n in
  let accepted := take (length (published tr)) msgs in
  published tr = grpc_event <$> accepted /\
  match sr_ProcessedCount res with
  | Some k => accepted = msgs /\ k = wrap64 (n + Z.of_nat (length msgs)) /\
              Forall (fun r => rc_publish r (grpc_event r) = None) msgs /\ ending = RecvEOF (sr_error res)
  | None => is_Some (sr_error res)
  end.
Proof.
  induction msgs as [|r msgs IH]; intros n Hn; simpl.
  { split; [done|]. destruct ending; simpl; [|by eexists]. by rewrite Z.add_0_r. }
  destruct (rc_publish r (grpc_event r)) eqn:E; simpl; [split; [done|by eexists]|].
  specialize (IH (wrap64 (n + 1))). destruct (stream_loop msgs ending (wrap64 (n + 1))) as [tr res].
  destruct IH as [Hp Hres]. { apply wrap64_id, wrap64_range. }
  cbn [published omap list_omap length take]. fold (published tr). rewrite fmap_cons. split; [by f_equal|].
  destruct (sr_ProcessedCount res); [|done]. destruct Hres as (-> & -> & Hall & ->).
  split_and!; [done| |by constructor|done].
  rewrite wrap64_add. f_equal. lia.
Qed.

(** (C33) A client is acknowledged only when it closed its stream itself, and then
    every message it sent has been published, in order and under its own type, and
    accepted; the acknowledged count is their number.  A stream that is not
    acknowledged ends in an error, and what was published is a prefix of what was
    sent. *)
Theorem acknowledged_is_published msgs ending (Hlen : Z.of_nat (length msgs) <= max_int64) :
  let '(tr, res) := StreamEvents msgs ending in
  published tr `prefix_of` (grpc_event <$> msgs) /\
  match sr_ProcessedCount res with
  | Some n => n = Z.of_nat (length msgs) /\ published tr = grpc_event <$> msgs /\
              Forall (fun r => rc_publish r (grpc_event r) = None) msgs /\ ending = RecvEOF (sr_error res)
  | None => is_Some (sr_error res)
  end.
Proof.
  pose proof (stream_loop_spec msgs ending 0 eq_refl) as H. unfold StreamEvents.
  destruct (stream_loop msgs ending 0) as [tr res]. destruct H as [Hp Hres]. split.
  - rewrite Hp at 1. exists (grpc_event <$> drop (length (published tr)) msgs).
    by rewrite <- fmap_app, take_drop.
  - destruct (sr_ProcessedCount res); [|done]. destruct Hres as (Ha & -> & Hall & ->).
    rewrite Ha in Hp. split_and!; [|done..]. simpl. apply wrap64_id. unfold min_int64. lia.
Qed.
End Grpc.

Lemma acknowledged_is_published_witness :
  let ok := fun _ : StreamEvent => None in
  let '(tr, res) := StreamEvents "s" "t" [mkReceived "a" "1" 5 ok; mkReceived "b" "x" 6 ok] (RecvEOF None) in
  sr_ProcessedCount res = Some 2 /\ se_Type <$> published tr = ["a"; "b"]%string.
Proof.
  set (ok := fun _ : StreamEvent => None).
  pose proof (acknowledged_is_published "s" "t" [mkReceived "a" "1" 5 ok; mkReceived "b" "x" 6 ok] (RecvEOF None)
    ltac:(vm_compute; discriminate)) as H.
  cbv zeta. destruct (StreamEvents _ _ _ _) as [tr res] eqn:E. destruct H as [_ H].
  assert (Hres : sr_ProcessedCount res = Some 2) by (vm_compute in E; by simplify_eq).
  rewrite Hres in H. destruct H as (_ & -> & _). split; [done|]. vm_compute. reflexivity.
Defined.

(** ** Open, Run and Close *)

Record grpc_state : Type := mkGrpc {
  g_listener : option nat;
  g_server : option nat;                 (* the listener it serves *)
  g_bound : gset nat
}.

Definition grpc_new : grpc_state := mkGrpc None None ∅.

Definition grpc_open (bind : result string nat) (st : grpc_state) : option string * grpc_state :=
  match bind with
  | Err e => (Some e, st)
  | Ok l => (None, mkGrpc (Some l) (g_server st) ({[l]} ∪ g_bound st))
  end.

(** [Run] on the same state.  [GracefulStop] closes the listener, and [Serve] does
    when it returns. *)
Definition grpc_serve (ending : grpc_end) (st : grpc_state) : grpc_state :=
  match g_listener st with
  | None => st
  | Some l => mkGrpc (g_listener st) (Some l) (g_bound st ∖ {[l]})
  end.

Definition grpc_close (st : grpc_state) : grpc_state :=
  let st := match g_server st with
            | None => st
            | Some l => mkGrpc (g_listener st) None (g_bound st ∖ {[l]})
            end in
  match g_listener st with
  | None => st
  | Some l => mkGrpc None (g_server st) (g_bound st ∖ {[l]})
  end.

Definition grpc_cycle (l : nat) (run : option grpc_end) (st : grpc_state) : grpc_state :=
  let st := (grpc_open (Ok l) st).2 in
  grpc_close (match run with Some ending => grpc_serve ending st | None => st end).

(** A session that was opened, served or not, leaves the source as it was made and
    the host with what it had. *)
Lemma grpc_releases l run st : l ∉ g_bound st -> g_server st = None ->
  let st' := grpc_cycle l run st in
  g_listener st' = None /\ g_server st' = None /\ g_bound st' = g_bound st.
Proof.
  destruct st as [l0 s b]. simpl. intros Hl ->.
  destruct run; unfold grpc_cycle, grpc_close; simpl; split_and!; try done; set_solver.
Qed.

Lemma grpc_close_idem st : grpc_close (grpc_close st) = grpc_close st.
Proof. by destruct st as [[l|] [s|] b]. Qed.
