(* ===== verification/Sessions.v ===== *)
(** * internal/connector: any source's session

    The five connectors behind the one interface of source.go: which sessions a
    source can have, and the contract they all keep. *)

From Stdlib Require Import ZArith Lia.
From stdpp Require Import base tactics option strings gmap list.
From S2P Require Import Prelude GoLib GoMux GoJson Domain ConfigError Validate Broker Connector.
From S2P Require Import Sse WebSocket Source Poller Webhook Grpc.

#[local] Open Scope Z_scope.

Definition source_topic (s : Source) : string :=
  match s with
  | WebSocketSource _ _ topic _ | RESTPollerSource _ _ topic _ | WebhookSource _ topic _ | GrpcSource _ topic _
  | SSESource _ _ topic _ => topic
  end.

(** [Run] of an opened source, for everything its peers and its context may do. *)
Inductive source_session : Source -> session -> Prop :=
| ss_websocket id url topic frames publish dial write reads done_at_end :
    source_session (WebSocketSource id url topic frames)
      (ws_run id url topic publish frames dial write reads done_at_end).1
| ss_poller id url topic config first ticks :
    Forall (fun p => pi_headers p ≡ₚ map_to_list (rp_Headers config)) (first :: ticks) ->
    source_session (RESTPollerSource id url topic config) (poller_run id url topic config first ticks)
| ss_webhook wide_name id topic config listener requests ending sess :
    webhook_run wide_name id topic config listener requests ending = Some sess ->
    source_session (WebhookSource id topic config) sess
| ss_grpc id topic config listener clients out ending :
    interleaving (client_trace id topic <$> clients) out ->
    source_session (GrpcSource id topic config) (grpc_run listener out ending)
| ss_sse id url topic config headers publish answer clock done done_at_end :
    headers ≡ₚ (match config with Some c => map_to_list (sse_Headers c) | None => [] end) ->
    source_session (SSESource id url topic config)
      (sse_run id topic publish url headers answer clock done done_at_end).

Lemma session_conforms s sess : source_session s sess -> conforms (ID s) (source_topic s) sess.
Proof.
  destruct 1; [apply ws_conforms|apply poller_conforms|by eapply webhook_conforms|by eapply grpc_conforms|
               apply sse_conforms].
Qed.

Lemma sourceFromConfig_topic cfg s : (sourceFromConfig cfg).1 = Ok s -> source_topic s = sc_Topic cfg.
Proof. unfold sourceFromConfig. simpl. repeat case_match; intros; by simplify_eq. Qed.

(** (C26) Whatever its type, the source built for a configuration keeps the contract
    of [StreamSource]: it reports ready at most once in a session, and everything it
    publishes goes to the configured topic in the name of the configured stream.  A
    text event is one the broker can encode, whatever bytes the peer sent. *)
Theorem configured_source_conforms cfg s sess :
  (sourceFromConfig cfg).1 = Ok s -> source_session s sess -> conforms (sc_ID cfg) (sc_Topic cfg) sess.
Proof.
  intros Hs Hsess. rewrite <- (sourceFromConfig_id cfg s Hs), <- (sourceFromConfig_topic cfg s Hs).
  by apply session_conforms.
Qed.

(** ** A session that panics *)

Definition with_path (path : string) (cfg : StreamSourceConfig) : StreamSourceConfig :=
  mkSourceConfig (sc_ID cfg) (sc_Kind cfg) (sc_URL cfg) (sc_Topic cfg) (sc_Metadata cfg) (sc_RestPoller cfg)
    ((fun wh => mkWebhookConfig (wh_Port wh) path (wh_AuthToken wh)) <$> sc_Webhook cfg) (sc_Grpc cfg) (sc_Sse cfg)
    (sc_Websocket cfg) (sc_Pipeline cfg) (sc_Restart cfg).

(** Validation does not look at a webhook's path, and the session panics exactly when
    the path is not a pattern: nothing recovers, so the process ends, and the stored
    configuration ends the next one too. *)
Theorem invalid_path_panics wide_name cfg wh path l requests ending :
  sc_Kind cfg = "webhook"%string -> sc_Webhook cfg = Some wh -> validateStreamConfig cfg = Ok tt ->
  let cfg' := with_path path cfg in
  validateStreamConfig cfg' = Ok tt /\
  let c := webhook_defaults (sc_Webhook cfg') in
  (sourceFromConfig cfg').1 = Ok (WebhookSource (sc_ID cfg) (sc_Topic cfg) c) /\
  (webhook_run wide_name (sc_ID cfg) (sc_Topic cfg) c (Some l) requests ending = None <->
   parsePattern wide_name (wh_Path c) = None).
Proof.
  intros Hk Hw Hv. cbv zeta. destruct cfg as [id kind url topic md rp wo g sse ws pl rs]. simpl in Hk, Hw. subst.
  split; [exact Hv|]. split; [done|]. unfold webhook_run, webhook_mux, handle.
  destruct (parsePattern _ _) as [p|]; [|done]. done.
Qed.

Example unmatched_brace :
  let cfg := mkSourceConfig "a" "webhook" EmptyString "t" ∅ None (Some (mkWebhookConfig "9001" "/{" EmptyString)) None None None None None in
  validateStreamConfig cfg = Ok tt /\
  webhook_run no_wide "a" "t" (webhook_defaults (sc_Webhook cfg)) (Some 1%nat) [] Stopped = None.
Proof. split; vm_compute; reflexivity. Qed.

(** A gRPC stream with two clients: the events of one between those of the other. *)
Definition demo_cfg : StreamSourceConfig :=
  mkSourceConfig "s" "grpc" EmptyString "t" ∅ None None None None None None None.

Definition demo_client (ty : string) : list received * recv_end :=
  ([mkReceived ty "1" 5 (fun _ => None); mkReceived ty "not json" 6 (fun _ => None)], RecvEOF None).

Definition demo_order : list conn_effect :=
  match client_trace "s" "t" (demo_client "a"), client_trace "s" "t" (demo_client "b") with
  | [a1; a2], [b1; b2] => [a1; b1; b2; a2]
  | _, _ => []
  end.

Lemma demo_interleaving :
  interleaving (client_trace "s" "t" <$> [demo_client "a"; demo_client "b"]) demo_order.
Proof.
  unfold demo_order. simpl.
  eapply (il_step _ 0); [done|]. simpl.
  eapply (il_step _ 1); [done|]. simpl.
  eapply (il_step _ 1); [done|]. simpl.
  eapply (il_step _ 0); [done|]. simpl.
  by repeat constructor.
Qed.

Lemma configured_source_conforms_witness :
  conforms "s" "t" (grpc_run (Some 3%nat) demo_order GStopped) /\
  (raw_bytes ∘ se_Payload) <$> published demo_order = ["1"; "1"; js "'not json'"; js "'not json'"]%string.
Proof.
  split; [|vm_compute; reflexivity].
  apply (configured_source_conforms demo_cfg (GrpcSource "s" "t" (mkGrpcConfig "50051"))); [done|].
  apply ss_grpc with (clients := [demo_client "a"; demo_client "b"]), demo_interleaving.
Defined.
