(* ===== verification/Manager.v ===== *)
(** * internal/server/manager.go: the stream manager

    Registration, removal, restore, pipeline updates and shutdown, over the maps
    the manager keeps, its store and the telemetry registry.  Every operation that
    holds the lock throughout is one transition; [UpdatePipeline], which does not,
    is a small program of its own, interleaved with everything else. *)

From Stdlib Require Import ZArith Lia.
From stdpp Require Import base tactics list strings gmap sorting.
From S2P Require Import Prelude GoLib GoFloat GoTime GoJsonValue Domain Telemetry ConfigError.
From S2P Require Import GoJsonStruct ConfigJson Store PipelineConfig Pipeline Builder Restart Validate Redact.
From S2P Require Import Supervisor Source.

#[local] Open Scope Z_scope.

(** ** Ports *)

Definition canonicalPort (raw : string) : string :=
  match atoi raw with None => raw | Some port => itoa port end.

Definition connectorPort (cfg : StreamSourceConfig) : string :=
  if str_eqb (sc_Kind cfg) "webhook" then
    match sc_Webhook cfg with
    | Some c => if str_is_empty (wh_Port c) then "8081" else canonicalPort (wh_Port c)
    | None => "8081"
    end
  else if str_eqb (sc_Kind cfg) "grpc" then
    match sc_Grpc cfg with
    | Some c => if str_is_empty (grpc_Port c) then "50051" else canonicalPort (grpc_Port c)
    | None => "50051"
    end
  else EmptyString.

(** ** State

    The maps are the fields of [StreamManager].  Its store is a handle; [acked] is what
    the writes it has acknowledged amount to, and [in_doubt] lists those it has
    refused, whose outcome nobody knows: [Store] and [Linked] say what the bucket may
    hold then. *)

(** One constructor per error of the manager; [error_text] below renders them. *)
Inductive mgr_error : Type :=
| ErrStreamExists (id : string)
| ErrStreamNotFound (id : string)
| ErrPortConflict (port holder : string)
| EBuildPipeline (e : cfg_error)
| ErrSourceOpen (e : string)
| EPersist (e : string)
| EPersistPipeline (id e : string)
| EDeletePersisted (id e : string)
| ELoadPersisted (e : string)
| EInvalidPersisted (e : cfg_error)
| EConfig (e : cfg_error).

(** A runtime is shared with the supervisor that writes it, or belongs to a
    stream that failed admission and has none. *)
Inductive rt_ref : Type :=
| RtSupervised
| RtFailed (rt : streamRuntime).

(** An [UpdatePipeline] call in flight, between two of its steps. *)
Inductive update_pc : Type :=
| UCheck (id : string) (cfg : option PipelineConfig)             (* before the read lock *)
| UBuild (id : string) (cfg : option PipelineConfig)             (* outside the lock *)
| UCommit (id : string) (cfg : option PipelineConfig) (next : nat) (* before the lock *)
| UGone (id : string) (next : nat)                               (* removed while building *)
| URetire (id : string) (gen : nat) (res : result mgr_error unit) (* unlocked, retiring *)
| UEnd (res : result mgr_error unit).

Record mstate : Type := mkM {
  generations : gmap string nat;
  configs : gmap string StreamSourceConfig;
  cancels : gset string;
  dones : gset string;
  runtimes : gmap string rt_ref;
  portClaims : gmap string string;
  acked : option (gmap string StreamSourceConfig);  (* what the store has acknowledged, if there is one *)
  m_metrics : metrics;
  sups : gmap string (restartPolicy * sup_state);  (* supervisor goroutines *)
  m_built : nat;                                   (* generations built so far *)
  m_retired : gset nat;                            (* generations retired *)
  updates : list update_pc;
  m_calls : list (string * sup_call);              (* what admission did to sources *)
  in_doubt : list store_op                         (* the writes the store has refused *)
}.

Definition NewStreamManager (st : option (gmap string StreamSourceConfig)) : mstate :=
  mkM ∅ ∅ ∅ ∅ ∅ ∅ st no_metrics ∅ 0 ∅ [] [] [].

Definition set_maps gens cfgs cs ds rts ports st :=
  mkM gens cfgs cs ds rts ports (acked st) (m_metrics st) (sups st) (m_built st) (m_retired st)
    (updates st) (m_calls st) (in_doubt st).
Definition set_acked s st :=
  mkM (generations st) (configs st) (cancels st) (dones st) (runtimes st) (portClaims st) s
    (m_metrics st) (sups st) (m_built st) (m_retired st) (updates st) (m_calls st) (in_doubt st).
Definition set_mmetrics f st :=
  mkM (generations st) (configs st) (cancels st) (dones st) (runtimes st) (portClaims st) (acked st)
    (f (m_metrics st)) (sups st) (m_built st) (m_retired st) (updates st) (m_calls st) (in_doubt st).
Definition set_sups f st :=
  mkM (generations st) (configs st) (cancels st) (dones st) (runtimes st) (portClaims st) (acked st)
    (m_metrics st) (f (sups st)) (m_built st) (m_retired st) (updates st) (m_calls st) (in_doubt st).
Definition set_gens built retired st :=
  mkM (generations st) (configs st) (cancels st) (dones st) (runtimes st) (portClaims st) (acked st)
    (m_metrics st) (sups st) built retired (updates st) (m_calls st) (in_doubt st).
Definition set_updates u st :=
  mkM (generations st) (configs st) (cancels st) (dones st) (runtimes st) (portClaims st) (acked st)
    (m_metrics st) (sups st) (m_built st) (m_retired st) u (m_calls st) (in_doubt st).
Definition log_call id k st :=
  mkM (generations st) (configs st) (cancels st) (dones st) (runtimes st) (portClaims st) (acked st)
    (m_metrics st) (sups st) (m_built st) (m_retired st) (updates st) (m_calls st ++ [(id, k)]) (in_doubt st).

(** A write the store has refused may still be made: its outcome is in doubt. *)
Definition doubt op st :=
  mkM (generations st) (configs st) (cancels st) (dones st) (runtimes st) (portClaims st) (acked st)
    (m_metrics st) (sups st) (m_built st) (m_retired st) (updates st) (m_calls st) (in_doubt st ++ [op]).

(** The registry is the process's: a goroutine holds none of it between two steps. *)
Definition park (s : sup_state) : sup_state := on_metrics (fun _ => no_metrics) s.

(** ** Generations *)

(** [publishFunc], up to the broker: the event is counted, then handed over. *)
Definition publishFunc (id : string) (event : StreamEvent) (m : metrics) : metrics :=
  set_BytesPublished (counter_add id (eventPayloadSize event))
    (set_EventsPublished (counter_add id 1) m).

Definition NewGeneration (id : string) (cfg : option PipelineConfig) (st : mstate)
  : result cfg_error nat * mstate :=
  let '(r, w) := buildFromConfig id cfg (set_metrics (fun _ => m_metrics st) new_world) in
  let st := set_mmetrics (fun _ => w_metrics w) st in
  match r with
  | Err e => (Err e, st)
  | Ok _ => (Ok (m_built st), set_gens (S (m_built st)) (m_retired st) st)
  end.

(** [Retire]: the generation's final flush publishes what it still holds. *)
Definition Retire (id : string) (gen : nat) (flushed : list StreamEvent) (st : mstate) : mstate :=
  set_gens (m_built st) ({[ gen ]} ∪ m_retired st)
    (set_mmetrics (fun m => foldl (fun m e => publishFunc id e m) m flushed) st).

(** Nothing has been published through a generation that was never installed. *)
Definition discardGeneration (id : string) (gen : nat) (st : mstate) : mstate :=
  set_mmetrics (DeleteDedupSeries id) (Retire id gen [] st).

(** ** Admission *)

Section Admission.
(** [err.Error()] of the errors above. *)
Variable error_text : mgr_error -> string.

(** [opened] and [put] are what [source.Open] and [store.Put] answer. *)
Definition admitLocked (source : Source) (cfg : StreamSourceConfig) (persist : bool)
    (opened put : option string) (st : mstate) : result mgr_error unit * mstate :=
  let id := ID source in
  if bool_decide (is_Some (runtimes st !! id)) then (Err (ErrStreamExists id), st)
  else
    let port := connectorPort cfg in
    match (if str_is_empty port then None else portClaims st !! port) with
    | Some holder => (Err (ErrPortConflict port holder), st)
    | None =>
        let '(gen, st) := NewGeneration id (sc_Pipeline cfg) st in
        match gen with
        | Err e => (Err (EBuildPipeline e), st)
        | Ok gen =>
            match opened with
            | Some e => (Err (ErrSourceOpen e), discardGeneration id gen (log_call id (KOpen false) st))
            | None =>
                let st := log_call id (KOpen true) st in
                match acked st, persist, put with
                | Some _, true, Some e =>
                    (Err (EPersist e), discardGeneration id gen (log_call id KClose (doubt (OPut cfg) st)))
                | _, _, _ =>
                    let st := if persist
                              then set_acked ((fun kv => <[sc_ID cfg := cfg]> kv) <$> acked st) st
                              else st in
                    let st := set_maps (<[id := gen]> (generations st)) (<[id := cfg]> (configs st))
                                ({[ id ]} ∪ cancels st) ({[ id ]} ∪ dones st)
                                (<[id := RtSupervised]> (runtimes st))
                                (if str_is_empty port then portClaims st
                                 else <[port := id]> (portClaims st)) st in
                    let sup := sup_init id (m_metrics st) in
                    (Ok tt, set_mmetrics (fun _ => s_metrics sup)
                              (set_sups (<[id := (restartPolicyFor cfg, park sup)]>) st))
                end
            end
        end
    end.

Definition Register (source : Source) (cfg : StreamSourceConfig) (opened put : option string)
    (st : mstate) : result mgr_error unit * mstate :=
  admitLocked source cfg true opened put st.

Definition admitFailedLocked (cfg : StreamSourceConfig) (cause : mgr_error) (now : Z) (st : mstate)
  : mstate :=
  let id := sc_ID cfg in
  let rt := recordFailure (Some (error_text cause)) now (newStreamRuntime StatusError) in
  let port := connectorPort cfg in
  set_mmetrics (SetStreamState id (metricState StatusError))
    (set_maps (generations st) (<[id := cfg]> (configs st)) (cancels st) (dones st)
       (<[id := RtFailed rt]> (runtimes st))
       (if str_is_empty port then portClaims st
        else match portClaims st !! port with
             | Some _ => portClaims st
             | None => <[port := id]> (portClaims st)
             end) st).

(** ** Restore *)

(** One iteration of the loop: [opened] is what the stream's source answers. *)
Definition restore_one (opened : string -> option string) (now : Z) (cfg : StreamSourceConfig)
    (st : mstate) : mstate :=
  if str_is_empty (sc_ID cfg) then st
  else
    match validateStreamConfig cfg with
    | Err e => admitFailedLocked cfg (EInvalidPersisted e) now st
    | Ok _ =>
        let '(source, cfg) := sourceFromConfig cfg in
        match source with
        | Err e => admitFailedLocked cfg (EConfig e) now st
        | Ok source =>
            match admitLocked source cfg false (opened (sc_ID cfg)) None st with
            | (Ok _, st) => st
            | (Err e, st) => admitFailedLocked cfg e now st
            end
        end
    end.

Definition id_le (c1 c2 : StreamSourceConfig) : Prop := str_cmp (sc_ID c1) (sc_ID c2) <> Gt.

#[export] Instance id_le_dec c1 c2 : Decision (id_le c1 c2).
Proof. unfold id_le. apply _. Defined.

#[export] Instance id_le_total : Total id_le.
Proof.
  intros c1 c2. unfold id_le. rewrite (str_cmp_opp (sc_ID c1)). destruct (str_cmp _ _); simpl; auto.
Qed.

#[export] Instance id_le_trans : Transitive id_le.
Proof. intros c1 c2 c3. apply str_cmp_trans. Qed.

Lemma id_le_antisym c1 c2 : id_le c1 c2 -> id_le c2 c1 -> sc_ID c1 = sc_ID c2.
Proof.
  unfold id_le. rewrite (str_cmp_opp (sc_ID c1)). intros H1 H2. apply str_cmp_eq.
  by destruct (str_cmp _ _).
Qed.

(** [listed] is what [store.List] returned. *)
Definition Restore (listed : result string (list StreamSourceConfig))
    (opened : string -> option string) (now : Z) (st : mstate) : result mgr_error unit * mstate :=
  match acked st with
  | None => (Ok tt, st)
  | Some _ =>
      match listed with
      | Err e => (Err (ELoadPersisted e), st)
      | Ok cfgs => (Ok tt, foldl (fun st cfg => restore_one opened now cfg st) st (merge_sort id_le cfgs))
      end
  end.
End Admission.

(** ** Removal *)

(** Runs the supervisor on the answers it gets until it has returned; the gauge
    it writes is the registry's. *)
Definition sup_finish (id : string) (cancelled_now : bool) (answers : list sup_action)
    (ps : restartPolicy * sup_state) (m : metrics) : option metrics :=
  let s := mkSup (s_pc ps.2) (s_runtime ps.2) m (s_cancelled ps.2 || cancelled_now) (s_calls ps.2)
             (s_resets ps.2) in
  s' ← sup_run id ps.1 answers s;
  match s_pc s' with CDone => Some (s_metrics s') | _ => None end.

Definition releaseClaimsLocked (id : string) (ports : gmap string string) : gmap string string :=
  base.filter (fun ph => ph.2 <> id) ports.

(** [None] while the supervisor has not returned yet: the call is still waiting. *)
Definition Remove (id : string) (deleted : option string) (answers : list sup_action)
    (flushed : list StreamEvent) (st : mstate) : option (result mgr_error unit * mstate) :=
  if negb (bool_decide (is_Some (runtimes st !! id))) then Some (Err (ErrStreamNotFound id), st)
  else
    match acked st, deleted with
    | Some _, Some e => Some (Err (EDeletePersisted id e), doubt (ODelete id) st)
    | _, _ =>
        let st := set_acked (delete id <$> acked st) st in
        m ← match sups st !! id with
            | Some ps =>
                if bool_decide (id ∈ dones st)
                then sup_finish id (bool_decide (id ∈ cancels st)) answers ps (m_metrics st)
                else Some (m_metrics st)
            | None => Some (m_metrics st)
            end;
        let st := set_sups (delete id) (set_mmetrics (fun _ => m) st) in
        let st := match generations st !! id with
                  | Some gen => Retire id gen flushed st
                  | None => st
                  end in
        let st := set_maps (delete id (generations st)) (delete id (configs st))
                    (cancels st ∖ {[ id ]}) (dones st ∖ {[ id ]}) (delete id (runtimes st))
                    (releaseClaimsLocked id (portClaims st)) st in
        Some (Ok tt, set_mmetrics (DeleteStreamSeries id) st)
    end.

(** ** Shutdown *)

(** Waits for the supervisors, then retires the generations, then clears the
    series: [answers] and [flushed] say what each stream's source and final flush
    did. *)
Definition join_one (answers : string -> list sup_action) (st : mstate) (m : option metrics) (id : string)
  : option metrics :=
  m ← m;
  match sups st !! id with
  | Some ps => if bool_decide (id ∈ dones st) then sup_finish id true (answers id) ps m else Some m
  | None => Some m
  end.

Definition StopAll (answers : string -> list sup_action) (flushed : string -> list StreamEvent)
    (st : mstate) : option mstate :=
  m ← foldl (join_one answers st) (Some (m_metrics st)) (elements (cancels st));
  let st := set_sups (fun _ => ∅) (set_mmetrics (fun _ => m) st) in
  let st := foldl (fun st ig => Retire ig.1 ig.2 (flushed ig.1) st) st (map_to_list (generations st)) in
  let st := foldl (fun st ir => set_mmetrics (DeleteStreamSeries ir.1) st) st (map_to_list (runtimes st)) in
  Some (set_maps ∅ ∅ ∅ ∅ ∅ ∅ st).

(** ** Pipeline updates *)

(** What reading the map of configurations gives for an unknown stream. *)
Definition zero_config : StreamSourceConfig :=
  mkSourceConfig EmptyString EmptyString EmptyString EmptyString ∅ None None None None None None None.

Definition set_update (i : nat) (u : update_pc) (st : mstate) : mstate :=
  set_updates (<[i := u]> (updates st)) st.

(** One step of the call [i].  [put] is the store's answer, [flushed] what the
    retired generation's final flush publishes. *)
Definition update_exec (i : nat) (put : option string) (flushed : list StreamEvent) (st : mstate)
  : option mstate :=
  u ← updates st !! i;
  match u with
  | UCheck id cfg =>
      Some (set_update i (if bool_decide (is_Some (generations st !! id)) then UBuild id cfg
                          else UEnd (Err (ErrStreamNotFound id))) st)
  | UBuild id cfg =>
      let '(gen, st) := NewGeneration id cfg st in
      Some (set_update i (match gen with
                          | Err e => UEnd (Err (EBuildPipeline e))
                          | Ok next => UCommit id cfg next
                          end) st)
  | UCommit id cfg next =>
      match generations st !! id with
      | None => Some (set_update i (UGone id next) st)
      | Some previous =>
          let current := default zero_config (configs st !! id) in
          let updated := with_pipeline current cfg in
          match acked st, put with
          | Some _, Some e => Some (set_update i (URetire id next (Err (EPersistPipeline id e))) (doubt (OPut updated) st))
          | _, _ =>
              let st := set_acked ((fun kv => <[sc_ID updated := updated]> kv) <$> acked st) st in
              let st := set_maps (<[id := next]> (generations st)) (<[id := updated]> (configs st))
                          (cancels st) (dones st) (runtimes st) (portClaims st) st in
              Some (set_update i (URetire id previous (Ok tt)) st)
          end
      end
  | UGone id next =>
      Some (set_update i (UEnd (Err (ErrStreamNotFound id)))
              (set_mmetrics (DeleteDedupSeries id) (Retire id next flushed st)))
  | URetire id gen res => Some (set_update i (UEnd res) (Retire id gen flushed st))
  | UEnd _ => None
  end.

(** ** Reading *)

Record StreamInfo : Type := mkInfo {
  si_ID : string;
  si_Status : string;
  si_Health : string;
  si_LastMessageAt : option Z;
  si_RestartCount : Z;
  si_LastError : string;
  si_LastErrorAt : option Z
}.

Definition runtimeLastMessageAt (rt : streamRuntime) : option Z :=
  if lastMessageUnixNano rt =? 0 then None else Some (lastMessageUnixNano rt).

Definition streamInfo (id : string) (rt : streamRuntime) : StreamInfo :=
  mkInfo id (status_name (status rt)) (sourceHealth (status rt)) (runtimeLastMessageAt rt) (restarts rt)
    (match lastError rt with Some failure => sf_message failure | None => EmptyString end)
    (sf_at <$> lastError rt).

Definition runtime_of (st : mstate) (id : string) : option streamRuntime :=
  r ← runtimes st !! id;
  match r with
  | RtSupervised => s_runtime ∘ snd <$> sups st !! id
  | RtFailed rt => Some rt
  end.

(** Go ranges over a map in an order of its own at every call: [rank] says where each
    key comes in this one. *)
Definition ranks (rank : string -> Z) (p1 p2 : string * rt_ref) : Prop := rank p1.1 <= rank p2.1.

#[export] Instance ranks_dec rank p1 p2 : Decision (ranks rank p1 p2).
Proof. unfold ranks. apply _. Defined.

Definition List_ (rank : string -> Z) (st : mstate) : list StreamInfo :=
  omap (fun ir => streamInfo ir.1 <$> runtime_of st ir.1) (merge_sort (ranks rank) (map_to_list (runtimes st))).

Record StreamDetail : Type := mkDetail { sd_Info : StreamInfo; sd_Config : StreamSourceConfig }.

Definition Describe (st : mstate) (id : string) : option StreamDetail :=
  rt ← runtime_of st id;
  Some (mkDetail (streamInfo id rt) (redactConfig (default zero_config (configs st !! id)))).

Definition StatusOf (st : mstate) (id : string) : option SourceStatus := status <$> runtime_of st id.

(** ** The whole manager *)

Inductive m_action : Type :=
| MRegister (cfg : StreamSourceConfig) (opened put : option string)
| MRemove (id : string) (deleted : option string) (answers : list sup_action) (flushed : list StreamEvent)
| MRestore (listed : result string (list StreamSourceConfig)) (opened : string -> option string) (now : Z)
| MStopAll (answers : string -> list sup_action) (flushed : string -> list StreamEvent)
| MUpdateCall (id : string) (cfg : option PipelineConfig)
| MUpdateStep (i : nat) (put : option string) (flushed : list StreamEvent)
| MSup (id : string) (a : sup_action).

Definition is_cancel (a : sup_action) : bool := match a with ACancel => true | _ => false end.

(** A step of one stream's supervisor; only the manager cancels it. *)
Definition sup_tick (id : string) (a : sup_action) (st : mstate) : option mstate :=
  '(p, s) ← sups st !! id;
  if is_cancel a then None
  else
    s' ← sup_exec id p a (on_metrics (fun _ => m_metrics st) s);
    Some (set_mmetrics (fun _ => s_metrics s') (set_sups (<[id := (p, park s')]>) st)).

Section Machine.
Variable error_text : mgr_error -> string.

Definition m_exec (a : m_action) (st : mstate) : option mstate :=
  match a with
  | MRegister cfg opened put =>
      (* the handler builds the source from the configuration it registers *)
      let '(source, cfg) := sourceFromConfig cfg in
      match source with
      | Ok source => Some (Register source cfg opened put st).2
      | Err _ => None
      end
  | MRemove id deleted answers flushed => snd <$> Remove id deleted answers flushed st
  | MRestore listed opened now => Some (Restore error_text listed opened now st).2
  | MStopAll answers flushed => StopAll answers flushed st
  | MUpdateCall id cfg => Some (set_updates (updates st ++ [UCheck id cfg]) st)
  | MUpdateStep i put flushed => update_exec i put flushed st
  | MSup id a => sup_tick id a st
  end.

Definition m_step (st st' : mstate) : Prop := exists a, m_exec a st = Some st'.

Fixpoint m_run (sched : list m_action) (st : mstate) : option mstate :=
  match sched with
  | [] => Some st
  | a :: sched' => st' ← m_exec a st; m_run sched' st'
  end.
End Machine.
