(* ===== verification/Writes.v ===== *)
(** * Writes to the registry

    What one step of a supervisor, of a final flush or of a build does to the metric
    vectors, as a list of writes that does not depend on what the vectors hold; and
    which writes may be swapped. *)

From Stdlib Require Import ZArith Lia.
From stdpp Require Import base tactics list strings gmap sorting.
From S2P Require Import Prelude GoLib GoFloat GoTime GoJsonValue Domain Telemetry ConfigError.
From S2P Require Import PipelineConfig Pipeline Dedup Middleware Builder Restart Validate Redact Supervisor Source.
From S2P Require Import Manager.

#[local] Open Scope Z_scope.

(** ** Writes *)

Inductive write : Type :=
| WState (id current : string)          (* SetStreamState *)
| WRestart (id : string)                (* StreamRestarts.Inc *)
| WIngest (id : string) (size : Z)      (* instrumentedPublish *)
| WPublish (id : string) (size : Z)     (* publishFunc *)
| WCapacity (id : string) (n : Z)       (* NewDedup *)
| WDropDedup (id : string).             (* DeleteDedupSeries *)

Definition apply_write (m : metrics) (w : write) : metrics :=
  match w with
  | WState id current => SetStreamState id current m
  | WRestart id => set_StreamRestarts (counter_add id 1) m
  | WIngest id size =>
      set_Duration (counter_add id 1)
        (set_BytesIngested (counter_add id size) (set_EventsIngested (counter_add id 1) m))
  | WPublish id size => set_BytesPublished (counter_add id size) (set_EventsPublished (counter_add id 1) m)
  | WCapacity id n => set_DedupCacheCapacity (fun g => <[id := n]> g) m
  | WDropDedup id => DeleteDedupSeries id m
  end.

Definition writes (ws : list write) (m : metrics) : metrics := foldl apply_write m ws.

Lemma writes_app ws1 ws2 m : writes (ws1 ++ ws2) m = writes ws2 (writes ws1 m).
Proof. apply foldl_app. Qed.

(** The writes of the supervisor of [id], of a pipeline's terminal handler, and of
    building or dropping a pipeline. *)
Definition of_supervisor (id : string) (w : write) : Prop :=
  match w with WState i _ | WRestart i | WIngest i _ => i = id | _ => False end.
Definition of_flush (w : write) : Prop := match w with WPublish _ _ => True | _ => False end.
Definition of_pipeline (w : write) : Prop :=
  match w with WPublish _ _ | WCapacity _ _ | WDropDedup _ => True | _ => False end.

(** Two writes that can be swapped: they touch different vectors, or one vector in
    different places, or both only add. *)
Definition independent (w1 w2 : write) : Prop :=
  match w1, w2 with
  | WState i _, WState j _ => i <> j
  | (WCapacity _ _ | WDropDedup _), (WCapacity _ _ | WDropDedup _) => False
  | _, _ => True
  end.

Lemma counter_add_comm {K} `{Countable K} (i j : K) a b m :
  counter_add i a (counter_add j b m) = counter_add j b (counter_add i a m).
Proof.
  unfold counter_add. destruct (decide (i = j)) as [->|Hne].
  - rewrite !lookup_insert_eq, !insert_insert_eq. simpl. f_equal. lia.
  - rewrite !lookup_insert_ne by done. by rewrite insert_insert_ne by done.
Qed.

Definition set_gauges (i : string) (v : string -> Z) (l : list string) (g : gmap (string * string) Z)
  : gmap (string * string) Z :=
  foldl (fun g st => <[(i, st) := v st]> g) g l.

Lemma gauge_insert_comm i j v (st : string) (x : Z) l g :
  i <> j -> set_gauges i v l (<[(j, st) := x]> g) = <[(j, st) := x]> (set_gauges i v l g).
Proof.
  intros Hne. revert g. induction l as [|st' l IH]; intros g; [done|]. simpl.
  by rewrite insert_insert_ne, IH by congruence.
Qed.

Lemma gauge_comm i j v1 v2 l1 l2 g :
  i <> j -> set_gauges i v1 l1 (set_gauges j v2 l2 g) = set_gauges j v2 l2 (set_gauges i v1 l1 g).
Proof.
  intros Hne. revert g. induction l2 as [|st l2 IH]; intros g; [done|]. simpl.
  by rewrite IH, gauge_insert_comm.
Qed.

Lemma SetStreamState_comm i j a b m :
  i <> j -> SetStreamState i a (SetStreamState j b m) = SetStreamState j b (SetStreamState i a m).
Proof.
  intros Hne. assert (E : forall id cur m, SetStreamState id cur m =
    set_StreamState (set_gauges id (indicator cur) streamStates) m) by reflexivity.
  rewrite !E. unfold set_StreamState. cbn [StreamState EventsIngested EventsDropped
    BytesIngested BytesPublished EventsPublished EventProcessingDuration DedupCacheSize
    DedupCacheCapacity StreamRestarts DedupCacheEvictions]. f_equal. by apply gauge_comm.
Qed.

(** The same write vector by vector: a counter grows, the gauges are set, the series
    of a dropped pipeline go. *)
Definition counted (by_ : write -> option (string * Z)) (w : write) (g : gmap string Z) : gmap string Z :=
  match by_ w with Some (id, n) => counter_add id n g | None => g end.
Definition gauged (w : write) (m : metrics) : gmap (string * string) Z :=
  StreamState (match w with WState id current => SetStreamState id current m | _ => m end).
Definition dropped (w : write) (g : gmap string Z) : gmap string Z :=
  match w with WDropDedup id => delete id g | _ => g end.
Definition sized (w : write) (g : gmap string Z) : gmap string Z :=
  match w with WDropDedup id => delete id g | WCapacity id n => <[id := n]> g | _ => g end.

Definition ingested w := match w with WIngest id _ => Some (id, 1) | _ => None end.
Definition ingested_bytes w := match w with WIngest id n => Some (id, n) | _ => None end.
Definition published w := match w with WPublish id _ => Some (id, 1) | _ => None end.
Definition published_bytes w := match w with WPublish id n => Some (id, n) | _ => None end.
Definition restarted w := match w with WRestart id => Some (id, 1) | _ => None end.

Lemma apply_write_parts m w :
  apply_write m w
  = mkMetrics (counted ingested w (EventsIngested m)) (EventsDropped m)
      (counted ingested_bytes w (BytesIngested m)) (counted published_bytes w (BytesPublished m))
      (counted published w (EventsPublished m)) (gauged w m)
      (counted ingested w (EventProcessingDuration m)) (dropped w (DedupCacheSize m))
      (sized w (DedupCacheCapacity m)) (counted restarted w (StreamRestarts m))
      (dropped w (DedupCacheEvictions m)).
Proof. by destruct w, m. Qed.

Lemma counted_comm by_ w1 w2 g : counted by_ w2 (counted by_ w1 g) = counted by_ w1 (counted by_ w2 g).
Proof. unfold counted. destruct (by_ w1) as [[]|], (by_ w2) as [[]|]; try done. apply counter_add_comm. Qed.

Lemma dropped_comm w1 w2 g :
  independent w1 w2 -> dropped w2 (dropped w1 g) = dropped w1 (dropped w2 g).
Proof. by destruct w1, w2. Qed.

Lemma sized_comm w1 w2 g : independent w1 w2 -> sized w2 (sized w1 g) = sized w1 (sized w2 g).
Proof. by destruct w1, w2. Qed.

Lemma gauged_comm w1 w2 m :
  independent w1 w2 -> gauged w2 (apply_write m w1) = gauged w1 (apply_write m w2).
Proof.
  intros Hi. destruct w1, w2; try (by destruct m). unfold gauged. simpl apply_write.
  by rewrite SetStreamState_comm.
Qed.

Lemma write_comm w1 w2 m :
  independent w1 w2 -> apply_write (apply_write m w1) w2 = apply_write (apply_write m w2) w1.
Proof.
  intros Hi. rewrite (apply_write_parts (apply_write m w1)), (apply_write_parts (apply_write m w2)).
  rewrite gauged_comm by done. rewrite (apply_write_parts m w1), (apply_write_parts m w2).
  cbn [EventsIngested EventsDropped BytesIngested BytesPublished EventsPublished StreamState
    EventProcessingDuration DedupCacheSize DedupCacheCapacity StreamRestarts DedupCacheEvictions].
  rewrite !(counted_comm _ w1 w2), !(dropped_comm w1 w2), (sized_comm w1 w2) by done. done.
Qed.

Lemma writes_comm ws1 ws2 m :
  (forall w1 w2, w1 ∈ ws1 -> w2 ∈ ws2 -> independent w1 w2) ->
  writes ws2 (writes ws1 m) = writes ws1 (writes ws2 m).
Proof.
  assert (Hone : forall w ws m, (forall w2, w2 ∈ ws -> independent w w2) ->
            writes ws (apply_write m w) = apply_write (writes ws m) w).
  { intros w ws. induction ws as [|w2 ws IH]; intros m0 H; [done|]. simpl.
    rewrite (write_comm w w2) by (apply H; left). apply IH. intros; apply H; by right. }
  revert m. induction ws1 as [|w ws1 IH]; intros m H; [done|]. simpl.
  rewrite IH by (intros; apply H; [by right|done]). f_equal. apply Hone. intros; apply H; [left|done].
Qed.

Lemma flush_swaps w1 w2 : of_flush w1 -> independent w1 w2 /\ independent w2 w1.
Proof. by destruct w1, w2. Qed.

Lemma pipeline_supervisor w1 w2 id : of_pipeline w1 -> of_supervisor id w2 -> independent w1 w2 /\ independent w2 w1.
Proof. by destruct w1, w2. Qed.

Lemma supervisors_swap w1 w2 i j : of_supervisor i w1 -> of_supervisor j w2 -> i <> j -> independent w1 w2.
Proof. destruct w1, w2; simpl; try done; by intros -> ->. Qed.

(** ** A supervisor's step *)

Definition on_registry (m : metrics) (s : sup_state) : sup_state := on_metrics (fun _ => m) s.

Lemma attempt_failed_writes id p a err now s :
  exists ws, Forall (of_supervisor id) ws /\ forall m,
    attempt_failed id p a err now (on_registry m s)
    = on_registry (writes ws m) (attempt_failed id p a err now s).
Proof.
  unfold attempt_failed. destruct (next p a) as [n []].
  - exists [WRestart id; WState id (metricState StatusReconnecting)]. by repeat constructor.
  - exists [WState id (metricState StatusError)]. by repeat constructor.
Qed.

Lemma sup_exec_writes id p a s s' :
  sup_exec id p a s = Some s' ->
  exists ws, Forall (of_supervisor id) ws /\ forall m,
    sup_exec id p a (on_registry m s) = Some (on_registry (writes ws m) s').
Proof.
  intros H. destruct a as [|ok|err now|now|start event|err n1 n2|]; cbn [sup_exec] in *.
  - exists [WState id (metricState StatusConnecting)]. simpl. destruct (s_pc s); simplify_eq.
    by repeat constructor.
  - simpl. destruct ok, (s_pc s); try done.
    + exists []. destruct (_ && _); simplify_eq. by repeat constructor.
    + exists [WState id (metricState StatusStopped)]. destruct (s_cancelled s); simplify_eq.
      by repeat constructor.
  - simpl. destruct err as [e|], (s_pc s) as [| |att| |]; try done; cbn zeta in H; simpl in H.
    + destruct (s_cancelled s); simplify_eq.
      * exists [WState id (metricState StatusStopped)]. by repeat constructor.
      * destruct (attempt_failed_writes id p att (Some e) now (call (KOpen false) s)) as (ws & Hw & E).
        exists ws. split; [done|]. intros m. by rewrite <- E.
    + exists [WState id (metricState StatusConnecting)]. simplify_eq. by repeat constructor.
  - exists [WState id (metricState StatusRunning)]. simpl. destruct (s_pc s); simplify_eq.
    by repeat constructor.
  - exists [WIngest id (eventPayloadSize event)]. simpl. destruct (s_pc s); simplify_eq.
    by repeat constructor.
  - simpl. destruct (s_pc s) as [| | |att ra|]; try done; cbn zeta in H; simpl in H.
    destruct (s_cancelled s); simplify_eq.
    { exists [WState id (metricState StatusStopped)]. by repeat constructor. }
    destruct (earned_reset _ _ _); simplify_eq.
    + destruct (attempt_failed_writes id p 0 err n2 (earn (call KClose s))) as (ws & Hw & E).
      exists ws. split; [done|]. intros m. by rewrite <- E.
    + destruct (attempt_failed_writes id p att err n2 (call KClose s)) as (ws & Hw & E).
      exists ws. split; [done|]. intros m. by rewrite <- E.
  - exists []. simplify_eq. by repeat constructor.
Qed.

(** ** Flushing and building *)

Definition flush_writes (id : string) (flushed : list StreamEvent) : list write :=
  (fun e => WPublish id (eventPayloadSize e)) <$> flushed.

Lemma flush_writes_of id flushed : Forall of_flush (flush_writes id flushed).
Proof. unfold flush_writes. rewrite Forall_fmap. by apply Forall_true. Qed.

Definition add_writes (ws : list write) (st : mstate) : mstate := set_mmetrics (writes ws) st.

Lemma Retire_writes id gen flushed st :
  Retire id gen flushed st
  = set_gens (m_built st) ({[ gen ]} ∪ m_retired st) (add_writes (flush_writes id flushed) st).
Proof.
  unfold Retire, add_writes. f_equal. unfold set_mmetrics. f_equal.
  generalize (m_metrics st). induction flushed as [|e fl IH]; intros m; [done|]. apply IH.
Qed.

Lemma NewDedup_writes id c :
  exists r ws f, Forall of_pipeline ws /\ forall w,
    NewDedup id c w = (r, f (set_metrics (writes ws) w)) /\
    forall w, w_metrics (f w) = w_metrics w.
Proof.
  unfold NewDedup. destruct c as [d|]; [|by exists (Ok None), [], (fun w => w); split; [|by intros []]].
  destruct (negb (dc_Enabled d)); [by exists (Ok None), [], (fun w => w); split; [|by intros []]|].
  destruct (resolveDuration _ _ _) as [ttl|e]; [|by exists (Err e), [], (fun w => w); split; [|by intros []]].
  destruct (resolveCount _ _ _ _) as [n|e]; [|by exists (Err e), [], (fun w => w); split; [|by intros []]].
  eexists _, [WCapacity id n], (set_dedup empty_dedup). split; [by repeat constructor|]. by intros [].
Qed.

Lemma buildFromConfig_writes id cfg :
  exists e ws, Forall of_pipeline ws /\ forall w,
    let '(r, w') := buildFromConfig id cfg w in
    match r with Ok _ => e = None | Err x => e = Some x end /\ w_metrics w' = writes ws (w_metrics w).
Proof.
  destruct cfg as [c|]; [|by exists None, []]. unfold buildFromConfig.
  destruct (NewDedup_writes id (pc_Dedup c)) as (r & ws & f & Hws & Hd).
  destruct r as [dedup|e].
  2: { exists (Some e), ws. split; [done|]. intros w. destruct (Hd w) as [-> Hf]. split; [done|].
       by rewrite Hf. }
  set (ws1 := ws ++ match dedup with Some _ => [] | None => [WDropDedup id] end).
  assert (Forall of_pipeline ws1) as H1.
  { subst ws1. destruct dedup; apply Forall_app; split; try done; by repeat constructor. }
  assert (Hm : forall w t, NewThreshold id (pc_Threshold c) (match dedup with Some _ => f (set_metrics (writes ws) w)
            | None => set_metrics (DeleteDedupSeries id) (f (set_metrics (writes ws) w)) end) = t ->
            w_metrics t.2 = writes ws1 (w_metrics w)).
  { intros w t <-. rewrite NewThreshold_metrics. subst ws1. rewrite writes_app. destruct (Hd w) as [_ Hf].
    destruct dedup; simpl; by rewrite Hf. }
  destruct (NewBatch (pc_Batch c)) as [b|e] eqn:Hb.
  - exists None, ws1. split; [done|]. intros w. rewrite (proj1 (Hd w)).
    destruct (NewThreshold _ _ _) as [t w3] eqn:Ht. split; [done|]. exact (Hm w _ Ht).
  - exists (Some e), (ws1 ++ match dedup with Some _ => [WDropDedup id] | None => [] end).
    split. { apply Forall_app. split; [done|]. destruct dedup; by repeat constructor. }
    intros w. rewrite (proj1 (Hd w)). destruct (NewThreshold _ _ _) as [t w3] eqn:Ht. split; [done|].
    specialize (Hm w _ Ht). simpl in Hm. rewrite writes_app, <- Hm. by destruct dedup.
Qed.

Lemma NewGeneration_writes id cfg :
  exists e ws, Forall of_pipeline ws /\ forall st,
    NewGeneration id cfg st
    = match e with
      | Some x => (Err x, add_writes ws st)
      | None => (Ok (m_built st), set_gens (S (m_built st)) (m_retired st) (add_writes ws st))
      end.
Proof.
  destruct (buildFromConfig_writes id cfg) as (e & ws & Hws & H). exists e, ws. split; [done|].
  intros st. unfold NewGeneration. specialize (H (set_metrics (fun _ => m_metrics st) new_world)).
  destruct (buildFromConfig _ _ _) as [r w]. destruct H as [Hr Hm]. simpl in Hm.
  unfold add_writes, set_mmetrics. rewrite Hm. by destruct r; subst e.
Qed.
