(* ===== verification/Handlers.v ===== *)
(** * internal/server: the HTTP API

    Authentication, routing and the handlers of auth.go, server.go, handlers.go and
    health.go, over the manager's state.  A response is its status and the content
    of its JSON body; error values stand for their messages. *)

From Stdlib Require Import ZArith Lia Ascii.
From stdpp Require Import base tactics option strings gmap list.
From S2P Require Import Prelude GoLib GoFloat GoUrl GoMux GoJson GoJsonStruct Domain.
From S2P Require Import Telemetry ConfigJson Broker ConfigError PipelineConfig Validate Redact.
From S2P Require Import Supervisor Source Manager.

#[local] Open Scope Z_scope.

(** ** Requests and responses *)

(** A request in origin form: [rq_Target] is the escaped path of its URL, and
    [rq_Authorization] what [Header.Get] answers. *)
Record request : Type := mkRequest {
  rq_Method : string;
  rq_Target : string;
  rq_Authorization : string;
  rq_Body : string
}.

(** [r.URL.Path]; the server refuses a target that does not decode. *)
Definition rq_Path (r : request) : string := default EmptyString (unescape (rq_Target r) encodePath).

Inductive api_error : Type :=
| AIdRequired
| ADecode
| AConfig (e : cfg_error)
| AManager (e : mgr_error).

Inductive resp_body : Type :=
| BText                                   (* the standard library's own pages *)
| BMetrics (m : metrics)                  (* promhttp's exposition of the registry *)
| BFields (fields : list (string * string))
| BError (e : api_error)
| BStreams (streams : list StreamInfo)
| BDetail (detail : StreamDetail)
| BReady (status : string) (reason : option string) (broker state jetstream : string).

Record response : Type := mkResp { rs_Status : Z; rs_Body : resp_body }.

Definition StatusOK : Z := 200.
Definition StatusCreated : Z := 201.
Definition StatusBadRequest : Z := 400.
Definition StatusUnauthorized : Z := 401.
Definition StatusForbidden : Z := 403.
Definition StatusNotFound : Z := 404.
Definition StatusMethodNotAllowed : Z := 405.
Definition StatusConflict : Z := 409.
Definition StatusServiceUnavailable : Z := 503.

(** ** auth.go *)

Definition scheme : string := "Bearer ".

(** [provided] when the header is one of ours: the scheme in any case, then the
    token. *)
Definition bearer_token (auth : string) : option string :=
  let prefix := String.substring 0 7 auth in
  if (String.length auth <? 7)%nat || negb (str_eqb (str_map lower_byte prefix) (str_map lower_byte scheme))
  then None else Some (String.substring 7 (String.length auth - 7) auth).

Definition publicPaths : list string := ["/livez"; "/readyz"; "/health"; "/metrics"]%string.

Definition forbidden : response :=
  mkResp StatusForbidden
    (BFields [("error", "forbidden");
              ("message", "Admin endpoints are disabled (no NEPHTYS_ADMIN_TOKEN configured)")])%string.

Definition unauthorized : response :=
  mkResp StatusUnauthorized
    (BFields [("error", "unauthorized");
              ("message", "Missing or invalid Authorization header. Expected: Bearer <token>")])%string.

(** [None] lets the request through. *)
Definition bearerAuth (token : string) (r : request) : option response :=
  if bool_decide (rq_Path r ∈ publicPaths) then None
  else if str_is_empty token then Some forbidden
  else match bearer_token (rq_Authorization r) with
       | None => Some unauthorized
       | Some provided => if str_eqb provided token then None else Some unauthorized
       end.

(** ** Routes *)

Inductive handler : Type :=
| HLivez | HReadyz | HHealth | HMetrics
| HListStreams | HGetStream (id : string) | HCreateStream | HDeleteStream (id : string)
| HUpdatePipeline (id : string).

(** [registerRoutes]; a handler reads its wildcard with [PathValue]. *)
Definition registerRoutes : list (string * ((string -> string) -> handler)) :=
  [("GET /livez", fun _ => HLivez);
   ("GET /readyz", fun _ => HReadyz);
   ("GET /health", fun _ => HHealth);
   ("GET /v1/streams", fun _ => HListStreams);
   ("GET /v1/streams/{id}", fun value => HGetStream (value "id"));
   ("POST /v1/streams", fun _ => HCreateStream);
   ("DELETE /v1/streams/{id}", fun value => HDeleteStream (value "id"));
   ("PUT /v1/streams/{id}/pipeline", fun value => HUpdatePipeline (value "id"));
   ("GET /metrics", fun _ => HMetrics)]%string.

(** The patterns are valid and do not conflict, so registering them does not panic. *)
Definition api_mux : ServeMux ((string -> string) -> handler) := default [] (handle_all no_wide registerRoutes).

Lemma routes_register : is_some (handle_all no_wide registerRoutes) = true.
Proof. vm_compute. reflexivity. Qed.

Inductive routed : Type :=
| Redirect
| NotFound
| MethodNotAllowed
| Handled (h : handler).

(** No pattern names a host, so the request's does not matter ([findHandler_host]). *)
Definition route (r : request) : routed :=
  match findHandler EmptyString (rq_Method r) (rq_Target r) api_mux with
  | MRedirect => Redirect
  | MNotFound => NotFound
  | MMethodNotAllowed => MethodNotAllowed
  | MServe p h matches => Handled (h (PathValue p matches))
  end.

Example routes_ok :
  (fun mp => route (mkRequest mp.1 mp.2 "" "")) <$>
    [("GET", "/livez"); ("HEAD", "/v1/streams"); ("DELETE", "/v1/streams/a%2Fb"); ("PUT", "/v1/streams/x/pipeline");
     ("POST", "/livez"); ("GET", "/v1/streams/"); ("GET", "//livez"); ("GET", "/v1/../livez"); ("GET", "/x");
     ("GET", "/%6civez"); ("GET", "/v1/streams/%2F"); ("CONNECT", "/v1/streams//pipeline")]%string
  = [Handled HLivez; Handled HListStreams; Handled (HDeleteStream "a/b"); Handled (HUpdatePipeline "x");
     MethodNotAllowed; NotFound; Redirect; Redirect; NotFound; Handled HLivez; NotFound; MethodNotAllowed].
Proof. vm_compute. reflexivity. Qed.

(** ** health.go *)

Definition checkStatus (ok : bool) : string := if ok then "ok" else "unavailable".

Definition unreadyReason (brokerOK jetStreamOK : bool) : string :=
  if negb brokerOK then "broker connection is not established"
  else if negb jetStreamOK then "jetstream is not available on the broker connection"
  else "".

Definition handleLivez : response := mkResp StatusOK (BFields [("status", "alive")])%string.

(** JetStream is asked only when the connection is up. *)
Definition handleReadyz (conn : conn_status) (account : Z -> option string) : response :=
  let '(brokerOK, connState) := ConnReady conn in
  let jetStreamOK := brokerOK && JetStreamAvailable account in
  let jetStreamStatus := if brokerOK then checkStatus jetStreamOK else "unknown"%string in
  let reason := unreadyReason brokerOK jetStreamOK in
  if negb (str_is_empty reason)
  then mkResp StatusServiceUnavailable
         (BReady "unready" (Some reason) (checkStatus brokerOK) connState jetStreamStatus)
  else mkResp StatusOK (BReady "ready" None (checkStatus brokerOK) connState jetStreamStatus).

Definition boolToStatus (b : bool) : string := if b then "connected" else "disconnected".

Definition handleHealth (connected : bool) : response :=
  mkResp StatusOK (BFields [("status", if connected then "ok" else "degraded");
                            ("broker", boolToStatus connected)])%string.

(** ** handlers.go *)

(** What the rest of the world answers while a request is served: the broker, the
    listeners and the store, what the streams it stops do, and what happens between two
    acquisitions of the manager's lock. *)
Record env : Type := mkEnv {
  e_connected : bool;
  e_conn : conn_status;
  e_account : Z -> option string;
  e_listen : string -> option string;
  e_put : option string;
  e_deleted : option string;
  e_answers : list sup_action;
  e_flushed : list StreamEvent;
  e_rank : string -> Z;             (* the order in which the map of streams is ranged over *)
  e_later : mstate -> mstate        (* what the other goroutines make of the state meanwhile *)
}.

Definition maxBody : Z := 1048576.

(** [limitBody]: a document that does not end within the limit does not decode. *)
Definition limitBody {A} (decode : string -> option A) (body : string) : option A :=
  if maxBody <? str_length body then None else decode body.

Definition registerStatus (err : mgr_error) : Z :=
  match err with
  | ErrStreamExists _ | ErrPortConflict _ _ | ErrSourceOpen _ => StatusConflict
  | _ => StatusServiceUnavailable
  end.

Section Handlers.
(** [err.Error()] of a source that does not open. *)
Variable open_text : open_error -> string.

Definition handleListStreams (e : env) (st : mstate) : response := mkResp StatusOK (BStreams (List_ (e_rank e) st)).

Definition handleGetStream (id : string) (st : mstate) : response :=
  if str_is_empty id then mkResp StatusBadRequest (BError AIdRequired)
  else match Describe st id with
       | None => mkResp StatusNotFound (BError (AManager (ErrStreamNotFound id)))
       | Some detail => mkResp StatusOK (BDetail detail)
       end.

(** The response reports a status read after [Register] has released the lock: by then
    the stream may have moved on, or be gone. *)
Definition handleCreateStream (e : env) (body : string) (st : mstate) : response * mstate :=
  match limitBody DecodeStreamConfig body with
  | None => (mkResp StatusBadRequest (BError ADecode), st)
  | Some cfg =>
      match validateStreamConfig cfg with
      | Err why => (mkResp StatusBadRequest (BError (AConfig why)), st)
      | Ok _ =>
          let '(source, cfg) := sourceFromConfig cfg in
          match source with
          | Err why => (mkResp StatusBadRequest (BError (AConfig why)), st)
          | Ok source =>
              match Register source cfg (open_text <$> Open (e_listen e) source) (e_put e) st with
              | (Err why, st) => (mkResp (registerStatus why) (BError (AManager why)), st)
              | (Ok _, st) =>
                  (mkResp StatusCreated
                     (BFields [("id", sc_ID cfg); ("status", "started");
                               ("state", status_name (default StatusConnecting (StatusOf (e_later e st) (sc_ID cfg))))])%string,
                   st)
              end
          end
      end
  end.

(** [None] while the stream's supervisor has not returned. *)
Definition handleDeleteStream (e : env) (id : string) (st : mstate) : option (response * mstate) :=
  if str_is_empty id then Some (mkResp StatusBadRequest (BError AIdRequired), st)
  else
    '(r, st) ← Remove id (e_deleted e) (e_answers e) (e_flushed e) st;
    Some (match r with
          | Ok _ => mkResp StatusOK (BFields [("id", id); ("status", "stopped")])%string
          | Err (ErrStreamNotFound id) => mkResp StatusNotFound (BError (AManager (ErrStreamNotFound id)))
          | Err why => mkResp StatusServiceUnavailable (BError (AManager why))
          end, st).

(** A call of [UpdatePipeline] whose steps nothing interrupts; [Manager] has the
    interleavings. *)
Fixpoint update_run (fuel : nat) (i : nat) (put : option string) (flushed : list StreamEvent) (st : mstate)
  : option (result mgr_error unit * mstate) :=
  match updates st !! i with
  | Some (UEnd res) => Some (res, st)
  | _ =>
      match fuel with
      | O => None
      | S f => st' ← update_exec i put flushed st; update_run f i put flushed st'
      end
  end.

Definition UpdatePipeline (id : string) (cfg : option PipelineConfig) (put : option string)
    (flushed : list StreamEvent) (st : mstate) : option (result mgr_error unit * mstate) :=
  update_run 5 (length (updates st)) put flushed (set_updates (updates st ++ [UCheck id cfg]) st).

Definition handleUpdatePipeline (e : env) (id body : string) (st : mstate) : option (response * mstate) :=
  if str_is_empty id then Some (mkResp StatusBadRequest (BError AIdRequired), st)
  else match limitBody DecodePipelineConfig body with
       | None => Some (mkResp StatusBadRequest (BError ADecode), st)
       | Some pipelineCfg =>
           match ValidateConfig (Some pipelineCfg) with
           | Err why => Some (mkResp StatusBadRequest (BError (AConfig why)), st)
           | Ok _ =>
               '(r, st) ← UpdatePipeline id (Some pipelineCfg) (e_put e) (e_flushed e) st;
               Some (match r with
                     | Ok _ => mkResp StatusOK (BFields [("id", id); ("status", "pipeline updated")])%string
                     | Err (ErrStreamNotFound id) => mkResp StatusNotFound (BError (AManager (ErrStreamNotFound id)))
                     | Err why => mkResp StatusServiceUnavailable (BError (AManager why))
                     end, st)
           end
       end.

(** ** server.go *)

Definition dispatch (e : env) (h : handler) (body : string) (st : mstate) : option (response * mstate) :=
  match h with
  | HLivez => Some (handleLivez, st)
  | HReadyz => Some (handleReadyz (e_conn e) (e_account e), st)
  | HHealth => Some (handleHealth (e_connected e), st)
  | HMetrics => Some (mkResp StatusOK (BMetrics (m_metrics st)), st)
  | HListStreams => Some (handleListStreams e st, st)
  | HGetStream id => Some (handleGetStream id st, st)
  | HCreateStream => Some (handleCreateStream e body st)
  | HDeleteStream id => handleDeleteStream e id st
  | HUpdatePipeline id => handleUpdatePipeline e id body st
  end.

(** The handler [New] installs. *)
Definition serve (token : string) (e : env) (r : request) (st : mstate) : option (response * mstate) :=
  match bearerAuth token r with
  | Some resp => Some (resp, st)
  | None =>
      match route r with
      | Redirect => Some (mkResp 301 BText, st)
      | NotFound => Some (mkResp StatusNotFound BText, st)
      | MethodNotAllowed => Some (mkResp StatusMethodNotAllowed BText, st)
      | Handled h => dispatch e h (rq_Body r) st
      end
  end.
End Handlers.
