(* ===== verification/ManagerInv.v ===== *)
(** * The stream manager: what stays true

    Three invariants of the manager of [Manager], each kept by every transition:
    its maps agree with each other and with the port claims; every pipeline
    generation it built is installed, in the hands of an update, or retired; and
    the store describes the configuration each stream is running. *)

From Stdlib Require Import ZArith Lia.
From stdpp Require Import base tactics list strings gmap sorting.
From S2P Require Import Prelude GoLib GoFloat GoTime GoJsonValue Domain Telemetry ConfigError.
From S2P Require Import PipelineConfig Pipeline Builder Restart Validate Redact Supervisor Source.
From S2P Require Import Store Manager.

#[local] Open Scope Z_scope.

(** ** The maps *)

Record maps_inv (st : mstate) : Prop := {
  mi_cfg : forall id, is_Some (configs st !! id) <-> is_Some (runtimes st !! id);
  mi_sup : forall id, runtimes st !! id = Some RtSupervised <-> is_Some (sups st !! id);
  mi_gen : forall id, is_Some (generations st !! id) <-> is_Some (sups st !! id);
  mi_can : forall id, id ∈ cancels st <-> is_Some (sups st !! id);
  mi_don : forall id, id ∈ dones st <-> is_Some (sups st !! id);
  mi_ids : forall id cfg, configs st !! id = Some cfg -> sc_ID cfg = id;
  mi_held : forall p id, portClaims st !! p = Some id ->
    exists cfg, configs st !! id = Some cfg /\ connectorPort cfg = p /\ p <> EmptyString;
  mi_claims : forall id cfg, is_Some (sups st !! id) -> configs st !! id = Some cfg ->
    connectorPort cfg <> EmptyString -> portClaims st !! connectorPort cfg = Some id
}.

(** The maps are what matters; two states that agree on them are alike. *)
Definition same_maps (st st' : mstate) : Prop :=
  generations st' = generations st /\ configs st' = configs st /\ cancels st' = cancels st /\
  dones st' = dones st /\ runtimes st' = runtimes st /\ portClaims st' = portClaims st /\
  sups st' = sups st.

Lemma same_maps_inv st st' : same_maps st st' -> maps_inv st -> maps_inv st'.
Proof.
  intros (E1 & E2 & E3 & E4 & E5 & E6 & E7) [H1 H2 H3 H4 H5 H6 H7 H8].
  split; rewrite ?E1, ?E2, ?E3, ?E4, ?E5, ?E6, ?E7; done.
Qed.

Lemma same_maps_refl st : same_maps st st.
Proof. done. Qed.

Lemma same_maps_trans st1 st2 st3 : same_maps st1 st2 -> same_maps st2 st3 -> same_maps st1 st3.
Proof. unfold same_maps. intros; destruct_and!. split_and!; congruence. Qed.

Lemma NewGeneration_maps id cfg st : same_maps st (NewGeneration id cfg st).2.
Proof.
  unfold NewGeneration. destruct (buildFromConfig _ _ _) as [[b|e] w]; done.
Qed.

Lemma Retire_maps id g fl st : same_maps st (Retire id g fl st).
Proof. done. Qed.

Lemma discard_maps id g st : same_maps st (discardGeneration id g st).
Proof. done. Qed.

Lemma NewStreamManager_maps kv : maps_inv (NewStreamManager kv).
Proof. split; simpl; intros; rewrite ?lookup_empty in *; try set_solver; naive_solver. Qed.

(** Registering [id] under [cfg], with a runtime that is supervised or not. *)
Definition install (id : string) (cfg : StreamSourceConfig) (gen : nat)
    (ps : restartPolicy * sup_state) (st : mstate) : mstate :=
  set_sups (<[id := ps]>)
    (set_maps (<[id := gen]> (generations st)) (<[id := cfg]> (configs st)) ({[ id ]} ∪ cancels st)
       ({[ id ]} ∪ dones st) (<[id := RtSupervised]> (runtimes st))
       (if str_is_empty (connectorPort cfg) then portClaims st
        else <[connectorPort cfg := id]> (portClaims st)) st).

Lemma install_maps id cfg gen ps st :
  maps_inv st -> runtimes st !! id = None -> sc_ID cfg = id ->
  (connectorPort cfg <> EmptyString -> portClaims st !! connectorPort cfg = None) ->
  maps_inv (install id cfg gen ps st).
Proof.
  intros [H1 H2 H3 H4 H5 H6 H7 H8] Hid Hcfg Hport.
  assert (Hcn : configs st !! id = None).
  { rewrite eq_None_not_Some, H1, Hid. by intros [? [=]]. }
  split; unfold install; simpl.
  - intros j. rewrite !lookup_insert_is_Some, H1. done.
  - intros j. rewrite lookup_insert_is_Some. destruct (decide (id = j)) as [->|Hne].
    + rewrite lookup_insert_eq. naive_solver.
    + rewrite lookup_insert_ne by done. rewrite H2. naive_solver.
  - intros j. rewrite !lookup_insert_is_Some, H3. done.
  - intros j. rewrite lookup_insert_is_Some, elem_of_union, elem_of_singleton, H4.
    destruct (decide (id = j)); naive_solver.
  - intros j. rewrite lookup_insert_is_Some, elem_of_union, elem_of_singleton, H5.
    destruct (decide (id = j)); naive_solver.
  - intros j c. rewrite lookup_insert_Some. naive_solver.
  - intros p j Hp.
    assert (Hold : portClaims st !! p = Some j -> exists c,
              <[id := cfg]> (configs st) !! j = Some c /\ connectorPort c = p /\ p <> EmptyString).
    { intros Hp'. destruct (H7 p j Hp') as (c & Hc & Hcp & Hpe). exists c.
      rewrite lookup_insert_ne by congruence. done. }
    destruct (connectorPort cfg) as [|ch s] eqn:Hcp; simpl in Hp; [by apply Hold|].
    apply lookup_insert_Some in Hp as [[<- <-]|[_ Hp]]; [|by apply Hold].
    exists cfg. rewrite lookup_insert_eq. done.
  - intros j c Hj Hc Hne.
    apply lookup_insert_Some in Hc as [[<- <-]|[Hij Hc]].
    + destruct (connectorPort cfg); [done|]. simpl. by rewrite lookup_insert_eq.
    + rewrite lookup_insert_ne in Hj by done. specialize (H8 j c Hj Hc Hne).
      destruct (connectorPort cfg) as [|ch s] eqn:Hcp; simpl; [done|].
      rewrite lookup_insert_ne; [done|]. intros Heq. rewrite <- Heq, Hport in H8 by done. done.
Qed.

Lemma admitFailed_maps txt cfg cause now st :
  maps_inv st -> runtimes st !! sc_ID cfg = None ->
  maps_inv (admitFailedLocked txt cfg cause now st).
Proof.
  intros [H1 H2 H3 H4 H5 H6 H7 H8] Hid. set (id := sc_ID cfg) in *.
  assert (Hcn : configs st !! id = None).
  { rewrite eq_None_not_Some, H1, Hid. by intros [? [=]]. }
  assert (Hsn : sups st !! id = None).
  { rewrite eq_None_not_Some, <- H2, Hid. done. }
  split; unfold admitFailedLocked; fold id; simpl; try done.
  - intros j. rewrite !lookup_insert_is_Some, H1. done.
  - intros j. destruct (decide (id = j)) as [<-|Hne].
    + rewrite lookup_insert_eq, Hsn. split; [done|by intros [? [=]]].
    + rewrite lookup_insert_ne by done. apply H2.
  - intros j c. rewrite lookup_insert_Some. naive_solver.
  - intros p j Hp.
    assert (Hold : portClaims st !! p = Some j -> exists c,
              <[id := cfg]> (configs st) !! j = Some c /\ connectorPort c = p /\ p <> EmptyString).
    { intros Hp'. destruct (H7 p j Hp') as (c & Hc & Hcp & Hpe). exists c.
      rewrite lookup_insert_ne by congruence. done. }
    destruct (connectorPort cfg) as [|ch s] eqn:Hcp; simpl in Hp; [by apply Hold|].
    destruct (portClaims st !! String ch s) eqn:Hcl; [by apply Hold|].
    apply lookup_insert_Some in Hp as [[<- <-]|[_ Hp]]; [|by apply Hold].
    exists cfg. by rewrite lookup_insert_eq.
  - intros j c Hj Hc Hne.
    apply lookup_insert_Some in Hc as [[<- <-]|[Hij Hc]]; [rewrite Hsn in Hj; by destruct Hj|].
    specialize (H8 j c Hj Hc Hne).
    destruct (connectorPort cfg) as [|ch s] eqn:Hcp; simpl; [done|].
    destruct (portClaims st !! String ch s) eqn:Hcl; [done|].
    rewrite lookup_insert_ne; [done|]. intros Heq. rewrite <- Heq in H8. congruence.
Qed.

(** Removing [id] from every map. *)
Definition uninstall (id : string) (st : mstate) : mstate :=
  set_sups (delete id)
    (set_maps (delete id (generations st)) (delete id (configs st)) (cancels st ∖ {[ id ]})
       (dones st ∖ {[ id ]}) (delete id (runtimes st)) (releaseClaimsLocked id (portClaims st)) st).

Lemma uninstall_maps id st : maps_inv st -> maps_inv (uninstall id st).
Proof.
  intros [H1 H2 H3 H4 H5 H6 H7 H8].
  split; unfold uninstall, releaseClaimsLocked; simpl.
  - intros j. rewrite !lookup_delete_is_Some, H1. done.
  - intros j. rewrite lookup_delete_is_Some, lookup_delete_Some, H2. done.
  - intros j. rewrite !lookup_delete_is_Some, H3. done.
  - intros j. rewrite lookup_delete_is_Some, elem_of_difference, elem_of_singleton, H4. naive_solver.
  - intros j. rewrite lookup_delete_is_Some, elem_of_difference, elem_of_singleton, H5. naive_solver.
  - intros j c. rewrite lookup_delete_Some. naive_solver.
  - intros p j. rewrite map_lookup_filter_Some. simpl. intros [Hp Hj].
    destruct (H7 p j Hp) as (c & Hc & ?). exists c. by rewrite lookup_delete_ne.
  - intros j c Hj Hc Hne. rewrite lookup_delete_is_Some in Hj. rewrite lookup_delete_Some in Hc.
    destruct Hj as [Hij Hj], Hc as [_ Hc]. apply map_lookup_filter_Some. split; [by apply H8|done].
Qed.

(** Replacing a configuration by one that claims the same port, and the
    generation of a stream that has one. *)
Lemma swap_maps id cfg gen st :
  maps_inv st -> is_Some (generations st !! id) -> sc_ID cfg = id ->
  (forall old, configs st !! id = Some old -> connectorPort cfg = connectorPort old) ->
  maps_inv (set_maps (<[id := gen]> (generations st)) (<[id := cfg]> (configs st)) (cancels st)
              (dones st) (runtimes st) (portClaims st) st).
Proof.
  intros [H1 H2 H3 H4 H5 H6 H7 H8] Hid Hcfg Hport.
  assert (is_Some (sups st !! id)) as Hs by (by apply H3).
  assert (is_Some (configs st !! id)) as [old Hold] by (rewrite H1, (proj2 (H2 id) Hs); eauto).
  split; simpl; try done.
  - intros j. rewrite lookup_insert_is_Some, <- H1. destruct (decide (id = j)) as [<-|]; naive_solver.
  - intros j. rewrite lookup_insert_is_Some, <- H3. destruct (decide (id = j)) as [<-|]; naive_solver.
  - intros j c. rewrite lookup_insert_Some. naive_solver.
  - intros p j Hp. destruct (H7 p j Hp) as (c & Hc & Hcp & Hpe).
    destruct (decide (id = j)) as [<-|Hne].
    + exists cfg. rewrite lookup_insert_eq. split_and!; [done| |done].
      rewrite (Hport old Hold). congruence.
    + exists c. by rewrite lookup_insert_ne.
  - intros j c Hj Hc Hne. apply lookup_insert_Some in Hc as [[<- <-]|[Hij Hc]]; [|by apply H8].
    rewrite (Hport old Hold) in *. by apply H8.
Qed.

Lemma sup_maps id p s' s m st :
  maps_inv st -> sups st !! id = Some s -> maps_inv (set_mmetrics m (set_sups (<[id := (p, s')]>) st)).
Proof.
  intros [H1 H2 H3 H4 H5 H6 H7 H8] Hid.
  assert (Hs : forall j, is_Some (<[id := (p, s')]> (sups st) !! j) <-> is_Some (sups st !! j)).
  { intros j. rewrite lookup_insert_is_Some. destruct (decide (id = j)) as [<-|]; naive_solver. }
  split; simpl; intros; rewrite ?Hs; try naive_solver.
Qed.

(** ** Transitions *)

(** What a transition may assume of its inputs: the store lists what it holds,
    once per stream, and restore runs once, before anything is registered. *)
Definition action_ok (a : m_action) (st : mstate) : Prop :=
  match a with
  | MRestore (Ok cfgs) _ _ =>
      runtimes st = ∅ /\ NoDup (sc_ID <$> cfgs) /\
      forall kv, acked st = Some kv -> forall cfg, cfg ∈ cfgs -> kv !! sc_ID cfg = Some cfg
  | _ => True
  end.

Section Preservation.
Variable error_text : mgr_error -> string.

Definition mgr_step (st st' : mstate) : Prop :=
  exists a, action_ok a st /\ m_exec error_text a st = Some st'.

(** [admitLocked], by its outcomes: a refusal changes no map; an admission is an
    [install] on a state with the same maps. *)
Lemma admitLocked_cases source cfg persist opened put st :
  ID source = sc_ID cfg ->
  let '(r, st') := admitLocked source cfg persist opened put st in
  match r with
  | Err _ => same_maps st st'
  | Ok _ =>
      runtimes st !! sc_ID cfg = None /\
      (connectorPort cfg <> EmptyString -> portClaims st !! connectorPort cfg = None) /\
      exists gen ps st1 m, same_maps st st1 /\ st' = set_mmetrics m (install (sc_ID cfg) cfg gen ps st1)
  end.
Proof.
  intros Hid. unfold admitLocked. rewrite Hid. case_bool_decide as Hr; [done|].
  apply eq_None_not_Some in Hr.
  destruct (if str_is_empty (connectorPort cfg) then None else _) as [h|] eqn:Hp; [done|].
  pose proof (NewGeneration_maps (sc_ID cfg) (sc_Pipeline cfg) st) as Hm.
  destruct (NewGeneration _ _ st) as [[gen|e] st1]; simpl in Hm; [|done].
  destruct opened as [e|]; [done|].
  assert (Hok : forall st2 s, same_maps st st2 ->
    runtimes st !! sc_ID cfg = None /\
    (connectorPort cfg <> EmptyString -> portClaims st !! connectorPort cfg = None) /\
    exists gen' ps st3 m, same_maps st st3 /\
    set_mmetrics (fun _ => s_metrics s)
      (set_sups (<[sc_ID cfg := (restartPolicyFor cfg, park s)]>)
         (set_maps (<[sc_ID cfg := gen]> (generations st2)) (<[sc_ID cfg := cfg]> (configs st2))
            ({[ sc_ID cfg ]} ∪ cancels st2) ({[ sc_ID cfg ]} ∪ dones st2)
            (<[sc_ID cfg := RtSupervised]> (runtimes st2))
            (if str_is_empty (connectorPort cfg) then portClaims st2
             else <[connectorPort cfg := sc_ID cfg]> (portClaims st2)) st2))
    = set_mmetrics m (install (sc_ID cfg) cfg gen' ps st3)).
  { intros st2 s H2. split_and!; [done| |].
    - intros Hne. by destruct (connectorPort cfg).
    - by exists gen, (restartPolicyFor cfg, park s), st2, (fun _ => s_metrics s). }
  destruct (acked _) as [kv|], persist, put as [e|]; cbv beta iota zeta; first [apply Hok; done|done].
Qed.

Lemma set_mmetrics_maps m st : same_maps st (set_mmetrics m st).
Proof. done. Qed.

(** Registering a source under the configuration it was built from. *)
Lemma admitLocked_maps source cfg persist opened put st :
  ID source = sc_ID cfg -> maps_inv st ->
  maps_inv (admitLocked source cfg persist opened put st).2.
Proof.
  intros Hid I. pose proof (admitLocked_cases source cfg persist opened put st Hid) as H.
  destruct (admitLocked _ _ _ _ _ _) as [[[]|e] st']; simpl; [|by eapply same_maps_inv].
  destruct H as (Hr & Hp & gen & ps & st1 & m & Hs & ->).
  eapply same_maps_inv; [apply set_mmetrics_maps|].
  pose proof Hs as (_ & _ & _ & _ & Er & Ep & _).
  apply install_maps; [by eapply same_maps_inv|by rewrite Er|done|by rewrite Ep].
Qed.

(** One restored stream: registered afterwards, and nothing else is. *)
Lemma restore_one_maps opened now cfg st :
  maps_inv st -> runtimes st !! sc_ID cfg = None ->
  maps_inv (restore_one error_text opened now cfg st) /\
  (forall id, id <> sc_ID cfg ->
     runtimes (restore_one error_text opened now cfg st) !! id = runtimes st !! id).
Proof.
  intros I Hid. unfold restore_one. destruct (str_is_empty _); [done|].
  destruct (validateStreamConfig cfg) as [u|e].
  2: { split; [by apply admitFailed_maps|]. intros id Hne. simpl. by rewrite lookup_insert_ne. }
  destruct (sourceFromConfig cfg) as [source cfg'] eqn:Hs.
  assert (cfg' = with_defaults cfg) as -> by (by unfold sourceFromConfig in Hs; simplify_eq).
  destruct source as [source|e].
  2: { split; [by apply admitFailed_maps|]. intros id Hne. simpl. by rewrite lookup_insert_ne. }
  assert (ID source = sc_ID (with_defaults cfg)) as HID.
  { apply (sourceFromConfig_id cfg source). by rewrite Hs. }
  pose proof (admitLocked_cases source (with_defaults cfg) false (opened (sc_ID cfg)) None st HID) as H.
  pose proof (admitLocked_maps source (with_defaults cfg) false (opened (sc_ID cfg)) None st HID I) as I'.
  change (sc_ID (with_defaults cfg)) with (sc_ID cfg) in *.
  destruct (admitLocked _ _ _ _ _ _) as [[[]|e] st']; simpl in I'.
  - split; [done|]. destruct H as (_ & _ & gen & ps & st1 & m & Hsm & ->). intros id Hne. simpl.
    rewrite lookup_insert_ne by done. by destruct Hsm as (_ & _ & _ & _ & -> & _).
  - pose proof H as (_ & _ & _ & _ & Er & _).
    split; [apply admitFailed_maps; [done|by rewrite Er]|].
    intros id Hne. simpl. rewrite lookup_insert_ne by done. by rewrite Er.
Qed.

Lemma restore_loop_maps opened now cfgs : forall st,
  maps_inv st -> NoDup (sc_ID <$> cfgs) -> (forall cfg, cfg ∈ cfgs -> runtimes st !! sc_ID cfg = None) ->
  maps_inv (foldl (fun st cfg => restore_one error_text opened now cfg st) st cfgs).
Proof.
  induction cfgs as [|cfg cfgs IH]; intros st I Hnd Hno; [done|]. simpl.
  rewrite fmap_cons in Hnd. apply NoDup_cons in Hnd as [Hn Hnd].
  destruct (restore_one_maps opened now cfg st I (Hno cfg ltac:(by left))) as [I' Hr].
  apply IH; [done|done|]. intros c Hc. rewrite Hr; [apply Hno; by right|].
  intros Heq. destruct Hn. rewrite <- Heq. by apply list_elem_of_fmap_2.
Qed.

(** What a removal that fails leaves: the deletion in doubt, if it was the store that
    refused. *)
Definition refused_removal (id : string) (e : mgr_error) (st : mstate) : mstate :=
  match e with EDeletePersisted _ _ => doubt (ODelete id) st | _ => st end.

Lemma refused_removal_maps id e st : same_maps st (refused_removal id e st).
Proof. by destruct e. Qed.

(** [Remove] and [StopAll] up to the registry and the bookkeeping of
    generations. *)
Lemma Remove_cases id deleted answers flushed st r st' :
  Remove id deleted answers flushed st = Some (r, st') ->
  match r with
  | Err e => st' = refused_removal id e st
  | Ok _ =>
      is_Some (runtimes st !! id) /\ exists gens m,
      let st1 := set_gens (m_built st) gens (set_acked (delete id <$> acked st) st) in
      (generations st !! id = None -> gens = m_retired st) /\
      (forall g, generations st !! id = Some g -> gens = {[ g ]} ∪ m_retired st) /\
      st' = set_mmetrics (fun _ => DeleteStreamSeries id m) (uninstall id st1)
  end.
Proof.
  unfold Remove. case_bool_decide as Hid; simpl; [|intros; by simplify_eq].
  intros H.
  assert (Hgo : forall o : option metrics,
    (m ← o;
     let st1 := set_sups (delete id) (set_mmetrics (fun _ => m) (set_acked (delete id <$> acked st) st)) in
     let st2 := match generations st1 !! id with Some gen => Retire id gen flushed st1 | None => st1 end in
     let st3 := set_maps (delete id (generations st2)) (delete id (configs st2)) (cancels st2 ∖ {[ id ]})
       (dones st2 ∖ {[ id ]}) (delete id (runtimes st2)) (releaseClaimsLocked id (portClaims st2)) st2 in
     Some (Ok tt : result mgr_error unit, set_mmetrics (DeleteStreamSeries id) st3)) = Some (r, st') ->
    exists gens m,
      r = Ok tt /\ (generations st !! id = None -> gens = m_retired st) /\
      (forall g, generations st !! id = Some g -> gens = {[ g ]} ∪ m_retired st) /\
      st' = set_mmetrics (fun _ => DeleteStreamSeries id m)
              (uninstall id (set_gens (m_built st) gens (set_acked (delete id <$> acked st) st)))).
  { intros o Ho. apply bind_Some in Ho as (m & _ & Ho). simpl in Ho.
    destruct (generations st !! id) as [gen|] eqn:Hg.
    - exists ({[ gen ]} ∪ m_retired st), (foldl (fun m e => publishFunc id e m) m flushed).
      injection Ho as <- <-. split; [done|]. split; [done|]. split; [by intros g [= ->]|done].
    - exists (m_retired st), m.
      injection Ho as <- <-. split; [done|]. split; [done|]. split; [by intros g [=]|done]. }
  assert (Hend : (exists gens m, r = Ok tt /\ (generations st !! id = None -> gens = m_retired st) /\
      (forall g, generations st !! id = Some g -> gens = {[ g ]} ∪ m_retired st) /\
      st' = set_mmetrics (fun _ => DeleteStreamSeries id m)
              (uninstall id (set_gens (m_built st) gens (set_acked (delete id <$> acked st) st)))) ->
    match r with
    | Err e => st' = refused_removal id e st
    | Ok _ => is_Some (runtimes st !! id) /\ exists gens m,
        let st1 := set_gens (m_built st) gens (set_acked (delete id <$> acked st) st) in
        (generations st !! id = None -> gens = m_retired st) /\
        (forall g, generations st !! id = Some g -> gens = {[ g ]} ∪ m_retired st) /\
        st' = set_mmetrics (fun _ => DeleteStreamSeries id m) (uninstall id st1)
    end).
  { intros (gens & m & -> & Hg1 & Hg2 & ->). split; [done|]. by exists gens, m. }
  destruct (acked st) as [kv|] eqn:Hst, deleted as [e|].
  - by injection H as <- <-.
  - apply Hend. exact (Hgo _ H).
  - apply Hend. exact (Hgo _ H).
  - apply Hend. exact (Hgo _ H).
Qed.

Lemma with_pipeline_port c p : connectorPort (with_pipeline c p) = connectorPort c.
Proof. done. Qed.

(** One step of an update, by what it does to the maps. *)
Lemma update_maps i put flushed st st' :
  maps_inv st -> update_exec i put flushed st = Some st' -> maps_inv st'.
Proof.
  intros I H. unfold update_exec in H. apply bind_Some in H as (u & Hu & H).
  destruct u as [id cfg|id cfg|id cfg next|id next|id gen res|res]; [| | | | |done].
  - injection H as <-. by eapply same_maps_inv; [|exact I].
  - pose proof (NewGeneration_maps id cfg st) as Hm.
    destruct (NewGeneration id cfg st) as [g st1]. injection H as <-.
    eapply same_maps_inv; [|exact I]. exact Hm.
  - destruct (generations st !! id) as [previous|] eqn:Hg.
    2: { injection H as <-. by eapply same_maps_inv; [|exact I]. }
    assert (Hswap : forall kv u, maps_inv (set_update i u
      (set_maps (<[id := next]> (generations st))
         (<[id := with_pipeline (default zero_config (configs st !! id)) cfg]> (configs st))
         (cancels st) (dones st) (runtimes st) (portClaims st) (set_acked kv st)))).
    { intros kv u.
      assert (is_Some (configs st !! id)) as [old Hold].
      { rewrite (mi_cfg _ I), (proj2 (mi_sup _ I id)); [eauto|]. apply (mi_gen _ I). eauto. }
      rewrite Hold. simpl.
      eapply same_maps_inv; [|apply (swap_maps id (with_pipeline old cfg) next st I)]; eauto; [done| |].
      - apply (mi_ids _ I id old Hold).
      - intros old' Hold'. rewrite Hold in Hold'. injection Hold' as <-. apply with_pipeline_port. }
    destruct (acked st) as [kv|] eqn:Hst, put as [e|]; injection H as <-; try apply Hswap.
    by eapply same_maps_inv; [|exact I].
  - injection H as <-. by eapply same_maps_inv; [|exact I].
  - injection H as <-. by eapply same_maps_inv; [|exact I].
Qed.

Lemma StopAll_cases answers flushed st st' :
  StopAll answers flushed st = Some st' ->
  generations st' = ∅ /\ configs st' = ∅ /\ cancels st' = ∅ /\ dones st' = ∅ /\ runtimes st' = ∅ /\
  portClaims st' = ∅ /\ sups st' = ∅ /\ acked st' = acked st /\ updates st' = updates st /\
  m_built st' = m_built st /\
  m_retired st' = foldl (fun r ig => {[ ig.2 ]} ∪ r) (m_retired st) (map_to_list (generations st)).
Proof.
  intros H. unfold StopAll in H. apply bind_Some in H as (m & _ & H).
  set (st0 := set_sups (fun _ => ∅) (set_mmetrics (fun _ => m) st)) in H.
  assert (Hret : forall l s, let s' := foldl (fun s ig => Retire ig.1 ig.2 (flushed ig.1) s) s l in
            sups s' = sups s /\ acked s' = acked s /\ updates s' = updates s /\ m_built s' = m_built s /\
            m_retired s' = foldl (fun r ig => {[ ig.2 ]} ∪ r) (m_retired s) l).
  { induction l as [|ig l IH]; intros s; [done|]. simpl. destruct (IH (Retire ig.1 ig.2 (flushed ig.1) s))
      as (-> & -> & -> & -> & ->). done. }
  assert (Hdel : forall (l : list (string * rt_ref)) s,
            let s' := foldl (fun s ir => set_mmetrics (DeleteStreamSeries ir.1) s) s l in
            sups s' = sups s /\ acked s' = acked s /\ updates s' = updates s /\ m_built s' = m_built s /\
            m_retired s' = m_retired s).
  { induction l as [|ir l IH]; intros s; [done|]. simpl.
    destruct (IH (set_mmetrics (DeleteStreamSeries ir.1) s)) as (-> & -> & -> & -> & ->). done. }
  set (st1 := foldl _ st0 (map_to_list (generations st0))) in H.
  destruct (Hret (map_to_list (generations st0)) st0) as (R1 & R2 & R3 & R4 & R5). fold st1 in R1, R2, R3, R4, R5.
  set (st2 := foldl _ st1 (map_to_list (runtimes st1))) in H.
  destruct (Hdel (map_to_list (runtimes st1)) st1) as (D1 & D2 & D3 & D4 & D5). fold st2 in D1, D2, D3, D4, D5.
  injection H as <-. simpl. rewrite D1, D2, D3, D4, D5, R1, R2, R3, R4, R5. done.
Qed.

Lemma step_maps st st' : maps_inv st -> mgr_step st st' -> maps_inv st'.
Proof.
  intros I (a & Hok & H). destruct a as [cfg opened put|id del ans fl|listed opened now|ans fl|id cfg|i put fl|id a];
    cbn [m_exec] in H.
  - destruct (sourceFromConfig cfg) as [source cfg'] eqn:Hs.
    assert (cfg' = with_defaults cfg) as -> by (by unfold sourceFromConfig in Hs; simplify_eq).
    destruct source as [source|e]; [|done]. injection H as <-.
    apply admitLocked_maps; [|done]. apply (sourceFromConfig_id cfg source). by rewrite Hs.
  - destruct (Remove id del ans fl st) as [[r st1]|] eqn:Hr; [|done]. injection H as <-.
    apply Remove_cases in Hr. destruct r as [[]|e]; [|subst; eapply same_maps_inv; [apply refused_removal_maps|done]].
    destruct Hr as (_ & gens & m & _ & _ & ->).
    eapply same_maps_inv; [apply set_mmetrics_maps|]. apply uninstall_maps.
    by eapply same_maps_inv; [|exact I].
  - injection H as <-. unfold Restore. destruct (acked st) as [kv|] eqn:Hst; [|done].
    destruct listed as [cfgs|e]; [|done]. destruct Hok as (Hr & Hnd & _). simpl.
    apply restore_loop_maps; [done| |].
    + rewrite (merge_sort_Permutation id_le cfgs). done.
    + intros cfg _. by rewrite Hr, lookup_empty.
  - apply StopAll_cases in H as (E1 & E2 & E3 & E4 & E5 & E6 & E7 & _).
    split; rewrite ?E1, ?E2, ?E3, ?E4, ?E5, ?E6, ?E7; intros; rewrite ?lookup_empty in *;
      try done; try set_solver; try (split; [done|by intros [? [=]]]).
  - injection H as <-. by eapply same_maps_inv; [|exact I].
  - by eapply update_maps.
  - unfold sup_tick in H. apply bind_Some in H as ([p s] & Hs & H).
    destruct (is_cancel a); [done|]. apply bind_Some in H as (s' & _ & H). injection H as <-.
    by eapply sup_maps.
Qed.

(** ** Generations *)

(** The generation an update in flight is responsible for. *)
Definition update_gen (u : update_pc) : option nat :=
  match u with UCommit _ _ g | UGone _ g | URetire _ g _ => Some g | _ => None end.

Definition live (st : mstate) : list nat :=
  (map_to_list (generations st)).*2 ++ omap update_gen (updates st).

(** Every generation built is in exactly one place: in hand, installed, with an
    update, or retired. *)
Definition accounted (held : list nat) (st : mstate) : Prop :=
  held ++ live st ++ elements (m_retired st) ≡ₚ seq 0 (m_built st).

Definition gens_inv : mstate -> Prop := accounted [].

Lemma accounted_same held st st' :
  generations st' = generations st -> updates st' = updates st -> m_retired st' = m_retired st ->
  m_built st' = m_built st -> accounted held st -> accounted held st'.
Proof. unfold accounted, live. by intros -> -> -> ->. Qed.

Lemma accounted_new held id cfg st :
  accounted held st ->
  let '(r, st1) := NewGeneration id cfg st in
  accounted (match r with Ok g => g :: held | Err _ => held end) st1.
Proof.
  unfold NewGeneration. intros H. destruct (buildFromConfig _ _ _) as [[b|e] w]; [|exact H].
  unfold accounted, live in *.
  cbn [set_gens set_mmetrics generations updates m_retired m_built].
  rewrite seq_S, <- H. apply Permutation_cons_append.
Qed.

Lemma accounted_retire held id g fl st : accounted (g :: held) st -> accounted held (Retire id g fl st).
Proof.
  unfold accounted, live. simpl. intros H.
  assert (g ∉ m_retired st) as Hg.
  { assert (NoDup (g :: held ++ ((map_to_list (generations st)).*2 ++ omap update_gen (updates st))
                     ++ elements (m_retired st))) as Hnd by (rewrite H; apply NoDup_seq).
    apply NoDup_cons in Hnd as [Hn _]. intros Hin. apply Hn.
    rewrite !elem_of_app, elem_of_elements. by right; right. }
  rewrite elements_union_singleton by done. rewrite <- H. solve_Permutation.
Qed.

Lemma accounted_insert held id g st st' :
  accounted (g :: held) st -> generations st !! id = None ->
  generations st' = <[id := g]> (generations st) -> updates st' = updates st ->
  m_retired st' = m_retired st -> m_built st' = m_built st -> accounted held st'.
Proof.
  unfold accounted, live. intros H Hid -> -> -> ->. rewrite <- H.
  rewrite map_to_list_insert by done. csimpl. solve_Permutation.
Qed.

Lemma accounted_delete held id g st st' :
  accounted held st -> generations st !! id = Some g ->
  generations st' = delete id (generations st) -> updates st' = updates st ->
  m_retired st' = m_retired st -> m_built st' = m_built st -> accounted (g :: held) st'.
Proof.
  unfold accounted, live. intros H Hid -> -> -> ->. rewrite <- H.
  rewrite <- (map_to_list_delete (generations st) id g Hid). csimpl. solve_Permutation.
Qed.

Lemma omap_insert_perm (l : list update_pc) i u old :
  l !! i = Some old ->
  option_list (update_gen old) ++ omap update_gen (<[i := u]> l)
  ≡ₚ option_list (update_gen u) ++ omap update_gen l.
Proof.
  intros Hi. rewrite <- (take_drop_middle l i old Hi) at 2.
  rewrite insert_take_drop by (by eapply lookup_lt_Some).
  rewrite !omap_app. csimpl. destruct (update_gen u), (update_gen old); simpl; solve_Permutation.
Qed.

Lemma accounted_update held i u old st :
  updates st !! i = Some old ->
  accounted (option_list (update_gen u) ++ held) st ->
  accounted (option_list (update_gen old) ++ held) (set_update i u st).
Proof.
  unfold accounted, live. simpl. intros Hi H. rewrite <- H.
  pose proof (omap_insert_perm (updates st) i u old Hi) as Hp. revert Hp.
  generalize (option_list (update_gen old)) (option_list (update_gen u))
    (omap update_gen (<[i := u]> (updates st))) (omap update_gen (updates st)).
  intros a b c d Hp. transitivity (held ++ (map_to_list (generations st)).*2 ++ (a ++ c)
                                    ++ elements (m_retired st)); [solve_Permutation|].
  rewrite Hp. solve_Permutation.
Qed.

Lemma accounted_update_same held i u old st :
  updates st !! i = Some old -> update_gen u = update_gen old ->
  accounted held st -> accounted held (set_update i u st).
Proof.
  unfold accounted, live. simpl. intros Hi Heq H. rewrite <- H.
  pose proof (omap_insert_perm (updates st) i u old Hi) as Hp. rewrite Heq in Hp.
  apply Permutation_app_inv_l in Hp. by rewrite Hp.
Qed.

Lemma NewGeneration_same id cfg st :
  acked (NewGeneration id cfg st).2 = acked st /\ updates (NewGeneration id cfg st).2 = updates st.
Proof. unfold NewGeneration. destruct (buildFromConfig _ _ _) as [[b|e] w]; done. Qed.

Lemma admitLocked_gens source cfg persist opened put st :
  ID source = sc_ID cfg -> maps_inv st -> gens_inv st ->
  gens_inv (admitLocked source cfg persist opened put st).2.
Proof.
  intros Hid I G. unfold admitLocked. rewrite Hid. case_bool_decide as Hr; [done|].
  apply eq_None_not_Some in Hr.
  destruct (if str_is_empty (connectorPort cfg) then None else _); [done|].
  pose proof (accounted_new [] (sc_ID cfg) (sc_Pipeline cfg) st G) as Hn.
  pose proof (NewGeneration_maps (sc_ID cfg) (sc_Pipeline cfg) st) as (Hm & _).
  destruct (NewGeneration _ _ st) as [[gen|e] st1]; simpl in Hm; [|exact Hn].
  destruct opened as [e|].
  { eapply accounted_same, (accounted_retire [] (sc_ID cfg) gen []); [..|exact Hn]; done. }
  assert (Hno : generations st1 !! sc_ID cfg = None).
  { rewrite Hm, eq_None_not_Some, (mi_gen _ I), <- (mi_sup _ I), Hr. done. }
  destruct (acked _) as [kv|], persist, put as [e|];
    first [by eapply accounted_same, (accounted_retire [] (sc_ID cfg) gen []); [..|exact Hn]
          |by eapply accounted_insert; [exact Hn|exact Hno|..]].
Qed.

Lemma restore_one_gens opened now cfg st :
  maps_inv st -> gens_inv st -> gens_inv (restore_one error_text opened now cfg st).
Proof.
  intros I G. unfold restore_one. destruct (str_is_empty _); [done|].
  destruct (validateStreamConfig cfg) as [u|e]; [|exact G].
  destruct (sourceFromConfig cfg) as [source cfg'] eqn:Hs.
  assert (cfg' = with_defaults cfg) as -> by (by unfold sourceFromConfig in Hs; simplify_eq).
  destruct source as [source|e]; [|exact G].
  assert (ID source = sc_ID (with_defaults cfg)) as HID.
  { apply (sourceFromConfig_id cfg source). by rewrite Hs. }
  pose proof (admitLocked_gens source (with_defaults cfg) false (opened (sc_ID cfg)) None st HID I G) as H.
  change (sc_ID (with_defaults cfg)) with (sc_ID cfg) in *.
  by destruct (admitLocked _ _ _ _ _ _) as [[[]|e] st'].
Qed.

Lemma restore_loop_gens opened now cfgs : forall st,
  maps_inv st -> gens_inv st -> NoDup (sc_ID <$> cfgs) ->
  (forall cfg, cfg ∈ cfgs -> runtimes st !! sc_ID cfg = None) ->
  gens_inv (foldl (fun st cfg => restore_one error_text opened now cfg st) st cfgs).
Proof.
  induction cfgs as [|cfg cfgs IH]; intros st I G Hnd Hno; [done|]. simpl.
  rewrite fmap_cons in Hnd. apply NoDup_cons in Hnd as [Hn Hnd].
  destruct (restore_one_maps opened now cfg st I (Hno cfg ltac:(by left))) as [I' Hr].
  apply IH; [done|by apply restore_one_gens|done|]. intros c Hc. rewrite Hr; [apply Hno; by right|].
  intros Heq. destruct Hn. rewrite <- Heq. by apply list_elem_of_fmap_2.
Qed.

Lemma retire_all_elements (l : list nat) r :
  NoDup (l ++ elements r) ->
  elements (foldl (fun (r : gset nat) g => {[ g ]} ∪ r) r l) ≡ₚ l ++ elements r.
Proof.
  revert r. induction l as [|g l IH]; intros r Hnd; [done|]. simpl in *.
  apply NoDup_cons in Hnd as [Hn Hnd]. rewrite elem_of_app, elem_of_elements in Hn.
  assert (elements ({[ g ]} ∪ r) ≡ₚ g :: elements r) as E.
  { apply elements_union_singleton. naive_solver. }
  rewrite IH, E; [solve_Permutation|]. rewrite E.
  apply NoDup_app. apply NoDup_app in Hnd as (H1 & H2 & H3). split_and!; [done| |].
  - intros x Hx [->|Hin]%elem_of_cons; naive_solver.
  - apply NoDup_cons. rewrite elem_of_elements. naive_solver.
Qed.

Lemma foldl_fmap {A B C} (f : A -> B -> A) (g : C -> B) l a :
  foldl (fun x y => f x (g y)) a l = foldl f a (g <$> l).
Proof. revert a. induction l; simpl; auto. Qed.

Lemma StopAll_gens answers flushed st st' :
  gens_inv st -> StopAll answers flushed st = Some st' -> gens_inv st'.
Proof.
  intros G H. apply StopAll_cases in H as (E1 & _ & _ & _ & _ & _ & _ & _ & E9 & E10 & E11).
  unfold gens_inv, accounted, live in *. rewrite E1, E9, E10, E11. rewrite map_to_list_empty. simpl in *.
  rewrite (foldl_fmap (fun (r : gset nat) g => {[ g ]} ∪ r) snd (map_to_list (generations st))).
  assert (NoDup ((map_to_list (generations st)).*2 ++ elements (m_retired st))) as Hnd.
  { assert (NoDup (omap update_gen (updates st) ++
                   (map_to_list (generations st)).*2 ++ elements (m_retired st))) as Hnd.
    { eapply NoDup_Permutation_proper; [|apply (NoDup_seq 0 (m_built st))]. rewrite <- G.
      solve_Permutation. }
    by apply NoDup_app in Hnd as (_ & _ & ?). }
  rewrite retire_all_elements by done. rewrite <- G. solve_Permutation.
Qed.

Lemma update_gens i put flushed st st' :
  gens_inv st -> update_exec i put flushed st = Some st' -> gens_inv st'.
Proof.
  intros G H. unfold update_exec in H. apply bind_Some in H as (u & Hu & H).
  destruct u as [id cfg|id cfg|id cfg next|id next|id gen res|res]; [| | | | |done].
  - injection H as <-. eapply accounted_update_same; [exact Hu| |exact G]. by case_bool_decide.
  - pose proof (accounted_new [] id cfg st G) as Hn.
    pose proof (NewGeneration_same id cfg st) as [_ Es].
    destruct (NewGeneration id cfg st) as [g st1]. simpl in Es. rewrite <- Es in Hu. injection H as <-.
    destruct g as [next|e].
    + apply (accounted_update [] i (UCommit id cfg next) (UBuild id cfg) st1 Hu Hn).
    + by eapply accounted_update_same.
  - destruct (generations st !! id) as [previous|] eqn:Hg.
    2: { injection H as <-. by eapply accounted_update_same. }
    assert (Hswap : forall kv, gens_inv (set_update i (URetire id previous (Ok tt))
      (set_maps (<[id := next]> (generations st))
         (<[id := with_pipeline (default zero_config (configs st !! id)) cfg]> (configs st))
         (cancels st) (dones st) (runtimes st) (portClaims st) (set_acked kv st)))).
    { intros kv.
      set (st1 := set_maps (delete id (generations st)) (configs st) (cancels st) (dones st)
                    (runtimes st) (portClaims st) st).
      assert (accounted [previous] st1) as H1 by (by apply (accounted_delete [] id previous st)).
      apply (accounted_update [] i (URetire id previous (Ok tt)) (UCommit id cfg next) st1 Hu) in H1.
      apply (accounted_insert [] id next (set_update i (URetire id previous (Ok tt)) st1)); try done.
      - apply lookup_delete_eq.
      - simpl. by rewrite insert_delete_eq. }
    destruct (acked st) as [kv|] eqn:Hst, put as [e|]; injection H as <-; try apply Hswap.
    by eapply accounted_update_same.
  - injection H as <-.
    pose proof (accounted_update [] i (UEnd (Err (ErrStreamNotFound id))) (UGone id next) st Hu G) as H1.
    by eapply accounted_same, (accounted_retire [] id next flushed); [..|exact H1].
  - injection H as <-.
    pose proof (accounted_update [] i (UEnd res) (URetire id gen res) st Hu G) as H1.
    by eapply accounted_same, (accounted_retire [] id gen flushed); [..|exact H1].
Qed.

Lemma step_gens st st' : maps_inv st -> gens_inv st -> mgr_step st st' -> gens_inv st'.
Proof.
  intros I G (a & Hok & H). destruct a as [cfg opened put|id del ans fl|listed opened now|ans fl|id cfg|i put fl|id a];
    cbn [m_exec] in H.
  - destruct (sourceFromConfig cfg) as [source cfg'] eqn:Hs.
    assert (cfg' = with_defaults cfg) as -> by (by unfold sourceFromConfig in Hs; simplify_eq).
    destruct source as [source|e]; [|done]. injection H as <-.
    apply admitLocked_gens; [|done..]. apply (sourceFromConfig_id cfg source). by rewrite Hs.
  - destruct (Remove id del ans fl st) as [[r st1]|] eqn:Hr; [|done]. injection H as <-.
    apply Remove_cases in Hr. destruct r as [[]|e]; [|subst; by destruct e].
    destruct Hr as (_ & gens & m & Hg1 & Hg2 & ->).
    destruct (generations st !! id) as [g|] eqn:Hg.
    + rewrite (Hg2 g eq_refl).
      pose proof (accounted_delete [] id g st (uninstall id st) G Hg eq_refl eq_refl eq_refl eq_refl) as H1.
      by eapply accounted_same, (accounted_retire [] id g []); [..|exact H1].
    + rewrite (Hg1 eq_refl). eapply accounted_same; [..|exact G]; simpl; try done.
      by apply delete_id.
  - injection H as <-. unfold Restore. destruct (acked st) as [kv|] eqn:Hst; [|done].
    destruct listed as [cfgs|e]; [|done]. destruct Hok as (Hr & Hnd & _). simpl.
    apply restore_loop_gens; [done|done| |].
    + rewrite (merge_sort_Permutation id_le cfgs). done.
    + intros cfg _. by rewrite Hr, lookup_empty.
  - by eapply StopAll_gens.
  - injection H as <-. unfold gens_inv, accounted, live in *. simpl in *. rewrite <- G.
    rewrite omap_app. simpl. by rewrite app_nil_r.
  - by eapply update_gens.
  - unfold sup_tick in H. apply bind_Some in H as ([p s] & Hs & H).
    destruct (is_cancel a); [done|]. apply bind_Some in H as (s' & _ & H). injection H as <-.
    exact G.
Qed.
End Preservation.
