(* ===== verification/ManagerSpec.v ===== *)
(** * The stream manager: what its operations promise

    The properties of internal/server/manager.go over the model of [Manager], on
    top of the invariants of [ManagerInv]: what registering, removing, updating
    and restoring do to the maps, the store, the sources and the registry, on
    every branch.  A write the store refuses is recorded as being in doubt. *)

From Stdlib Require Import ZArith Lia.
From stdpp Require Import base tactics list strings gmap sorting.
From S2P Require Import Prelude GoLib GoFloat GoTime GoJsonValue Domain Telemetry ConfigError.
From S2P Require Import PipelineConfig Pipeline Builder Restart Validate Redact Supervisor Source.
From S2P Require Import Store Manager ManagerInv.

#[local] Open Scope Z_scope.

(** ** The registry: an operation on one stream touches no other *)

Lemma NewGeneration_other id id' cfg st :
  id <> id' -> same_stream id' (m_metrics (NewGeneration id cfg st).2) (m_metrics st).
Proof.
  intros Hne. unfold NewGeneration.
  pose proof (buildFromConfig_other id id' cfg (set_metrics (fun _ => m_metrics st) new_world) Hne) as H.
  by destruct (buildFromConfig _ _ _) as [[b|e] w].
Qed.

Lemma counters_other id id' n f m :
  id <> id' ->
  (f = set_EventsIngested \/ f = set_EventsPublished \/ f = set_BytesIngested \/
   f = set_BytesPublished \/ f = set_Duration \/ f = set_StreamRestarts) ->
  same_stream id' (f (counter_add id n) m) m.
Proof.
  intros Hne Hf. unfold same_stream, counter_add.
  destruct Hf as [->|[->|[->|[->|[->| ->]]]]]; simpl; repeat split; intros;
    rewrite ?lookup_insert_ne by congruence; done.
Qed.

Lemma publishFunc_other id id' e m : id <> id' -> same_stream id' (publishFunc id e m) m.
Proof.
  intros Hne. unfold publishFunc.
  eapply same_stream_trans; apply counters_other; tauto.
Qed.

Lemma Retire_other id id' g fl st :
  id <> id' -> same_stream id' (m_metrics (Retire id g fl st)) (m_metrics st).
Proof.
  intros Hne. unfold Retire. simpl. generalize (m_metrics st).
  induction fl as [|e fl IH]; intros m; [apply same_stream_refl|]. simpl.
  eapply same_stream_trans; [apply IH|by apply publishFunc_other].
Qed.

Lemma setStatus_other id id' st s :
  id <> id' -> same_stream id' (s_metrics (setStatus id st s)) (s_metrics s).
Proof. intros Hne. by apply SetStreamState_other. Qed.

Lemma attempt_failed_other id id' p a e n s :
  id <> id' -> same_stream id' (s_metrics (attempt_failed id p a e n s)) (s_metrics s).
Proof.
  intros Hne. unfold attempt_failed. destruct (next p a) as [k []]; simpl.
  - eapply same_stream_trans; [by apply SetStreamState_other|]. apply counters_other; tauto.
  - by apply SetStreamState_other.
Qed.

Lemma sup_exec_other id id' p a s s' :
  id <> id' -> sup_exec id p a s = Some s' -> same_stream id' (s_metrics s') (s_metrics s).
Proof.
  intros Hne H. destruct a as [|ok|err now|now|start event|err n1 n2|]; cbn [sup_exec] in H.
  - destruct (s_pc s); simplify_eq. by apply SetStreamState_other.
  - destruct ok, (s_pc s); try done.
    + destruct (_ && _); [done|]. injection H as <-. apply same_stream_refl.
    + destruct (s_cancelled s); [|done]. injection H as <-. by apply SetStreamState_other.
  - destruct err as [e|], (s_pc s) as [| |att| |]; try done; cbn zeta in H.
    + destruct (s_cancelled _); injection H as <-; [by apply SetStreamState_other|].
      apply (attempt_failed_other id id' p att (Some e) now (call (KOpen false) s) Hne).
    + injection H as <-. by apply SetStreamState_other.
  - destruct (s_pc s); try done. injection H as <-. by apply SetStreamState_other.
  - destruct (s_pc s); try done. injection H as <-. simpl.
    repeat (eapply same_stream_trans; [apply counters_other; tauto|]). apply same_stream_refl.
  - destruct (s_pc s) as [| | |att ra|]; try done; cbn zeta in H.
    destruct (s_cancelled _); [injection H as <-; by apply SetStreamState_other|].
    destruct (earned_reset _ _ _); injection H as <-.
    + apply (attempt_failed_other id id' p 0 err n2 (earn (call KClose s)) Hne).
    + apply (attempt_failed_other id id' p att err n2 (call KClose s) Hne).
  - injection H as <-. apply same_stream_refl.
Qed.

Lemma sup_run_other id id' p sched s s' :
  id <> id' -> sup_run id p sched s = Some s' -> same_stream id' (s_metrics s') (s_metrics s).
Proof.
  intros Hne. revert s. induction sched as [|a sched IH]; simpl; intros s H.
  { injection H as <-. apply same_stream_refl. }
  apply bind_Some in H as (s1 & H1 & H). eapply same_stream_trans; [by apply IH|].
  by eapply sup_exec_other.
Qed.

Lemma sup_finish_other id id' b answers ps m m' :
  id <> id' -> sup_finish id b answers ps m = Some m' -> same_stream id' m' m.
Proof.
  intros Hne H. unfold sup_finish in H. apply bind_Some in H as (s' & H1 & H).
  destruct (s_pc s'); simplify_eq.
  apply (sup_run_other id id' _ _ _ _ Hne H1).
Qed.

(** ** Registration *)

(** What admission did to the source it was given. *)
Definition calls_on (id : string) (ks : list sup_call) : list (string * sup_call) := pair id <$> ks.

(** Why a registration is refused. *)
Definition refusal (source : Source) (cfg : StreamSourceConfig) (persist : bool)
    (opened put : option string) (st : mstate) (e : mgr_error) : Prop :=
  match e with
  | ErrStreamExists id => id = ID source /\ is_Some (runtimes st !! id)
  | ErrPortConflict port holder =>
      port = connectorPort cfg /\ port <> EmptyString /\ portClaims st !! port = Some holder
  | EBuildPipeline e => (NewGeneration (ID source) (sc_Pipeline cfg) st).1 = Err e
  | ErrSourceOpen e => opened = Some e
  | EPersist e => persist = true /\ put = Some e /\ is_Some (acked st)
  | _ => False
  end.

Record left_alone (id : string) (st st' : mstate) : Prop := {
  la_maps : same_maps st st';
  la_store : acked st' = acked st;
  la_updates : updates st' = updates st;
  la_others : forall id', id <> id' -> same_stream id' (m_metrics st') (m_metrics st)
}.

Lemma left_alone_refl id st : left_alone id st st.
Proof. split; [done..|]. intros. apply same_stream_refl. Qed.

Lemma left_alone_discard id g st1 st2 :
  left_alone id st1 st2 -> left_alone id st1 (discardGeneration id g st2).
Proof.
  intros [H1 H2 H3 H4]. split; [done..|]. intros id' Hne. unfold discardGeneration. simpl.
  eapply same_stream_trans; [by apply DeleteDedupSeries_other|by apply H4].
Qed.

Lemma left_alone_doubt id op st1 st2 : left_alone id st1 st2 -> left_alone id st1 (doubt op st2).
Proof. by intros [? ? ? ?]. Qed.

Lemma left_alone_log id k st1 st2 : left_alone id st1 st2 -> left_alone id st1 (log_call id k st2).
Proof. by intros [? ? ? ?]. Qed.

Lemma NewGeneration_alone id cfg st : left_alone id st (NewGeneration id cfg st).2.
Proof.
  split; [apply NewGeneration_maps|by apply NewGeneration_same|by apply NewGeneration_same|].
  intros. by apply NewGeneration_other.
Qed.

Lemma NewGeneration_bookkeeping id cfg st :
  let '(r, st1) := NewGeneration id cfg st in
  m_calls st1 = m_calls st /\ in_doubt st1 = in_doubt st /\ m_retired st1 = m_retired st /\
  match r with
  | Ok g => g = m_built st /\ m_built st1 = S (m_built st)
  | Err _ => m_built st1 = m_built st
  end.
Proof. unfold NewGeneration. by destruct (buildFromConfig _ _ _) as [[b|e] w]. Qed.

Lemma NewGeneration_doubt id cfg st : in_doubt (NewGeneration id cfg st).2 = in_doubt st.
Proof. unfold NewGeneration. by destruct (buildFromConfig _ _ _) as [[b|e] w]. Qed.

(** The write that is in doubt once a registration has been refused. *)
Definition refused_write (cfg : StreamSourceConfig) (e : mgr_error) : list store_op :=
  match e with EPersist _ => [OPut cfg] | _ => [] end.

(** Both outcomes of an admission at once; the properties below read it. *)
Definition admission_refused source cfg persist opened put st e st' : Prop :=
  refusal source cfg persist opened put st e /\ left_alone (ID source) st st' /\
  in_doubt st' = in_doubt st ++ refused_write cfg e /\
  (exists ks, ks ∈ [[]; [KOpen false]; [KOpen true; KClose]] /\
              m_calls st' = m_calls st ++ calls_on (ID source) ks) /\
  (forall g, (m_built st <= g < m_built st')%nat -> g ∈ m_retired st') /\
  m_retired st ⊆ m_retired st'.

Definition admission_accepted (id : string) cfg (persist : bool) st st' : Prop :=
  let port := connectorPort cfg in
  runtimes st !! id = None /\
  (port <> EmptyString -> portClaims st !! port = None) /\
  (exists g, (NewGeneration id (sc_Pipeline cfg) st).1 = Ok g /\
             generations st' = <[id := g]> (generations st)) /\
  configs st' = <[id := cfg]> (configs st) /\
  StatusOf st' id = Some StatusConnecting /\
  sups st' = <[id := (restartPolicyFor cfg, default (sup_init id no_metrics) (snd <$> sups st' !! id))]> (sups st) /\
  runtimes st' = <[id := RtSupervised]> (runtimes st) /\
  portClaims st' = (if str_is_empty port then portClaims st else <[port := id]> (portClaims st)) /\
  acked st' = (if persist then <[sc_ID cfg := cfg]> <$> acked st else acked st) /\
  in_doubt st' = in_doubt st /\
  m_calls st' = m_calls st ++ calls_on id [KOpen true] /\
  one_hot id "reconnecting" (m_metrics st') /\
  (forall id', id <> id' -> same_stream id' (m_metrics st') (m_metrics st)).

Lemma admitLocked_refused source cfg persist opened put st e st' :
  admitLocked source cfg persist opened put st = (Err e, st') ->
  admission_refused source cfg persist opened put st e st'.
Proof.
  unfold admitLocked. set (id := ID source). case_bool_decide as Hr.
  { intros [= <- <-]. split; [done|]. split; [apply left_alone_refl|]. split; [by rewrite app_nil_r|].
    split; [|split; [lia|done]]. exists []. split; [left|by rewrite app_nil_r]. }
  destruct (if str_is_empty (connectorPort cfg) then None else _) as [h|] eqn:Hp.
  { intros [= <- <-]. split; [revert Hp; simpl; by destruct (connectorPort cfg)|].
    split; [apply left_alone_refl|]. split; [by rewrite app_nil_r|].
    split; [|split; [lia|done]]. exists []. split; [left|by rewrite app_nil_r]. }
  pose proof (NewGeneration_alone id (sc_Pipeline cfg) st) as Ha.
  pose proof (NewGeneration_bookkeeping id (sc_Pipeline cfg) st) as Hb.
  destruct (NewGeneration id (sc_Pipeline cfg) st) as [[gen|e1] st1] eqn:Hn; simpl in Ha.
  2: { intros [= <- <-]. destruct Hb as (Hc & Hdt & Hret & Hbu). split; [by simpl; fold id; rewrite Hn|].
       split; [done|]. split; [by rewrite Hdt, app_nil_r|]. split; [|rewrite Hbu, Hret; split; [lia|done]].
       exists []. split; [left|by rewrite app_nil_r]. }
  destruct Hb as (Hc & Hdt & Hret & -> & Hbu).
  assert (Hgens : (forall g, (m_built st <= g < m_built st1)%nat -> g ∈ {[ m_built st ]} ∪ m_retired st1) /\
            m_retired st ⊆ {[ m_built st ]} ∪ m_retired st1).
  { rewrite Hbu, Hret. split; [|set_solver]. intros g Hg. assert (g = m_built st) by lia. set_solver. }
  destruct opened as [e1|].
  { intros [= <- <-]. split; [done|]. split; [by apply left_alone_discard; repeat apply left_alone_log|].
    split; [by simpl; rewrite Hdt, app_nil_r|]. split; [|exact Hgens]. exists [KOpen false]. simpl. rewrite Hc. split; [right; left|done]. }
  cbv zeta. change (acked (log_call id (KOpen true) st1)) with (acked st1).
  rewrite (la_store _ _ _ Ha). destruct (acked st) as [kv|] eqn:Hs, persist, put as [e1|]; try done.
  intros [= <- <-]. split; [simpl; rewrite ?Hs; eauto|].
  split; [by apply left_alone_discard, left_alone_log, left_alone_doubt, left_alone_log|].
  split; [by simpl; rewrite Hdt|]. split; [|exact Hgens]. exists [KOpen true; KClose]. simpl. rewrite Hc, <- app_assoc. split; [right; right; left|done].
Qed.

(** The last part of an admission, on the state the store left. *)
Definition publish_admitted (id : string) cfg gen (st : mstate) : mstate :=
  set_mmetrics (fun _ => s_metrics (sup_init id (m_metrics st)))
    (set_sups (<[id := (restartPolicyFor cfg, park (sup_init id (m_metrics st)))]>)
       (set_maps (<[id := gen]> (generations st)) (<[id := cfg]> (configs st))
          ({[ id ]} ∪ cancels st) ({[ id ]} ∪ dones st) (<[id := RtSupervised]> (runtimes st))
          (if str_is_empty (connectorPort cfg) then portClaims st
           else <[connectorPort cfg := id]> (portClaims st)) st)).

Lemma admitLocked_accepted source cfg persist opened put st st' :
  ID source = sc_ID cfg ->
  admitLocked source cfg persist opened put st = (Ok tt, st') ->
  admission_accepted (sc_ID cfg) cfg persist st st' /\ opened = None /\
  (is_Some (acked st) -> persist = true -> put = None).
Proof.
  intros Hid. unfold admitLocked. rewrite Hid. case_bool_decide as Hr; [done|].
  apply eq_None_not_Some in Hr. set (id := sc_ID cfg) in *.
  destruct (if str_is_empty (connectorPort cfg) then None else _) as [h|] eqn:Hp; [done|].
  pose proof (NewGeneration_alone id (sc_Pipeline cfg) st) as Ha.
  pose proof (NewGeneration_bookkeeping id (sc_Pipeline cfg) st) as Hb.
  destruct (NewGeneration id (sc_Pipeline cfg) st) as [[gen|e1] st1] eqn:Hn; simpl in Ha; [|done].
  destruct Hb as (Hc & Hdt & _). destruct opened as [e1|]; [done|]. cbv zeta.
  destruct Ha as [Hsame Es _ Hm].
  assert (Hok : forall st2, same_maps st st2 -> m_calls st2 = m_calls st ++ calls_on id [KOpen true] ->
    m_metrics st2 = m_metrics st1 -> in_doubt st2 = in_doubt st ->
    acked st2 = (if persist then <[id := cfg]> <$> acked st else acked st) ->
    admission_accepted id cfg persist st (publish_admitted id cfg gen st2)).
  { intros st2 (E1 & E2 & E3 & E4 & E5 & E6 & E7) E8 E9 E11 E10. unfold admission_accepted, publish_admitted. cbn zeta. rewrite Hn.
    unfold StatusOf, runtime_of. simpl. rewrite E1, E2, E5, E6, E7, E8, E9, E10, E11, !lookup_insert_eq. simpl.
    split_and!; try done; try by eauto.
    - by destruct (connectorPort cfg).
    - apply SetStreamState_hot.
    - intros id' Hne. eapply same_stream_trans; [by apply SetStreamState_other|by apply Hm]. }
  intros H. change (acked (log_call id (KOpen true) st1)) with (acked st1) in H. rewrite Es in H.
  assert (Hc' : forall kv, m_calls (set_acked kv (log_call id (KOpen true) st1))
                      = m_calls st ++ calls_on id [KOpen true]) by (intros; simpl; by rewrite Hc).
  assert (H1 : persist = false -> forall st2, st2 = log_call id (KOpen true) st1 ->
            admission_accepted id cfg persist st (publish_admitted id cfg gen st2)).
  { intros -> st2 ->. apply Hok; try done. apply (Hc' None). }
  assert (H2 : persist = true -> forall kv, kv = <[id := cfg]> <$> acked st ->
            admission_accepted id cfg persist st
              (publish_admitted id cfg gen (set_acked kv (log_call id (KOpen true) st1)))).
  { intros -> kv ->. apply Hok; try done. }
  unfold publish_admitted in H1, H2.
  destruct (acked st) as [kv|] eqn:Hs, persist, put as [e1|]; try done;
    injection H as <-; (split; [|by split; [|naive_solver]]);
    [apply (H2 eq_refl _ eq_refl)|apply (H1 eq_refl _ eq_refl)|apply (H1 eq_refl _ eq_refl)
    |apply (H2 eq_refl _ eq_refl)|apply (H2 eq_refl _ eq_refl)
    |apply (H1 eq_refl _ eq_refl)|apply (H1 eq_refl _ eq_refl)].
Qed.

(** ** The store *)

(** Every stream the manager knows is persisted, as the configuration a restart
    would run: the same up to the defaults a source completes. *)
Definition store_inv (st : mstate) : Prop :=
  forall kv id cfg, acked st = Some kv -> configs st !! id = Some cfg ->
  exists c, kv !! id = Some c /\ with_defaults c = with_defaults cfg.

Lemma store_inv_same st st' :
  configs st' = configs st -> acked st' = acked st -> store_inv st -> store_inv st'.
Proof. unfold store_inv. by intros -> ->. Qed.

Lemma store_inv_put st st' id cfg :
  store_inv st -> sc_ID cfg = id ->
  configs st' = <[id := cfg]> (configs st) ->
  acked st' = <[sc_ID cfg := cfg]> <$> acked st -> store_inv st'.
Proof.
  intros I Hid Hc Hs kv j c Hkv Hj. rewrite Hs in Hkv. rewrite Hc in Hj. rewrite Hid in Hkv.
  destruct (acked st) as [kv0|] eqn:E; [|done]. injection Hkv as <-.
  destruct (decide (id = j)) as [<-|Hne].
  - rewrite lookup_insert_eq in Hj. injection Hj as <-. exists cfg. by rewrite lookup_insert_eq.
  - rewrite lookup_insert_ne in Hj by done. rewrite lookup_insert_ne by done. by apply (I kv0).
Qed.

Lemma store_inv_kept st st' id cfg c :
  store_inv st -> configs st' = <[id := cfg]> (configs st) -> acked st' = acked st ->
  (forall kv, acked st = Some kv -> kv !! id = Some c) -> with_defaults c = with_defaults cfg ->
  store_inv st'.
Proof.
  intros I Hc Hs Hk Hd kv j cj Hkv Hj. rewrite Hs in Hkv. rewrite Hc in Hj.
  destruct (decide (id = j)) as [<-|Hne].
  - rewrite lookup_insert_eq in Hj. injection Hj as <-. exists c. split; [by apply Hk|done].
  - rewrite lookup_insert_ne in Hj by done. by apply (I kv).
Qed.

Section StoreSteps.
Variable error_text : mgr_error -> string.

Lemma restore_one_store opened now cfg st :
  store_inv st -> (forall kv, acked st = Some kv -> kv !! sc_ID cfg = Some cfg) ->
  store_inv (restore_one error_text opened now cfg st) /\
  acked (restore_one error_text opened now cfg st) = acked st.
Proof.
  intros I Hk. unfold restore_one. destruct (str_is_empty _); [done|].
  destruct (validateStreamConfig cfg) as [u|e].
  2: { split; [|done]. by eapply (store_inv_kept st _ (sc_ID cfg) cfg cfg). }
  destruct (sourceFromConfig cfg) as [source cfg'] eqn:Hs.
  assert (cfg' = with_defaults cfg) as -> by (by unfold sourceFromConfig in Hs; simplify_eq).
  destruct source as [source|e].
  2: { split; [|done]. eapply (store_inv_kept st _ (sc_ID cfg) (with_defaults cfg) cfg); try done.
       by rewrite with_defaults_idem. }
  assert (ID source = sc_ID (with_defaults cfg)) as HID.
  { apply (sourceFromConfig_id cfg source). by rewrite Hs. }
  change (sc_ID (with_defaults cfg)) with (sc_ID cfg).
  destruct (admitLocked source (with_defaults cfg) false (opened (sc_ID cfg)) None st)
    as [[[]|e] st'] eqn:Ha.
  - apply admitLocked_accepted in Ha as [Ha _]; [|done].
    destruct Ha as (_ & _ & _ & Hc & _ & _ & _ & _ & Hst & _).
    split; [|done]. eapply (store_inv_kept st _ (sc_ID cfg) (with_defaults cfg) cfg); try done.
    by rewrite with_defaults_idem.
  - apply admitLocked_refused in Ha as (_ & [(_ & E2 & _) E _ _] & _).
    split; [|done]. eapply (store_inv_kept st _ (sc_ID cfg) (with_defaults cfg) cfg); try done.
    + simpl. by rewrite E2.
    + by rewrite with_defaults_idem.
Qed.

Lemma restore_loop_store opened now cfgs : forall st,
  store_inv st -> (forall kv, acked st = Some kv -> forall cfg, cfg ∈ cfgs -> kv !! sc_ID cfg = Some cfg) ->
  store_inv (foldl (fun st cfg => restore_one error_text opened now cfg st) st cfgs) /\
  acked (foldl (fun st cfg => restore_one error_text opened now cfg st) st cfgs) = acked st.
Proof.
  induction cfgs as [|cfg cfgs IH]; intros st I Hk; [done|]. simpl.
  destruct (restore_one_store opened now cfg st I) as [I1 E1].
  { intros kv Hkv. apply (Hk kv Hkv). by left. }
  rewrite <- E1. apply IH; [done|]. rewrite E1. intros kv Hkv c Hc. apply (Hk kv Hkv). by right.
Qed.

Lemma update_store i put flushed st st' :
  maps_inv st -> store_inv st -> update_exec i put flushed st = Some st' -> store_inv st'.
Proof.
  intros M I H. unfold update_exec in H. apply bind_Some in H as (u & Hu & H).
  destruct u as [id cfg|id cfg|id cfg next|id next|id gen res|res]; [| | | | |done].
  - injection H as <-. exact I.
  - pose proof (NewGeneration_maps id cfg st) as (_ & E2 & _).
    pose proof (NewGeneration_same id cfg st) as [E _].
    destruct (NewGeneration id cfg st) as [g st1]. injection H as <-. by apply (store_inv_same st).
  - destruct (generations st !! id) as [previous|] eqn:Hg; [|by injection H as <-].
    set (updated := with_pipeline (default zero_config (configs st !! id)) cfg) in *.
    assert (sc_ID updated = id) as Hid.
    { assert (is_Some (configs st !! id)) as [old Hold].
      { rewrite (mi_cfg _ M), (proj2 (mi_sup _ M id)); [eauto|]. apply (mi_gen _ M). eauto. }
      subst updated. rewrite Hold. apply (mi_ids _ M id old Hold). }
    destruct (acked st) as [kv|] eqn:Hst, put as [e|]; injection H as <-;
      first [exact I|apply (store_inv_put st _ id updated I Hid); simpl; rewrite ?Hst; done].
  - by injection H as <-.
  - by injection H as <-.
Qed.

Lemma step_store st st' : maps_inv st -> store_inv st -> mgr_step error_text st st' -> store_inv st'.
Proof.
  intros M I (a & Hok & H). destruct a as [cfg opened put|id del ans fl|listed opened now|ans fl|id cfg|i put fl|id a];
    cbn [m_exec] in H.
  - destruct (sourceFromConfig cfg) as [source cfg'] eqn:Hs.
    assert (cfg' = with_defaults cfg) as -> by (by unfold sourceFromConfig in Hs; simplify_eq).
    destruct source as [source|e]; [|done]. injection H as <-.
    assert (ID source = sc_ID (with_defaults cfg)) as HID.
    { apply (sourceFromConfig_id cfg source). by rewrite Hs. }
    unfold Register. destruct (admitLocked _ _ _ _ _ st) as [[[]|e] st1] eqn:Ha; simpl.
    + apply admitLocked_accepted in Ha as [(_ & _ & _ & Hc & _ & _ & _ & _ & Hst & _) _]; [|done].
      by apply (store_inv_put st st1 (sc_ID cfg) (with_defaults cfg)).
    + apply admitLocked_refused in Ha as (_ & [(_ & E2 & _) E _ _] & _). by apply (store_inv_same st).
  - destruct (Remove id del ans fl st) as [[r st1]|] eqn:Hr; [|done]. injection H as <-.
    apply Remove_cases in Hr. destruct r as [[]|e]; [|subst; by destruct e].
    destruct Hr as (_ & gens & m & _ & _ & ->). intros kv j c. simpl.
    destruct (acked st) as [kv0|] eqn:E; [|done]. intros [= <-] Hj.
    apply lookup_delete_Some in Hj as [Hne Hj]. rewrite lookup_delete_ne by done. by apply (I kv0).
  - injection H as <-. unfold Restore. destruct (acked st) as [kv|] eqn:Hst; [|done].
    destruct listed as [cfgs|e]; [|done]. destruct Hok as (_ & _ & Hk). simpl.
    apply restore_loop_store; [done|]. intros kv' Hkv c Hc. apply (Hk kv'); [congruence|].
    by rewrite (merge_sort_Permutation id_le cfgs) in Hc.
  - apply StopAll_cases in H as (_ & E2 & _). intros kv j c _. by rewrite E2, lookup_empty.
  - injection H as <-. exact I.
  - by eapply update_store.
  - unfold sup_tick in H. apply bind_Some in H as ([p s] & Hs & H).
    destruct (is_cancel a); [done|]. apply bind_Some in H as (s' & _ & H). injection H as <-. exact I.
Qed.

(** ** All three at once, of every reachable state *)

Record mgr_inv (st : mstate) : Prop := {
  inv_maps : maps_inv st;
  inv_gens : gens_inv st;
  inv_store : store_inv st
}.

Lemma mgr_reach_from st st' : mgr_inv st -> reach (mgr_step error_text) st st' -> mgr_inv st'.
Proof.
  intros I0 Hr. revert I0. apply (reach_stable (mgr_step error_text) mgr_inv); [|done].
  intros s s' [M G I] H. split; [by eapply step_maps|by eapply step_gens|by eapply step_store].
Qed.

Lemma NewStreamManager_inv kv : mgr_inv (NewStreamManager kv).
Proof.
  split; [apply NewStreamManager_maps| |].
  - unfold gens_inv, accounted, live. simpl. by rewrite map_to_list_empty, elements_empty.
  - intros kv' id cfg _. simpl. by rewrite lookup_empty.
Qed.

Lemma mgr_reach_inv kv st : reach (mgr_step error_text) (NewStreamManager kv) st -> mgr_inv st.
Proof.
  apply mgr_reach_from, NewStreamManager_inv.
Qed.
End StoreSteps.

(** ** Properties of every history *)

(** (C1) Whatever sequence of registrations, removals, updates, restarts and
    restores led here, the maps agree: a stream is supervised exactly when it has
    a pipeline generation, a cancel and a done; every stream listed has a
    configuration under its own id; every port claim belongs to a listed stream
    that configures that port; and no two supervised streams hold one port. *)
Theorem manager_consistent error_text kv st :
  reach (mgr_step error_text) (NewStreamManager kv) st ->
  (forall id, runtimes st !! id = Some RtSupervised <-> is_Some (sups st !! id)) /\
  (forall id, is_Some (generations st !! id) <-> is_Some (sups st !! id)) /\
  (forall id, id ∈ cancels st /\ id ∈ dones st <-> is_Some (sups st !! id)) /\
  (forall id, is_Some (configs st !! id) <-> is_Some (runtimes st !! id)) /\
  (forall id cfg, configs st !! id = Some cfg -> sc_ID cfg = id) /\
  (forall p id, portClaims st !! p = Some id ->
     exists cfg, configs st !! id = Some cfg /\ connectorPort cfg = p) /\
  (forall id1 id2 c1 c2,
     is_Some (sups st !! id1) -> is_Some (sups st !! id2) ->
     configs st !! id1 = Some c1 -> configs st !! id2 = Some c2 ->
     connectorPort c1 = connectorPort c2 -> connectorPort c1 <> EmptyString -> id1 = id2).
Proof.
  intros Hr. destruct (mgr_reach_inv error_text kv st Hr) as [[H1 H2 H3 H4 H5 H6 H7 H8] _ _].
  split_and!; try done.
  - intros id. rewrite H4, H5. naive_solver.
  - intros p id Hp. destruct (H7 p id Hp) as (cfg & ? & ? & _). by exists cfg.
  - intros id1 id2 c1 c2 S1 S2 C1 C2 E Hne.
    pose proof (H8 id1 c1 S1 C1 Hne) as P1. rewrite E in P1, Hne.
    pose proof (H8 id2 c2 S2 C2 Hne) as P2. congruence.
Qed.

(** The three places a generation can be are disjoint. *)
Lemma gens_disjoint st :
  gens_inv st ->
  (forall id g, generations st !! id = Some g -> g ∉ m_retired st /\ g ∉ omap update_gen (updates st)) /\
  (forall g, g ∈ omap update_gen (updates st) -> g ∉ m_retired st) /\
  (forall id id' g, generations st !! id = Some g -> generations st !! id' = Some g -> id = id').
Proof.
  unfold gens_inv, accounted, live. simpl. intros G.
  assert (NoDup (((map_to_list (generations st)).*2 ++ omap update_gen (updates st))
                  ++ elements (m_retired st))) as Hnd by (rewrite G; apply NoDup_seq).
  apply NoDup_app in Hnd as (Hnd & Hd1 & _). apply NoDup_app in Hnd as (Hnd & Hd2 & _).
  assert (Hin : forall id g, generations st !! id = Some g -> g ∈ (map_to_list (generations st)).*2).
  { intros id g Hg. apply list_elem_of_fmap. exists (id, g). by rewrite elem_of_map_to_list. }
  split_and!.
  - intros id g Hg. split; [rewrite <- elem_of_elements; apply Hd1, elem_of_app; left|apply Hd2];
      by eapply Hin.
  - intros g Hg. rewrite <- elem_of_elements. apply Hd1, elem_of_app. by right.
  - intros id id' g Hg Hg'.
    apply elem_of_map_to_list in Hg, Hg'.
    by pose proof (NoDup_fmap_eq snd _ (id, g) (id', g) Hnd Hg Hg' eq_refl) as [= ->].
Qed.

(** (C10) No pipeline generation leaks and none is retired under a running stream:
    every generation ever built is installed, or held by an update in flight that
    will retire or install it, or retired; an installed generation is neither
    retired nor shared; and once no update is in flight the generations built
    are exactly the installed and the retired ones. *)
Theorem no_generation_leaks error_text kv st :
  reach (mgr_step error_text) (NewStreamManager kv) st ->
  (forall g, (g < m_built st)%nat <->
     (exists id, generations st !! id = Some g) \/ g ∈ omap update_gen (updates st) \/ g ∈ m_retired st) /\
  (forall id g, generations st !! id = Some g -> g ∉ m_retired st /\ g ∉ omap update_gen (updates st)) /\
  (forall id id' g, generations st !! id = Some g -> generations st !! id' = Some g -> id = id') /\
  (Forall (fun u => exists r, u = UEnd r) (updates st) ->
   m_built st = (size (generations st) + size (m_retired st))%nat).
Proof.
  intros Hr. destruct (mgr_reach_inv error_text kv st Hr) as [_ G _].
  destruct (gens_disjoint st G) as (D1 & D2 & D3).
  unfold gens_inv, accounted, live in G. simpl in G.
  split_and!; [|exact D1|exact D3|].
  - intros g. assert ((g < m_built st)%nat <-> g ∈ seq 0 (m_built st)) as -> by (rewrite elem_of_seq; lia).
    rewrite <- G, !elem_of_app, elem_of_elements, list_elem_of_fmap. split.
    + intros [[((id & g') & -> & Hg)|Hu]|Hret]; [left|by right; left|by right; right].
      exists id. by apply elem_of_map_to_list in Hg.
    + intros [[id Hg]|[Hu|Hret]]; [left; left|by left; right|by right].
      exists (id, g). by rewrite elem_of_map_to_list.
  - intros He. assert (omap update_gen (updates st) = []) as Hno.
    { clear -He. induction He as [|u l [r ->] _ IH]; [done|]. exact IH. }
    rewrite Hno in G. apply Permutation_length in G. rewrite length_seq, !length_app, length_fmap in G.
    simpl in G. rewrite length_map_to_list in G. unfold size at 2, set_size. simpl. lia.
Qed.

(** With a store, every stream the manager lists is persisted, and what is
    persisted is what it runs: the same pipeline, the same restart policy and,
    once a source has completed the defaults, the same configuration. *)
Theorem store_describes_running error_text kv st kv' id cfg :
  reach (mgr_step error_text) (NewStreamManager kv) st ->
  acked st = Some kv' -> configs st !! id = Some cfg ->
  exists c, kv' !! id = Some c /\ with_defaults c = with_defaults cfg /\ sc_Pipeline c = sc_Pipeline cfg /\
    restartPolicyFor c = restartPolicyFor cfg.
Proof.
  intros Hr Hs Hc. destruct (mgr_reach_inv error_text kv st Hr) as [_ _ I].
  destruct (I kv' id cfg Hs Hc) as (c & Hk & Hd). exists c. split; [done|]. split; [done|].
  assert (forall x, sc_Pipeline x = sc_Pipeline (with_defaults x)) as Hp by done.
  assert (forall x, restartPolicyFor x = restartPolicyFor (with_defaults x)) as Hrp by done.
  by rewrite (Hp c), (Hp cfg), (Hrp c), (Hrp cfg), Hd.
Qed.

Lemma refused_registration source cfg opened put st e st' :
  Register source cfg opened put st = (Err e, st') -> refusal source cfg true opened put st e.
Proof. intros H. by apply admitLocked_refused in H as (H1 & _). Qed.


(** An accepted registration is complete: the id and the port were free, the
    stream is listed as connecting with the gauge to match, supervised under the
    policy of its configuration, persisted, holding its port and its generation,
    with its source opened once; and nothing about any other stream changed. *)
Theorem accepted_registration source cfg opened put st st' :
  ID source = sc_ID cfg -> Register source cfg opened put st = (Ok tt, st') ->
  admission_accepted (sc_ID cfg) cfg true st st'.
Proof. intros Hid H. by apply admitLocked_accepted in H as [H _]. Qed.

(** What acceptance says of a configuration before it becomes a source. *)
Lemma accepted_kind k :
  is_Some (connectorBlocks !! k) -> k ∈ ["websocket"; "sse"; "rest_poller"; "webhook"; "grpc"]%string.
Proof.
  unfold connectorBlocks. intros [x Hx]. apply elem_of_list_to_map_2 in Hx.
  rewrite !elem_of_cons, elem_of_nil in Hx.
  destruct Hx as [E|[E|[E|[E|[E|[]]]]]]; injection E as -> _; set_solver.
Qed.

Lemma connectorPort_push cfg : connectorPort cfg <> EmptyString -> push_kind (sc_Kind cfg) = true.
Proof.
  unfold connectorPort, push_kind. destruct (str_eqb _ "webhook"), (str_eqb _ "grpc"); done.
Qed.

(** Completing the defaults does not change the port a configuration claims. *)
Lemma with_defaults_port cfg : connectorPort (with_defaults cfg) = connectorPort cfg.
Proof.
  unfold connectorPort, with_defaults. cbn [sc_Kind sc_Webhook sc_Grpc].
  destruct (str_eqb _ "webhook") eqn:Hw.
  - destruct (sc_Webhook cfg) as [[p path t]|]; [|done].
    cbn [fmap option_fmap option_map webhook_defaults default from_option wh_Port id].
    destruct p as [|c p]; [by vm_compute|done].
  - destruct (str_eqb _ "grpc"); [|done]. destruct (sc_Grpc cfg) as [[p]|]; [|done].
    cbn [fmap option_fmap option_map grpc_defaults default from_option grpc_Port id].
    destruct p as [|c p]; [by vm_compute|done].
Qed.

Lemma accepted_source cfg :
  validateStreamConfig cfg = Ok tt ->
  exists source, sourceFromConfig cfg = (Ok source, with_defaults cfg) /\ ID source = sc_ID cfg /\
  (forall listen e, Open listen source = Some e -> push_kind (sc_Kind cfg) = true).
Proof.
  intros Hv. apply validateStreamConfig_ok in Hv as (_ & Hk & _ & Hc & _).
  apply accepted_kind in Hk. unfold validateConnector in Hc. autorewrite with result in Hc.
  destruct Hc as (_ & _ & _ & Hrp & _).
  assert (Hpoll : forall listen e, Open listen (RESTPollerSource (sc_ID cfg) (sc_URL cfg) (sc_Topic cfg)
            (poller_defaults (sc_RestPoller cfg))) = Some e -> False).
  { intros listen e. unfold Open. destruct (sc_RestPoller cfg) as [[i m h]|]; [|by vm_compute].
    simpl in Hrp. autorewrite with result in Hrp. destruct Hrp as [Hi _]. unfold poller_defaults. simpl.
    unfold validatePollInterval in Hi. destruct i as [|c i]; [by vm_compute|].
    cbn [str_is_empty] in *. destruct (parse_duration (String c i)) as [d|]; [|done].
    apply fail_if_ok, Z.ltb_ge in Hi. intros Hd. destruct (Z.leb_spec d 0); [|done].
    assert (0 < minPollInterval) by done. lia. }
  unfold sourceFromConfig.
  rewrite !elem_of_cons, elem_of_nil in Hk. unfold push_kind.
  destruct Hk as [->|[->|[->|[->|[->|[]]]]]]; cbn -[Open]; (eexists; split; [reflexivity|]);
    (split; [done|]); try done.
  intros listen e He. by apply Hpoll in He.
Qed.

Lemma NewGeneration_valid id cfg st :
  ValidateConfig cfg = Ok tt -> exists g, (NewGeneration id cfg st).1 = Ok g.
Proof.
  intros Hv. unfold NewGeneration. destruct cfg as [c|]; [|by eexists].
  destruct (valid_pipeline_ok id c (set_metrics (fun _ => m_metrics st) new_world) Hv) as (b & w & ->).
  by eexists.
Qed.

(** For a configuration the validator accepts, registration has no other way
    to fail than the id being taken, the port being held, the source refusing to
    open or the store refusing the write: the pipeline always builds, and the
    only connectors that can fail to open are the ones that bind a port. *)
Theorem validated_registration cfg listen put st :
  validateStreamConfig cfg = Ok tt ->
  exists source, sourceFromConfig cfg = (Ok source, with_defaults cfg) /\ ID source = sc_ID cfg /\
  (forall e, Open listen source = Some e -> push_kind (sc_Kind cfg) = true) /\
  forall opened, match (Register source (with_defaults cfg) opened put st).1 with
  | Ok _ => True
  | Err (ErrStreamExists id) => id = sc_ID cfg
  | Err (ErrPortConflict port holder) => port = connectorPort cfg /\ push_kind (sc_Kind cfg) = true
  | Err (ErrSourceOpen e) => opened = Some e
  | Err (EPersist e) => put = Some e
  | Err _ => False
  end.
Proof.
  intros Hv. destruct (accepted_source cfg Hv) as (source & Hs & Hid & Hop). exists source.
  split_and!; [done..|by apply Hop|]. intros opened.
  destruct (Register source (with_defaults cfg) opened put st) as [[[]|e] st'] eqn:Hr; [done|].
  apply refused_registration in Hr. destruct e; simpl in Hr |- *; try done.
  - by destruct Hr as [-> _].
  - destruct Hr as (-> & Hne & _). rewrite with_defaults_port in *. split; [done|].
    by apply connectorPort_push.
  - apply validateStreamConfig_ok in Hv as (_ & _ & _ & _ & _ & Hp).
    destruct (NewGeneration_valid (ID source) (sc_Pipeline cfg) st Hp) as [g Hg]. congruence.
  - by destruct Hr as (_ & -> & _).
Qed.

(** ** Removal *)

Lemma Remove_metrics id deleted answers flushed st st' :
  Remove id deleted answers flushed st = Some (Ok tt, st') ->
  stream_absent id (m_metrics st') /\
  forall id', id <> id' -> same_stream id' (m_metrics st') (m_metrics st).
Proof.
  unfold Remove. destruct (negb _); [by intros [=]|]. intros H.
  assert (Hgo : forall o : option metrics,
    (forall m id', o = Some m -> id <> id' -> same_stream id' m (m_metrics st)) ->
    (m ← o;
     let st1 := set_sups (delete id) (set_mmetrics (fun _ => m) (set_acked (delete id <$> acked st) st)) in
     let st2 := match generations st1 !! id with Some gen => Retire id gen flushed st1 | None => st1 end in
     let st3 := set_maps (delete id (generations st2)) (delete id (configs st2)) (cancels st2 ∖ {[ id ]})
       (dones st2 ∖ {[ id ]}) (delete id (runtimes st2)) (releaseClaimsLocked id (portClaims st2)) st2 in
     Some (Ok tt : result mgr_error unit, set_mmetrics (DeleteStreamSeries id) st3)) = Some (Ok tt, st') ->
    stream_absent id (m_metrics st') /\
    forall id', id <> id' -> same_stream id' (m_metrics st') (m_metrics st)).
  { intros o Ho Hb. apply bind_Some in Hb as (m & Hm & Hb). cbv zeta in Hb. injection Hb as <-.
    split; [apply DeleteStreamSeries_absent|]. intros id' Hne.
    eapply same_stream_trans; [by apply DeleteStreamSeries_other|].
    destruct (generations _ !! id) as [g|]; [|by apply Ho].
    eapply same_stream_trans; [by apply Retire_other|by apply Ho]. }
  assert (Hf : forall m id', (match sups st !! id with
      | Some ps => if bool_decide (id ∈ dones st)
                   then sup_finish id (bool_decide (id ∈ cancels st)) answers ps (m_metrics st)
                   else Some (m_metrics st)
      | None => Some (m_metrics st) end) = Some m -> id <> id' -> same_stream id' m (m_metrics st)).
  { intros m id' Hm Hne. destruct (sups st !! id) as [ps|]; [|injection Hm as <-; apply same_stream_refl].
    case_bool_decide; [|injection Hm as <-; apply same_stream_refl]. by eapply sup_finish_other. }
  destruct (acked st) as [kv|] eqn:Hst, deleted as [e|]; [done|..]; apply (Hgo _ Hf H).
Qed.

(** (C27) Removal is complete: the stream is in no map, holds no port and no
    supervisor, the store has acknowledged its deletion, it has lost every one of its
    series, and its generation has been retired, once its supervisor has returned; and
    nothing about any other stream changed. *)
Theorem removal_is_complete error_text kv st id deleted answers flushed st' :
  reach (mgr_step error_text) (NewStreamManager kv) st ->
  Remove id deleted answers flushed st = Some (Ok tt, st') ->
  (generations st' = delete id (generations st) /\ configs st' = delete id (configs st) /\
   runtimes st' = delete id (runtimes st) /\ sups st' = delete id (sups st) /\
   id ∉ cancels st' /\ id ∉ dones st' /\ acked st' = delete id <$> acked st) /\
  (forall p, portClaims st' !! p <> Some id) /\
  (forall p id', id <> id' -> portClaims st !! p = Some id' -> portClaims st' !! p = Some id') /\
  (forall cfg, configs st !! id = Some cfg -> is_Some (sups st !! id) ->
     portClaims st' !! connectorPort cfg = None) /\
  (forall g, generations st !! id = Some g -> g ∈ m_retired st') /\
  stream_absent id (m_metrics st') /\
  (forall id', id <> id' -> same_stream id' (m_metrics st') (m_metrics st)).
Proof.
  intros Hr H. destruct (mgr_reach_inv error_text kv st Hr) as [M _ _].
  pose proof (Remove_metrics _ _ _ _ _ _ H) as [Ha Ho].
  apply Remove_cases in H as (_ & gens & m & _ & Hg & ->).
  unfold uninstall, releaseClaimsLocked in *. simpl in *.
  split_and!; try done; try set_solver.
  - intros p. rewrite map_lookup_filter_Some. naive_solver.
  - intros p id' Hne Hp. rewrite map_lookup_filter_Some. naive_solver.
  - intros cfg Hc Hs. apply map_lookup_filter_None. right. intros h Hh. simpl.
    destruct (mi_held _ M _ _ Hh) as (c & _ & _ & Hne). pose proof (mi_claims _ M id cfg Hs Hc Hne). naive_solver.
Qed.

(** ** Updates *)

(** A pipeline update never touches the connection: no step of an update
    starts, stops or replaces a supervisor, changes a status, moves a port claim,
    lists or unlists a stream, or changes anything of a configuration but its
    pipeline. *)
Theorem update_keeps_the_connection error_text kv st i put flushed st' :
  reach (mgr_step error_text) (NewStreamManager kv) st ->
  update_exec i put flushed st = Some st' ->
  sups st' = sups st /\ runtimes st' = runtimes st /\ portClaims st' = portClaims st /\
  cancels st' = cancels st /\ dones st' = dones st /\
  (forall id, is_Some (generations st' !! id) <-> is_Some (generations st !! id)) /\
  (forall id c', configs st' !! id = Some c' ->
     exists c, configs st !! id = Some c /\ c' = with_pipeline c (sc_Pipeline c')).
Proof.
  intros Hr H. destruct (mgr_reach_inv error_text kv st Hr) as [M _ _].
  assert (Hsame : same_maps st st' ->
    sups st' = sups st /\ runtimes st' = runtimes st /\ portClaims st' = portClaims st /\
    cancels st' = cancels st /\ dones st' = dones st /\
    (forall id, is_Some (generations st' !! id) <-> is_Some (generations st !! id)) /\
    (forall id c', configs st' !! id = Some c' ->
       exists c, configs st !! id = Some c /\ c' = with_pipeline c (sc_Pipeline c'))).
  { intros (-> & -> & -> & -> & -> & -> & ->). split_and!; try done. intros id c Hc. exists c.
    by rewrite with_pipeline_id. }
  unfold update_exec in H. apply bind_Some in H as (u & Hu & H).
  destruct u as [id cfg|id cfg|id cfg next|id next|id gen res|res]; [| | | | |done].
  - injection H as <-. by apply Hsame.
  - pose proof (NewGeneration_maps id cfg st) as Hm.
    destruct (NewGeneration id cfg st) as [g st1]. injection H as <-. apply Hsame. exact Hm.
  - destruct (generations st !! id) as [previous|] eqn:Hg; [|injection H as <-; by apply Hsame].
    assert (is_Some (configs st !! id)) as [old Hold].
    { rewrite (mi_cfg _ M), (proj2 (mi_sup _ M id)); [eauto|]. apply (mi_gen _ M). eauto. }
    rewrite Hold in H. simpl in H.
    destruct (acked st) as [kv'|] eqn:Hst, put as [e|]; injection H as <-; [by apply Hsame|..];
      simpl; (split_and!; [done..| |]);
      try (intros j; rewrite lookup_insert_is_Some; destruct (decide (id = j)) as [<-|]; naive_solver);
      intros j c' Hj; apply lookup_insert_Some in Hj as [[<- <-]|[Hne Hj]];
      [exists old; done|exists c'; by rewrite with_pipeline_id| |exists c'; by rewrite with_pipeline_id|
       |exists c'; by rewrite with_pipeline_id]; exists old; done.
  - injection H as <-. by apply Hsame.
  - injection H as <-. by apply Hsame.
Qed.

(** An update that committed, and one the store refused. *)
Definition committed (id : string) cfg (next : nat) st st2 : Prop :=
  exists previous old, generations st !! id = Some previous /\ configs st !! id = Some old /\
  generations st2 = <[id := next]> (generations st) /\
  configs st2 = <[id := with_pipeline old cfg]> (configs st) /\
  acked st2 = <[id := with_pipeline old cfg]> <$> acked st /\ in_doubt st2 = in_doubt st /\
  m_retired st2 = {[ previous ]} ∪ m_retired st /\ next ∉ m_retired st2.

Definition rolled_back (id : string) cfg (next : nat) st st2 : Prop :=
  same_maps st st2 /\ acked st2 = acked st /\
  (exists old, configs st !! id = Some old /\ in_doubt st2 = in_doubt st ++ [OPut (with_pipeline old cfg)]) /\
  m_retired st2 = {[ next ]} ∪ m_retired st /\
  (forall g, generations st2 !! id = Some g -> g ∉ m_retired st2).

(** The step after a commit, or after a refused one: the call retires what it
    still holds, and returns. *)
Lemma retire_step_of st i id g res put flushed st' :
  updates st !! i = Some (URetire id g res) -> update_exec i put flushed st = Some st' ->
  updates st' !! i = Some (UEnd res) /\ same_maps st st' /\ acked st' = acked st /\
  in_doubt st' = in_doubt st /\ m_retired st' = {[ g ]} ∪ m_retired st.
Proof.
  intros Hu H. unfold update_exec in H. rewrite Hu in H. simpl in H. injection H as <-.
  split; [|done]. simpl. rewrite list_lookup_insert_eq; [done|by eapply lookup_lt_Some].
Qed.

(** (C13) An update commits as a whole or not at all, in the process.  With the new
    generation built, the commit and the retirement that follows end either with the
    new pipeline installed, in the configuration and in a write the store has
    acknowledged, and the previous generation retired; or, when the store refuses,
    with every map and what the store has acknowledged as they were, the new
    generation retired, and the refused write, of the stream's configuration with the
    new pipeline, in doubt.  The generation that serves the stream is never the
    retired one. *)
Theorem update_commits_or_rolls_back error_text kv st i put flushed put' flushed' id cfg next st1 st2 :
  reach (mgr_step error_text) (NewStreamManager kv) st ->
  updates st !! i = Some (UCommit id cfg next) -> is_Some (generations st !! id) ->
  update_exec i put flushed st = Some st1 -> update_exec i put' flushed' st1 = Some st2 ->
  (updates st2 !! i = Some (UEnd (Ok tt)) /\ committed id cfg next st st2) \/
  (exists why, put = Some why /\ is_Some (acked st) /\
     updates st2 !! i = Some (UEnd (Err (EPersistPipeline id why))) /\ rolled_back id cfg next st st2).
Proof.
  intros Hr Hu [previous Hg] H1 H2. destruct (mgr_reach_inv error_text kv st Hr) as [M G _].
  destruct (gens_disjoint st G) as (D1 & D2 & _).
  assert (next ∈ omap update_gen (updates st)) as Hnext.
  { apply list_elem_of_omap. exists (UCommit id cfg next). split; [by eapply list_elem_of_lookup_2|done]. }
  destruct (D1 id previous Hg) as [Hpr Hpu]. pose proof (D2 next Hnext) as Hnr.
  assert (is_Some (configs st !! id)) as [old Hold].
  { rewrite (mi_cfg _ M), (proj2 (mi_sup _ M id)); [eauto|]. apply (mi_gen _ M). eauto. }
  assert (sc_ID old = id) as Hid by apply (mi_ids _ M id old Hold).
  assert (Hi : (i < length (updates st))%nat) by (by eapply lookup_lt_Some).
  unfold update_exec in H1. rewrite Hu in H1. simpl in H1. rewrite Hg, Hold in H1. simpl in H1. rewrite Hid in H1.
  set (good := set_update i (URetire id previous (Ok tt))
      (set_maps (<[id := next]> (generations st)) (<[id := with_pipeline old cfg]> (configs st))
         (cancels st) (dones st) (runtimes st) (portClaims st)
         (set_acked (<[id := with_pipeline old cfg]> <$> acked st) st))) in *.
  assert (Hgood : st1 = good ->
    updates st2 !! i = Some (UEnd (Ok tt)) /\ committed id cfg next st st2).
  { intros ->. destruct (retire_step_of good i id previous (Ok tt) put' flushed' st2) as (-> & Hm & Hs & Hdt & Hret);
      [subst good; simpl; by apply list_lookup_insert_eq|done|].
    destruct Hm as (E1 & E2 & _). split; [done|]. exists previous, old. rewrite E1, E2, Hs, Hdt, Hret.
    split_and!; try done. simpl. set_solver. }
  destruct (acked st) as [kv'|] eqn:Hst; [destruct put as [why|]|].
  2, 3: left; apply Hgood; by injection H1.
  right. exists why. injection H1 as <-.
  destruct (retire_step_of (set_update i (URetire id next (Err (EPersistPipeline id why)))
              (doubt (OPut (with_pipeline old cfg)) st)) i id next (Err (EPersistPipeline id why)) put' flushed' st2
              (list_lookup_insert_eq _ _ _ Hi) H2) as (-> & Hm & Hs & Hdt & Hret).
  split_and!; [done|done|done|]. split_and!; [exact Hm|by rewrite Hs|by exists old|exact Hret|].
  destruct Hm as (E1 & _). rewrite E1, Hret. simpl. rewrite Hg. intros g [= <-]. set_solver.
Qed.

(** ** Ports *)

(** The port registry compares ports as the numbers they are: two spellings
    the validator accepts claim the same port exactly when they denote the same
    number, and the claim of a claim is itself. *)
Theorem claims_compare_numbers p1 p2 path1 path2 :
  validatePort path1 p1 = Ok tt -> validatePort path2 p2 = Ok tt ->
  (canonicalPort p1 = canonicalPort p2 <-> atoi p1 = atoi p2) /\
  canonicalPort (canonicalPort p1) = canonicalPort p1.
Proof.
  unfold validatePort, canonicalPort. destruct (atoi p1) as [n1|] eqn:E1; [|done].
  destruct (atoi p2) as [n2|] eqn:E2; [|done]. intros _ _. apply atoi_range in E1, E2. split.
  - split; [intros H; f_equal; by apply itoa_inj|by intros [= ->]].
  - by rewrite atoi_itoa.
Qed.

(** ** Updates and the registry *)

(** A refused update leaves the registry describing a pipeline that does not
    run.  Building the new pipeline already wrote its dedup gauges over those of
    the generation that keeps serving the stream, or deleted them; when the store
    then refuses the write, the maps are rolled back and the gauges are not. *)
Theorem refused_update_overwrites_gauges st i id c why put flushed put' flushed' st1 st2 st3 :
  updates st !! i = Some (UBuild id (Some c)) -> ValidateConfig (Some c) = Ok tt ->
  is_Some (generations st !! id) -> is_Some (acked st) ->
  update_exec i put flushed st = Some st1 ->
  update_exec i (Some why) flushed st1 = Some st2 ->
  update_exec i put' flushed' st2 = Some st3 ->
  updates st3 !! i = Some (UEnd (Err (EPersistPipeline id why))) /\ same_maps st st3 /\
  DedupCacheCapacity (m_metrics st3) !! id = dedup_capacity c.
Proof.
  intros Hu Hv [g Hg] [kv Hkv] H1 H2 H3.
  assert (Hi : (i < length (updates st))%nat) by (by eapply lookup_lt_Some).
  destruct (valid_pipeline_ok id c (set_metrics (fun _ => m_metrics st) new_world) Hv) as (b & w & Hb).
  pose proof (build_capacity _ _ _ _ _ Hb) as Hcap.
  unfold update_exec in H1. rewrite Hu in H1. simpl in H1. unfold NewGeneration in H1. rewrite Hb in H1.
  simpl in H1. injection H1 as <-.
  unfold update_exec in H2. simpl in H2. rewrite list_lookup_insert_eq in H2 by done. simpl in H2.
  rewrite Hg, Hkv in H2. injection H2 as <-.
  unfold update_exec in H3. simpl in H3. rewrite list_insert_insert_eq, list_lookup_insert_eq in H3 by done.
  simpl in H3. injection H3 as <-. simpl.
  rewrite !list_insert_insert_eq, list_lookup_insert_eq by done. split; [done|]. split; [done|].
  rewrite <- Hcap. generalize (w_metrics w). induction flushed' as [|e fl IH]; intros m; [done|].
  simpl. by rewrite IH.
Qed.

(** The retirement that ends an update runs outside the lock, so a removal
    can overtake it: the batched events it then flushes recreate the published
    counters of a stream that is no longer listed and had lost every series. *)
Theorem late_retirement_revives_series st i id g res put ev flushed st' :
  updates st !! i = Some (URetire id g res) -> runtimes st !! id = None ->
  stream_absent id (m_metrics st) ->
  update_exec i put (ev :: flushed) st = Some st' ->
  runtimes st' !! id = None /\
  exists n, EventsPublished (m_metrics st') !! id = Some n.
Proof.
  intros Hu Hrt Ha H. unfold update_exec in H. rewrite Hu in H. simpl in H. injection H as <-.
  split; [done|]. simpl.
  assert (Hs : forall m, is_Some (EventsPublished m !! id) ->
    is_Some (EventsPublished (foldl (fun m e => publishFunc id e m) m flushed) !! id)).
  { induction flushed as [|e fl IH]; intros m Hm; [done|]. simpl. apply IH. simpl. unfold counter_add.
    rewrite lookup_insert_eq. eauto. }
  apply Hs. simpl. unfold counter_add. rewrite lookup_insert_eq. eauto.
Qed.

(** ** Witnesses *)

Definition plain (a : m_action) : bool := match a with MRestore _ _ _ => false | _ => true end.

Lemma m_run_reach txt sched st st' :
  forallb plain sched = true -> m_run txt sched st = Some st' -> reach (mgr_step txt) st st'.
Proof.
  revert st. induction sched as [|a sched IH]; simpl; intros st Hp H; [injection H as ->; auto|].
  apply andb_true_iff in Hp as [Ha Hp]. apply bind_Some in H as (st1 & H1 & H).
  eapply reach_trans; [|by apply IH]. apply reach_one. exists a. split; [|done]. by destruct a.
Qed.

Definition no_text (e : mgr_error) : string := EmptyString.
Definition fresh_manager : mstate := NewStreamManager (Some ∅).

Definition dedup_pipeline : PipelineConfig :=
  mkPipelineConfig None None None (Some (mkDedupConfig true 100 "30s")) None None.

Definition webhook (id port : string) : StreamSourceConfig :=
  mkSourceConfig id "webhook" EmptyString "t" ∅ None (Some (mkWebhookConfig port "/in" EmptyString)) None
    None None (Some dedup_pipeline) None.

Definition state_after (sched : list m_action) : mstate :=
  default fresh_manager (m_run no_text sched fresh_manager).

(** Two streams, a third refused for its port under another spelling, and an
    update of the first one in flight. *)
Definition busy_schedule : list m_action :=
  [MRegister (webhook "a" "9001") None None; MRegister (webhook "b" "9002") None None;
   MRegister (webhook "c" "09001") None None; MSup "a" AStart; MSup "a" (AReady 5);
   MUpdateCall "a" (Some empty_pipeline); MUpdateStep 0 None []; MUpdateStep 0 None []].

Definition busy : mstate := state_after busy_schedule.

Lemma busy_reach : reach (mgr_step no_text) fresh_manager busy.
Proof.
  apply (m_run_reach no_text busy_schedule); [reflexivity|].
  apply some_default. vm_compute. reflexivity.
Qed.

Lemma manager_consistent_witness :
  (forall id1 id2 c1 c2,
     is_Some (sups busy !! id1) -> is_Some (sups busy !! id2) ->
     configs busy !! id1 = Some c1 -> configs busy !! id2 = Some c2 ->
     connectorPort c1 = connectorPort c2 -> connectorPort c1 <> EmptyString -> id1 = id2) /\
  elements (cancels busy) = ["a"; "b"]%string /\ portClaims busy !! "9001"%string = Some "a"%string.
Proof.
  split; [apply (manager_consistent no_text (Some ∅) busy busy_reach)|]. vm_compute. done.
Defined.

Lemma no_generation_leaks_witness :
  (2 ∈ omap update_gen (updates busy) /\ m_built busy = 3)%nat /\
  forall g, (g < 3)%nat ->
    (exists id, generations busy !! id = Some g) \/ g ∈ omap update_gen (updates busy) \/ g ∈ m_retired busy.
Proof.
  split; [split; [|vm_compute; reflexivity]; vm_compute; left|].
  apply (no_generation_leaks no_text (Some ∅) busy busy_reach).
Defined.

Lemma store_describes_running_witness :
  exists kv c, acked busy = Some kv /\ kv !! "a"%string = Some c /\ sc_Pipeline c = Some dedup_pipeline.
Proof.
  edestruct (store_describes_running no_text (Some ∅) busy (default ∅ (acked busy)) "a"
               (webhook "a" "9001") busy_reach) as (c & Hk & _ & Hp & _).
  - apply some_default. vm_compute. reflexivity.
  - vm_compute. reflexivity.
  - exists (default ∅ (acked busy)), c. split; [apply some_default; vm_compute; reflexivity|].
    split; [exact Hk|exact Hp].
Defined.

Definition webhook_source (id port : string) : Source :=
  WebhookSource id "t" (mkWebhookConfig port "/in" EmptyString).


Lemma accepted_registration_witness :
  let r := Register (webhook_source "d" "9009") (webhook "d" "9009") None None busy in
  admission_accepted "d" (webhook "d" "9009") true busy r.2.
Proof.
  intros r. apply (accepted_registration (webhook_source "d" "9009") (webhook "d" "9009") None None busy r.2).
  - reflexivity.
  - apply ok_snd. vm_compute. reflexivity.
Defined.

Lemma validated_registration_witness :
  exists source, sourceFromConfig (webhook "c" "09001") = (Ok source, with_defaults (webhook "c" "09001")) /\
  (Register source (with_defaults (webhook "c" "09001")) None None busy).1 = Err (ErrPortConflict "9001" "a").
Proof.
  destruct (validated_registration (webhook "c" "09001") (fun _ => None) None busy) as (source & Hs & _).
  - vm_compute. reflexivity.
  - exists source. split; [exact Hs|]. injection Hs as <-. vm_compute. reflexivity.
Defined.

(** The supervisor of [b] has not started yet: it notices the cancellation after
    its first session. *)
Definition removed_b : mstate :=
  default busy (snd <$> Remove "b" None [AStart; ARunEnd None 0 0] [] busy).

Lemma removal_is_complete_witness :
  portClaims removed_b !! "9002"%string = None /\ stream_absent "b" (m_metrics removed_b) /\
  same_stream "a" (m_metrics removed_b) (m_metrics busy).
Proof.
  destruct (removal_is_complete no_text (Some ∅) busy "b" None [AStart; ARunEnd None 0 0] [] removed_b
              busy_reach) as (_ & _ & _ & Hp & _ & Ha & Ho).
  - apply ok_default. vm_compute. reflexivity.
  - split; [|split; [exact Ha|by apply Ho]].
    apply (Hp (webhook "b" "9002")); [vm_compute; reflexivity|].
    apply is_some_true. vm_compute. reflexivity.
Defined.

(** The update of [busy] is about to commit. *)
Definition updated_a : mstate := default busy (update_exec 0 None [] busy).

Lemma update_keeps_the_connection_witness :
  sups updated_a = sups busy /\ portClaims updated_a = portClaims busy /\
  generations updated_a !! "a"%string = Some 2%nat.
Proof.
  destruct (update_keeps_the_connection no_text (Some ∅) busy 0 None [] updated_a busy_reach)
    as (Hs & _ & Hp & _).
  - apply some_default. vm_compute. reflexivity.
  - split; [exact Hs|]. split; [exact Hp|]. vm_compute. reflexivity.
Defined.

Definition retired_a : mstate := default busy (update_exec 0 None [] updated_a).

Lemma update_commits_or_rolls_back_witness :
  committed "a" (Some empty_pipeline) 2 busy retired_a.
Proof.
  destruct (update_commits_or_rolls_back no_text (Some ∅) busy 0 None [] None [] "a" (Some empty_pipeline)
              2 updated_a retired_a busy_reach) as [[_ H]|(why & H & _)].
  - vm_compute. reflexivity.
  - apply is_some_true. vm_compute. reflexivity.
  - apply some_default. vm_compute. reflexivity.
  - apply some_default. vm_compute. reflexivity.
  - exact H.
  - discriminate H.
Defined.

(** The same update before its build, on a store that will refuse it. *)
Definition building : mstate := state_after (take 7 busy_schedule).
Definition built_a : mstate := default building (update_exec 0 None [] building).
Definition refused_a : mstate := default building (update_exec 0 (Some "quota"%string) [] built_a).
Definition ended_a : mstate := default building (update_exec 0 None [] refused_a).

Lemma refused_update_overwrites_gauges_witness :
  DedupCacheCapacity (m_metrics building) !! "a"%string = Some 100 /\
  (sc_Pipeline <$> configs ended_a !! "a"%string) = Some (Some dedup_pipeline) /\
  DedupCacheCapacity (m_metrics ended_a) !! "a"%string = None.
Proof.
  split; [vm_compute; reflexivity|]. split; [vm_compute; reflexivity|].
  apply (refused_update_overwrites_gauges building 0 "a" empty_pipeline "quota" None [] None []
           built_a refused_a ended_a);
    [vm_compute; reflexivity|vm_compute; reflexivity
    |apply is_some_true; vm_compute; reflexivity|apply is_some_true; vm_compute; reflexivity
    |apply some_default; vm_compute; reflexivity|apply some_default; vm_compute; reflexivity
    |apply some_default; vm_compute; reflexivity].
Defined.

(** The update commits, [a] is removed before it retires the old generation, and
    then one batched event comes out. *)
Definition overtaken_a : mstate := default busy (snd <$> Remove "a" None [ARunEnd None 9 9] [] updated_a).

Definition batched : StreamEvent := mkEvent "a" "t_batch" 0 0 EmptyString (Some "[1,2]"%string) EmptyString.

Definition revived_a : mstate := default busy (update_exec 0 None [batched] overtaken_a).

Lemma late_retirement_revives_series_witness :
  runtimes revived_a !! "a"%string = None /\
  exists n, EventsPublished (m_metrics revived_a) !! "a"%string = Some n.
Proof.
  apply (late_retirement_revives_series overtaken_a 0 "a" 0 (Ok tt) None batched [] revived_a).
  - vm_compute. reflexivity.
  - vm_compute. reflexivity.
  - refine (proj1 (Remove_metrics "a" None [ARunEnd None 9 9] [] updated_a overtaken_a _)).
    apply ok_default. vm_compute. reflexivity.
  - apply some_default. vm_compute. reflexivity.
Defined.

Lemma claims_compare_numbers_witness :
  canonicalPort "08081" = canonicalPort "8081" /\ canonicalPort "8081" <> canonicalPort "8082".
Proof.
  destruct (claims_compare_numbers "08081" "8081" "p" "p") as [H1 _]; [reflexivity..|].
  destruct (claims_compare_numbers "8081" "8082" "p" "p") as [H2 _]; [reflexivity..|].
  split; [apply H1; reflexivity|]. intros E. apply H2 in E. discriminate E.
Defined.
