(* ===== verification/Locking.v ===== *)
(** * internal/server/manager.go: what happens while an operation holds the lock

    [Remove] and [StopAll] wait for supervisors, and then for pipelines, with [mu]
    held.  Here each is the steps it takes between two waits; while it waits, every
    supervisor and every update that does not need the lock goes on.  What such runs
    do is what the single transitions of [Manager] do, and the lock is always
    released. *)

From Stdlib Require Import ZArith Lia.
From stdpp Require Import base tactics strings gmap sorting functions list.
From S2P Require Import Prelude GoLib GoFloat GoTime GoJsonValue Domain Telemetry ConfigError.
From S2P Require Import PipelineConfig Pipeline Dedup Middleware Builder Restart Validate Redact Supervisor Source.
From S2P Require Import Store Manager Writes ManagerInv ManagerSpec.

#[local] Open Scope Z_scope.

(** ** Who holds the lock, and where it is *)

Inductive holder : Type :=
| Unlocked
| RemoveJoin (id : string)                      (* [<-done] *)
| RemoveRetire (id : string)                    (* [ref.Load().Retire()] *)
| RemoveEnd (id : string)
| StopJoin                                      (* [wg.Wait()] *)
| StopRetire (todo : list (string * nat))       (* the loop over the generations *)
| StopEnd.

Record locked : Type := mkLocked { l_st : mstate; l_mu : holder }.

(** [cancel()] of one stream. *)
Definition cancel_one (cancels : gset string) (id : string) (ps : restartPolicy * sup_state)
  : restartPolicy * sup_state :=
  if bool_decide (id ∈ cancels) then (ps.1, cancel ps.2) else ps.

(** [Remove] up to its first wait. *)
Definition remove_begin (id : string) (deleted : option string) (st : mstate) : locked :=
  if negb (bool_decide (is_Some (runtimes st !! id))) then mkLocked st Unlocked
  else
    match acked st, deleted with
    | Some _, Some _ => mkLocked (doubt (ODelete id) st) Unlocked
    | _, _ =>
        mkLocked (set_sups (alter (cancel_one (cancels st) id) id) (set_acked (delete id <$> acked st) st))
          (RemoveJoin id)
    end.

(** [StopAll] up to its first wait. *)
Definition stop_begin (st : mstate) : locked :=
  mkLocked (set_sups (map_imap (fun id ps => Some (cancel_one (cancels st) id ps))) st) StopJoin.

(** A stream's [done] is closed, or it has none to wait for. *)
Definition joined (st : mstate) (id : string) : bool :=
  negb (bool_decide (id ∈ dones st)) ||
  match sups st !! id with
  | Some (_, s) => match s_pc s with CDone => true | _ => false end
  | None => true
  end.

Definition remove_end (id : string) (st : mstate) : mstate :=
  let st := set_sups (delete id) st in
  let st := set_maps (delete id (generations st)) (delete id (configs st))
              (cancels st ∖ {[ id ]}) (dones st ∖ {[ id ]}) (delete id (runtimes st))
              (releaseClaimsLocked id (portClaims st)) st in
  set_mmetrics (DeleteStreamSeries id) st.

Definition stop_end (st : mstate) : mstate :=
  let st := foldl (fun st ir => set_mmetrics (DeleteStreamSeries ir.1) st) st (map_to_list (runtimes st)) in
  set_maps ∅ ∅ ∅ ∅ ∅ ∅ (set_sups (fun _ => ∅) st).

(** The operation that holds the lock goes on from its wait: [flushed] is what the
    final flush of the pipeline it retires publishes. *)
Definition resume (flushed : list StreamEvent) (l : locked) : option locked :=
  let st := l_st l in
  match l_mu l with
  | Unlocked => None
  | RemoveJoin id => if joined st id then Some (mkLocked st (RemoveRetire id)) else None
  | RemoveRetire id =>
      Some (mkLocked (match generations st !! id with
                      | Some gen => Retire id gen flushed st
                      | None => st
                      end) (RemoveEnd id))
  | RemoveEnd id => Some (mkLocked (remove_end id st) Unlocked)
  | StopJoin =>
      if forallb (joined st) (elements (cancels st))
      then Some (mkLocked st (StopRetire (map_to_list (generations st)))) else None
  | StopRetire [] => Some (mkLocked st StopEnd)
  | StopRetire (ig :: todo) => Some (mkLocked (Retire ig.1 ig.2 flushed st) (StopRetire todo))
  | StopEnd => Some (mkLocked (stop_end st) Unlocked)
  end.

(** Which transitions of the manager take [mu], for reading or writing. *)
Definition takes_lock (a : m_action) (st : mstate) : bool :=
  match a with
  | MUpdateCall _ _ | MSup _ _ => false
  | MUpdateStep i _ _ =>
      match updates st !! i with Some (UCheck _ _) | Some (UCommit _ _ _) => true | _ => false end
  | _ => true
  end.

(** The operations this file takes apart. *)
Definition waits (a : m_action) : bool :=
  match a with MRemove _ _ _ _ | MStopAll _ _ => true | _ => false end.

Inductive l_action : Type :=
| LRemove (id : string) (deleted : option string)
| LStopAll
| LResume (flushed : list StreamEvent)
| LOther (a : m_action).

Definition is_unlocked (h : holder) : bool := match h with Unlocked => true | _ => false end.

Section Steps.
Variable error_text : mgr_error -> string.

Definition l_exec (a : l_action) (l : locked) : option locked :=
  match a with
  | LRemove id deleted => if is_unlocked (l_mu l) then Some (remove_begin id deleted (l_st l)) else None
  | LStopAll => if is_unlocked (l_mu l) then Some (stop_begin (l_st l)) else None
  | LResume flushed => resume flushed l
  | LOther a =>
      if waits a || (takes_lock a (l_st l) && negb (is_unlocked (l_mu l))) then None
      else st ← m_exec error_text a (l_st l); Some (mkLocked st (l_mu l))
  end.

Definition l_action_ok (a : l_action) (l : locked) : Prop :=
  match a with LOther a => action_ok a (l_st l) | _ => True end.

Definition l_step (l l' : locked) : Prop := exists a, l_action_ok a l /\ l_exec a l = Some l'.

Fixpoint l_run (sched : list l_action) (l : locked) : option locked :=
  match sched with
  | [] => Some l
  | a :: sched' => l' ← l_exec a l; l_run sched' l'
  end.
End Steps.

(** ** What the supervisors do meanwhile *)

(** Given [answers], the supervisor gets from [s0] to [s] and writes [ws]. *)
Definition drift (id : string) (p : restartPolicy) (answers : list sup_action) (s0 s : sup_state)
    (ws : list write) : Prop :=
  forall m, sup_run id p answers (on_registry m s0) = Some (on_registry (writes ws m) s).

Lemma sup_run_app id p l1 l2 s : sup_run id p (l1 ++ l2) s = sup_run id p l1 s ≫= sup_run id p l2.
Proof. revert s. induction l1 as [|a l1 IH]; intros s; simpl; [done|]. destruct (sup_exec id p a s); simpl; [apply IH|done]. Qed.

Lemma drift_snoc id p answers s0 s ws a m s' :
  drift id p answers s0 s ws -> sup_exec id p a (on_registry m s) = Some s' ->
  exists ws', Forall (of_supervisor id) ws' /\ s_metrics s' = writes ws' m /\
    drift id p (answers ++ [a]) s0 (park s') (ws ++ ws').
Proof.
  intros Hd Ha. destruct (sup_exec_writes id p a _ _ Ha) as (ws' & Hw & E). exists ws'.
  split; [done|]. split.
  - specialize (E m). change (on_registry m (on_registry m s)) with (on_registry m s) in E.
    rewrite Ha in E. injection E as E. by rewrite E.
  - intros m0. rewrite sup_run_app, Hd. simpl. specialize (E (writes ws m0)).
    change (on_registry (writes ws m0) (on_registry m s)) with (on_registry (writes ws m0) s) in E.
    rewrite E. simpl. by rewrite writes_app.
Qed.

Lemma sup_tick_inv id a st st' :
  sup_tick id a st = Some st' ->
  exists p s s', sups st !! id = Some (p, s) /\ is_cancel a = false /\
    sup_exec id p a (on_registry (m_metrics st) s) = Some s' /\
    st' = set_mmetrics (fun _ => s_metrics s') (set_sups (<[id := (p, park s')]>) st).
Proof.
  unfold sup_tick. intros H. apply bind_Some in H as ([p s] & Hs & H).
  destruct (is_cancel a) eqn:Hc; [done|]. apply bind_Some in H as (s' & He & H). injection H as <-.
  by exists p, s, s'.
Qed.

Lemma cancelled_stays id p a s s' :
  sup_exec id p a s = Some s' -> s_cancelled s = true -> s_cancelled s' = true.
Proof.
  intros Ha Hc. destruct s as [pc rt m c calls rs]; simpl in Hc; subst c.
  unfold sup_exec, attempt_failed in Ha.
  destruct a as [|[]|[e|] now|now|st ev|err n1 n2|], pc; simpl in Ha; try done;
    try (destruct (_ && _); [done|]); by simplify_eq/=.
Qed.

Definition all_writes (X : list string) (W : string -> list write) : list write := concat (W <$> X).

Lemma all_writes_cons k X W : all_writes (k :: X) W = W k ++ all_writes X W.
Proof. done. Qed.

Lemma all_writes_of X W w :
  (forall k, Forall (of_supervisor k) (W k)) -> w ∈ all_writes X W -> exists k, k ∈ X /\ of_supervisor k w.
Proof.
  intros HW. unfold all_writes. rewrite list_elem_of_In, in_concat. intros (l & Hl & Hw).
  apply list_elem_of_In in Hl, Hw. apply list_elem_of_fmap in Hl as (k & -> & Hk).
  exists k. split; [done|]. specialize (HW k). rewrite Forall_forall in HW. by apply HW.
Qed.

Lemma all_writes_other X W j ws :
  j ∉ X -> all_writes X (<[j := ws]> W) = all_writes X W.
Proof.
  intros Hj. unfold all_writes. f_equal. apply list_fmap_ext. intros i k Hk.
  rewrite fn_lookup_insert_ne; [done|]. intros ->. apply Hj. by eapply list_elem_of_lookup_2.
Qed.

(** One more step of one of them, wherever it stands in the list. *)
Lemma all_writes_snoc X W j ws m :
  NoDup X -> j ∈ X -> (forall k, Forall (of_supervisor k) (W k)) -> Forall (of_supervisor j) ws ->
  writes (all_writes X (<[j := W j ++ ws]> W)) m = writes ws (writes (all_writes X W) m).
Proof.
  intros Hnd Hj HW Hws. revert m Hj. induction Hnd as [|k X Hk Hnd IH]; intros m Hj; [set_solver|].
  rewrite !all_writes_cons. destruct (decide (k = j)) as [->|Hne].
  - rewrite fn_lookup_insert, all_writes_other, !writes_app by done. apply writes_comm.
    intros w1 w2 H1 H2. apply (all_writes_of X) in H2 as (i & Hi & H2); [|done].
    rewrite Forall_forall in Hws. eapply supervisors_swap; [by apply Hws|exact H2|]. by intros ->.
  - rewrite fn_lookup_insert_ne by done. rewrite !writes_app. apply IH. set_solver.
Qed.

(** What may be moved before what an operation has waited for. *)
Lemma swap_flush ws P m : Forall of_flush P -> writes ws (writes P m) = writes P (writes ws m).
Proof.
  rewrite Forall_forall. intros HP. apply writes_comm. intros w1 w2 H1 _.
  exact (proj1 (flush_swaps w1 w2 (HP w1 H1))).
Qed.

Lemma swap_pipeline X W ws m :
  (forall k, Forall (of_supervisor k) (W k)) -> Forall of_pipeline ws ->
  writes ws (writes (all_writes X W) m) = writes (all_writes X W) (writes ws m).
Proof.
  rewrite Forall_forall. intros HW Hws. apply writes_comm. intros w1 w2 H1 H2.
  apply (all_writes_of X) in H1 as (k & _ & H1); [|done]. exact (proj2 (pipeline_supervisor w2 w1 k (Hws w2 H2) H1)).
Qed.

Lemma swap_supervisor X W j ws m :
  j ∉ X -> (forall k, Forall (of_supervisor k) (W k)) -> Forall (of_supervisor j) ws ->
  writes ws (writes (all_writes X W) m) = writes (all_writes X W) (writes ws m).
Proof.
  rewrite Forall_forall. intros Hj HW Hws. apply writes_comm. intros w1 w2 H1 H2.
  apply (all_writes_of X) in H1 as (k & Hk & H1); [|done].
  eapply supervisors_swap; [done|by apply Hws|]. by intros ->.
Qed.

(** ** A state in which an operation waits, against the one it is the image of

    [c] is the state in which the operation has done nothing yet; the streams [X] are
    those it has cancelled. *)

Record waiting (X : list string) (F : option (gmap string StreamSourceConfig) -> option (gmap string StreamSourceConfig))
    (answers : string -> list sup_action) (W : string -> list write) (P : list write) (G : gset nat)
    (st c : mstate) : Prop := {
  wt_gens : generations st = generations c;
  wt_configs : configs st = configs c;
  wt_cancels : cancels st = cancels c;
  wt_dones : dones st = dones c;
  wt_runtimes : runtimes st = runtimes c;
  wt_claims : portClaims st = portClaims c;
  wt_store : acked st = F (acked c);
  wt_updates : updates st = updates c;
  wt_built : m_built st = m_built c;
  wt_calls : m_calls st = m_calls c;
  wt_doubts : in_doubt st = in_doubt c;
  wt_retired : m_retired st = G ∪ m_retired c;
  wt_metrics : m_metrics st = writes P (writes (all_writes X W) (m_metrics c));
  wt_out : forall j, j ∉ X -> sups st !! j = sups c !! j;
  wt_in : forall j, j ∈ X -> exists p s0 s, sups c !! j = Some (p, s0) /\ sups st !! j = Some (p, s) /\
            s_cancelled s = true /\ drift j p (answers j) (cancel s0) s (W j);
  wt_nodup : NoDup X;
  wt_of : forall k, Forall (of_supervisor k) (W k);
  wt_flush : Forall of_flush P
}.

(** Nothing but supervisors, updates and the registry changes meanwhile. *)
Definition only_runs (st st' : mstate) : Prop :=
  generations st' = generations st /\ cancels st' = cancels st /\ dones st' = dones st /\
  runtimes st' = runtimes st.

Section Waiting.
Context (X : list string).
Context (F : option (gmap string StreamSourceConfig) -> option (gmap string StreamSourceConfig)).
Implicit Types (answers : string -> list sup_action) (W : string -> list write).

Lemma waiting_writes answers W P G ws st c :
  waiting X F answers W P G st c -> Forall of_pipeline ws ->
  waiting X F answers W P G (add_writes ws st) (add_writes ws c).
Proof.
  intros [] Hws. split; simpl; try done. by rewrite wt_metrics0, swap_flush, swap_pipeline.
Qed.

Lemma waiting_built answers W P G n st c :
  waiting X F answers W P G st c ->
  waiting X F answers W P G (set_gens n (m_retired st) st) (set_gens n (m_retired c) c).
Proof. by intros []. Qed.

Lemma waiting_retired answers W P G n g st c :
  waiting X F answers W P G st c ->
  waiting X F answers W P G (set_gens n ({[ g ]} ∪ m_retired st) st) (set_gens n ({[ g ]} ∪ m_retired c) c).
Proof. intros []. split; simpl; try done. rewrite wt_retired0. set_solver. Qed.

Lemma waiting_update answers W P G u st c :
  waiting X F answers W P G st c -> waiting X F answers W P G (set_updates u st) (set_updates u c).
Proof. by intros []. Qed.

Lemma flush_of_pipeline ws : Forall of_flush ws -> Forall of_pipeline ws.
Proof. intros H. eapply Forall_impl; [exact H|]. by intros []. Qed.

Lemma waiting_retire answers W P G id g fl st c :
  waiting X F answers W P G st c -> waiting X F answers W P G (Retire id g fl st) (Retire id g fl c).
Proof.
  intros H. rewrite !Retire_writes, (wt_built _ _ _ _ _ _ _ _ H).
  apply (waiting_retired _ _ _ _ _ _ (add_writes _ st) (add_writes _ c)), waiting_writes; [done|].
  apply flush_of_pipeline, flush_writes_of.
Qed.

(** An update that needs no lock does the same on both sides. *)
Lemma waiting_update_step answers W P G i put fl st st' c :
  waiting X F answers W P G st c -> takes_lock (MUpdateStep i put fl) st = false ->
  update_exec i put fl st = Some st' ->
  only_runs st st' /\ exists c', update_exec i put fl c = Some c' /\ waiting X F answers W P G st' c'.
Proof.
  intros H Hl Hu. unfold update_exec, takes_lock in *. rewrite <- (wt_updates _ _ _ _ _ _ _ _ H).
  destruct (updates st !! i) as [u|]; [|done]. simpl in *.
  destruct u as [id cfg|id cfg|id cfg next|id next|id gen res|res]; try done.
  - destruct (NewGeneration_writes id cfg) as (e & ws & Hws & E). rewrite E in Hu. rewrite E.
    pose proof (waiting_writes _ _ _ _ ws _ _ H Hws) as H1.
    destruct e as [x|]; injection Hu as <-; (split; [done|]); eexists; (split; [done|]).
    + unfold set_update. rewrite (wt_updates _ _ _ _ _ _ _ _ H1). by apply waiting_update.
    + unfold set_update. simpl. rewrite (wt_built _ _ _ _ _ _ _ _ H), (wt_updates _ _ _ _ _ _ _ _ H).
      apply waiting_update. apply (waiting_built _ _ _ _ _ (add_writes ws st) (add_writes ws c)), H1.
  - injection Hu as <-. split; [done|]. eexists. split; [done|]. unfold set_update. simpl.
    rewrite (wt_updates _ _ _ _ _ _ _ _ H). apply waiting_update.
    apply (waiting_writes _ _ _ _ [WDropDedup id]); [by apply waiting_retire|by repeat constructor].
  - injection Hu as <-. split; [done|]. eexists. split; [done|]. unfold set_update. simpl.
    rewrite (wt_updates _ _ _ _ _ _ _ _ H). by apply waiting_update, waiting_retire.
Qed.

(** A supervisor that was not cancelled does the same on both sides; one that was
    gives one more answer to what the operation will be told. *)
Lemma waiting_tick_out answers W P G id a st st' c :
  waiting X F answers W P G st c -> id ∉ X -> sup_tick id a st = Some st' ->
  only_runs st st' /\ exists c', sup_tick id a c = Some c' /\ waiting X F answers W P G st' c'.
Proof.
  intros H Hid Ht. apply sup_tick_inv in Ht as (p & s & s' & Hs & Hc & He & ->). split; [done|].
  destruct (sup_exec_writes _ _ _ _ _ He) as (ws & Hws & E).
  assert (forall m, sup_exec id p a (on_registry m s) = Some (on_registry (writes ws m) s')) as Em by exact E.
  assert (s_metrics s' = writes ws (m_metrics st)) as ->.
  { specialize (Em (m_metrics st)). rewrite He in Em. injection Em as Em. by rewrite Em. }
  unfold sup_tick. rewrite <- (wt_out _ _ _ _ _ _ _ _ H id Hid), Hs. simpl. rewrite Hc.
  change (on_metrics (fun _ => m_metrics c) s) with (on_registry (m_metrics c) s). rewrite Em. simpl.
  eexists. split; [done|]. destruct H. split; simpl; try done.
  - by rewrite wt_metrics0, swap_flush, (swap_supervisor _ _ id) by done.
  - intros j Hj. destruct (decide (id = j)) as [->|Hne]; [by rewrite !lookup_insert_eq|].
    rewrite !lookup_insert_ne by done. by apply wt_out0.
  - intros j Hj. assert (id <> j) by (by intros ->). rewrite !lookup_insert_ne by done. by apply wt_in0.
Qed.

Lemma waiting_tick_in answers W P G id a st st' c :
  waiting X F answers W P G st c -> id ∈ X -> sup_tick id a st = Some st' ->
  only_runs st st' /\
  exists ws, waiting X F (<[id := answers id ++ [a]]> answers) (<[id := W id ++ ws]> W) P G st' c.
Proof.
  intros H Hid Ht. apply sup_tick_inv in Ht as (p & s & s' & Hs & Hc & He & ->). split; [done|].
  destruct (wt_in _ _ _ _ _ _ _ _ H id Hid) as (p0 & s0 & s1 & Hc0 & Hs1 & Hcan & Hd).
  rewrite Hs in Hs1. injection Hs1 as <- <-.
  destruct (drift_snoc _ _ _ _ _ _ _ _ _ Hd He) as (ws & Hws & Hm & Hd'). exists ws.
  apply cancelled_stays in He; [|done]. destruct H. split; simpl; try done.
  - by rewrite Hm, all_writes_snoc, wt_metrics0, swap_flush by done.
  - intros j Hj. assert (id <> j) by (by intros ->). rewrite lookup_insert_ne by done. by apply wt_out0.
  - intros j Hj. destruct (decide (id = j)) as [->|Hne].
    + rewrite lookup_insert_eq, !fn_lookup_insert. by exists p, s0, (park s').
    + rewrite lookup_insert_ne, !fn_lookup_insert_ne by done. by apply wt_in0.
  - intros k. destruct (decide (id = k)) as [->|Hne].
    + rewrite fn_lookup_insert. by apply Forall_app.
    + by rewrite fn_lookup_insert_ne by done.
Qed.
End Waiting.

(** ** The moment the lock is released *)

(** Every supervisor the operation waited for has returned. *)
Definition finished (X : list string) (st : mstate) : Prop :=
  forall j, j ∈ X -> exists p s, sups st !! j = Some (p, s) /\ s_pc s = CDone.

Lemma drift_finishes id p answers s0 s ws m :
  drift id p answers (cancel s0) s ws -> s_pc s = CDone ->
  sup_finish id true answers (p, s0) m = Some (writes ws m).
Proof.
  intros Hd Hpc. unfold sup_finish. rewrite orb_true_r. cbn [fst snd].
  change (mkSup _ _ _ _ _ _) with (on_registry m (cancel s0)). rewrite Hd. simpl. by rewrite Hpc.
Qed.

Lemma waiting_finish X F answers W P G st c j p s0 m :
  waiting X F answers W P G st c -> finished X st -> j ∈ X -> sups c !! j = Some (p, s0) ->
  sup_finish j true (answers j) (p, s0) m = Some (writes (W j) m).
Proof.
  intros H Hf Hj Hs. destruct (wt_in _ _ _ _ _ _ _ _ H j Hj) as (p1 & s1 & s & Hc & Hst & _ & Hd).
  destruct (Hf j Hj) as (p2 & s2 & Hst2 & Hpc). rewrite Hst in Hst2. injection Hst2 as <- <-.
  rewrite Hs in Hc. injection Hc as <- <-. by eapply drift_finishes.
Qed.

Definition retired_writes (flushed : string -> list StreamEvent) (l : list (string * nat)) : list write :=
  concat ((fun ig => flush_writes ig.1 (flushed ig.1)) <$> l).
Definition retired_gens (l : list (string * nat)) : gset nat := list_to_set l.*2.

Lemma retire_all flushed l st :
  foldl (fun st ig => Retire ig.1 ig.2 (flushed ig.1) st) st l
  = set_gens (m_built st) (retired_gens l ∪ m_retired st) (add_writes (retired_writes flushed l) st).
Proof.
  revert st. induction l as [|[i g] l IH]; intros st; simpl.
  - unfold retired_gens. simpl. rewrite (left_id_L ∅ (∪)). by destruct st.
  - rewrite IH, Retire_writes. unfold retired_writes, add_writes, set_gens, set_mmetrics. simpl.
    rewrite writes_app. f_equal. unfold retired_gens. simpl. set_solver.
Qed.

Lemma delete_all (l : list (string * rt_ref)) st :
  foldl (fun st ir => set_mmetrics (DeleteStreamSeries ir.1) st) st l
  = set_mmetrics (fun m => foldl (fun m ir => DeleteStreamSeries ir.1 m) m l) st.
Proof.
  revert st. induction l as [|ir l IH]; intros st; simpl; [by destruct st|]. by rewrite IH.
Qed.

Definition cancelled_by (id : string) (c : mstate) : list string :=
  if bool_decide (id ∈ cancels c) then [id] else [].

Lemma mstate_eq st1 st2 :
  generations st1 = generations st2 -> configs st1 = configs st2 -> cancels st1 = cancels st2 ->
  dones st1 = dones st2 -> runtimes st1 = runtimes st2 -> portClaims st1 = portClaims st2 ->
  acked st1 = acked st2 -> m_metrics st1 = m_metrics st2 -> sups st1 = sups st2 ->
  m_built st1 = m_built st2 -> m_retired st1 = m_retired st2 -> updates st1 = updates st2 ->
  m_calls st1 = m_calls st2 -> in_doubt st1 = in_doubt st2 -> st1 = st2.
Proof. destruct st1, st2. simpl. intros. by subst. Qed.

Lemma waiting_sups id F answers W P G st c :
  waiting (cancelled_by id c) F answers W P G st c -> delete id (sups c) = delete id (sups st).
Proof.
  intros H. apply map_eq. intros j. destruct (decide (id = j)) as [->|Hne]; [by rewrite !lookup_delete_eq|].
  rewrite !lookup_delete_ne by done. symmetry. apply (wt_out _ _ _ _ _ _ _ _ H).
  unfold cancelled_by. case_bool_decide; set_solver.
Qed.

(** [Remove], done at once, ends where the steps did. *)
Lemma remove_matches id answers W fl st c :
  maps_inv c -> is_Some (runtimes c !! id) ->
  waiting (cancelled_by id c) (fmap (delete id)) answers W
    (match generations c !! id with Some _ => flush_writes id fl | None => [] end)
    (match generations c !! id with Some g => {[ g ]} | None => ∅ end) st c ->
  finished (cancelled_by id c) st ->
  Remove id None (answers id) fl c = Some (Ok tt, remove_end id st).
Proof.
  intros I Hid H Hf. unfold Remove. rewrite bool_decide_true by done. simpl.
  assert (Hm : (match sups c !! id with
          | Some ps => if bool_decide (id ∈ dones c)
                       then sup_finish id (bool_decide (id ∈ cancels c)) (answers id) ps (m_metrics c)
                       else Some (m_metrics c)
          | None => Some (m_metrics c) end) = Some (writes (all_writes (cancelled_by id c) W) (m_metrics c))).
  { pose proof (mi_can _ I id) as Hc. pose proof (mi_don _ I id) as Hd. revert H Hf. unfold cancelled_by.
    destruct (sups c !! id) as [[p s0]|] eqn:Hs.
    - rewrite !bool_decide_true by (by apply Hc || apply Hd). intros H Hf.
      rewrite (waiting_finish _ _ _ _ _ _ _ _ _ _ _ _ H Hf) by (done || by left).
      unfold all_writes. simpl. by rewrite app_nil_r.
    - rewrite bool_decide_false; [done|]. rewrite Hc. by intros [? ?]. }
  rewrite Hm. pose proof (waiting_sups _ _ _ _ _ _ _ _ H) as Hsup.
  destruct H as [Eg Ec Ek Ed Er Ep Es Eu Eb El Edt Et Em _ _ _ _ _].
  assert (forall r : result mgr_error unit * mstate,
    (match acked c with Some _ => Some r | None => Some r end) = Some r) as Hstore by (by destruct (acked c)).
  simpl. rewrite Hstore. f_equal. f_equal. destruct (generations c !! id) as [g|] eqn:Hg.
  all: rewrite ?Retire_writes; apply mstate_eq; simpl;
    by rewrite ?Eg, ?Ec, ?Ek, ?Ed, ?Er, ?Ep, ?Es, ?Eu, ?Eb, ?El, ?Edt, ?Et, ?Em, ?Hsup, ?(left_id_L ∅ (∪)).
Qed.

(** So does [StopAll]. *)
Lemma stop_matches answers W flushed st c :
  maps_inv c ->
  waiting (elements (cancels c)) (fun kv => kv) answers W (retired_writes flushed (map_to_list (generations c)))
    (retired_gens (map_to_list (generations c))) st c ->
  finished (elements (cancels c)) st ->
  StopAll answers flushed c = Some (stop_end st).
Proof.
  intros I H Hf. unfold StopAll.
  assert (Hj : forall X m, X ⊆ elements (cancels c) ->
            foldl (join_one answers c) (Some m) X = Some (writes (all_writes X W) m)).
  { induction X as [|j X IH]; intros m HX; [done|]. simpl. rewrite all_writes_cons, writes_app.
    assert (Hin : j ∈ elements (cancels c)) by set_solver.
    destruct (wt_in _ _ _ _ _ _ _ _ H j Hin) as (p & s0 & _ & Hs & _). rewrite Hs, bool_decide_true.
    - rewrite (waiting_finish _ _ _ _ _ _ _ _ _ _ _ _ H Hf Hin Hs). apply IH. set_solver.
    - apply (mi_don _ I). eauto. }
  rewrite Hj by done. simpl. rewrite retire_all, delete_all. unfold stop_end. rewrite delete_all.
  f_equal. destruct H as [Eg Ec Ek Ed Er Ep Es Eu Eb El Edt Et Em _ _ _ _ _]. apply mstate_eq; simpl;
    by rewrite ?Er, ?Es, ?Eu, ?Eb, ?El, ?Edt, ?Et, ?Em.
Qed.

(** Where the waiting starts, and what the operation's own retirements add to it. *)
Lemma waiting_begin X F f st :
  NoDup X -> (forall j, j ∉ X -> f (sups st) !! j = sups st !! j) ->
  (forall j, j ∈ X -> exists p s, sups st !! j = Some (p, s) /\ f (sups st) !! j = Some (p, cancel s)) ->
  waiting X F (fun _ => []) (fun _ => []) [] ∅ (set_sups f (set_acked (F (acked st)) st)) st.
Proof.
  intros Hnd Hout Hin. split; simpl; try done.
  - by rewrite (left_id_L ∅ (∪)).
  - assert (all_writes X (fun _ => []) = []) as -> by (unfold all_writes; clear; by induction X). done.
  - intros j Hj. destruct (Hin j Hj) as (p & s & H1 & H2). by exists p, s, (cancel s).
Qed.

Lemma waiting_own_retire X F answers W P G id g fl st c :
  waiting X F answers W P G st c ->
  waiting X F answers W (P ++ flush_writes id fl) ({[ g ]} ∪ G) (Retire id g fl st) c.
Proof.
  intros []. rewrite Retire_writes. split; simpl; try done.
  - rewrite wt_retired0. set_solver.
  - by rewrite writes_app, wt_metrics0.
  - apply Forall_app. split; [done|apply flush_writes_of].
Qed.

Lemma joined_finished X F answers W P G st c :
  maps_inv c -> waiting X F answers W P G st c -> (forall j, j ∈ X -> joined st j = true) -> finished X st.
Proof.
  intros I H Hj j Hin. destruct (wt_in _ _ _ _ _ _ _ _ H j Hin) as (p & s0 & s & Hc & Hs & _).
  exists p, s. split; [done|]. specialize (Hj j Hin). unfold joined in Hj.
  rewrite (wt_dones _ _ _ _ _ _ _ _ H), bool_decide_true, Hs in Hj by (apply (mi_don _ I); eauto).
  simpl in Hj. by destruct (s_pc s).
Qed.

Lemma retired_writes_snoc flushed past ig fl :
  ig.1 ∉ past.*1 ->
  retired_writes (<[ig.1 := fl]> flushed) (past ++ [ig]) = retired_writes flushed past ++ flush_writes ig.1 fl.
Proof.
  intros Hn. unfold retired_writes. rewrite fmap_app, concat_app. simpl.
  rewrite fn_lookup_insert, app_nil_r. f_equal. f_equal. apply list_fmap_ext. intros i jg Hjg.
  rewrite fn_lookup_insert_ne; [done|]. intros E. apply Hn. rewrite E.
  by apply list_elem_of_fmap_2, (list_elem_of_lookup_2 _ i).
Qed.

Lemma waiting_only_runs X F answers W P G answers' W' P' G' st st' c c' :
  waiting X F answers W P G st c -> only_runs st st' -> waiting X F answers' W' P' G' st' c' ->
  only_runs c c'.
Proof.
  intros [E1 _ E2 E3 E4 _ _ _ _ _ _ _ _ _ _ _ _ _] (R1 & R2 & R3 & R4)
    [E1' _ E2' E3' E4' _ _ _ _ _ _ _ _ _ _ _ _ _].
  unfold only_runs. split_and!; congruence.
Qed.

Lemma update_exec_sups i put fl st st' : update_exec i put fl st = Some st' -> sups st' = sups st.
Proof.
  unfold update_exec. intros H. apply bind_Some in H as (u & _ & H).
  destruct u as [id cfg|id cfg|id cfg next|id next|id gen res|res]; try done; try by injection H as <-.
  - destruct (NewGeneration_maps id cfg st) as (_ & _ & _ & _ & _ & _ & Hs).
    destruct (NewGeneration id cfg st) as [g st1]. injection H as <-. exact Hs.
  - destruct (generations st !! id); [|by injection H as <-].
    destruct (acked st), put; by injection H as <-.
Qed.
