(* ===== verification/LockingSpec.v ===== *)
(** * The manager's lock: atomicity and release

    Every run of the steps of [Locking] is a run of the single transitions of
    [Manager], and from every state in which the lock is held it is released. *)

From Stdlib Require Import ZArith Lia.
From stdpp Require Import base tactics strings gmap sorting functions list.
From S2P Require Import Prelude GoLib GoFloat GoTime GoJsonValue Domain Telemetry ConfigError.
From S2P Require Import PipelineConfig Pipeline Dedup Middleware Builder Restart Validate Redact Supervisor Source.
From S2P Require Import Store Manager Writes ManagerInv ManagerSpec Locking.

#[local] Open Scope Z_scope.

(** ** Every run of the steps is a run of the operations *)

Section Atomicity.
Variable error_text : mgr_error -> string.

#[local] Abbreviation step := (mgr_step error_text).
#[local] Abbreviation fine := (l_step error_text).

(** [sim l c]: the operation that holds the lock in [l], if any, is yet to run in [c]. *)
Inductive sim : locked -> mstate -> Prop :=
| sim_unlocked c : sim (mkLocked c Unlocked) c
| sim_remove_join id answers W st c :
    is_Some (runtimes c !! id) -> waiting (cancelled_by id c) (fmap (delete id)) answers W [] ∅ st c ->
    sim (mkLocked st (RemoveJoin id)) c
| sim_remove_retire id answers W st c :
    is_Some (runtimes c !! id) -> waiting (cancelled_by id c) (fmap (delete id)) answers W [] ∅ st c ->
    finished (cancelled_by id c) st -> sim (mkLocked st (RemoveRetire id)) c
| sim_remove_end id answers W fl st c :
    is_Some (runtimes c !! id) ->
    waiting (cancelled_by id c) (fmap (delete id)) answers W
      (match generations c !! id with Some _ => flush_writes id fl | None => [] end)
      (match generations c !! id with Some g => {[ g ]} | None => ∅ end) st c ->
    finished (cancelled_by id c) st -> sim (mkLocked st (RemoveEnd id)) c
| sim_stop_join answers W st c :
    waiting (elements (cancels c)) (fun kv => kv) answers W [] ∅ st c -> sim (mkLocked st StopJoin) c
| sim_stop_retire answers W flushed past todo st c :
    map_to_list (generations c) = past ++ todo ->
    waiting (elements (cancels c)) (fun kv => kv) answers W (retired_writes flushed past)
      (retired_gens past) st c ->
    finished (elements (cancels c)) st -> sim (mkLocked st (StopRetire todo)) c
| sim_stop_end answers W flushed st c :
    waiting (elements (cancels c)) (fun kv => kv) answers W
      (retired_writes flushed (map_to_list (generations c)))
      (retired_gens (map_to_list (generations c))) st c ->
    finished (elements (cancels c)) st -> sim (mkLocked st StopEnd) c.

(** A supervisor that has returned does nothing more. *)
Lemma done_stays id p a s : s_pc s = CDone -> is_cancel a = false -> sup_exec id p a s = None.
Proof. intros Hpc Ha. destruct a as [|[]|[]| | | |]; simpl in *; by rewrite ?Hpc. Qed.

Lemma finished_tick X id a st st' : finished X st -> sup_tick id a st = Some st' -> finished X st' /\ id ∉ X.
Proof.
  intros Hf Ht. apply sup_tick_inv in Ht as (p & s & s' & Hs & Hc & He & ->).
  assert (id ∉ X) as Hid.
  { intros Hj. destruct (Hf id Hj) as (p1 & s1 & Hs1 & Hpc). rewrite Hs in Hs1. injection Hs1 as <- <-.
    rewrite done_stays in He; [done|exact Hpc|exact Hc]. }
  split; [|done]. intros j Hj. simpl. rewrite lookup_insert_ne by (by intros ->). by apply Hf.
Qed.

(** What goes on while the lock is held: [c] follows, or one of the operation's own
    supervisors has moved. *)
Lemma waiting_other X F answers W P G a st st' c :
  waiting X F answers W P G st c -> waits a = false -> takes_lock a st = false ->
  m_exec error_text a st = Some st' ->
  (exists answers' W' c', reach step c c' /\ only_runs c c' /\ waiting X F answers' W' P G st' c') /\
  (finished X st -> finished X st').
Proof.
  intros H Hw Hl Ha. destruct a as [| | | |id cfg|i put fl|id a]; try done; cbn [m_exec] in Ha.
  - injection Ha as <-. split; [|done]. exists answers, W, (set_updates (updates c ++ [UCheck id cfg]) c).
    split; [|split; [done|]].
    + apply reach_one. by exists (MUpdateCall id cfg).
    + rewrite (wt_updates _ _ _ _ _ _ _ _ H). by apply waiting_update.
  - destruct (waiting_update_step X F _ _ _ _ _ _ _ _ _ _ H Hl Ha) as (Hr & c' & Hc & H'). split.
    + exists answers, W, c'. split; [|split; [|done]].
      * apply reach_one. by exists (MUpdateStep i put fl).
      * by eapply waiting_only_runs.
    + intros Hf j Hj. rewrite (update_exec_sups _ _ _ _ _ Ha). by apply Hf.
  - split; [|by intros Hf; apply (finished_tick X id a st st')].
    destruct (decide (id ∈ X)) as [Hid|Hid].
    + destruct (waiting_tick_in X F _ _ _ _ _ _ _ _ _ H Hid Ha) as (_ & ws & H').
      by eexists _, _, c.
    + destruct (waiting_tick_out X F _ _ _ _ _ _ _ _ _ H Hid Ha) as (Hr & c' & Hc & H').
      exists answers, W, c'. split; [|split; [by eapply waiting_only_runs|done]].
      apply reach_one. by exists (MSup id a).
Qed.
(** The operation goes on. *)
Lemma sim_resume flushed l l' c :
  maps_inv c -> sim l c -> resume flushed l = Some l' ->
  exists c', reach step c c' /\ sim l' c'.
Proof.
  intros I Hs Hr. destruct Hs as [c|id ans W st c Hid H|id ans W st c Hid H Hf|id ans W fl st c Hid H Hf
    |ans W st c H|ans W fl past [|ig todo] st c Hl H Hf|ans W fl st c H Hf]; cbn [resume l_mu l_st] in Hr; [done|..].
  - destruct (joined st id) eqn:Hj; [|done]. injection Hr as <-. exists c. split; [done|].
    econstructor; [done|exact H|]. eapply joined_finished; [done..|]. unfold cancelled_by.
    case_bool_decide; [|set_solver]. intros j ->%list_elem_of_singleton. done.
  - injection Hr as <-. exists c. split; [done|]. rewrite (wt_gens _ _ _ _ _ _ _ _ H).
    apply (sim_remove_end id ans W flushed); [done| |].
    + destruct (generations c !! id) as [g|]; [|done].
      pose proof (waiting_own_retire _ _ _ _ _ _ id g flushed _ _ H) as H1.
      by rewrite (right_id_L ∅ (∪)) in H1.
    + by destruct (generations c !! id).
  - injection Hr as <-. exists (remove_end id st). split; [|constructor].
    apply reach_one. exists (MRemove id None (ans id) fl). split; [done|]. cbn [m_exec].
    by rewrite (remove_matches id ans W fl st c).
  - destruct (forallb _ _) eqn:Hj; [|done]. injection Hr as <-. exists c. split; [done|].
    apply (sim_stop_retire ans W (fun _ => []) []); [by rewrite (wt_gens _ _ _ _ _ _ _ _ H)|done|].
    eapply joined_finished; [done..|]. intros j Hin.
    rewrite forallb_forall in Hj. apply Hj. rewrite (wt_cancels _ _ _ _ _ _ _ _ H).
    by apply list_elem_of_In.
  - injection Hr as <-. exists c. split; [done|]. rewrite app_nil_r in Hl. subst past. by econstructor.
  - injection Hr as <-. exists c. split; [done|].
    apply (sim_stop_retire ans W (<[ig.1 := flushed]> fl) (past ++ [ig])); [by rewrite <- app_assoc| |done].
    rewrite retired_writes_snoc.
    + assert (retired_gens (past ++ [ig]) = {[ ig.2 ]} ∪ retired_gens past) as ->.
      { unfold retired_gens. rewrite fmap_app, list_to_set_app_L. simpl. set_solver. }
      by apply waiting_own_retire.
    + pose proof (NoDup_fst_map_to_list (generations c)) as Hnd. rewrite Hl, fmap_app in Hnd.
      apply NoDup_app in Hnd as (_ & Hd & _). intros Hin. apply (Hd _ Hin). simpl. by left.
  - injection Hr as <-. exists (stop_end st). split; [|constructor].
    apply reach_one. exists (MStopAll ans fl). split; [done|]. cbn [m_exec].
    by rewrite (stop_matches ans W fl st c).
Qed.

(** The operation takes the lock; a refused deletion is the whole call. *)
Lemma sim_remove_begin id deleted c :
  maps_inv c -> exists c', reach step c c' /\ sim (remove_begin id deleted c) c'.
Proof.
  intros I. unfold remove_begin. case_bool_decide as Hid; simpl; [|exists c; split; [done|constructor]].
  assert (Hgo : sim (mkLocked (set_sups (alter (cancel_one (cancels c) id) id)
                      (set_acked (delete id <$> acked c) c)) (RemoveJoin id)) c).
  { eapply (sim_remove_join id (fun _ => []) (fun _ => [])); [done|]. apply (waiting_begin _ (fmap (delete id))).
    - unfold cancelled_by. case_bool_decide; [apply NoDup_singleton|constructor].
    - intros j Hj. destruct (decide (id = j)) as [<-|Hne]; [|by rewrite lookup_alter_ne].
      rewrite lookup_alter_eq. unfold cancelled_by in Hj. unfold cancel_one.
      case_bool_decide; [set_solver|]. by destruct (sups c !! id).
    - intros j Hj. unfold cancelled_by in Hj. unfold cancel_one. case_bool_decide as Hc; [|set_solver].
      apply list_elem_of_singleton in Hj as ->. destruct (proj1 (mi_can _ I id) Hc) as [[p s] Hs].
      exists p, s. split; [done|]. by rewrite lookup_alter_eq, Hs. }
  destruct (acked c) as [kv|] eqn:Hst, deleted as [e|]; [|exists c; by split..].
  exists (doubt (ODelete id) c). split; [|constructor].
  apply reach_one. exists (MRemove id (Some e) [] []). split; [done|]. cbn [m_exec]. unfold Remove.
  by rewrite bool_decide_true, Hst by done.
Qed.

Lemma sim_stop_begin c : maps_inv c -> sim (stop_begin c) c.
Proof.
  intros I. unfold stop_begin. apply (sim_stop_join (fun _ => []) (fun _ => [])).
  assert (set_sups (map_imap (fun id ps => Some (cancel_one (cancels c) id ps))) c
          = set_sups (map_imap (fun id ps => Some (cancel_one (cancels c) id ps))) (set_acked (acked c) c))
    as -> by done.
  apply (waiting_begin _ (fun kv => kv)); [apply NoDup_elements|..].
  - intros j Hj. rewrite map_lookup_imap. unfold cancel_one. rewrite bool_decide_false by set_solver.
    by destruct (sups c !! j).
  - intros j Hj. assert (j ∈ cancels c) as Hc by set_solver.
    destruct (proj1 (mi_can _ I j) Hc) as [[p s] Hs]. exists p, s. split; [done|].
    rewrite map_lookup_imap, Hs. simpl. unfold cancel_one. by rewrite bool_decide_true.
Qed.

Lemma sim_step l l' c :
  maps_inv c -> sim l c -> fine l l' -> exists c', reach step c c' /\ sim l' c'.
Proof.
  intros I Hs (a & Hok & Ha). destruct a as [id deleted| |flushed|a]; cbn [l_exec] in Ha.
  - destruct Hs; try done. injection Ha as <-. by apply sim_remove_begin.
  - destruct Hs; try done. injection Ha as <-. exists c. split; [done|]. by apply sim_stop_begin.
  - by eapply sim_resume.
  - destruct (waits a || _) eqn:Hw; [done|]. apply orb_false_iff in Hw as [Hw Hl].
    apply bind_Some in Ha as (st' & Ha & Hl'). injection Hl' as <-.
    destruct Hs as [c|id ans W st c Hid H|id ans W st c Hid H Hf|id ans W fl st c Hid H Hf
      |ans W st c H|ans W fl past todo st c Hg H Hf|ans W fl st c H Hf]; cbn [l_mu l_st] in *.
    { exists st'. split; [|constructor]. apply reach_one. by exists a. }
    all: rewrite andb_true_r in Hl;
      destruct (waiting_other _ _ _ _ _ _ _ _ _ _ H Hw Hl Ha) as [(ans' & W' & c' & Hr & (E1 & E2 & E3 & E4) & H') Hfin];
      exists c'; (split; [exact Hr|]).
    all: unfold cancelled_by in *; rewrite <- E2 in H'; try rewrite <- E2 in Hfin; try rewrite <- E1 in H';
      try rewrite <- E4 in Hid.
    + by eapply sim_remove_join.
    + eapply sim_remove_retire; [done..|]. unfold cancelled_by. rewrite E2 in Hfin |- *. by apply Hfin.
    + eapply sim_remove_end; [done..|]. unfold cancelled_by. rewrite E2 in Hfin |- *. by apply Hfin.
    + by eapply sim_stop_join.
    + eapply sim_stop_retire; [by rewrite E1|done|]. rewrite E2 in Hfin |- *. by apply Hfin.
    + eapply sim_stop_end; [done|]. rewrite E2 in Hfin |- *. by apply Hfin.
Qed.

Lemma sim_reach c0 l :
  mgr_inv c0 -> reach fine (mkLocked c0 Unlocked) l -> exists c, reach step c0 c /\ sim l c.
Proof.
  intros I Hr. induction Hr as [|l l' _ (c & Hc & Hs) Hl].
  - exists c0. split; [done|constructor].
  - destruct (sim_step l l' c) as (c' & Hc' & Hs'); [|done..|].
    + apply (inv_maps _ (mgr_reach_from error_text c0 c I Hc)).
    + exists c'. split; [by eapply reach_trans|done].
Qed.
End Atomicity.

(** ** The lock is released *)

(** The streams the operation that holds the lock is waiting for. *)
Definition awaited (l : locked) : list string :=
  match l_mu l with
  | RemoveJoin id => cancelled_by id (l_st l)
  | StopJoin => elements (cancels (l_st l))
  | _ => []
  end.

Definition wind (st : mstate) (id : string) : nat :=
  match sups st !! id with Some (_, s) => wind_down (s_pc s) | None => 0 end.

(** What is left to do: the answers of the streams waited for, then the steps of the
    operation itself. *)
Definition stages (l : locked) : nat :=
  match l_mu l with
  | Unlocked => 0
  | RemoveEnd _ | StopEnd => 1
  | RemoveRetire _ => 2
  | RemoveJoin _ => 3
  | StopRetire todo => 2 + length todo
  | StopJoin => 3 + length (map_to_list (generations (l_st l)))
  end.
Definition rank (l : locked) : nat := sum_list (wind (l_st l) <$> awaited l) + stages l.

(** The steps that bring the release closer. *)
Definition advances (l : locked) (a : l_action) : bool :=
  match a with
  | LResume _ => true
  | LOther (MSup id a) => bool_decide (id ∈ awaited l) && moves_on a
  | _ => false
  end.

Lemma cancelled_winds id p a s s' :
  s_cancelled s = true -> sup_exec id p a s = Some s' ->
  if moves_on a then (wind_down (s_pc s') < wind_down (s_pc s))%nat
  else wind_down (s_pc s') = wind_down (s_pc s).
Proof.
  intros Hc Ha. destruct s as [pc rt m c calls rs]; simpl in *. subst c.
  destruct a as [|[]|[e|] now|now|st ev|err n1 n2|], pc as [|at_|at_|at_ ra|]; simpl in Ha;
    try done; try (destruct (_ && _); [done|]); simplify_eq/=; try done; lia.
Qed.

(** A cancelled supervisor that has not returned can move on. *)
Lemma cancelled_can_move id p s :
  s_cancelled s = true -> s_pc s <> CDone ->
  exists a s', moves_on a = true /\ is_cancel a = false /\ sup_exec id p a s = Some s'.
Proof.
  intros Hc Hpc. destruct (s_pc s) as [|at_|at_|at_ ra|] eqn:E; [..|done].
  - exists AStart. simpl. rewrite E. by eexists.
  - exists (AWake false). simpl. rewrite E, Hc. by eexists.
  - exists (AOpened None 0). simpl. rewrite E. by eexists.
  - exists (ARunEnd None 0 0). simpl. rewrite E, Hc. by eexists.
Qed.

Lemma sum_wind_tick X (f g : string -> nat) j :
  NoDup X -> (forall k, k <> j -> g k = f k) ->
  (sum_list (g <$> X) + (if decide (j ∈ X) then f j else 0)
   = sum_list (f <$> X) + (if decide (j ∈ X) then g j else 0))%nat.
Proof.
  intros Hnd Hne. induction Hnd as [|k X Hk Hnd IH]; [done|]. csimpl.
  destruct (decide (k = j)) as [->|Hkj].
  - rewrite decide_True, (decide_True (P := j ∈ j :: X)) by set_solver.
    rewrite decide_False in IH by done. rewrite decide_False in IH by done. lia.
  - rewrite (Hne k Hkj). destruct (decide (j ∈ X)) as [Hj|Hj].
    + rewrite !decide_True by set_solver. lia.
    + rewrite !decide_False by set_solver. lia.
Qed.

Lemma update_exec_only_runs i put fl st st' :
  takes_lock (MUpdateStep i put fl) st = false -> update_exec i put fl st = Some st' -> only_runs st st'.
Proof.
  unfold update_exec, takes_lock. intros Hl H. apply bind_Some in H as (u & Hu & H). rewrite Hu in Hl.
  destruct u as [id cfg|id cfg|id cfg next|id next|id gen res|res]; try done; try by injection H as <-.
  destruct (NewGeneration_maps id cfg st) as (E1 & _ & E2 & E3 & E4 & _).
  destruct (NewGeneration id cfg st) as [g st1]. injection H as <-. by split_and!.
Qed.

(** A stream that was never cancelled has no [done] to wait for. *)
Lemma joined_remove st id c :
  maps_inv c -> sim (mkLocked st (RemoveJoin id)) c ->
  (forall j, j ∈ awaited (mkLocked st (RemoveJoin id)) -> joined st j = true) -> joined st id = true.
Proof.
  intros I Hs Hall. unfold awaited, cancelled_by in Hall. simpl in Hall.
  case_bool_decide as Hc; [apply Hall; by left|]. inversion Hs as [|? ? ? ? ? _ H| | | | |]; subst.
  unfold joined. rewrite bool_decide_false; [done|].
  rewrite (wt_dones _ _ _ _ _ _ _ _ H), (mi_don _ I), <- (mi_can _ I), <- (wt_cancels _ _ _ _ _ _ _ _ H).
  done.
Qed.

Section Release.
Variable error_text : mgr_error -> string.

#[local] Abbreviation fine := (l_step error_text).

Lemma sim_awaited l c j : maps_inv c -> sim l c -> j ∈ awaited l ->
  exists p s, sups (l_st l) !! j = Some (p, s) /\ s_cancelled s = true.
Proof.
  intros I Hs Hj. destruct Hs as [c|id ans W st c Hid H| | |ans W st c H| |];
    unfold awaited in Hj; cbn [l_mu l_st] in *; try by apply elem_of_nil in Hj.
  - unfold cancelled_by in *. rewrite (wt_cancels _ _ _ _ _ _ _ _ H) in Hj.
    destruct (wt_in _ _ _ _ _ _ _ _ H j Hj) as (p & s0 & s & _ & Hs & Hc & _). eauto.
  - rewrite (wt_cancels _ _ _ _ _ _ _ _ H) in Hj.
    destruct (wt_in _ _ _ _ _ _ _ _ H j Hj) as (p & s0 & s & _ & Hs & Hc & _). eauto.
Qed.

Lemma awaited_nodup l : NoDup (awaited l).
Proof.
  unfold awaited, cancelled_by. destruct (l_mu l); try constructor; [|apply NoDup_elements].
  case_bool_decide; [apply NoDup_singleton|constructor].
Qed.

(** A supervisor's answer while the lock is held. *)
Lemma rank_tick l c id a st' :
  maps_inv c -> sim l c -> sup_tick id a (l_st l) = Some st' ->
  let l' := mkLocked st' (l_mu l) in
  if advances l (LOther (MSup id a)) then (rank l' < rank l)%nat else rank l' = rank l.
Proof.
  intros I Hs Ht l'. assert (awaited l' = awaited l /\ stages l' = stages l) as [Ea Es].
  { apply sup_tick_inv in Ht as (p & s & s' & _ & _ & _ & ->). by destruct l as [st []]. }
  unfold rank. rewrite Ea, Es. subst l'. cbn [l_st advances].
  pose proof (sup_tick_inv _ _ _ _ Ht) as (p & s & s' & Hst & Hc & He & ->).
  pose proof (sum_wind_tick (awaited l) (wind (l_st l))
    (wind (set_mmetrics (fun _ => s_metrics s') (set_sups (<[id := (p, park s')]>) (l_st l)))) id
    (awaited_nodup l)) as Hsum.
  assert (wind (set_mmetrics (fun _ => s_metrics s') (set_sups (<[id := (p, park s')]>) (l_st l))) id
          = wind_down (s_pc s')) as E1 by (unfold wind; simpl; by rewrite lookup_insert_eq).
  assert (wind (l_st l) id = wind_down (s_pc s)) as E2 by (unfold wind; by rewrite Hst).
  rewrite E1, E2 in Hsum. clear E1 E2.
  specialize (Hsum ltac:(intros k Hk; unfold wind; simpl; by rewrite lookup_insert_ne by done)).
  case_bool_decide as Hin; simpl.
  - rewrite !decide_True in Hsum by done.
    destruct (sim_awaited l c id I Hs Hin) as (p1 & s1 & Hst1 & Hcan).
    rewrite Hst in Hst1. injection Hst1 as <- <-.
    assert (Hw := cancelled_winds id p a (on_registry (m_metrics (l_st l)) s) s' Hcan He). simpl in Hw.
    destruct (moves_on a); lia.
  - rewrite !decide_False in Hsum by done. lia.
Qed.
(** The operation's own steps. *)
Lemma rank_resume flushed l l' :
  resume flushed l = Some l' -> (rank l' < rank l)%nat.
Proof.
  destruct l as [st [|id|id|id| |[|ig todo]|]]; cbn [resume l_mu l_st]; try done;
    try (intros [= <-]; cbn; lia).
  - destruct (joined st id); [|done]. intros [= <-]. unfold rank, stages. simpl. lia.
  - destruct (forallb _ _); [|done]. intros [= <-]. unfold rank, stages. simpl. lia.
Qed.

Lemma rank_other l c a l' :
  maps_inv c -> sim l c -> l_mu l <> Unlocked -> l_exec error_text (LOther a) l = Some l' ->
  if advances l (LOther a) then (rank l' < rank l)%nat else rank l' = rank l.
Proof.
  intros I Hs Hmu Ha. cbn [l_exec] in Ha. destruct (waits a || _) eqn:Hw; [done|].
  apply orb_false_iff in Hw as [Hw Hl]. apply bind_Some in Ha as (st' & Ha & Hl'). injection Hl' as <-.
  assert (takes_lock a (l_st l) = false) as Ht by (by destruct (l_mu l); rewrite ?andb_true_r in Hl).
  destruct a as [| | | |id cfg|i put fl|id a]; try done; cbn [m_exec] in Ha.
  - injection Ha as <-. by destruct l as [st []].
  - pose proof (update_exec_sups _ _ _ _ _ Ha) as Es.
    assert (only_runs (l_st l) st') as (E1 & E2 & E3 & E4) by (by eapply update_exec_only_runs).
    simpl. unfold rank, stages, awaited, wind, cancelled_by. cbn [l_mu l_st]. by rewrite Es, E1, E2.
  - by apply (rank_tick l c id a st').
Qed.

(** Something that brings the release closer can always happen. *)
Lemma can_advance l c :
  maps_inv c -> sim l c -> l_mu l <> Unlocked ->
  exists a l', advances l a = true /\ l_exec error_text a l = Some l'.
Proof.
  intros I Hs Hmu.
  destruct (decide (Exists (fun j => joined (l_st l) j = false) (awaited l))) as [Hw|Hw].
  - apply Exists_exists in Hw as (j & Hin & Hj).
    destruct (sim_awaited l c j I Hs Hin) as (p & s & Hst & Hcan).
    assert (s_pc s <> CDone) as Hpc.
    { intros Hpc. unfold joined in Hj. rewrite Hst, Hpc in Hj. by rewrite orb_true_r in Hj. }
    destruct (cancelled_can_move j p (on_registry (m_metrics (l_st l)) s) Hcan Hpc) as (a & s' & Hm & Hc & He).
    eexists (LOther (MSup j a)), _. split; [cbn; by rewrite bool_decide_true, Hm|].
    cbn. unfold sup_tick. rewrite Hst. simpl. rewrite Hc.
    change (on_metrics (fun _ => m_metrics (l_st l)) s) with (on_registry (m_metrics (l_st l)) s).
    rewrite He. simpl. reflexivity.
  - assert (Hall : forall j, j ∈ awaited l -> joined (l_st l) j = true).
    { intros j Hj. destruct (joined (l_st l) j) eqn:E; [done|]. destruct Hw. apply Exists_exists. eauto. }
    exists (LResume []). destruct l as [st mu]. cbn [l_exec advances resume l_mu l_st] in *.
    destruct mu as [|id|id|id| |[|ig todo]|]; try done; try (eexists; done).
    + eexists. split; [done|]. cbn. by rewrite (joined_remove st id c I Hs Hall).
    + eexists. split; [done|]. cbn. assert (forallb (joined st) (elements (cancels st)) = true) as ->; [|done].
      apply forallb_forall. intros j Hj. apply Hall, list_elem_of_In, Hj.
Qed.
Lemma l_exec_ok a l l' : advances l a = true -> l_exec error_text a l = Some l' -> fine l l'.
Proof. intros Ha He. exists a. split; [|done]. by destruct a as [| | |[]]. Qed.

(** From any state in which the lock is held, as many steps as [rank] counts release it. *)
Lemma release_run n : forall l c, mgr_inv c -> sim l c -> (rank l <= n)%nat ->
  exists sched l', (length sched <= n)%nat /\ l_run error_text sched l = Some l' /\ l_mu l' = Unlocked.
Proof.
  induction n as [|n IH]; intros l c I Hs Hn.
  - exists [], l. split_and!; [done..|]. unfold rank, stages in Hn. destruct (l_mu l); [done|lia..].
  - destruct (decide (is_unlocked (l_mu l) = true)) as [Hu|Hu].
    { exists [], l. split_and!; [simpl; lia|done|]. by destruct (l_mu l). }
    assert (l_mu l <> Unlocked) as Hmu by (intros E; by rewrite E in Hu).
    destruct (can_advance l c (inv_maps _ I) Hs Hmu) as (a & l1 & Ha & He).
    assert (rank l1 < rank l)%nat as Hlt.
    { destruct a as [| |fl|a]; try done; [by eapply rank_resume|].
      pose proof (rank_other l c a l1 (inv_maps _ I) Hs Hmu He) as Hr. by rewrite Ha in Hr. }
    destruct (sim_step error_text l l1 c (inv_maps _ I) Hs (l_exec_ok a l l1 Ha He)) as (c1 & Hc1 & Hs1).
    destruct (IH l1 c1) as (sched & l2 & Hl & Hrun & Hu2); [by eapply mgr_reach_from|done|lia|].
    exists (a :: sched), l2. split_and!; [simpl; lia| |done]. simpl. by rewrite He.
Qed.
End Release.

(** (C5) [Remove] and [StopAll] are atomic, although both wait with the lock held
    while supervisors and updates go on around them: whatever the interleaving, a
    state in which nobody holds the lock is one the single transitions reach. *)
Theorem locked_operations_are_atomic error_text kv st :
  reach (l_step error_text) (mkLocked (NewStreamManager kv) Unlocked) (mkLocked st Unlocked) ->
  reach (mgr_step error_text) (NewStreamManager kv) st.
Proof.
  intros Hr. destruct (sim_reach error_text (NewStreamManager kv) _ (NewStreamManager_inv kv) Hr) as (c & Hc & Hs).
  by inversion Hs; subst.
Qed.

(** (C6) The lock is always released: while [Remove] or [StopAll] holds it, a step
    that brings the release closer is possible, every such step does, no other step
    takes it further away, and [rank] steps are enough. *)
Theorem lock_is_released error_text kv l :
  reach (l_step error_text) (mkLocked (NewStreamManager kv) Unlocked) l -> l_mu l <> Unlocked ->
  (exists a l', advances l a = true /\ l_exec error_text a l = Some l') /\
  (forall a l', l_exec error_text a l = Some l' ->
     if advances l a then (rank l' < rank l)%nat else rank l' = rank l) /\
  (exists sched l', (length sched <= rank l)%nat /\ l_run error_text sched l = Some l' /\
     l_mu l' = Unlocked).
Proof.
  intros Hr Hmu.
  destruct (sim_reach error_text (NewStreamManager kv) _ (NewStreamManager_inv kv) Hr) as (c & Hc & Hs).
  pose proof (mgr_reach_from error_text _ _ (NewStreamManager_inv kv) Hc) as I.
  split_and!.
  - apply (can_advance error_text l c (inv_maps _ I) Hs Hmu).
  - intros a l' He. destruct a as [id del| |fl|a]; cbn [l_exec] in He.
    + by destruct (l_mu l).
    + by destruct (l_mu l).
    + by eapply rank_resume.
    + by apply (rank_other error_text l c a l' (inv_maps _ I) Hs Hmu).
  - by apply (release_run error_text (rank l) l c I Hs).
Qed.

(** ** Witnesses *)

Definition l_plain (a : l_action) : bool := match a with LOther a => plain a | _ => true end.

Lemma l_run_reach txt sched l l' :
  forallb l_plain sched = true -> l_run txt sched l = Some l' -> reach (l_step txt) l l'.
Proof.
  revert l. induction sched as [|a sched IH]; simpl; intros l Hp H; [injection H as ->; auto|].
  apply andb_true_iff in Hp as [Ha Hp]. apply bind_Some in H as (l1 & H1 & H).
  eapply reach_trans; [|by apply IH]. apply reach_one. exists a. split; [|done].
  by destruct a as [| | |[]].
Qed.

Definition one_event : StreamEvent := mkEvent "a" EmptyString 0 0 EmptyString None "x".

(** Stream a is removed while b starts, an update of b is built, and a still publishes
    and then ends. *)
Definition before_removal : list l_action :=
  [LOther (MRegister (webhook "a" "9001") None None); LOther (MRegister (webhook "b" "9002") None None);
   LOther (MSup "a" AStart); LOther (MUpdateCall "b" (Some empty_pipeline));
   LOther (MUpdateStep 0 None []); LRemove "a" None].
Definition during_removal : list l_action :=
  [LOther (MSup "b" AStart); LOther (MUpdateStep 0 None []); LOther (MSup "a" (APublish 5 one_event));
   LOther (MSup "a" (ARunEnd (Some "eof") 6 7)); LResume []; LResume [one_event]; LOther (MSup "b" (AReady 9));
   LResume []; LOther (MUpdateStep 0 None [])].

Definition run_from (sched : list l_action) (l : locked) : locked :=
  default l (l_run no_text sched l).
Definition removing : locked := run_from before_removal (mkLocked fresh_manager Unlocked).
Definition removed : locked := run_from during_removal removing.

Lemma removing_reach : reach (l_step no_text) (mkLocked fresh_manager Unlocked) removing.
Proof.
  apply (l_run_reach no_text before_removal); [done|]. apply some_default. vm_compute. reflexivity.
Qed.

Lemma removed_reach : reach (l_step no_text) (mkLocked fresh_manager Unlocked) removed.
Proof.
  eapply reach_trans; [apply removing_reach|]. apply (l_run_reach no_text during_removal); [done|].
  apply some_default. vm_compute. reflexivity.
Qed.

Lemma locked_operations_are_atomic_witness :
  reach (mgr_step no_text) fresh_manager (l_st removed) /\
  elements (dom (runtimes (l_st removed))) = ["b"%string] /\
  EventsPublished (m_metrics (l_st removed)) !! "a"%string = None.
Proof.
  split; [|vm_compute; done]. apply (locked_operations_are_atomic no_text (Some ∅)).
  assert (mkLocked (l_st removed) Unlocked = removed) as -> by (vm_compute; reflexivity).
  exact removed_reach.
Defined.

Lemma lock_is_released_witness :
  l_mu removing = RemoveJoin "a" /\ rank removing = 4%nat /\
  exists sched l', (length sched <= 4)%nat /\ l_run no_text sched removing = Some l' /\ l_mu l' = Unlocked.
Proof.
  split; [vm_compute; reflexivity|]. split; [vm_compute; reflexivity|].
  apply (lock_is_released no_text (Some ∅) removing removing_reach).
  vm_compute. discriminate.
Defined.
