(* ===== verification/RestoreSpec.v ===== *)
(** * The stream manager: restore

    [Restore] of internal/server/manager.go: the loop over the persisted streams,
    what each of them becomes, and who gets a contested port. *)

From Stdlib Require Import ZArith Lia.
From stdpp Require Import base tactics list strings gmap sorting.
From S2P Require Import Prelude GoLib GoFloat GoTime GoJsonValue Domain Telemetry ConfigError.
From S2P Require Import PipelineConfig Pipeline Builder Restart Validate Redact Supervisor Source.
From S2P Require Import Manager ManagerInv ManagerSpec.

#[local] Open Scope Z_scope.

(** ** Restore *)

(** What restoring one stream makes of it: supervised with its configuration, or
    listed in error with the reason. *)
Definition restored (cfg : StreamSourceConfig) (st : mstate) : Prop :=
  (exists c, configs st !! sc_ID cfg = Some c /\ with_defaults c = with_defaults cfg) /\
  (StatusOf st (sc_ID cfg) = Some StatusConnecting \/
   StatusOf st (sc_ID cfg) = Some StatusError /\
   exists rt, runtimes st !! sc_ID cfg = Some (RtFailed rt) /\ is_Some (lastError rt)).

(** Two states that say the same of one stream. *)
Definition same_entry (id : string) (st st' : mstate) : Prop :=
  runtimes st' !! id = runtimes st !! id /\ configs st' !! id = configs st !! id /\
  sups st' !! id = sups st !! id.

Lemma same_entry_trans id st1 st2 st3 :
  same_entry id st1 st2 -> same_entry id st2 st3 -> same_entry id st1 st3.
Proof. unfold same_entry. intros; destruct_and!. split_and!; congruence. Qed.

Lemma restored_same cfg st st' : same_entry (sc_ID cfg) st st' -> restored cfg st -> restored cfg st'.
Proof. unfold same_entry, restored, StatusOf, runtime_of. intros (-> & -> & ->). done. Qed.

Section RestoreSteps.
Variable error_text : mgr_error -> string.
Variables (opened : string -> option string) (now : Z).

Definition restore_loop (cfgs : list StreamSourceConfig) (st : mstate) : mstate :=
  foldl (fun st cfg => restore_one error_text opened now cfg st) st cfgs.

Lemma admitFailed_restored cfg c cause st :
  sc_ID c = sc_ID cfg -> with_defaults c = with_defaults cfg ->
  restored cfg (admitFailedLocked error_text c cause now st) /\
  (forall id, id <> sc_ID cfg -> same_entry id st (admitFailedLocked error_text c cause now st)).
Proof.
  intros Hid Hd. split.
  - unfold restored, StatusOf, runtime_of. simpl. rewrite Hid, !lookup_insert_eq. simpl.
    split; [eauto|]. right. split; [done|]. eexists. split; [done|]. by eexists.
  - intros id Hne. unfold same_entry. simpl. rewrite Hid, !lookup_insert_ne by done. done.
Qed.

(** One iteration of the loop, with the case in which the stream comes up. *)
Lemma restore_one_restored cfg st :
  maps_inv st -> runtimes st !! sc_ID cfg = None -> sc_ID cfg <> EmptyString ->
  let st' := restore_one error_text opened now cfg st in
  restored cfg st' /\ (forall id, id <> sc_ID cfg -> same_entry id st st') /\
  (validateStreamConfig cfg = Ok tt -> opened (sc_ID cfg) = None ->
   (connectorPort cfg <> EmptyString -> portClaims st !! connectorPort cfg = None) ->
   StatusOf st' (sc_ID cfg) = Some StatusConnecting).
Proof.
  intros I Hid Hne. unfold restore_one.
  assert (str_is_empty (sc_ID cfg) = false) as -> by (by destruct (sc_ID cfg)).
  destruct (validateStreamConfig cfg) as [u|e] eqn:Hv.
  2: { destruct (admitFailed_restored cfg cfg (EInvalidPersisted e) st eq_refl eq_refl). done. }
  destruct u. destruct (accepted_source cfg Hv) as (source & -> & HID & _). cbv beta iota zeta.
  change (sc_ID (with_defaults cfg)) with (sc_ID cfg).
  destruct (admitLocked source (with_defaults cfg) false (opened (sc_ID cfg)) None st)
    as [[[]|e] st'] eqn:Ha.
  - apply admitLocked_accepted in Ha as [(_ & _ & _ & Hc & Hs & Hsup & Hrt & _) _]; [|done].
    change (sc_ID (with_defaults cfg)) with (sc_ID cfg) in *. split_and!.
    + split; [|by left]. exists (with_defaults cfg). rewrite Hc, lookup_insert_eq.
      by rewrite with_defaults_idem.
    + intros id Hn. unfold same_entry. rewrite Hc, Hsup, Hrt, !lookup_insert_ne by done. done.
    + done.
  - apply admitLocked_refused in Ha as (Hrf & [(_ & E2 & _ & _ & E5 & _ & E7) _ _ _] & _).
    destruct (admitFailed_restored cfg (with_defaults cfg) e st' eq_refl (with_defaults_idem cfg)) as [R O].
    split; [exact R|]. split.
    + intros id Hn. eapply same_entry_trans; [|by apply O]. unfold same_entry. by rewrite E2, E5, E7.
    + intros _ Hop Hport. exfalso. destruct e; simpl in Hrf; try done.
      * destruct Hrf as [-> Hr]. rewrite HID, Hid in Hr. by destruct Hr.
      * destruct Hrf as (-> & Hn & Hp). rewrite with_defaults_port in *. by rewrite Hport in Hp.
      * apply validateStreamConfig_ok in Hv as (_ & _ & _ & _ & _ & Hp).
        destruct (NewGeneration_valid (ID source) (sc_Pipeline cfg) st Hp) as [g Hg].
        change (sc_Pipeline (with_defaults cfg)) with (sc_Pipeline cfg) in Hrf. congruence.
      * congruence.
      * by destruct Hrf.
Qed.

Lemma restore_one_skip cfg st : sc_ID cfg = EmptyString -> restore_one error_text opened now cfg st = st.
Proof. unfold restore_one. by intros ->. Qed.

(** Streams outside the list are left alone by the loop. *)
Lemma restore_loop_other cfgs : forall st id,
  maps_inv st -> NoDup (sc_ID <$> cfgs) -> (forall cfg, cfg ∈ cfgs -> runtimes st !! sc_ID cfg = None) ->
  id ∉ sc_ID <$> cfgs -> same_entry id st (restore_loop cfgs st).
Proof.
  induction cfgs as [|cfg cfgs IH]; intros st id I Hnd Hno Hid; [done|].
  rewrite fmap_cons in Hnd, Hid. apply NoDup_cons in Hnd as [Hn Hnd].
  apply not_elem_of_cons in Hid as [Hne Hid].
  pose proof (restore_one_maps error_text opened now cfg st I (Hno cfg ltac:(by left))) as [I' Hr].
  eapply same_entry_trans; [|apply IH; [exact I'|done| |done]].
  - destruct (decide (sc_ID cfg = EmptyString)) as [He|He]; [by rewrite restore_one_skip|].
    by apply restore_one_restored; [done|apply Hno; left|..].
  - intros c Hc. rewrite Hr; [apply Hno; by right|]. intros Heq. destruct Hn. rewrite <- Heq.
    by apply list_elem_of_fmap_2.
Qed.

(** The stream in the middle of the list. *)
Lemma restore_loop_restored l1 cfg l2 st :
  maps_inv st -> NoDup (sc_ID <$> l1 ++ cfg :: l2) ->
  (forall c, c ∈ l1 ++ cfg :: l2 -> runtimes st !! sc_ID c = None) -> sc_ID cfg <> EmptyString ->
  restored cfg (restore_loop (l1 ++ cfg :: l2) st) /\
  (validateStreamConfig cfg = Ok tt -> opened (sc_ID cfg) = None ->
   (connectorPort cfg <> EmptyString ->
      portClaims (restore_loop l1 st) !! connectorPort cfg = None) ->
   StatusOf (restore_loop (l1 ++ cfg :: l2) st) (sc_ID cfg) = Some StatusConnecting).
Proof.
  intros I Hnd Hno Hne. rewrite fmap_app, fmap_cons in Hnd.
  apply NoDup_app in Hnd as (Hnd1 & Hd & Hnd2). apply NoDup_cons in Hnd2 as [Hn2 Hnd2].
  unfold restore_loop. rewrite foldl_app. simpl. fold (restore_loop l1 st). set (st1 := restore_loop l1 st).
  assert (I1 : maps_inv st1).
  { apply restore_loop_maps; [done..|]. intros c Hc. apply Hno, elem_of_app. by left. }
  assert (O1 : forall id, id ∉ sc_ID <$> l1 -> same_entry id st st1).
  { intros id Hid. apply restore_loop_other; [done..| |done]. intros c Hc. apply Hno, elem_of_app. by left. }
  assert (Hrt : forall c, c ∈ cfg :: l2 -> runtimes st1 !! sc_ID c = None).
  { intros c Hc. destruct (O1 (sc_ID c)) as (-> & _).
    - intros Hin. apply (Hd (sc_ID c) Hin). rewrite <- fmap_cons. by apply list_elem_of_fmap_2.
    - apply Hno, elem_of_app. by right. }
  destruct (restore_one_restored cfg st1 I1 (Hrt cfg ltac:(by left)) Hne) as (R & O & Hup).
  destruct (restore_one_maps error_text opened now cfg st1 I1 (Hrt cfg ltac:(by left))) as [I2 Hr2].
  assert (S2 : same_entry (sc_ID cfg) (restore_one error_text opened now cfg st1)
                 (restore_loop l2 (restore_one error_text opened now cfg st1))).
  { apply restore_loop_other; [done..| |done]. intros c Hc. rewrite Hr2; [apply Hrt; by right|].
    intros Heq. destruct Hn2. rewrite <- Heq. by apply list_elem_of_fmap_2. }
  split; [by eapply restored_same|]. intros Hv Hop Hp. specialize (Hup Hv Hop Hp).
  destruct S2 as (E1 & _ & E3). unfold StatusOf, runtime_of in *. fold (restore_loop l2 (restore_one error_text opened now cfg st1)).
  by rewrite E1, E3.
Qed.

(** A configuration without an id might as well not be listed. *)
Lemma restore_loop_skip l st :
  restore_loop l st = restore_loop (base.filter (fun c => sc_ID c <> EmptyString) l) st.
Proof.
  unfold restore_loop. revert st. induction l as [|c l IH]; intros st; [done|]. rewrite filter_cons. simpl.
  case_decide as Hc; [apply IH|]. rewrite IH, restore_one_skip; [done|].
  destruct (decide (sc_ID c = EmptyString)); [done|]. by destruct Hc.
Qed.

(** Only the streams of the list can hold a port, each its own. *)
Lemma restore_loop_claims_named l st p id :
  maps_inv st -> portClaims st = ∅ -> runtimes st = ∅ -> NoDup (sc_ID <$> l) ->
  Forall (fun c => sc_ID c <> EmptyString) l ->
  portClaims (restore_loop l st) !! p = Some id ->
  exists cfg, cfg ∈ l /\ sc_ID cfg = id /\ connectorPort cfg = p.
Proof.
  intros I Hp0 Hr0 Hnd Hall Hp.
  assert (Hno : forall c, c ∈ l -> runtimes st !! sc_ID c = None).
  { intros c _. by rewrite Hr0, lookup_empty. }
  assert (I1 : maps_inv (restore_loop l st)) by (by apply restore_loop_maps).
  destruct (mi_held _ I1 _ _ Hp) as (c & Hc & Hcp & _).
  destruct (decide (id ∈ sc_ID <$> l)) as [Hin|Hout].
  - apply list_elem_of_fmap in Hin as (cfg & -> & Hin). exists cfg. split_and!; [done..|].
    destruct (list_elem_of_split _ _ Hin) as (l1 & l2 & ->).
    rewrite Forall_forall in Hall. destruct (restore_loop_restored l1 cfg l2 st I Hnd Hno (Hall cfg Hin))
      as [[(c' & Hc' & Hd) _] _].
    rewrite Hc in Hc'. injection Hc' as <-. by rewrite <- with_defaults_port, <- Hd, with_defaults_port.
  - destruct (restore_loop_other l st id I Hnd Hno Hout) as (_ & E2 & _). exfalso.
    assert (is_Some (configs st !! id)) as Hs by (rewrite <- E2; eauto).
    rewrite (mi_cfg _ I), Hr0, lookup_empty in Hs. by destruct Hs.
Qed.

Lemma NoDup_fmap_filter {A B} (f : A -> B) (P : A -> Prop) `{!forall x, Decision (P x)} (l : list A) :
  NoDup (f <$> l) -> NoDup (f <$> base.filter P l).
Proof.
  induction l as [|x l IH]; [done|]. rewrite fmap_cons, NoDup_cons, filter_cons. intros [Hx Hl].
  case_decide; [|by apply IH]. rewrite fmap_cons, NoDup_cons. split; [|by apply IH].
  rewrite list_elem_of_fmap. intros (y & Hy & Hin). apply list_elem_of_filter in Hin as [_ Hin].
  apply Hx. rewrite Hy. by apply list_elem_of_fmap_2.
Qed.

Lemma restore_loop_claims l st p id :
  maps_inv st -> portClaims st = ∅ -> runtimes st = ∅ -> NoDup (sc_ID <$> l) ->
  portClaims (restore_loop l st) !! p = Some id ->
  exists cfg, cfg ∈ l /\ sc_ID cfg = id /\ connectorPort cfg = p.
Proof.
  intros I Hp0 Hr0 Hnd. rewrite restore_loop_skip. intros Hp.
  apply restore_loop_claims_named in Hp as (cfg & Hin & ?); [|done..|by apply NoDup_fmap_filter|].
  - apply list_elem_of_filter in Hin as [_ Hin]. by exists cfg.
  - apply Forall_forall. intros c Hc. by apply list_elem_of_filter in Hc as [? _].
Qed.
End RestoreSteps.

(** (C15) Restore loses no stream: it leaves the store alone and lists exactly the
    persisted streams, each either supervised with its configuration or in error
    with the reason recorded.  A stream whose configuration is accepted and whose
    source opens comes up, provided no persisted stream with a smaller id is
    configured for its port: of several that are, the smallest id holds it. *)
Theorem restore_recovers_all error_text opened now kv cfgs :
  NoDup (sc_ID <$> cfgs) -> (forall cfg, cfg ∈ cfgs -> kv !! sc_ID cfg = Some cfg) ->
  let '(r, st) := Restore error_text (Ok cfgs) opened now (NewStreamManager (Some kv)) in
  r = Ok tt /\ acked st = Some kv /\
  (forall cfg, cfg ∈ cfgs -> sc_ID cfg <> EmptyString -> restored cfg st) /\
  (forall id, is_Some (runtimes st !! id) -> id ∈ sc_ID <$> cfgs) /\
  (forall cfg, cfg ∈ cfgs -> validateStreamConfig cfg = Ok tt -> opened (sc_ID cfg) = None ->
     (forall other, other ∈ cfgs -> connectorPort cfg <> EmptyString ->
        connectorPort other = connectorPort cfg -> id_le cfg other) ->
     StatusOf st (sc_ID cfg) = Some StatusConnecting).
Proof.
  intros Hnd Hk. unfold Restore. cbn [NewStreamManager acked].
  set (l := merge_sort id_le cfgs). set (st0 := NewStreamManager (Some kv)).
  assert (Hl : l ≡ₚ cfgs) by apply merge_sort_Permutation.
  pose proof (NewStreamManager_maps (Some kv)) as I. fold st0 in I.
  rewrite <- Hl in Hnd.
  assert (Hno : forall c, c ∈ l -> runtimes st0 !! sc_ID c = None) by (intros; apply lookup_empty).
  assert (Hsplit : forall cfg, cfg ∈ cfgs -> exists l1 l2, l = l1 ++ cfg :: l2).
  { intros cfg Hin. apply list_elem_of_split. by rewrite Hl. }
  fold (restore_loop error_text opened now l st0). split_and!; [done|..].
  - apply restore_loop_store.
    + intros kv' id cfg _. simpl. by rewrite lookup_empty.
    + intros kv' [= <-] cfg Hc. apply Hk. by rewrite <- Hl.
  - intros cfg Hin Hne. destruct (Hsplit cfg Hin) as (l1 & l2 & El). rewrite El in *.
    by apply restore_loop_restored.
  - intros id Hid. rewrite <- Hl. destruct (decide (id ∈ sc_ID <$> l)) as [|Hout]; [done|].
    destruct (restore_loop_other error_text opened now l st0 id I Hnd Hno Hout) as (E & _).
    rewrite E in Hid. simpl in Hid. rewrite lookup_empty in Hid. by destruct Hid.
  - intros cfg Hin Hv Hop Hfirst. pose proof (StronglySorted_merge_sort id_le cfgs) as Hsort. fold l in Hsort.
    destruct (Hsplit cfg Hin) as (l1 & l2 & El). rewrite El in *.
    assert (Hne : sc_ID cfg <> EmptyString).
    { apply validateStreamConfig_ok in Hv as (Hid & _). intros E. by rewrite E in Hid. }
    apply restore_loop_restored; try done. intros Hport. apply eq_None_not_Some. intros [h Hh].
    assert (Hnd1 : NoDup (sc_ID <$> l1)) by (rewrite fmap_app in Hnd; by apply NoDup_app in Hnd as (? & _)).
    apply restore_loop_claims in Hh as (other & Ho & _ & Hop2); try done.
    assert (Hle : id_le cfg other).
    { apply Hfirst; try done. rewrite <- Hl, elem_of_app. by left. }
    assert (Hge : id_le other cfg).
    { eapply (StronglySorted_app_1_elem_of id_le l1 (cfg :: l2)); [done|done|by left]. }
    rewrite fmap_app in Hnd. apply NoDup_app in Hnd as (_ & Hd & _).
    apply (Hd (sc_ID other)); [by apply list_elem_of_fmap_2|].
    rewrite (id_le_antisym other cfg Hge Hle). left.
Qed.

(** The outcome of a restore does not depend on the order in which the store
    lists its keys. *)
Theorem restore_order_independent error_text opened now cfgs cfgs' st :
  NoDup (sc_ID <$> cfgs) -> cfgs ≡ₚ cfgs' ->
  Restore error_text (Ok cfgs) opened now st = Restore error_text (Ok cfgs') opened now st.
Proof.
  intros Hnd Hp. unfold Restore. destruct (acked st); [|done]. do 2 f_equal.
  apply (StronglySorted_unique_strong id_le); [|apply StronglySorted_merge_sort; apply _..|].
  - intros c1 c2 H1 H2 L1 L2. apply (NoDup_fmap_eq sc_ID cfgs); [done|..|by apply id_le_antisym].
    + by rewrite (merge_sort_Permutation id_le) in H1.
    + by rewrite (merge_sort_Permutation id_le), <- Hp in H2.
  - by rewrite !(merge_sort_Permutation id_le).
Qed.


(** ** Witnesses *)

(** Three persisted streams, listed out of order: two contest one port, spelled
    two ways, and one is not valid. *)
Definition persisted : list StreamSourceConfig :=
  [webhook "b" "09001"; webhook "x" "none"; webhook "a" "9001"].

Definition persisted_kv : gmap string StreamSourceConfig :=
  list_to_map ((fun c => (sc_ID c, c)) <$> persisted).

Lemma persisted_listed : NoDup (sc_ID <$> persisted) /\
  forall cfg, cfg ∈ persisted -> persisted_kv !! sc_ID cfg = Some cfg.
Proof.
  split; [apply (bool_decide_unpack _); vm_compute; reflexivity|].
  intros cfg Hc. unfold persisted in Hc. rewrite !elem_of_cons, elem_of_nil in Hc.
  destruct Hc as [->|[->|[->|[]]]]; vm_compute; reflexivity.
Qed.

Definition recovered : mstate :=
  (Restore no_text (Ok persisted) (fun _ => None) 7 (NewStreamManager (Some persisted_kv))).2.

Lemma restore_recovers_all_witness :
  StatusOf recovered "a" = Some StatusConnecting /\ StatusOf recovered "b" = Some StatusError /\
  restored (webhook "x" "none") recovered.
Proof.
  pose proof (restore_recovers_all no_text (fun _ => None) 7 persisted_kv persisted
                (proj1 persisted_listed) (proj2 persisted_listed)) as H.
  destruct (Restore no_text (Ok persisted) (fun _ => None) 7 (NewStreamManager (Some persisted_kv)))
    as [r st] eqn:E.
  assert (recovered = st) as -> by (unfold recovered; by rewrite E).
  destruct H as (_ & _ & Hall & _ & Hup). split_and!.
  - apply (Hup (webhook "a" "9001")); [right; right; left|vm_compute; reflexivity|done|].
    intros other Ho _ _. unfold persisted in Ho. rewrite !elem_of_cons, elem_of_nil in Ho.
    destruct Ho as [->|[->|[->|[]]]]; vm_compute; discriminate.
  - replace st with recovered by (unfold recovered; by rewrite E). vm_compute. reflexivity.
  - apply Hall; [right; left|done].
Defined.

Lemma restore_order_independent_witness :
  Restore no_text (Ok persisted) (fun _ => None) 7 fresh_manager
  = Restore no_text (Ok (reverse persisted)) (fun _ => None) 7 fresh_manager.
Proof.
  apply (restore_order_independent no_text (fun _ => None) 7 persisted (reverse persisted) fresh_manager).
  - apply persisted_listed.
  - by rewrite reverse_Permutation.
Defined.
