(* ===== verification/HandlersSpec.v ===== *)
(** * The HTTP API: what it guarantees

    Authentication cannot be bypassed and comes before everything but the probes and
    the metrics; a registration's
    status says exactly what happened to the stream; readiness follows the broker;
    and what shutting the process down leaves behind. *)

From Stdlib Require Import ZArith Lia Ascii.
From stdpp Require Import base tactics option strings gmap list.
From S2P Require Import Prelude GoLib GoFloat GoUrl GoMux GoJson GoJsonStruct Domain.
From S2P Require Import ConfigJson Store Broker ConfigError PipelineConfig Validate Redact.
From S2P Require Import Builder Telemetry Supervisor Source Manager ManagerInv ManagerSpec Handlers.

#[local] Open Scope Z_scope.

(** ** Public paths *)

(** Decoding a path removes no slash. *)
Lemma unescape_slashes s : forall t, unescape s encodePath = Some t -> str_count "/" s <= str_count "/" t.
Proof.
  induction s as [s IH] using (induction_ltof1 _ String.length). unfold ltof in IH. intros t H.
  destruct s as [|c s]; [by injection H as <-|]. cbn [unescape] in H.
  case_bool_decide as Hc.
  - destruct s as [|a [|b s]]; try done. destruct (ishex a && ishex b) eqn:Eh; [|done].
    destruct (escape_allowed a b encodePath); [|done]. apply bind_Some in H as (r & Hr & [= <-]).
    apply IH in Hr; [|simpl; lia]. apply andb_true_iff in Eh as [Ha Hb].
    assert (Hns : forall d, ishex d = true -> d <> "/"%char) by (intros d Hd ->; by vm_compute in Hd).
    cbn [str_count]. subst c. rewrite (bool_decide_false ("%"%char = _)) by done.
    rewrite (bool_decide_false (a = _)), (bool_decide_false (b = _)) by auto. case_bool_decide; lia.
  - destruct (raw_allowed c encodePath); [|done]. apply bind_Some in H as (r & Hr & [= <-]).
    apply IH in Hr; [|simpl; lia]. cbn [str_count]. lia.
Qed.

Definition public_handler (h : handler) : bool :=
  match h with HLivez | HReadyz | HHealth | HMetrics => true | _ => false end.

(** The routes of one segment are the public ones. *)
Lemma short_routes : Forall (fun ph => (length (pt_segments ph.1) <= 1)%nat ->
  forall value, public_handler (ph.2 value) = true) api_mux.
Proof.
  assert (E : exists l, api_mux = l /\ Forall (fun ph => (length (pt_segments ph.1) <= 1)%nat ->
    forall value, public_handler (ph.2 value) = true) l).
  { eexists. split; [vm_compute; reflexivity|]. repeat constructor; cbn; intros; first [done|lia]. }
  destruct E as (l & -> & Hl). exact Hl.
Qed.

(** A handler that needs the token is never reached through a public path. *)
Lemma public_route r h :
  rq_Path r ∈ publicPaths -> route r = Handled h -> public_handler h = true.
Proof.
  unfold route. intros Hp H. destruct (findHandler _ _ _ _) as [| | |p hd ms] eqn:Ef; try done. injection H as <-.
  apply findHandler_sound in Ef as (Hin & _ & Ht & _). apply takes_length in Ht.
  assert (Hcount : str_count "/" (rq_Path r) = 1).
  { unfold publicPaths in Hp. rewrite !elem_of_cons, elem_of_nil in Hp.
    by destruct Hp as [->|[->|[->|[->|[]]]]]. }
  assert (Hlen : (length (pt_segments p) <= 1)%nat).
  { pose proof (raw_segments_length (rq_Target r)). assert (str_count "/" (rq_Target r) <= 1); [|lia].
    unfold rq_Path in *. destruct (unescape (rq_Target r) encodePath) eqn:Eu; simpl in *; [|done].
    apply unescape_slashes in Eu. lia. }
  pose proof short_routes as Hs. rewrite Forall_forall in Hs. by apply (Hs (p, hd) Hin).
Qed.

(** ** Authentication *)

Definition authorised (token : string) (r : request) : bool :=
  negb (str_is_empty token) && bool_decide (bearer_token (rq_Authorization r) = Some token).

(** A response with a stream, a configuration or an error about one in it, or with the
    metrics, which tell the ids of the streams, their states and their counters. *)
Definition discloses (b : resp_body) : bool :=
  match b with BError _ | BStreams _ | BDetail _ | BMetrics _ => true | _ => false end.

Lemma bearerAuth_refuses token r :
  rq_Path r ∉ publicPaths -> authorised token r = false ->
  bearerAuth token r = Some (if str_is_empty token then forbidden else unauthorized).
Proof.
  unfold bearerAuth, authorised. intros Hp Ha. rewrite bool_decide_false by done.
  destruct (str_is_empty token); [done|]. simpl in Ha. apply bool_decide_eq_false in Ha.
  destruct (bearer_token _) as [provided|]; [|done].
  destruct (str_eqb provided token) eqn:E; [|done]. apply bool_decide_eq_true in E. congruence.
Qed.

Lemma bearerAuth_accepts token r : authorised token r = true -> bearerAuth token r = None.
Proof.
  unfold bearerAuth, authorised. rewrite andb_true_iff, negb_true_iff, bool_decide_eq_true.
  intros [-> ->]. case_bool_decide; [done|]. unfold str_eqb. by rewrite bool_decide_true.
Qed.

(** (C9) Without the token nothing can be changed, and nothing of a stream read but the
    metrics, which the program leaves public: whatever the method, the path and the way
    the path is written, the state is as it was; the answer carries no stream,
    configuration or error about one unless it is that of [GET /metrics], which is the
    metrics as they stand (the ids of the streams, their states and counters); apart
    from those it does not depend on the manager's state at all; and outside the four
    public paths it is the fixed 401, or 403 when no token is configured. With the
    token every request reaches the routes. *)
Theorem unauthenticated_requests_change_nothing open_text token e r st :
  (authorised token r = false -> forall resp st',
     serve open_text token e r st = Some (resp, st') ->
     st' = st /\
     (discloses (rs_Body resp) = true ->
        rq_Path r ∈ publicPaths /\ route r = Handled HMetrics /\ resp = mkResp StatusOK (BMetrics (m_metrics st))) /\
     (forall st2, m_metrics st2 = m_metrics st -> serve open_text token e r st2 = Some (resp, st2)) /\
     (rq_Path r ∉ publicPaths -> resp = if str_is_empty token then forbidden else unauthorized)) /\
  (authorised token r = true -> forall h, route r = Handled h ->
     serve open_text token e r st = dispatch open_text e h (rq_Body r) st).
Proof.
  split.
  - intros Ha resp st' H. unfold serve in H |- *. destruct (decide (rq_Path r ∈ publicPaths)) as [Hp|Hp].
    + unfold bearerAuth in H |- *. rewrite bool_decide_true in H |- * by done.
      destruct (route r) as [| | |h] eqn:Er; try (injection H as <- <-; split_and!; [done..|by intros []]).
      pose proof (public_route r h Hp Er) as Hh.
      destruct h; try discriminate Hh; cbn [dispatch] in H |- *; injection H as <- <-;
        (split_and!; [done| | |by intros []]); try done.
      * unfold handleReadyz. simpl. by destruct (negb _).
      * by intros st2 ->.
    + rewrite (bearerAuth_refuses token r Hp Ha) in H |- *. injection H as <- <-.
      split_and!; [done| |done..]. by destruct (str_is_empty token).
  - intros Ha h Hr. unfold serve. by rewrite (bearerAuth_accepts token r Ha), Hr.
Qed.

(** The header is the token after the scheme, in any case, and nothing else is. *)
Lemma bearer_token_exact auth token : bearer_token auth = Some token ->
  exists prefix, str_map lower_byte prefix = str_map lower_byte scheme /\ auth = (prefix +:+ token)%string.
Proof.
  unfold bearer_token. destruct (_ || _) eqn:E; [done|]. intros [= <-].
  apply orb_false_iff in E as [El Ep]. apply negb_false_iff, bool_decide_eq_true in Ep.
  exists (String.substring 0 7 auth). split; [done|]. apply Nat.ltb_ge in El. clear Ep.
  assert (Hgen : forall n s, (n <= String.length s)%nat ->
    s = (String.substring 0 n s +:+ String.substring n (String.length s - n) s)%string).
  { clear. induction n as [|n IH]; intros s Hn.
    - destruct s as [|c s]; [done|]. simpl. rewrite str_app_nil. f_equal. clear Hn.
      induction s as [|d s IHs]; [done|]. simpl. by f_equal.
    - destruct s as [|c s]; simpl in Hn; [lia|]. simpl. autorewrite with gostr. f_equal. apply IH. lia. }
  by apply Hgen.
Qed.

(** ** Creating a stream *)

(** What each refusal means: nothing of the stream is left in the process, and the
    status tells a bad document, a conflict and an unavailable store apart. *)
Definition create_refused (open_text : open_error -> string) (e : env) (body : string) (resp : response)
    (st st' : mstate) : Prop :=
  match rs_Body resp with
  | BError ADecode => rs_Status resp = StatusBadRequest /\ limitBody DecodeStreamConfig body = None /\ st' = st
  | BError (AConfig why) =>
      rs_Status resp = StatusBadRequest /\ st' = st /\
      exists cfg, limitBody DecodeStreamConfig body = Some cfg /\ validateStreamConfig cfg = Err why
  | BError (AManager why) =>
      same_maps st st' /\ acked st' = acked st /\
      exists cfg, limitBody DecodeStreamConfig body = Some cfg /\ validateStreamConfig cfg = Ok tt /\
      in_doubt st' = in_doubt st ++ refused_write (with_defaults cfg) why /\
      match why with
      | ErrStreamExists id => rs_Status resp = StatusConflict /\ is_Some (runtimes st !! id)
      | ErrPortConflict port holder => rs_Status resp = StatusConflict /\ portClaims st !! port = Some holder
      | ErrSourceOpen _ => rs_Status resp = StatusConflict
      | EPersist why => rs_Status resp = StatusServiceUnavailable /\ e_put e = Some why
      | _ => False
      end
  | _ => False
  end.

(** (C11) The status of a creation says what happened.  It is 201 exactly when the
    document decodes and validates and the stream has been admitted: listed as
    connecting, supervised, holding its port, and its configuration, with its defaults
    filled in, acknowledged by the store (when there is one); the body then names it,
    with the state it has at a later moment, or "connecting" when it is gone by then.
    Otherwise nothing of the stream is left in the process: 400 for a document that
    does not decode or validate, 409 for a taken id, a held port or a source that does
    not open, 503 for a store that refuses the write, which is then in doubt: the
    bucket may hold the configuration, or come to hold it.  In every other case no
    write is left in doubt, and no other failure is possible. *)
Theorem creation_status open_text e body st resp st' :
  handleCreateStream open_text e body st = (resp, st') ->
  (rs_Status resp = StatusCreated /\ exists cfg,
     limitBody DecodeStreamConfig body = Some cfg /\ validateStreamConfig cfg = Ok tt /\
     admission_accepted (sc_ID cfg) (with_defaults cfg) true st st' /\
     rs_Body resp = BFields [("id", sc_ID cfg); ("status", "started");
       ("state", status_name (default StatusConnecting (StatusOf (e_later e st') (sc_ID cfg))))]%string) \/
  (rs_Status resp <> StatusCreated /\ create_refused open_text e body resp st st').
Proof.
  unfold handleCreateStream. destruct (limitBody DecodeStreamConfig body) as [cfg|] eqn:Ed.
  2: { intros H. injection H as <- <-. right. unfold create_refused. by rewrite Ed. }
  destruct (validateStreamConfig cfg) as [[]|why] eqn:Ev.
  2: { intros H. injection H as <- <-. right. unfold create_refused. rewrite Ed. simpl. eauto 10. }
  destruct (accepted_source cfg Ev) as (source & Hs & Hid & _). rewrite Hs.
  set (opened := open_text <$> Open (e_listen e) source).
  destruct (Register source (with_defaults cfg) opened (e_put e) st) as [[[]|why] st1] eqn:Hr;
    intros H; injection H as <- <-.
  - left. split; [done|]. exists cfg. pose proof Hr as Ha.
    apply admitLocked_accepted in Ha as [Ha _]; [|done]. by split_and!.
  - right. pose proof Hr as Hr1. apply admitLocked_refused in Hr as (Hwhy & [Hmaps Hstore _ _] & Hdoubt & _).
    split; [by destruct why|]. unfold create_refused. cbn [rs_Body rs_Status]. split; [done|]. split; [done|].
    exists cfg. split; [done|]. split; [done|]. split; [done|].
    destruct why; simpl in Hwhy |- *; try done.
    + by destruct Hwhy as [-> ?].
    + by destruct Hwhy as (-> & _ & ?).
    + apply validateStreamConfig_ok in Ev as (_ & _ & _ & _ & _ & Hp).
      destruct (NewGeneration_valid (ID source) (sc_Pipeline cfg) st Hp) as [g Hg].
      change (sc_Pipeline (with_defaults cfg)) with (sc_Pipeline cfg) in Hwhy. congruence.
    + by destruct Hwhy as (_ & ? & _).
Qed.

(** ** Readiness *)

(** Every string a probe may show. *)
Definition probe_strings : list string :=
  ["ready"; "unready"; "ok"; "unavailable"; "unknown";
   "broker connection is not established"; "jetstream is not available on the broker connection";
   "CONNECTED"; "CONNECTING"; "RECONNECTING"; "DISCONNECTED"; "CLOSED"; "DRAINING_SUBS"; "DRAINING_PUBS";
   "unknown status"]%string.

(** Readiness is the broker's: 200 exactly when the connection is established
    and JetStream answers on it, 503 otherwise; a connection that is draining or
    reconnecting is not ready; JetStream is reported unknown when it was not asked;
    and whatever the client's errors say, the answer is made of the fixed strings
    the documentation lists. *)
Theorem readiness_follows_broker conn account :
  let resp := handleReadyz conn account in
  (rs_Status resp = StatusOK <-> conn = CONNECTED /\ account jetStreamProbeTimeout = None) /\
  (rs_Status resp = StatusOK \/ rs_Status resp = StatusServiceUnavailable) /\
  match rs_Body resp with
  | BReady status reason broker state jetstream =>
      (status = "ready"%string <-> rs_Status resp = StatusOK) /\ (reason = None <-> rs_Status resp = StatusOK) /\
      (jetstream = "unknown"%string <-> conn <> CONNECTED) /\
      Forall (fun s => s ∈ probe_strings) [status; broker; state; jetstream; default "ok"%string reason]
  | _ => False
  end.
Proof.
  assert (Hin : forall s, bool_decide (s ∈ probe_strings) = true -> s ∈ probe_strings)
    by (intros s Hs; by apply bool_decide_eq_true in Hs).
  unfold handleReadyz, JetStreamAvailable.
  destruct conn, (account jetStreamProbeTimeout); cbn; (split; [split; [by intros|by intros []]|]); (split; [auto|]);
    repeat split; try (by intros); repeat apply Forall_cons_2; try apply Forall_nil_2;
    apply Hin; vm_compute; reflexivity.
Qed.

(** ** Updating a pipeline *)

(** The state with one more call in flight. *)
Definition in_flight (us : list update_pc) (pc : update_pc) (st : mstate) : mstate :=
  set_updates (us ++ [pc]) st.

Lemma in_flight_pc us pc st : updates (in_flight us pc st) !! length us = Some pc.
Proof. unfold in_flight. simpl. by apply list_lookup_middle. Qed.

Lemma in_flight_set us pc pc' st st' :
  st' = in_flight us pc st -> set_update (length us) pc' st' = in_flight us pc' st.
Proof.
  intros ->. unfold set_update, in_flight. simpl. rewrite insert_app_r_alt by done. by rewrite Nat.sub_diag.
Qed.

Lemma in_flight_build us pc id cfg st :
  NewGeneration id cfg (in_flight us pc st) =
  ((NewGeneration id cfg st).1, in_flight us pc (NewGeneration id cfg st).2).
Proof.
  unfold NewGeneration. change (m_metrics (in_flight us pc st)) with (m_metrics st).
  by destruct (buildFromConfig _ _ _) as [[b|e] w].
Qed.

(** What an undisturbed update does to the stream. *)
Definition update_outcome (id : string) (cfg : option PipelineConfig) (put : option string) (st : mstate)
    (r : result mgr_error unit) (st' : mstate) : Prop :=
  let updated := with_pipeline (default zero_config (configs st !! id)) cfg in
  match r with
  | Ok _ => exists previous next, generations st !! id = Some previous /\
      generations st' = <[id := next]> (generations st) /\ configs st' = <[id := updated]> (configs st) /\
      acked st' = <[sc_ID updated := updated]> <$> acked st /\ in_doubt st' = in_doubt st /\
      previous ∈ m_retired st' /\
      is_ok (NewGeneration id cfg st).1 = true /\ (is_Some (acked st) -> put = None)
  | Err why =>
      same_maps st st' /\ acked st' = acked st /\
      match why with
      | ErrStreamNotFound id' => id' = id /\ generations st !! id = None /\ in_doubt st' = in_doubt st
      | EBuildPipeline e => (NewGeneration id cfg st).1 = Err e /\ in_doubt st' = in_doubt st
      | EPersistPipeline id' e => id' = id /\ put = Some e /\ is_Some (acked st) /\ is_Some (generations st !! id) /\
                      is_ok (NewGeneration id cfg st).1 = true /\ in_doubt st' = in_doubt st ++ [OPut updated]
      | _ => False
      end
  end.

Section Undisturbed.
Context (us : list update_pc) (put : option string) (flushed : list StreamEvent).

Definition finishes (f : nat) (pc : update_pc) (st : mstate) (r : result mgr_error unit) (st' : mstate) : Prop :=
  update_run f (length us) put flushed (in_flight us pc st) = Some (r, st').

Lemma finishes_step f pc st pc' st1 r st' :
  (forall x, pc <> UEnd x) ->
  update_exec (length us) put flushed (in_flight us pc st) = Some (in_flight us pc' st1) ->
  finishes f pc' st1 r st' -> finishes (S f) pc st r st'.
Proof.
  unfold finishes. intros Hpc He Hr. cbn [update_run]. rewrite in_flight_pc, He. cbn [mbind option_bind].
  destruct pc as [| | | | |x]; try done. by destruct (Hpc x).
Qed.

Lemma finishes_end f res st : finishes f (UEnd res) st res (in_flight us (UEnd res) st).
Proof. unfold finishes. destruct f; cbn [update_run]; by rewrite in_flight_pc. Qed.

Lemma finishes_retire f id g res st :
  finishes (S f) (URetire id g res) st res (in_flight us (UEnd res) (Retire id g flushed st)).
Proof.
  eapply finishes_step; [done| |apply finishes_end]. unfold update_exec. rewrite in_flight_pc.
  cbn [mbind option_bind]. f_equal. by apply in_flight_set with (pc := URetire id g res).
Qed.

(** What the steps of such a call do. *)
Lemma check_step id cfg st :
  update_exec (length us) put flushed (in_flight us (UCheck id cfg) st) =
  Some (in_flight us (if bool_decide (is_Some (generations st !! id)) then UBuild id cfg
                      else UEnd (Err (ErrStreamNotFound id))) st).
Proof.
  unfold update_exec. rewrite in_flight_pc. cbn [mbind option_bind]. f_equal.
  by apply in_flight_set with (pc := UCheck id cfg).
Qed.

Lemma build_step id cfg st :
  update_exec (length us) put flushed (in_flight us (UBuild id cfg) st) =
  Some (in_flight us (match (NewGeneration id cfg st).1 with
                      | Err e => UEnd (Err (EBuildPipeline e))
                      | Ok next => UCommit id cfg next
                      end) (NewGeneration id cfg st).2).
Proof.
  unfold update_exec. rewrite in_flight_pc. cbn [mbind option_bind]. rewrite in_flight_build. f_equal.
  by apply in_flight_set with (pc := UBuild id cfg).
Qed.

(** The state a commit leaves, refused or made. *)
Definition swap_refused (id : string) (cfg : option PipelineConfig) (st : mstate) : mstate :=
  doubt (OPut (with_pipeline (default zero_config (configs st !! id)) cfg)) st.
Definition swapped (id : string) (cfg : option PipelineConfig) (next : nat) (st : mstate) : mstate :=
  let updated := with_pipeline (default zero_config (configs st !! id)) cfg in
  set_maps (<[id := next]> (generations st)) (<[id := updated]> (configs st)) (cancels st) (dones st)
    (runtimes st) (portClaims st) (set_acked ((fun kv => <[sc_ID updated := updated]> kv) <$> acked st) st).

Lemma commit_step id cfg previous next st :
  generations st !! id = Some previous ->
  update_exec (length us) put flushed (in_flight us (UCommit id cfg next) st) =
  Some (match acked st, put with
        | Some _, Some e => in_flight us (URetire id next (Err (EPersistPipeline id e))) (swap_refused id cfg st)
        | _, _ => in_flight us (URetire id previous (Ok tt)) (swapped id cfg next st)
        end).
Proof.
  intros Hg. unfold update_exec. rewrite in_flight_pc. cbn [mbind option_bind].
  change (generations (in_flight us (UCommit id cfg next) st)) with (generations st).
  change (configs (in_flight us (UCommit id cfg next) st)) with (configs st).
  change (acked (in_flight us (UCommit id cfg next) st)) with (acked st). rewrite Hg.
  pose proof (in_flight_set us (UCommit id cfg next)) as Hset. unfold swapped, swap_refused.
  destruct (acked st) as [kv|] eqn:Hs, put; f_equal; rewrite ?Hs; by apply Hset.
Qed.

End Undisturbed.

Lemma UpdatePipeline_returns id cfg put flushed st :
  exists r st', UpdatePipeline id cfg put flushed st = Some (r, st') /\ update_outcome id cfg put st r st' /\
    updates st' = updates st ++ [UEnd r].
Proof.
  set (us := updates st).
  change (exists r st', finishes us put flushed 5 (UCheck id cfg) st r st' /\ update_outcome id cfg put st r st' /\
    updates st' = us ++ [UEnd r]).
  pose proof (check_step us put flushed id cfg st) as Hcheck. case_bool_decide as Hg.
  2: { eexists _, _. split; [eapply finishes_step; [done|exact Hcheck|apply finishes_end]|].
       apply eq_None_not_Some in Hg. done. }
  pose proof (NewGeneration_maps id cfg st) as Hm. pose proof (NewGeneration_same id cfg st) as [Hst1 _].
  pose proof (NewGeneration_doubt id cfg st) as Hdoubt. pose proof (build_step us put flushed id cfg st) as Hbuild.
  destruct (NewGeneration id cfg st) as [[next|why] st1] eqn:En; cbn [fst snd] in *.
  2: { eexists _, _. split.
       - eapply finishes_step; [done|exact Hcheck|]. eapply finishes_step; [done|exact Hbuild|apply finishes_end].
       - split; [|done]. split; [done|]. split; [done|]. by rewrite En. }
  pose proof Hm as (Eg & Ec & _). destruct Hg as [previous Hg].
  pose proof (commit_step us put flushed id cfg previous next st1) as Hcommit.
  rewrite Eg, Hst1 in Hcommit. specialize (Hcommit Hg).
  assert (Hrun : forall id' g res st2,
    update_exec (length us) put flushed (in_flight us (UCommit id cfg next) st1) =
      Some (in_flight us (URetire id' g res) st2) ->
    finishes us put flushed 5 (UCheck id cfg) st res (in_flight us (UEnd res) (Retire id' g flushed st2))).
  { intros id' g res st2 Hc. eapply finishes_step; [done|exact Hcheck|].
    eapply finishes_step; [done|exact Hbuild|]. eapply finishes_step; [done|exact Hc|apply finishes_retire]. }
  destruct (acked st) as [kv|] eqn:Hs, put as [why|]; (eexists _, _; split; [by apply Hrun, Hcommit|]).
  all: split; [|done].
  1: { split; [exact Hm|]. split; [by simpl; rewrite Hst1|]. rewrite Hs, En. unfold swap_refused. simpl.
       rewrite Hdoubt, Ec. by split_and!; [| | |eexists| |]. }
  all: exists previous, next; (split; [done|]); cbv zeta; unfold swapped; rewrite Hs, ?Hst1, Eg, Ec, En;
    (split_and!; [done..|simpl; set_solver|done|]); first [done|by intros []].
Qed.


(** ** Shutting down *)

Definition no_open_text (e : open_error) : string := EmptyString.
Definition quiet_env : env := mkEnv true CONNECTED (fun _ => None) (fun _ => None) None None [] []
  (fun _ => 0) (fun st => st).

Definition create_body (id : string) : string :=
  (js "{'id':'" +:+ id +:+ js "','kind':'webhook','topic':'t','webhook':{'port':'9001','path':'/in'}}")%string.

Definition create_request (id : string) : request :=
  mkRequest "POST" "/v1/streams" "bearer secret" (create_body id).

Definition stopped : mstate := default fresh_manager (StopAll (fun _ => []) (fun _ => []) fresh_manager).
Definition late : mstate :=
  (default (mkResp 0 BText, stopped) (serve no_open_text "secret" quiet_env (create_request "a") stopped)).2.

(** [runService] stops the manager before it stops the server, and a stopped
    manager still admits streams: one created in between is supervised, and nothing
    will stop it, retire its generation or flush what it holds before the process
    exits. *)
Theorem late_registration_outlives_stop :
  StopAll (fun _ => []) (fun _ => []) fresh_manager = Some stopped /\
  (rs_Status <$> (fst <$> serve no_open_text "secret" quiet_env (create_request "a") stopped)) = Some StatusCreated /\
  is_some (sups late !! "a"%string) = true /\ generations late !! "a"%string = Some 0%nat /\
  bool_decide (0%nat ∈ m_retired late) = false.
Proof.
  split; [apply some_default; vm_compute; reflexivity|]. split_and!; vm_compute; reflexivity.
Qed.

(** ** Witnesses *)

Lemma unauthenticated_requests_change_nothing_witness :
  authorised "secret" (create_request "a") = true /\
  authorised "secret" (mkRequest "DELETE" "/v1/streams/a" "Bearer secrets" "") = false /\
  (forall resp st', serve no_open_text "secret" quiet_env (mkRequest "DELETE" "/v1/streams/a" "Bearer secrets" "") busy
     = Some (resp, st') -> st' = busy) /\
  serve no_open_text "secret" quiet_env (create_request "a") busy
    = dispatch no_open_text quiet_env HCreateStream (create_body "a") busy.
Proof.
  split; [vm_compute; reflexivity|]. split; [vm_compute; reflexivity|]. split.
  - intros resp st' H.
    refine (proj1 (proj1 (unauthenticated_requests_change_nothing no_open_text "secret" quiet_env
      (mkRequest "DELETE" "/v1/streams/a" "Bearer secrets" "") busy) _ resp st' H)).
    vm_compute. reflexivity.
  - refine (proj2 (unauthenticated_requests_change_nothing no_open_text "secret" quiet_env
      (create_request "a") busy) _ HCreateStream _); vm_compute; reflexivity.
Defined.

Lemma creation_status_witness :
  let r := handleCreateStream no_open_text quiet_env (create_body "z") busy in
  rs_Status r.1 = StatusConflict /\ create_refused no_open_text quiet_env (create_body "z") r.1 busy r.2.
Proof.
  intros r. assert (H : rs_Status r.1 = StatusConflict) by (vm_compute; reflexivity). split; [exact H|].
  destruct (creation_status no_open_text quiet_env (create_body "z") busy r.1 r.2) as [[H1 _]|[_ H1]].
  - apply surjective_pairing.
  - rewrite H in H1. discriminate H1.
  - exact H1.
Defined.

