(* ===== verification/ErrorText.v ===== *)
(** * The messages of the errors

    The [fmt.Errorf] of the validators, the manager, the handlers, the store, the
    broker's streams and the sources' [Open], with the formats of the source.  What
    package net/url says is wrong with a URL, package time with a duration, and
    encoding/json with a document, are arguments.  A refusal names the field at
    fault. *)

From Stdlib Require Import ZArith Lia Ascii.
From stdpp Require Import base tactics option strings gmap list.
From S2P Require Import Prelude GoLib GoFloat GoNumber GoTime GoUrl GoQuote GoJson GoJsonStruct Domain.
From S2P Require Import ConfigError PipelineConfig ConfigJson Restart Validate Redact Supervisor.
From S2P Require Import Store Broker Source Manager Handlers.

#[local] Open Scope Z_scope.

Definition q : string := String (byte_of 34) EmptyString.

Section Texts.
(** [strconv.IsPrint] outside ASCII; why a URL or a duration does not parse; why a
    document does not decode, or a value does not encode. *)
Variables (wide_print : Z -> bool) (parse_reason : string -> string) (decode_reason : string).

#[local] Abbreviation quoted := (quote wide_print).

(** [err.Error()] of [url.Parse]: a [url.Error], which quotes what it was parsing: the
    URL up to its fragment, or all of it when the fragment is what is wrong. *)
Definition url_error_text (raw : string) : string :=
  let '(u, _) := cut "#" raw in
  ("parse " +:+ quoted (if is_some (url_parse u) then raw else u) +:+ ": " +:+ parse_reason raw)%string.

Definition supportedKindList : string := "grpc, rest_poller, sse, webhook, websocket".

(** The JSON path a message starts with. *)
Definition error_path (e : cfg_error) : string :=
  match e with
  | EDurationSyntax path _ | EDurationNotPositive path _ | ECountNotPositive path _ | ECountExceeds path _ _
  | ERestartDurationSyntax path _ | ERestartDurationNotPositive path _ | EHeaderNameEmpty path
  | EPortSyntax path _ | EPortRange path _ => path
  | EFilterEmpty => "pipeline.filter.match_types"
  | EFilterEmptyType i => "pipeline.filter.match_types[" +:+ itoa (Z.of_nat i) +:+ "]"
  | ETransformEmpty | ETransformEmptyKey => "pipeline.transform.mapping"
  | ETransformEmptyPath key => "pipeline.transform.mapping[" +:+ quoted key +:+ "]"
  | EEnrichEmpty | EEnrichEmptyName => "pipeline.enrich.tags"
  | EThresholdPathRequired => "pipeline.threshold.path"
  | EThresholdDeltaNegative _ => "pipeline.threshold.delta"
  | EIdRequired | EIdInvalid _ => "id"
  | EKindRequired | EKindUnsupported _ => "kind"
  | ETopicRequired | ETopicInvalid _ => "topic"
  | EUrlRequired _ | EUrlInvalid _ | EUrlHost | EUrlWebsocketScheme | EUrlHttpScheme _ => "url"
  | EBlockDoesNotApply block _ => block
  | EFrameEmpty i => "websocket.on_connect_send[" +:+ itoa (Z.of_nat i) +:+ "]"
  | EPollIntervalSyntax _ | EPollIntervalTooShort _ => "rest_poller.interval"
  | EPollMethod _ => "rest_poller.method"
  | EMaxAttemptsNegative => "restart.max_attempts"
  | EFactorTooSmall _ => "restart.factor"
  | EBackoffInverted _ _ => "restart"
  | EUnsupportedKind _ => "unsupported kind"
  end%string.

(** What follows the path and its colon. *)
Definition error_detail (e : cfg_error) : string :=
  match e with
  | EDurationSyntax _ raw =>
      quoted raw +:+ " is not a valid duration (want a unit suffix, e.g. " +:+ q +:+ "500ms" +:+ q +:+ ", " +:+ q
        +:+ "5s" +:+ q +:+ ", " +:+ q +:+ "1m" +:+ q +:+ ")"
  | EDurationNotPositive _ raw => "must be a positive duration, got " +:+ quoted raw
  | ECountNotPositive _ raw => "must be a positive count, got " +:+ itoa raw
  | ECountExceeds _ limit raw => "must not exceed " +:+ itoa limit +:+ ", got " +:+ itoa raw
  | EFilterEmpty => "must list at least one type; omit the filter block rather than leaving it empty"
  | EFilterEmptyType _ => "must not be empty"
  | ETransformEmpty => "must contain at least one entry; omit the transform block rather than leaving it empty"
  | ETransformEmptyKey => "target keys must not be empty"
  | ETransformEmptyPath _ => "source path must not be empty"
  | EEnrichEmpty => "must contain at least one tag; omit the enrich block rather than leaving it empty"
  | EEnrichEmptyName => "tag names must not be empty"
  | EThresholdPathRequired => "required when threshold is enabled"
  | EThresholdDeltaNegative delta => "must not be negative, got " +:+ format_g delta
  | ERestartDurationSyntax _ raw =>
      quoted raw +:+ " is not a valid duration (want a unit suffix, e.g. " +:+ q +:+ "5s" +:+ q +:+ ", " +:+ q
        +:+ "1m" +:+ q +:+ ")"
  | ERestartDurationNotPositive _ raw => "must be positive, got " +:+ quoted raw
  | EIdRequired | EKindRequired | ETopicRequired => "required"
  | EIdInvalid id => "invalid " +:+ quoted id +:+ ": must match [a-zA-Z0-9._-]+"
  | EKindUnsupported kind => "unsupported " +:+ quoted kind +:+ " (want one of " +:+ supportedKindList +:+ ")"
  | ETopicInvalid topic => "invalid " +:+ quoted topic +:+ ": must match [a-zA-Z0-9._-]+"
  | EUrlRequired kind => "required for kind " +:+ quoted kind
  | EUrlInvalid raw => "invalid: " +:+ url_error_text raw
  | EUrlHost => "must include a host"
  | EUrlWebsocketScheme => "websocket url must use the ws:// or wss:// scheme"
  | EUrlHttpScheme kind => kind +:+ " url must use the http:// or https:// scheme"
  | EBlockDoesNotApply _ kind => "block does not apply to kind " +:+ quoted kind +:+ " and would be ignored"
  | EFrameEmpty _ => "must not be empty"
  | EPollIntervalSyntax raw =>
      quoted raw +:+ " is not a valid duration (want a unit suffix, e.g. " +:+ q +:+ "30s" +:+ q +:+ ", " +:+ q
        +:+ "5m" +:+ q +:+ ")"
  | EPollIntervalTooShort raw =>
      "must be at least " +:+ duration_string minPollInterval +:+ ", got " +:+ quoted raw
  | EPollMethod raw =>
      quoted raw +:+ " is not a supported HTTP method (want an upper-case method such as GET or POST)"
  | EHeaderNameEmpty _ => "header names must not be empty"
  | EPortSyntax _ s => quoted s +:+ " is not a valid port number"
  | EPortRange _ port => itoa port +:+ " out of range (1-65535)"
  | EMaxAttemptsNegative =>
      "must not be negative (omit the field for unlimited restarts, or set 0 to never restart)"
  | EFactorTooSmall factor => "must be at least 1, got " +:+ format_g factor
  | EBackoffInverted effectiveMax effectiveInitial =>
      "max_backoff " +:+ duration_string effectiveMax +:+ " is shorter than initial_backoff "
        +:+ duration_string effectiveInitial +:+ " (omitted fields take their defaults: initial_backoff "
        +:+ duration_string defaultInitialBackoff +:+ ", max_backoff " +:+ duration_string defaultMaxBackoff +:+ ")"
  | EUnsupportedKind kind => kind
  end%string.

Definition cfg_error_text (e : cfg_error) : string := (error_path e +:+ ": " +:+ error_detail e)%string.

(** manager.go *)
Definition mgr_error_text (e : mgr_error) : string :=
  match e with
  | ErrStreamExists id => "source " +:+ quoted id +:+ ": stream already registered"
  | ErrStreamNotFound id => "source " +:+ quoted id +:+ ": stream not found"
  | ErrPortConflict port holder =>
      "port already claimed: port " +:+ port +:+ " is held by stream " +:+ quoted holder
  | EBuildPipeline e => "build pipeline: " +:+ cfg_error_text e
  | ErrSourceOpen e => "stream resources unavailable: " +:+ e
  | EPersist e => "persist config: " +:+ e
  | EPersistPipeline id e => "persist pipeline for " +:+ quoted id +:+ ": " +:+ e
  | EDeletePersisted id e => "delete persisted config for " +:+ quoted id +:+ ": " +:+ e
  | ELoadPersisted e => "load persisted configs: " +:+ e
  | EInvalidPersisted e => "invalid persisted config: " +:+ cfg_error_text e
  | EConfig e => cfg_error_text e
  end%string.

(** handlers.go *)
Definition api_error_text (e : api_error) : string :=
  match e with
  | AIdRequired => "stream id is required"
  | ADecode => "invalid JSON: " +:+ decode_reason
  | AConfig e => cfg_error_text e
  | AManager e => mgr_error_text e
  end%string.

(** rest_poller.go, webhook.go, grpc.go: [Open] *)
Definition open_error_text (e : open_error) : string :=
  match e with
  | EInterval raw => "invalid interval duration " +:+ quoted raw +:+ ": " +:+ parse_reason raw
  | EIntervalNotPositive raw => "invalid interval duration " +:+ quoted raw +:+ ": must be positive"
  | EBindWebhook cause => "bind webhook listener: " +:+ cause
  | EBindGrpc port cause => "bind grpc listener on port " +:+ port +:+ ": " +:+ cause
  end%string.

(** kv.go *)
Definition store_error_text (e : store_error) : string :=
  match e with
  | EInit e => "kv store init: " +:+ e
  | EMarshalConfig => "marshal config: " +:+ decode_reason
  | EKvPut id e => "kv put " +:+ quoted id +:+ ": " +:+ e
  | EKvDelete id e => "kv delete " +:+ quoted id +:+ ": " +:+ e
  | EKvGet id e => "kv get " +:+ quoted id +:+ ": " +:+ e
  | EUnmarshalConfig id => "unmarshal config " +:+ quoted id +:+ ": " +:+ decode_reason
  | EKvKeys e => "kv keys: " +:+ e
  end%string.

(** nats.go: [ensureStream] *)
Definition stream_error_text (e : stream_error) : string :=
  match e with
  | EInspectStream name e => "inspect stream " +:+ quoted name +:+ ": " +:+ e
  | ECreateStream name e => "create stream " +:+ quoted name +:+ ": " +:+ e
  | EUpdateStream name e => "update stream " +:+ quoted name +:+ ": " +:+ e
  end%string.
End Texts.

(** ** The path a message names *)

(** The objects of a configuration document and the keys they may have. *)
Inductive schema : Type :=
| Value
| Object (members : list (string * schema)).

Definition assoc {A} (k : string) (l : list (string * A)) : option A :=
  snd <$> find (fun p => str_eqb p.1 k) l.

(** A struct is an object with its fields; those listed are objects themselves. *)
Definition object (A : Type) `{Struct A} (subs : list (string * schema)) : schema :=
  Object ((fun f => (f.1, default Value (assoc f.1 subs))) <$> @struct_fields A _ true).

Definition stream_schema : schema :=
  object StreamSourceConfig
    [("restart", object RestartConfig []); ("websocket", object WebsocketConfig []);
     ("sse", object SseConfig []); ("rest_poller", object RestPollerConfig []);
     ("webhook", object WebhookConfig []); ("grpc", object GrpcConfig []);
     ("pipeline", object PipelineConfig
        [("filter", object FilterConfig []); ("transform", object TransformConfig []);
         ("enrich", object EnrichConfig []); ("dedup", object DedupConfig []);
         ("threshold", object ThresholdConfig []); ("batch", object BatchConfig [])])]%string.

Fixpoint resolves (path : list string) (s : schema) : bool :=
  match path, s with
  | [], _ => true
  | key :: rest, Object members =>
      match assoc key members with Some s' => resolves rest s' | None => false end
  | _ :: _, Value => false
  end.

Fixpoint until (stop : ascii -> bool) (s : string) : string :=
  match s with
  | EmptyString => EmptyString
  | String c s' => if stop c then EmptyString else String c (until stop s')
  end.

(** What a reader takes a message to be about: the keys before its colon, without
    the element of an array or a map in brackets. *)
Definition named_path (message : string) : list string := split "." (until (one_of ":[") message).

(** Two configurations with the same member [key]. *)
Definition same_at (key : string) (a b : StreamSourceConfig) : Prop :=
  default True (assoc key
    [("id", sc_ID a = sc_ID b); ("kind", sc_Kind a = sc_Kind b); ("topic", sc_Topic a = sc_Topic b);
     ("url", sc_URL a = sc_URL b); ("metadata", sc_Metadata a = sc_Metadata b);
     ("restart", sc_Restart a = sc_Restart b); ("websocket", sc_Websocket a = sc_Websocket b);
     ("sse", sc_Sse a = sc_Sse b); ("rest_poller", sc_RestPoller a = sc_RestPoller b);
     ("webhook", sc_Webhook a = sc_Webhook b); ("grpc", sc_Grpc a = sc_Grpc b);
     ("pipeline", sc_Pipeline a = sc_Pipeline b)])%string.

Lemma bind_err {E A B} (r : result E A) (k : A -> result E B) e :
  r ≫= k = Err e <-> r = Err e \/ exists a, r = Ok a /\ k a = Err e.
Proof. destruct r; simpl; naive_solver. Qed.

Section Blame.
Variables (wide_print : Z -> bool) (parse_reason : string -> string).

#[local] Abbreviation text := (cfg_error_text wide_print parse_reason).

(** A message about the member [key], or about something in it. *)
Definition about (key : string) (e : cfg_error) : Prop :=
  head (named_path (text e)) = Some key /\ resolves (named_path (text e)) stream_schema = true.

(** Every check of a block names the block. *)
Ltac refusals H :=
  repeat match type of H with
  | ?r ≫= ?k = Err _ => apply bind_err in H as [H|(? & _ & H)]
  | fail_if _ _ = Err _ => apply fail_if_err in H as [_ ->]
  | (match ?x with _ => _ end) = Err _ => destruct x eqn:?; try discriminate H
  | Err _ = Err _ => injection H as <-
  | Ok _ = Err _ => discriminate H
  end; try (split; reflexivity).

Lemma validateMappingEntries_about kvs e : validateMappingEntries kvs = Err e -> about "pipeline" e.
Proof. induction kvs as [|[k p] kvs IH]; simpl; intros H; [done|]. refusals H. by apply IH. Qed.

Lemma ValidateConfig_about p e : ValidateConfig p = Err e -> about "pipeline" e.
Proof.
  unfold ValidateConfig, when_present, validateFilter, validateTransform, validateEnrich, validateDedup,
    validateThreshold, validateBatch, resolveDuration, resolveCount.
  intros H. refusals H. by apply validateMappingEntries_about in H.
Qed.

Lemma validateRestart_about r e : validateRestart r = Err e -> about "restart" e.
Proof. unfold validateRestart, validateRestartDuration. intros H. refusals H. Qed.

Lemma foreign_block_err kind present e :
  foreign_block kind present = Err e ->
  exists block, block ∈ present /\ block <> default EmptyString (connectorBlocks !! kind) /\
    e = EBlockDoesNotApply block kind.
Proof.
  induction present as [|b present IH]; simpl; [done|]. unfold str_eqb. case_bool_decide as Hb.
  - intros (block & Hin & H)%IH. exists block. split; [by right|done].
  - intros [= <-]. exists b. split; [by left|done].
Qed.

(** A block of another kind is refused wherever it is. *)
Lemma foreign_block_in kind block present :
  block ∈ present -> block <> default EmptyString (connectorBlocks !! kind) -> foreign_block kind present <> Ok tt.
Proof.
  intros Hin Hb. induction present as [|b present IH]; [by apply elem_of_nil in Hin|]. simpl.
  apply elem_of_cons in Hin as [<-|Hin]; unfold str_eqb; [by rewrite bool_decide_false|].
  case_bool_decide; [by apply IH|done].
Qed.

Lemma present_blocks cfg block : block ∈ presentConnectorBlocks cfg ->
  block ∈ ["websocket"; "sse"; "rest_poller"; "webhook"; "grpc"]%string /\
  forall cfg', same_at block cfg cfg' -> block ∈ presentConnectorBlocks cfg'.
Proof.
  unfold presentConnectorBlocks. rewrite !elem_of_app.
  intros [H|[H|[H|[H|H]]]]; case_match eqn:Hc; try (by apply elem_of_nil in H);
    apply list_elem_of_singleton in H as ->; (split; [set_solver|]);
    intros cfg' Hs; unfold same_at in Hs; simpl in Hs; rewrite Hc in Hs; rewrite <- Hs; set_solver.
Qed.

(** What refuses a configuration at a member: its message names the member, and
    [check], given another configuration of the same kind with the same member,
    refuses it too. *)
Definition blamed (check : StreamSourceConfig -> result cfg_error unit) (cfg : StreamSourceConfig) (key : string)
    (e : cfg_error) : Prop :=
  about key e /\
  forall cfg', same_at key cfg cfg' -> sc_Kind cfg' = sc_Kind cfg -> is_ok (check cfg') = false.

(** A check whose every refusal can be blamed on a member. *)
Definition faults (check : StreamSourceConfig -> result cfg_error unit) : Prop :=
  forall cfg e, check cfg = Err e -> exists key, blamed check cfg key e.

Lemma faults_seq c1 c2 : faults c1 -> faults c2 -> faults (fun cfg => c1 cfg;; c2 cfg).
Proof.
  intros H1 H2 cfg e [H|([] & _ & H)]%bind_err; [apply H1 in H|apply H2 in H]; destruct H as (key & Ha & H);
    exists key; (split; [done|]); intros cfg' Hs Hk; specialize (H cfg' Hs Hk);
    by destruct (c1 cfg') as [[]|], (c2 cfg').
Qed.

(** A check that looks at one member and the kind. *)
Lemma faults_at key (check : StreamSourceConfig -> result cfg_error unit) :
  (forall cfg e, check cfg = Err e -> about key e) ->
  (forall cfg cfg', same_at key cfg cfg' -> sc_Kind cfg' = sc_Kind cfg -> check cfg' = check cfg) -> faults check.
Proof.
  intros Ha Hs cfg e He. exists key. split; [by eapply Ha|]. intros cfg' H Hk. by rewrite (Hs cfg), He.
Qed.

Lemma faults_blocks : faults (fun cfg => foreign_block (sc_Kind cfg) (presentConnectorBlocks cfg)).
Proof.
  intros cfg e (block & Hin & Hb & ->)%foreign_block_err. exists block.
  destruct (present_blocks cfg block Hin) as [Hn Hsame]. split.
  - rewrite !elem_of_cons, elem_of_nil in Hn. destruct_or! Hn; subst; try done; by split.
  - intros cfg' Hs Hk. rewrite Hk. apply Hsame in Hs. pose proof (foreign_block_in _ _ _ Hs Hb) as Hf.
    by destruct (foreign_block _ _) as [[]|].
Qed.

Ltac looks_at key :=
  apply (faults_at key);
  [let H := fresh "H" in intros ? ? H
  |let Hs := fresh in let Hk := fresh in intros ? ? Hs Hk; unfold same_at in Hs; simpl in Hs;
   rewrite ?Hk, <- ?Hs; reflexivity].

Lemma faults_url : faults validateUrl.
Proof. unfold validateUrl. looks_at "url"%string. refusals H. Qed.

Lemma faults_connector : faults validateConnector.
Proof.
  unfold validateConnector, when_present, validatePollInterval, validatePollMethod, validateHeaders, validatePushPort,
    validatePort.
  apply faults_seq; [exact faults_url|]. apply faults_seq; [exact faults_blocks|].
  apply faults_seq; [looks_at "websocket"%string; refusals H|].
  apply faults_seq; [looks_at "rest_poller"%string; refusals H|].
  apply faults_seq; [looks_at "sse"%string; refusals H|].
  apply faults_seq; [looks_at "webhook"%string; refusals H|].
  looks_at "grpc"%string; refusals H.
Qed.

Lemma faults_stream : faults validateStreamConfig.
Proof.
  unfold validateStreamConfig.
  do 2 (apply faults_seq; [looks_at "id"%string; refusals H|]).
  do 2 (apply faults_seq; [looks_at "kind"%string; refusals H|]).
  do 2 (apply faults_seq; [looks_at "topic"%string; refusals H|]).
  apply faults_seq; [exact faults_connector|].
  apply faults_seq; [looks_at "restart"%string; by eapply validateRestart_about|].
  looks_at "pipeline"%string. by eapply ValidateConfig_about.
Qed.
End Blame.

(** (C12) A refused configuration is told where it is wrong: the message starts with the
    path of a field of the configuration document, and the fault is there: a
    configuration of the same kind is refused for as long as the member the path starts
    with is the same, whatever else is changed. *)
Theorem refusals_name_the_fault wide_print parse_reason cfg e :
  validateStreamConfig cfg = Err e ->
  let path := named_path (cfg_error_text wide_print parse_reason e) in
  resolves path stream_schema = true /\
  exists key, head path = Some key /\
  forall cfg', same_at key cfg cfg' -> sc_Kind cfg' = sc_Kind cfg -> is_ok (validateStreamConfig cfg') = false.
Proof. intros (key & [Hh Hr] & H)%(faults_stream wide_print parse_reason). split; [done|]. by exists key. Qed.

(** A batch interval without a unit. *)
Definition mistyped : StreamSourceConfig :=
  mkSourceConfig "a" "sse" "http://h/s" "t" ∅ None None None None None
    (Some (mkPipelineConfig None None None None None (Some (mkBatchConfig true 5 "1 sec")))) None.

Lemma refusals_name_the_fault_witness :
  cfg_error_text (fun _ => true) (fun _ => EmptyString) (EDurationSyntax "pipeline.batch.flush_interval" "1 sec")
  = (("pipeline.batch.flush_interval: " +:+ q +:+ "1 sec" +:+ q +:+ " is not a valid duration (want a unit suffix, e.g. "
      +:+ q +:+ "500ms" +:+ q +:+ ", " +:+ q +:+ "5s" +:+ q +:+ ", " +:+ q +:+ "1m" +:+ q +:+ ")")%string) /\
  is_ok (validateStreamConfig mistyped) = false /\
  exists key, Some "pipeline"%string = Some key /\
  forall cfg', same_at key mistyped cfg' -> sc_Kind cfg' = "sse"%string -> is_ok (validateStreamConfig cfg') = false.
Proof.
  split; [vm_compute; reflexivity|]. split; [vm_compute; reflexivity|].
  destruct (refusals_name_the_fault (fun _ => true) (fun _ => EmptyString) mistyped
              (EDurationSyntax "pipeline.batch.flush_interval" "1 sec")) as [_ H]; [vm_compute; reflexivity|exact H].
Defined.

(** ** What a message may carry out *)

(** A stored configuration whose URL has credentials and does not parse. *)
Definition unparsable : StreamSourceConfig :=
  mkSourceConfig "a" "websocket" "wss://user:secret@h/%zz" "t" ∅ None None None None None None None.

(** Restoring it lists it in the error state, and the message the API serves for it,
    which has been through [redactForAPI], holds the credentials: what does not
    parse is not edited, and the error of [url.Parse] quotes all of it. *)
Lemma restore_serves_unparsable_url :
  let reason := fun _ => ("invalid URL escape " +:+ q +:+ "%zz" +:+ q)%string in
  si_LastError <$> List_ (fun _ => 0) (Restore (mgr_error_text (fun _ => true) reason) (Ok [unparsable]) (fun _ => None) 7
                            (NewStreamManager (Some {[ "a" := unparsable ]}))).2
  = [("invalid persisted config: url: invalid: parse " +:+ q +:+ "wss://user:secret@h/%zz" +:+ q +:+
      ": invalid URL escape " +:+ q +:+ "%zz" +:+ q)%string].
Proof. vm_compute. reflexivity. Qed.
