(* ===== verification/ApiJson.v ===== *)
(** * internal/server: the documents the API answers

    [writeJSON]: the body of every response as the text that is sent, with the
    structs of manager.go by their tags; and what a client that decodes them gets. *)

From Stdlib Require Import ZArith Lia Ascii.
From stdpp Require Import base tactics option strings gmap list.
From S2P Require Import Prelude GoLib GoTime GoDate GoDateText GoFloat GoJson GoJsonPrint.
From S2P Require Import GoJsonValue GoJsonString GoJsonSound GoJsonStruct Domain ConfigJson Redact.
From S2P Require Import Telemetry Supervisor Source Manager Handlers HandlersSpec.

#[local] Open Scope Z_scope.

(** ** Times *)

(** [Time.MarshalJSON] of a UTC instant fails past the year 9999. *)
Definition enc_time (t : Z) : option jtree :=
  if printable_year t then Some (enc_string (format_rfc3339nano t)) else None.

Definition dec_time (t : jtree) (old : Z) : option Z :=
  match t with TNull => Some old | TStr raw => parse_rfc3339 (unquote raw) | _ => None end.

Definition ascii_text (s : string) : bool := str_forallb (fun c => byte_val c <? 128) s.

Lemma digit_ascii d : 0 <= d < 10 -> (byte_val (digit_char d) <? 128) = true.
Proof. intros Hd. unfold digit_char. rewrite byte_val_of by lia. lia. Qed.

Lemma two_ascii n s : 0 <= n < 100 -> ascii_text s = true -> ascii_text (two n s) = true.
Proof.
  intros Hn Hs. unfold two, ascii_text in *. cbn [str_forallb].
  rewrite !digit_ascii, Hs by first [apply Z.mod_pos_bound; lia|split; [apply Z.div_pos; lia|apply Z.div_lt_upper_bound; lia]].
  done.
Qed.

Lemma frac_ascii n : forall v s, 0 <= v < 10 ^ Z.of_nat n -> ascii_text s = true -> ascii_text (frac_text n v s) = true.
Proof.
  induction n as [|n IH]; intros v s Hv Hs; cbn [frac_text]; destruct (v =? 0); try done.
  rewrite Nat2Z.inj_succ, Z.pow_succ_r in Hv by lia. assert (0 < 10 ^ Z.of_nat n) by (apply Z.pow_pos_nonneg; lia).
  unfold ascii_text. cbn [str_forallb].
  rewrite digit_ascii by (split; [apply Z.div_pos; lia|apply Z.div_lt_upper_bound; lia]).
  apply IH; [apply Z.mod_pos_bound; lia|done].
Qed.

Lemma format_ascii t : printable_year t = true -> ascii_text (format_rfc3339nano t) = true.
Proof.
  unfold printable_year, format_rfc3339nano. pose proof (civil_date_spec (t / second / 86400)) as Hc.
  destruct (civil_date (t / second / 86400)) as [[y m] d]. destruct Hc as (Hm & Hd & _).
  rewrite andb_true_iff, !Z.leb_le. intros Hy. set (tod := t / second mod 86400).
  assert (Htod : 0 <= tod < 86400) by (apply Z.mod_pos_bound; lia). pose proof (days_in_bounds m y).
  assert (0 <= tod / 3600 < 100) by (split; [apply Z.div_pos; lia|apply Z.div_lt_upper_bound; lia]).
  pose proof (Z.mod_pos_bound (tod / 60) 60 ltac:(lia)). pose proof (Z.mod_pos_bound tod 60 ltac:(lia)).
  assert (Hcons : forall c s, (byte_val c <? 128) = true -> ascii_text s = true -> ascii_text (String c s) = true)
    by (intros c s Hc1 Hs1; unfold ascii_text in *; cbn [str_forallb]; by rewrite Hc1, Hs1).
  unfold four. repeat first [apply two_ascii; [first [lia|apply Z.mod_pos_bound; lia|
    split; [apply Z.div_pos; lia|apply Z.div_lt_upper_bound; lia]]|]|apply Hcons; [done|]].
  destruct (t mod second =? 0); [done|]. apply Hcons; [done|]. apply frac_ascii; [|done].
  by apply Z.mod_pos_bound.
Qed.

Lemma enc_time_ok t : printable_year t = true ->
  exists j, enc_time t = Some j /\ good 0 j /\ forall old, dec_time j old = Some t.
Proof.
  intros Ht. unfold enc_time. rewrite Ht. eexists. split; [done|]. split; [apply good_string|].
  intros old. cbn [enc_string dec_time]. rewrite unquote_raw_of by (by apply ascii_utf8, format_ascii).
  by apply rfc3339_roundtrip.
Qed.

Lemma enc_ptr_time o : option_valid printable_year o = true ->
  exists j, enc_ptr enc_time o = Some j /\ good 0 j /\ dec_ptr dec_time 0 j None = Some o.
Proof.
  destruct o as [t|]; intros Ht; simpl.
  - destruct (enc_time_ok t Ht) as (j & Hj & Hg & Hd). exists j. split; [done|]. split; [done|].
    unfold enc_time in Hj. simpl in Ht. rewrite Ht in Hj. injection Hj as <-. cbn [dec_ptr enc_string] in *.
    by rewrite Hd.
  - exists TNull. by repeat split.
Qed.

(** ** The structs of manager.go *)

Definition info_fields (strict : bool) : list (field StreamInfo) :=
  [("id", setter si_ID (fun v i => mkInfo v (si_Status i) (si_Health i) (si_LastMessageAt i) (si_RestartCount i) (si_LastError i) (si_LastErrorAt i)) dec_string);
   ("status", setter si_Status (fun v i => mkInfo (si_ID i) v (si_Health i) (si_LastMessageAt i) (si_RestartCount i) (si_LastError i) (si_LastErrorAt i)) dec_string);
   ("health", setter si_Health (fun v i => mkInfo (si_ID i) (si_Status i) v (si_LastMessageAt i) (si_RestartCount i) (si_LastError i) (si_LastErrorAt i)) dec_string);
   ("last_message_at", setter si_LastMessageAt (fun v i => mkInfo (si_ID i) (si_Status i) (si_Health i) v (si_RestartCount i) (si_LastError i) (si_LastErrorAt i)) (dec_ptr dec_time 0));
   ("restart_count", setter si_RestartCount (fun v i => mkInfo (si_ID i) (si_Status i) (si_Health i) (si_LastMessageAt i) v (si_LastError i) (si_LastErrorAt i)) dec_int);
   ("last_error", setter si_LastError (fun v i => mkInfo (si_ID i) (si_Status i) (si_Health i) (si_LastMessageAt i) (si_RestartCount i) v (si_LastErrorAt i)) dec_string);
   ("last_error_at", setter si_LastErrorAt (fun v i => mkInfo (si_ID i) (si_Status i) (si_Health i) (si_LastMessageAt i) (si_RestartCount i) (si_LastError i) v) (dec_ptr dec_time 0))]%string.

Definition info_members (i : StreamInfo) (rest : list (string * jtree)) : option (list (string * jtree)) :=
  message_at ← enc_ptr enc_time (si_LastMessageAt i);
  error_at ← enc_ptr enc_time (si_LastErrorAt i);
  Some (unless_empty false "id" (enc_string (si_ID i))
     ++ unless_empty false "status" (enc_string (si_Status i))
     ++ unless_empty false "health" (enc_string (si_Health i))
     ++ unless_empty (is_none (si_LastMessageAt i)) "last_message_at" message_at
     ++ unless_empty false "restart_count" (enc_int (si_RestartCount i))
     ++ unless_empty (str_is_empty (si_LastError i)) "last_error" (enc_string (si_LastError i))
     ++ unless_empty (is_none (si_LastErrorAt i)) "last_error_at" error_at ++ rest).

Definition enc_info (i : StreamInfo) : option jtree := TObj <$> info_members i [].

Definition info_valid (i : StreamInfo) : bool :=
  utf8_valid (si_ID i) && utf8_valid (si_Status i) && utf8_valid (si_Health i)
  && option_valid printable_year (si_LastMessageAt i) && in_int64 (si_RestartCount i)
  && utf8_valid (si_LastError i) && option_valid printable_year (si_LastErrorAt i).

#[export] Instance info_struct : Struct StreamInfo :=
  { struct_zero := mkInfo EmptyString EmptyString EmptyString None 0 EmptyString None;
    struct_fields := info_fields; struct_enc := enc_info; struct_valid := info_valid; struct_depth := 0 }.

(** The embedded [StreamInfo]'s members are the struct's own. *)
Definition detail_fields (strict : bool) : list (field StreamDetail) :=
  [("id", setter (fun d => si_ID (sd_Info d)) (fun v d => mkDetail (mkInfo v (si_Status (sd_Info d)) (si_Health (sd_Info d)) (si_LastMessageAt (sd_Info d)) (si_RestartCount (sd_Info d)) (si_LastError (sd_Info d)) (si_LastErrorAt (sd_Info d))) (sd_Config d)) dec_string);
   ("status", setter (fun d => si_Status (sd_Info d)) (fun v d => mkDetail (mkInfo (si_ID (sd_Info d)) v (si_Health (sd_Info d)) (si_LastMessageAt (sd_Info d)) (si_RestartCount (sd_Info d)) (si_LastError (sd_Info d)) (si_LastErrorAt (sd_Info d))) (sd_Config d)) dec_string);
   ("health", setter (fun d => si_Health (sd_Info d)) (fun v d => mkDetail (mkInfo (si_ID (sd_Info d)) (si_Status (sd_Info d)) v (si_LastMessageAt (sd_Info d)) (si_RestartCount (sd_Info d)) (si_LastError (sd_Info d)) (si_LastErrorAt (sd_Info d))) (sd_Config d)) dec_string);
   ("last_message_at", setter (fun d => si_LastMessageAt (sd_Info d)) (fun v d => mkDetail (mkInfo (si_ID (sd_Info d)) (si_Status (sd_Info d)) (si_Health (sd_Info d)) v (si_RestartCount (sd_Info d)) (si_LastError (sd_Info d)) (si_LastErrorAt (sd_Info d))) (sd_Config d)) (dec_ptr dec_time 0));
   ("restart_count", setter (fun d => si_RestartCount (sd_Info d)) (fun v d => mkDetail (mkInfo (si_ID (sd_Info d)) (si_Status (sd_Info d)) (si_Health (sd_Info d)) (si_LastMessageAt (sd_Info d)) v (si_LastError (sd_Info d)) (si_LastErrorAt (sd_Info d))) (sd_Config d)) dec_int);
   ("last_error", setter (fun d => si_LastError (sd_Info d)) (fun v d => mkDetail (mkInfo (si_ID (sd_Info d)) (si_Status (sd_Info d)) (si_Health (sd_Info d)) (si_LastMessageAt (sd_Info d)) (si_RestartCount (sd_Info d)) v (si_LastErrorAt (sd_Info d))) (sd_Config d)) dec_string);
   ("last_error_at", setter (fun d => si_LastErrorAt (sd_Info d)) (fun v d => mkDetail (mkInfo (si_ID (sd_Info d)) (si_Status (sd_Info d)) (si_Health (sd_Info d)) (si_LastMessageAt (sd_Info d)) (si_RestartCount (sd_Info d)) (si_LastError (sd_Info d)) v) (sd_Config d)) (dec_ptr dec_time 0));
   ("config", setter sd_Config (fun v d => mkDetail (sd_Info d) v) (dec_struct strict (struct_fields strict)))]%string.

Definition enc_detail (d : StreamDetail) : option jtree :=
  config ← struct_enc (sd_Config d);
  TObj <$> info_members (sd_Info d) (unless_empty false "config" config ++ []).

Definition detail_valid (d : StreamDetail) : bool := info_valid (sd_Info d) && struct_valid (sd_Config d).

#[export] Instance detail_struct : Struct StreamDetail :=
  { struct_zero := mkDetail struct_zero struct_zero;
    struct_fields := detail_fields; struct_enc := enc_detail; struct_valid := detail_valid; struct_depth := 4 }.

#[local] Arguments app : simpl never.

(** What a client reads of a string: the string, with U+FFFD for every byte that is not
    part of valid UTF-8. *)
Definition json_text (s : string) : string := unquote (raw_of s).

Definition read_info (i : StreamInfo) : StreamInfo :=
  mkInfo (si_ID i) (si_Status i) (si_Health i) (si_LastMessageAt i) (si_RestartCount i) (json_text (si_LastError i)) (si_LastErrorAt i).
Definition read_detail (d : StreamDetail) : StreamDetail := mkDetail (read_info (sd_Info d)) (sd_Config d).

(** [info_valid] and [detail_valid], whatever the bytes of the last error. *)
Definition info_served (i : StreamInfo) : bool :=
  utf8_valid (si_ID i) && utf8_valid (si_Status i) && utf8_valid (si_Health i)
  && option_valid printable_year (si_LastMessageAt i) && in_int64 (si_RestartCount i)
  && option_valid printable_year (si_LastErrorAt i).
Definition detail_served (d : StreamDetail) : bool := info_served (sd_Info d) && struct_valid (sd_Config d).

Lemma info_valid_served i : info_valid i = true -> info_served i = true /\ read_info i = i.
Proof.
  unfold info_valid, info_served. rewrite !andb_true_iff. intros [[H Hle] Ha]. split; [done|].
  unfold read_info, json_text. rewrite unquote_raw_of by done. by destruct i.
Qed.

Lemma detail_valid_served d : detail_valid d = true -> detail_served d = true /\ read_detail d = d.
Proof.
  unfold detail_valid, detail_served. intros [Hi Hc]%andb_true_iff. destruct (info_valid_served _ Hi) as [-> E].
  split; [done|]. unfold read_detail. rewrite E. by destruct d.
Qed.

Lemma info_decodes i : info_served i = true -> exists ms, enc_info i = Some (TObj ms) /\
  Forall (good_member 0) ms /\ forall strict, dec_members strict (info_fields strict) ms struct_zero = Some (read_info i).
Proof.
  destruct i as [id st he ma rc le ea]. unfold info_served. simpl. intros Hi. valid_hyps Hi.
  unfold enc_info, info_members. simpl.
  destruct (enc_ptr_time ma) as (jm & -> & ? & ?); [done|]. simpl.
  destruct (enc_ptr_time ea) as (je & -> & ? & ?); [done|]. simpl.
  eexists. split; [reflexivity|split; [good_members|]]. intros strict. decode_fields.
Qed.

Lemma detail_decodes d : detail_served d = true -> exists ms, enc_detail d = Some (TObj ms) /\
  Forall (good_member 4) ms /\ forall strict, dec_members strict (detail_fields strict) ms struct_zero = Some (read_detail d).
Proof.
  destruct d as [[id st he ma rc le ea] cfg]. unfold detail_served, info_served. simpl. intros Hd. valid_hyps Hd.
  unfold enc_detail, info_members. simpl.
  destruct (struct_law cfg) as (ms & -> & Hms & Hdec); [done|]. simpl.
  destruct (enc_ptr_time ma) as (jm & -> & ? & ?); [done|]. simpl.
  destruct (enc_ptr_time ea) as (je & -> & ? & ?); [done|]. simpl.
  assert (Hc : good 4 (TObj ms)) by (apply (good_obj 3); done).
  eexists. split; [reflexivity|split; [good_members|]]. intros strict.
  assert (Hcfg : dec_struct strict (struct_fields strict) (TObj ms) struct_zero = Some cfg) by exact (Hdec strict).
  clear Hdec. decode_fields.
Qed.

#[export] Instance info_laws : StructLaws StreamInfo.
Proof.
  split; [done|]. intros i Hi. apply info_valid_served in Hi as [Hi E].
  destruct (info_decodes i Hi) as (ms & He & Hg & Hd). rewrite E in Hd. by exists ms.
Qed.

#[export] Instance detail_laws : StructLaws StreamDetail.
Proof.
  split; [done|]. intros d Hd. apply detail_valid_served in Hd as [Hd E].
  destruct (detail_decodes d Hd) as (ms & He & Hg & Hdec). rewrite E in Hdec. by exists ms.
Qed.

(** ** Bodies *)

(** The members of a map are printed in the order of their keys. *)
Definition map_tree (fields : list (string * string)) : jtree := enc_map (list_to_map fields).

(** [error_text]: [err.Error()] of what a handler reports.  [page] and [exposition]: what
    the standard library and promhttp write for the request at hand, of a status and of
    the registry. *)
Section Bodies.
Variables (error_text : api_error -> string) (page : Z -> string) (exposition : metrics -> string).

(** The JSON of a body, where it is written by [writeJSON]: [None] if it is not, or
    cannot be encoded. *)
Definition body_tree (b : resp_body) : option jtree :=
  match b with
  | BText | BMetrics _ => None
  | BFields fields => Some (map_tree fields)
  | BError e => Some (map_tree [("error", error_text e)])
  | BStreams streams =>
      infos ← mapM struct_enc streams;
      Some (TObj [("count", enc_int (Z.of_nat (length streams))); ("streams", TArr infos)])
  | BDetail detail => struct_enc detail
  | BReady status reason broker state jetstream =>
      Some (TObj ([("checks", TObj [("broker", TObj [("state", enc_string state); ("status", enc_string broker)]);
                                    ("jetstream", TObj [("status", enc_string jetstream)])])]
                  ++ (match reason with Some r => [("reason", enc_string r)] | None => [] end)
                  ++ [("status", enc_string status)]))
  end%string.

Definition line_end : string := String (byte_of 10) EmptyString.

(** [writeJSON], and [writeError]: [Encode] ends the document with a newline; when it
    fails, which is logged, nothing follows the status. *)
Definition writeJSON (r : response) : Z * string :=
  (rs_Status r, match body_tree (rs_Body r) with Some t => (print t +:+ line_end)%string | None => EmptyString end).

(** The answer that is sent. *)
Definition sent (r : response) : Z * string :=
  match rs_Body r with
  | BText => (rs_Status r, page (rs_Status r))
  | BMetrics m => (rs_Status r, exposition m)
  | _ => writeJSON r
  end.
End Bodies.

(** ** What a client reads *)

Lemma parse_line t : good maxNestingDepth t -> parse_json (print t +:+ line_end)%string = Some t.
Proof.
  intros [Hok Hn]. unfold parse_json, json_fuel. rewrite string_length_app.
  rewrite (scan_print t Hok _ 0 line_end) by (lia || done). done.
Qed.

Lemma decode_line d ms : Forall (good_member 4) ms ->
  (forall strict, dec_members strict (detail_fields strict) ms struct_zero = Some (read_detail d)) ->
  forall strict, decode_struct strict (print (TObj ms) +:+ line_end)%string = Some (read_detail d).
Proof.
  intros Hg Hd strict. unfold decode_struct, unmarshal_struct. rewrite parse_line; [apply Hd|].
  eapply good_weaken; [by apply (good_obj 4)|done].
Qed.

Section Clients.
Variables (error_text : api_error -> string) (page : Z -> string) (exposition : metrics -> string).
Variables (open_text : open_error -> string) (token : string).

Lemma serve_authorised e r st h : authorised token r = true -> route r = Handled h ->
  serve open_text token e r st = dispatch open_text e h (rq_Body r) st.
Proof. intros Ha Hr. unfold serve. by rewrite (bearerAuth_accepts token r Ha), Hr. Qed.

(** (C23) What the API says of a stream can be read back.  Take a stream the manager
    has, whose id is valid UTF-8 and whose redacted configuration can be encoded
    (strings that are valid UTF-8, finite numbers and no negative zero), whose times
    lie in the years JSON can carry and whose restart count fits an integer.  An
    authorised GET of it is answered 200 with one JSON document on a line, which
    changes nothing, and a client that decodes it, with or without refusing unknown
    fields, gets exactly the status, health, restart count and times to the nanosecond
    of its runtime and its configuration, redacted; and the last error, exactly when it
    is valid UTF-8, and otherwise with U+FFFD in place of what is not. *)
Theorem stream_document_decodes e r st id d :
  authorised token r = true -> route r = Handled (HGetStream id) -> id <> EmptyString ->
  Describe st id = Some d -> detail_served d = true ->
  exists resp, serve open_text token e r st = Some (resp, st) /\
  let '(code, text) := sent error_text page exposition resp in
  code = StatusOK /\ (forall strict, decode_struct strict text = Some (read_detail d)) /\
  (utf8_valid (si_LastError (sd_Info d)) = true -> read_detail d = d) /\
  si_ID (sd_Info d) = id /\ sd_Config d = redactConfig (default zero_config (configs st !! id)) /\
  exists rt, runtime_of st id = Some rt /\ sd_Info d = streamInfo id rt.
Proof.
  intros Ha Hr Hid Hd Hv. rewrite (serve_authorised e r st _ Ha Hr). cbn [dispatch]. unfold handleGetStream.
  destruct (str_is_empty id) eqn:Ee; [by apply empty_string in Ee|]. rewrite Hd. eexists. split; [done|].
  unfold sent, writeJSON. cbn [rs_Status rs_Body body_tree]. destruct (detail_decodes d Hv) as (ms & Hms & Hg & Hdec).
  change (struct_enc d) with (enc_detail d). rewrite Hms.
  split; [done|]. split; [by apply decode_line|]. split.
  - intros Hu. unfold read_detail, read_info, json_text. rewrite unquote_raw_of by done. by destruct d as [[] ?].
  - unfold Describe in Hd. apply bind_Some in Hd as (rt & Hrt & [= <-]). split; [done|]. split; [done|]. by exists rt.
Qed.

(** ** What a client cannot read *)

(** Two managers that differ in the secrets of their configurations. *)
Record differ_in_secrets (st1 st2 : mstate) : Prop := {
  ds_runtimes : runtimes st1 = runtimes st2;
  ds_sups : sups st1 = sups st2;
  ds_metrics : m_metrics st1 = m_metrics st2;
  ds_configs : forall id, blocks_alike config_alike (configs st1 !! id) (configs st2 !! id)
}.

Definition reads (r : request) : bool :=
  match route r with
  | Handled (HCreateStream | HDeleteStream _ | HUpdatePipeline _) => false
  | _ => true
  end.

Lemma runtime_of_same st1 st2 id : differ_in_secrets st1 st2 -> runtime_of st1 id = runtime_of st2 id.
Proof. intros [Hr Hs _ _]. unfold runtime_of. by rewrite Hr, Hs. Qed.

Lemma Describe_same st1 st2 id : differ_in_secrets st1 st2 -> Describe st1 id = Describe st2 id.
Proof.
  intros Hd. unfold Describe. rewrite (runtime_of_same st1 st2 id Hd). destruct (runtime_of st2 id) as [rt|]; [|done].
  cbn [mbind option_bind]. do 2 f_equal. pose proof (ds_configs _ _ Hd id) as Hc.
  destruct (configs st1 !! id) as [c1|], (configs st2 !! id) as [c2|]; simpl in *; try done. by apply redactConfig_alike.
Qed.

Lemma omap_ext_all {A B} (f g : A -> option B) (l : list A) : (forall x, f x = g x) -> omap f l = omap g l.
Proof. intros Hfg. induction l as [|x l IH]; [done|]. cbn [omap list_omap]. by rewrite Hfg, IH. Qed.

Lemma List_same rank st1 st2 : differ_in_secrets st1 st2 -> List_ rank st1 = List_ rank st2.
Proof.
  intros Hd. unfold List_. rewrite (ds_runtimes _ _ Hd). apply omap_ext_all. intros [id ref]. simpl.
  by rewrite (runtime_of_same st1 st2 id Hd).
Qed.

(** (C22) What the API serves does not depend on secrets.  Take two managers whose
    streams have the same runtimes, the errors recorded for them included, and the
    same metrics, and whose configurations differ only in auth tokens, header values,
    connect frames, and the userinfo, path segments, parameter values, bare
    parameters and fragments of URLs.  Whoever asks and whatever is asked, short of
    changing a stream, the world answering alike and the map of streams being ranged
    over in the same order, whichever that is, the bytes sent are the same. *)
Theorem answers_reveal_no_secrets e r st1 st2 :
  differ_in_secrets st1 st2 -> reads r = true ->
  exists resp1 resp2, serve open_text token e r st1 = Some (resp1, st1) /\
    serve open_text token e r st2 = Some (resp2, st2) /\
    sent error_text page exposition resp1 = sent error_text page exposition resp2.
Proof.
  intros Hd Hr. unfold serve, reads in *. destruct (bearerAuth token r) as [resp|]; [by exists resp, resp|].
  destruct (route r) as [| | |h]; [by eexists _, _..|].
  destruct h; try discriminate Hr; cbn [dispatch]; try (by eexists _, _); (eexists _, _; split; [done|]; split; [done|]).
  - by rewrite (ds_metrics _ _ Hd).
  - unfold handleListStreams. by rewrite (List_same (e_rank e) st1 st2).
  - unfold handleGetStream. by rewrite (Describe_same st1 st2).
Qed.
End Clients.

(** ** Witnesses *)

(** A manager with one stream that failed, whose configuration is given; the peer's
    words in the error are not UTF-8. *)
Definition refused_text : string := ("refused: " +:+ String (byte_of 255) EmptyString)%string.

Definition one_failed (cfg : StreamSourceConfig) : mstate :=
  set_maps ∅ {[ sc_ID cfg := cfg ]} ∅ ∅
    {[ sc_ID cfg := RtFailed (mkRuntime 0 StatusError 3 (Some (mkFailure refused_text 1788847200250000000))) ]}
    ∅ (NewStreamManager None).

Definition get_request (id : string) : request := mkRequest "GET" ("/v1/streams/" +:+ id) "Bearer secret" EmptyString.

Definition secret_id : string := sc_ID (secret_config "hunter2").

Definition demo_detail : StreamDetail :=
  default (mkDetail struct_zero struct_zero) (Describe (one_failed (secret_config "hunter2")) secret_id).

Definition no_api_text (e : api_error) : string := EmptyString.
Definition no_page (status : Z) : string := EmptyString.
Definition no_exposition (m : metrics) : string := EmptyString.

Lemma stream_document_decodes_witness :
  exists resp, serve no_open_text "secret" quiet_env (get_request secret_id) (one_failed (secret_config "hunter2"))
    = Some (resp, one_failed (secret_config "hunter2")) /\
  decode_struct true (sent no_api_text no_page no_exposition resp).2 = Some (read_detail demo_detail) /\
  si_LastError (sd_Info (read_detail demo_detail)) = ("refused: " +:+ encode_rune 65533)%string /\
  si_LastErrorAt (sd_Info demo_detail) = Some 1788847200250000000.
Proof.
  assert (Hd : Describe (one_failed (secret_config "hunter2")) secret_id = Some demo_detail).
  { apply some_default. vm_compute. reflexivity. }
  destruct (stream_document_decodes no_api_text no_page no_exposition no_open_text "secret" quiet_env
    (get_request secret_id) (one_failed (secret_config "hunter2")) secret_id demo_detail) as (resp & Hs & H).
  - vm_compute. reflexivity.
  - vm_compute. reflexivity.
  - discriminate.
  - exact Hd.
  - vm_compute. reflexivity.
  - exists resp. split; [exact Hs|]. destruct (sent _ _ _ resp) as [code text]. cbn [snd].
    destruct H as (_ & H & _). split; [exact (H true)|]. split; vm_compute; reflexivity.
Defined.

Lemma answers_reveal_no_secrets_witness :
  exists resp1 resp2,
    serve no_open_text "secret" quiet_env (get_request secret_id) (one_failed (secret_config "hunter2"))
      = Some (resp1, one_failed (secret_config "hunter2")) /\
    serve no_open_text "secret" quiet_env (get_request secret_id) (one_failed (secret_config "Tr0ub4dor"))
      = Some (resp2, one_failed (secret_config "Tr0ub4dor")) /\
    sent no_api_text no_page no_exposition resp1 = sent no_api_text no_page no_exposition resp2.
Proof.
  apply (answers_reveal_no_secrets no_api_text no_page no_exposition no_open_text "secret").
  - split; [reflexivity..|]. intros id. unfold one_failed. cbn [configs set_maps].
    change (sc_ID (secret_config "Tr0ub4dor")) with secret_id. change (sc_ID (secret_config "hunter2")) with secret_id.
    destruct (decide (id = secret_id)) as [->|Hne].
    + rewrite !lookup_singleton_eq. exact secrets_alike.
    + rewrite !lookup_singleton_ne by (intros E; apply Hne; symmetry; exact E). exact Logic.I.
  - vm_compute. reflexivity.
Defined.
