(* ===== verification/Service.v ===== *)
(** * internal/config and cmd/nephtys: the process

    The settings it reads, the command line's three uses of it, the order in which
    the service starts and stops, and what a request does as transitions of the
    manager. *)

From Stdlib Require Import ZArith Lia.
From stdpp Require Import base tactics option strings gmap sorting list.
From S2P Require Import Prelude GoLib GoTime GoStrings GoFloat GoJson GoJsonStruct Domain ConfigJson.
From S2P Require Import Store Broker ConfigError PipelineConfig Validate Supervisor Source.
From S2P Require Import Manager ManagerInv ManagerSpec RestoreSpec Handlers HandlersSpec.

#[local] Open Scope Z_scope.

(** ** internal/config *)

(** [os.Getenv]: an unset variable reads as the empty string. *)
Definition envOr (getenv : string -> string) (key fallback : string) : string :=
  let v := getenv key in if str_is_empty v then fallback else v.

Record settings : Type := mkSettings {
  NatsURL : string;
  Port : string;
  LogLevel : string;
  AdminToken : string
}.

Definition Load (getenv : string -> string) : settings :=
  mkSettings (envOr getenv "NATS_URL" "nats://localhost:4222") (envOr getenv "NEPHTYS_PORT" "3002")
    (envOr getenv "NEPHTYS_LOG_LEVEL" "info") (getenv "NEPHTYS_ADMIN_TOKEN"%string).

(** [slog.Level]. *)
Definition LevelDebug : Z := -4.
Definition LevelInfo : Z := 0.
Definition LevelWarn : Z := 4.
Definition LevelError : Z := 8.

(** The level, and whether the value was not one: its error names the value. *)
Definition ParseLogLevel (s : string) : Z * option string :=
  let v := to_lower (trim_space s) in
  if str_eqb v "debug" then (LevelDebug, None)
  else if str_is_empty v || str_eqb v "info" then (LevelInfo, None)
  else if str_eqb v "warn" || str_eqb v "warning" then (LevelWarn, None)
  else if str_eqb v "error" then (LevelError, None)
  else (LevelInfo, Some s).

Example levels_ok :
  ParseLogLevel <$> [" DEBUG "; EmptyString; "Warning"; "trace"]%string
  = [(LevelDebug, None); (LevelInfo, None); (LevelWarn, None); (LevelInfo, Some "trace"%string)].
Proof. vm_compute. reflexivity. Qed.

(** ** cmd/nephtys: the flags *)

(** [resolveVersion]: the stamp, or the build's revision; the last setting of a
    name counts. *)
Definition setting (key : string) (settings : list (string * string)) : string :=
  foldl (fun acc kv => if str_eqb kv.1 key then kv.2 else acc) EmptyString settings.

Definition resolveVersion (version : string) (info : option (list (string * string))) : string :=
  if negb (str_is_empty version) then version
  else match info with
       | None => "dev"
       | Some settings =>
           let revision := setting "vcs.revision" settings in
           if str_is_empty revision then "dev"
           else
             let short := String.substring 0 12 revision in
             if str_eqb (setting "vcs.modified" settings) "true" then short +:+ "-dirty" else short
       end%string.

Inductive check_error : Type :=
| ETooLarge
| EReadConfig (e : string)
| EParseConfig
| EInvalidConfig (e : cfg_error).

Inductive check_input : Type :=
| FromStdin (data : result string string)
| FromFile (data : result string string).

Definition maxConfigBytes : Z := 1048576.

(** [runConfigCheck]: what it prints, or its error. *)
Definition runConfigCheck (input : check_input) : result check_error (string * string * string) :=
  let data := match input with
              | FromStdin (Ok data) => if maxConfigBytes <? str_length data then Err ETooLarge else Ok data
              | FromStdin (Err e) | FromFile (Err e) => Err (EReadConfig e)
              | FromFile (Ok data) => Ok data
              end in
  match data with
  | Err e => Err e
  | Ok data =>
      match DecodeStreamConfig data with
      | None => Err EParseConfig
      | Some cfg =>
          match validateStreamConfig cfg with
          | Err e => Err (EInvalidConfig e)
          | Ok _ => Ok (sc_ID cfg, sc_Kind cfg, sc_Topic cfg)
          end
      end
  end.

Inductive probe_error : Type :=
| EProbe (url e : string)
| ENotReady (code : Z) (body : string).

Definition maxProbeBodyBytes : nat := 4096.

(** [runReadyCheck]: [answer] is the response to a GET of its argument, its status
    and as much of the body as could be read. *)
Definition runReadyCheck (answer : string -> result string (Z * string)) (port : string) : result probe_error string :=
  let url := ("http://127.0.0.1:" +:+ port +:+ "/readyz")%string in
  match answer url with
  | Err e => Err (EProbe url e)
  | Ok (code, body) =>
      let trimmed := trim_space (String.substring 0 maxProbeBodyBytes body) in
      if negb (code =? StatusOK) then Err (ENotReady code trimmed) else Ok trimmed
  end.

(** The path ["-"] is the standard input. *)
Definition config_input (stdin : result string string) (read_file : string -> result string string) (path : string)
  : check_input :=
  if str_eqb path "-" then FromStdin stdin else FromFile (read_file path).

Inductive flag_run : Type := PrintVersion | ConfigCheck (path : string) | ReadyCheck (port : string) | RunService.

(** What [run] does with its flags, once they are parsed. *)
Definition run_flags (showVersion : bool) (configCheck : string) (readyCheck : bool) (getenv : string -> string)
  : flag_run :=
  if showVersion then PrintVersion
  else if negb (str_is_empty configCheck) then ConfigCheck configCheck
  else if readyCheck then ReadyCheck (Port (Load getenv))
  else RunService.

(** ** cmd/nephtys: the service *)

(** [configureLogging]: the level of the handler, and the value it warns of. *)
Definition configureLogging (level : string) : Z * option string := ParseLogLevel level.

Section Run.
Context {K Conn JS : Type} `{KeyValue K}.

Inductive svc_effect : Type :=
| SLogging (level : Z) (warning : option string)
| SBroker (calls : list (client_call Conn))
| SEnsure (calls : list stream_call)
| SOpenStore
| SRestore (kv : K)
| SAdminAuth (enabled : bool)                (* what the log says *)
| SListen (addr token : string)
| SStopAll
| SShutdown (grace : Z) (failed : option string).

Inductive service_error : Type :=
| EServiceConnect (e : connect_error)
| EServiceStream (e : stream_error)
| EServiceStore (e : store_error)
| EServer (e : string).

(** What ends the service: a signal, with what the server's shutdown answers then,
    or the server's own return, which is no error once it was shut down. *)
Inductive service_end : Type :=
| Signalled (shutdown : option string)
| ServerReturned (e : option string).

(** What the process runs against: the NATS client, over its connection and its
    JetStream context, and the key-value bucket. *)
Record surroundings : Type := mkSurroundings {
  w_dial : string -> list connect_option -> result string Conn;
  w_jetstream : Conn -> result string JS;
  w_drain : Conn -> option string;
  w_streams : JS -> stream_client;
  w_bucket : JS -> bucket_answer (K := K);
  w_create : JS -> result string K
}.

Definition shutdownGrace : Z := 5 * second.

(** [runService], up to its deferred [Close]. *)
Definition with_broker (cfg : settings) (w : surroundings) (brk : Broker Conn JS) (ending : service_end)
  : list svc_effect * option service_error :=
  let js := JetStream brk in
  match EnsureStream (b_config brk) (w_streams w js) "NEPHTYS" ["nephtys.stream.>"%string] with
  | (Err e, calls) => ([SEnsure calls], Some (EServiceStream e))
  | (Ok _, calls) =>
      match NewStreamStore (w_bucket w js) (w_create w js) with
      | Err e => ([SEnsure calls; SOpenStore], Some (EServiceStore e))
      | Ok kv =>
          let up := [SEnsure calls; SOpenStore; SRestore kv; SAdminAuth (negb (str_is_empty (AdminToken cfg)));
                     SListen (":" +:+ Port cfg)%string (AdminToken cfg)] in
          match ending with
          | ServerReturned (Some e) => (up, Some (EServer e))
          | ServerReturned None => (up, None)
          | Signalled shutdown => (up ++ [SStopAll; SShutdown shutdownGrace shutdown], None)
          end
      end
  end.

(** [runService].  A restore that fails, a shutdown that fails and a drain that
    fails are logged. *)
Definition runService (getenv : string -> string) (w : surroundings) (ending : service_end)
  : list svc_effect * option service_error :=
  let cfg := Load getenv in
  let '(level, warning) := configureLogging (LogLevel cfg) in
  match Connect (w_dial w) (w_jetstream w) (NatsURL cfg) DefaultConfig with
  | (Err e, calls) => ([SLogging level warning; SBroker calls], Some (EServiceConnect e))
  | (Ok brk, calls) =>
      let '(effects, err) := with_broker cfg w brk ending in
      (SLogging level warning :: SBroker calls :: effects ++ [SBroker (Close (w_drain w) brk).1], err)
  end.

(** What the whole process does. *)
Inductive run_effect : Type :=
| RPrint (line : string)
| RService (e : svc_effect).

Inductive run_error : Type :=
| ERunCheck (e : check_error)
| ERunProbe (e : probe_error)
| ERunService (e : service_error).

(** [run], its flags parsed. *)
Definition run (showVersion : bool) (configCheck : string) (readyCheck : bool)
    (version : string) (info : option (list (string * string))) (getenv : string -> string)
    (stdin : result string string) (read_file : string -> result string string)
    (probe : string -> result string (Z * string)) (w : surroundings) (ending : service_end)
  : list run_effect * option run_error :=
  match run_flags showVersion configCheck readyCheck getenv with
  | PrintVersion => ([RPrint ("nephtys " +:+ resolveVersion version info)%string], None)
  | ConfigCheck path =>
      match runConfigCheck (config_input stdin read_file path) with
      | Err e => ([], Some (ERunCheck e))
      | Ok (id, kind, topic) =>
          ([RPrint ("OK: " +:+ id +:+ " (kind=" +:+ kind +:+ ", topic=" +:+ topic +:+ ")")%string], None)
      end
  | ReadyCheck port =>
      match runReadyCheck probe port with
      | Err e => ([], Some (ERunProbe e))
      | Ok body => ([RPrint body], None)
      end
  | RunService =>
      let '(effects, err) := runService getenv w ending in (RService <$> effects, ERunService <$> err)
  end.

(** [main]: the exit code. *)
Definition main (r : list run_effect * option run_error) : Z := if r.2 then 1 else 0.

(** The streams are stopped only when a signal ends the service: a server that
    fails, for instance because its port is taken, takes the process down with the
    restored streams' generations unflushed. *)
Lemma stopped_by_signals_only getenv w ending :
  SStopAll ∈ (runService getenv w ending).1 -> exists shutdown, ending = Signalled shutdown.
Proof.
  unfold runService, with_broker. repeat case_match; simplify_eq; simpl;
    rewrite ?elem_of_cons, ?elem_of_nil; try (by eexists); try done;
    intros; repeat match goal with H : _ \/ _ |- _ => destruct H as [H|H] end; done.
Qed.
End Run.

Arguments surroundings : clear implicits.
Arguments svc_effect : clear implicits.

(** ** The order of a run *)

Section Order.
Context {K Conn JS : Type} `{KeyValue K}.

(** All that is called on the client's connections. *)
Definition broker_calls (effects : list (svc_effect K Conn)) : list (client_call Conn) :=
  concat (omap (fun e => match e with SBroker calls => Some calls | _ => None end) effects).

Definition listens (effects : list (svc_effect K Conn)) : bool :=
  existsb (fun e => match e with SListen _ _ => true | _ => false end) effects.

(** What must have been answered for the service to come up. *)
Definition comes_up (getenv : string -> string) (w : surroundings K Conn JS) : Prop :=
  exists brk, (Connect (w_dial w) (w_jetstream w) (NatsURL (Load getenv)) DefaultConfig).1 = Ok brk /\
    (EnsureStream (b_config brk) (w_streams w (b_js brk)) "NEPHTYS" ["nephtys.stream.>"%string]).1 = Ok tt /\
    exists kv, NewStreamStore (w_bucket w (b_js brk)) (w_create w (b_js brk)) = Ok kv.

Lemma never_left_open {C} url opts (nc c : C) (last : client_call C) : last = NClose nc \/ last = NDrain nc ->
  ~ left_open [NConnect url opts; NJetStream nc; last] c.
Proof.
  intros Hl (i & Hi & Hj). destruct i as [|[|[|i]]]; [done| |by destruct Hl; subst|done].
  injection Hi as ->. destruct (Hj 2%nat ltac:(lia)) as [H1 H2]. cbn in H1, H2. destruct Hl; subst; congruence.
Qed.

(** However it ends, a run of the service leaves no connection to the broker open:
    one that was made is closed or drained before it returns.  The API is served
    exactly when the broker was reached, the stream ensured and the bucket opened;
    and the run succeeds, so that the process exits with 0, exactly when the API was
    served and what ended it was a signal or the server's own orderly return. *)
Theorem service_lifecycle getenv (w : surroundings K Conn JS) ending :
  let '(effects, err) := runService getenv w ending in
  (forall nc, ~ left_open (broker_calls effects) nc) /\
  (listens effects = true <-> comes_up getenv w) /\
  (err = None <-> listens effects = true /\ forall e, ending <> ServerReturned (Some e)) /\
  main (RService <$> effects, ERunService <$> err) = (if err then 1 else 0).
Proof.
  assert (Hx : forall (e : option service_error), (if (ERunService <$> e : option run_error) then 1 else 0) = (if e then 1 else 0))
    by (by intros []).
  unfold runService, comes_up, main. destruct (configureLogging _) as [level warning].
  unfold Connect. destruct (w_dial w _ _) as [nc|e]; [destruct (w_jetstream w nc) as [js|e]|]; cbn [fst snd].
  - unfold with_broker, JetStream. cbn [b_js b_config].
    destruct (EnsureStream _ _ _ _) as [[[]|e] calls] eqn:Ee; cbn [fst]; [destruct (NewStreamStore _ _) as [kv|e] eqn:Es|].
    + assert (Hup : (exists brk, @Ok connect_error _ (mkBroker nc js DefaultConfig) = Ok brk /\
        (EnsureStream (b_config brk) (w_streams w (b_js brk)) "NEPHTYS" ["nephtys.stream.>"%string]).1 = Ok tt /\
        exists kv, NewStreamStore (w_bucket w (b_js brk)) (w_create w (b_js brk)) = Ok kv)).
      { exists (mkBroker nc js DefaultConfig). cbn [b_js b_config]. rewrite Ee, Es. split; [done|]. split; [done|by eexists]. }
      destruct ending as [shutdown|[e|]]; (split; [intros c; apply never_left_open; by right|]); (split; [done|]);
        (split; [|apply Hx]); split; try done; intros [_ H2]; by destruct (H2 e).
    + split; [intros c; apply never_left_open; by right|]. split; [|split; [by split; [|intros [? _]]|apply Hx]].
      split; [done|]. intros (brk & [= <-] & _ & kv & Hk). cbn [b_js b_config] in Hk. congruence.
    + split; [intros c; apply never_left_open; by right|]. split; [|split; [by split; [|intros [? _]]|apply Hx]].
      split; [done|]. intros (brk & [= <-] & Hk & _). cbn [b_js b_config] in Hk. rewrite Ee in Hk. done.
  - split; [intros c; apply never_left_open; by left|]. split; [|split; [by split; [|intros [? _]]|done]].
    split; [done|]. by intros (brk & ? & _).
  - split; [intros c (i & Hi & _); by destruct i as [|[|i]]|]. split; [|split; [by split; [|intros [? _]]|done]].
    split; [done|]. by intros (brk & ? & _).
Qed.
End Order.

(** ** The configuration check *)

(** [--config-check] accepts exactly the documents the API does not refuse as
    bad requests: for a document within the API's limit, whatever the state of the
    service, a creation is answered 400 exactly when the check fails; and the check
    prints the identity of the stream the API would create. *)
Theorem config_check_agrees open_text e data st :
  str_length data <= maxBody ->
  (is_ok (runConfigCheck (FromFile (Ok data))) = true <->
   rs_Status (handleCreateStream open_text e data st).1 <> StatusBadRequest) /\
  runConfigCheck (FromStdin (Ok data)) = runConfigCheck (FromFile (Ok data)) /\
  (forall fields st', handleCreateStream open_text e data st = (mkResp StatusCreated (BFields fields), st') ->
     exists kind topic id, runConfigCheck (FromFile (Ok data)) = Ok (id, kind, topic) /\
       fields !! 0%nat = Some ("id"%string, id)).
Proof.
  intros Hlen. unfold runConfigCheck, handleCreateStream, limitBody.
  assert (Hm : (maxBody <? str_length data) = false) by lia.
  change maxConfigBytes with maxBody. rewrite Hm.
  destruct (DecodeStreamConfig data) as [cfg|]; [|done].
  destruct (validateStreamConfig cfg) as [[]|why] eqn:Ev; [|done].
  destruct (accepted_source cfg Ev) as (source & -> & _).
  destruct (Register source _ _ _ st) as [[[]|why] st1]; simpl.
  - split; [done|]. split; [done|]. intros fields st' H. injection H as <- _. by eexists _, _, _.
  - split; [by destruct why|]. by split.
Qed.

(** Past the limit the two disagree: a file has none. *)
Lemma config_check_has_no_limit open_text e data st cfg :
  maxBody < str_length data -> DecodeStreamConfig data = Some cfg -> validateStreamConfig cfg = Ok tt ->
  is_ok (runConfigCheck (FromFile (Ok data))) = true /\
  rs_Status (handleCreateStream open_text e data st).1 = StatusBadRequest.
Proof.
  intros Hlen Hd Hv. unfold runConfigCheck, handleCreateStream, limitBody. rewrite Hd, Hv.
  assert ((maxBody <? str_length data) = true) as -> by lia. done.
Qed.

(** ** Histories of the manager under the API *)

Section Histories.
Variables (error_text : mgr_error -> string) (open_text : open_error -> string) (token : string).

#[local] Abbreviation step := (mgr_step error_text).

Lemma exec_reach a st st' : action_ok a st -> m_exec error_text a st = Some st' -> reach step st st'.
Proof. intros Ha He. apply reach_one. by exists a. Qed.

Lemma update_run_reach fuel i put flushed : forall st r st',
  update_run fuel i put flushed st = Some (r, st') -> reach step st st'.
Proof.
  induction fuel as [|f IH]; intros st r st' H; cbn [update_run] in H.
  - destruct (updates st !! i) as [[| | | | |res]|]; try done. injection H as <- <-. apply reach_refl.
  - assert (Hgo : forall o, o = (st1 ← update_exec i put flushed st; update_run f i put flushed st1) ->
              o = Some (r, st') -> reach step st st').
    { intros o -> Ho. apply bind_Some in Ho as (st1 & He & Hr). eapply reach_trans; [|by eapply IH].
      by apply (exec_reach (MUpdateStep i put flushed)). }
    destruct (updates st !! i) as [[| | | | |res]|]; try (by eapply Hgo).
    injection H as <- <-. apply reach_refl.
Qed.

Lemma handleUpdatePipeline_reach e id body st resp st' :
  handleUpdatePipeline e id body st = Some (resp, st') -> reach step st st'.
Proof.
  unfold handleUpdatePipeline. destruct (str_is_empty id); [intros [= _ <-]; apply reach_refl|].
  destruct (limitBody _ body) as [cfg|]; [|intros [= _ <-]; apply reach_refl].
  destruct (ValidateConfig _) as [u|why]; [|intros [= _ <-]; apply reach_refl].
  intros H. apply bind_Some in H as ([r st1] & Hu & Hr). injection Hr as _ <-.
  unfold UpdatePipeline in Hu. eapply reach_trans; [|by eapply update_run_reach].
  by apply (exec_reach (MUpdateCall id (Some cfg))).
Qed.

Lemma handleCreateStream_reach e body st resp st' :
  handleCreateStream open_text e body st = (resp, st') -> reach step st st'.
Proof.
  unfold handleCreateStream. destruct (limitBody _ body) as [cfg|]; [|intros [= _ <-]; apply reach_refl].
  destruct (validateStreamConfig cfg) as [u|why]; [|intros [= _ <-]; apply reach_refl].
  destruct (sourceFromConfig cfg) as [[source|why] cfg'] eqn:Es; [|intros [= _ <-]; apply reach_refl].
  destruct (Register source cfg' (open_text <$> Open (e_listen e) source) (e_put e) st) as [r st1] eqn:Hr.
  intros H. assert (st' = st1) as -> by (destruct r; by injection H).
  apply (exec_reach (MRegister cfg (open_text <$> Open (e_listen e) source) (e_put e))); [done|].
  cbn [m_exec]. by rewrite Es, Hr.
Qed.

(** A request is some transitions of the manager, or none. *)
Lemma serve_reach e r st resp st' : serve open_text token e r st = Some (resp, st') -> reach step st st'.
Proof.
  unfold serve. destruct (bearerAuth token r); [intros [= _ <-]; apply reach_refl|].
  destruct (route r) as [| | |h]; try (intros [= _ <-]; apply reach_refl).
  destruct h; cbn [dispatch]; try (intros [= _ <-]; apply reach_refl).
  - intros H. injection H as H. by eapply handleCreateStream_reach.
  - unfold handleDeleteStream. destruct (str_is_empty id); [intros [= _ <-]; apply reach_refl|].
    intros H. apply bind_Some in H as ([r1 st1] & Hr & H). injection H as _ <-.
    apply (exec_reach (MRemove id (e_deleted e) (e_answers e) (e_flushed e))); [done|].
    cbn [m_exec]. by rewrite Hr.
  - apply handleUpdatePipeline_reach.
Qed.

(** ** Starting *)

Context {K : Type} `{KeyValueLaws K}.

(** The manager [runService] starts from: the content of the bucket, as [List]
    found it. *)
Definition boot (bucket : K) (m : gmap string StreamSourceConfig) (listen : string -> option string) (now : Z)
  : mstate :=
  (Restore error_text
     (match List bucket with Ok cfgs => Ok cfgs | Err _ => Err "kv list keys"%string end) listen now
     (NewStreamManager (Some m))).2.

Lemma boot_reach bucket m listen now : represents bucket m ->
  reach step (NewStreamManager (Some m)) (boot bucket m listen now).
Proof.
  intros Hr. unfold boot. destruct (List bucket) as [cfgs|e] eqn:El; [|apply reach_refl].
  destruct (List_represents bucket m cfgs Hr El) as (Hnd & Hin & _).
  apply (exec_reach (MRestore (Ok cfgs) listen now)); [|done].
  split; [done|]. split; [done|]. intros kv [= <-] cfg Hc. by apply Hin.
Qed.

End Histories.

(** ** Witnesses *)

Lemma config_check_agrees_witness :
  is_ok (runConfigCheck (FromFile (Ok (create_body "a")))) = true /\
  rs_Status (handleCreateStream no_open_text quiet_env (create_body "a") busy).1 <> StatusBadRequest.
Proof.
  assert (H : is_ok (runConfigCheck (FromFile (Ok (create_body "a")))) = true) by (vm_compute; reflexivity).
  split; [exact H|].
  apply (config_check_agrees no_open_text quiet_env (create_body "a") busy); [vm_compute; discriminate|exact H].
Defined.
