(* ===== verification/ReadBack.v ===== *)
(** * Creating a stream and reading it back

    Where the API finds a stream (its routes, at the path of an identifier the
    validator accepts), and what it answers there for as long as nobody addresses the
    stream. *)

From Stdlib Require Import ZArith Lia Ascii.
From stdpp Require Import base tactics option strings gmap sorting list.
From S2P Require Import Prelude GoLib GoFloat GoUrl GoMux GoJson GoJsonStruct Domain.
From S2P Require Import ConfigJson Broker ConfigError PipelineConfig Validate Redact.
From S2P Require Import Supervisor Source ConfigSound Manager ManagerInv ManagerSpec Handlers HandlersSpec Service.

#[local] Open Scope Z_scope.

(** ** The path of a stream *)

(** A client that cleans its paths cannot write a dot segment: it is escaped. *)
Definition escape_id (id : string) : string :=
  if str_eqb id "." then "%2E" else if str_eqb id ".." then "%2E%2E" else id.

Definition stream_path (id : string) (rest : list string) : string :=
  String "/" (join "/" ("v1" :: "streams" :: escape_id id :: rest))%string.

(** What makes a raw segment [w] stand for [id]. *)
Record names (w id : string) : Prop := {
  nm_slash : no_byte "/" w;
  nm_dots : w <> EmptyString /\ w <> "."%string /\ w <> ".."%string;
  nm_id : path_unescape w = id;
  nm_full : id <> EmptyString /\ id <> "/"%string
}.

Lemma split_whole sep s : no_byte sep s -> split sep s = [s].
Proof.
  induction s as [|c s IH]; [done|]. intros [Hc Hs]. simpl. by rewrite bool_decide_false, IH by done.
Qed.

Lemma split_first sep s t : no_byte sep s -> split sep (s +:+ String sep t)%string = s :: split sep t.
Proof.
  induction s as [|c s IH]; intros Hs; simpl.
  - by rewrite bool_decide_true by done.
  - destruct Hs as [Hc Hs]. by rewrite bool_decide_false, IH by done.
Qed.

Lemma no_final_slash w : w <> EmptyString -> no_byte "/" w -> ends_in_slash w = false.
Proof.
  induction w as [|c w IH]; [done|]. intros _ [Hc Hw]. destruct (decide (w = EmptyString)) as [->|Hne].
  - apply bool_decide_eq_false. simpl. rewrite bool_decide_false by done. by intros [? ?].
  - rewrite ends_cons by done. by apply IH.
Qed.

Lemma ends_app s w : w <> EmptyString -> ends_in_slash (s +:+ w)%string = ends_in_slash w.
Proof.
  intros Hw. induction s as [|c s IH]; [done|].
  change (String c s +:+ w)%string with (String c (s +:+ w)). rewrite ends_cons; [done|]. by destruct s, w.
Qed.

Lemma split_join_segments sep segs : segs <> [] -> Forall (no_byte sep) segs -> split sep (join sep segs) = segs.
Proof.
  intros Hne Hs. induction Hs as [|w segs Hw Hs IH]; [done|]. destruct segs as [|w2 segs].
  - by apply split_whole.
  - change (join sep (w :: w2 :: segs)) with (w +:+ String sep (join sep (w2 :: segs)))%string.
    rewrite split_first, IH by done. done.
Qed.

(** Segments of a path that cleaning keeps. *)
Definition kept_segment (w : string) : Prop :=
  no_byte "/" w /\ w <> EmptyString /\ w <> "."%string /\ w <> ".."%string.

Lemma join_kept segs : segs <> [] -> Forall kept_segment segs ->
  join "/" segs <> EmptyString /\ ends_in_slash (join "/" segs) = false.
Proof.
  intros Hne Hs. induction Hs as [|w segs (Hw & Hn & _) Hs IH]; [done|]. destruct segs as [|w2 segs].
  - split; [done|]. by apply no_final_slash.
  - destruct IH as [IH1 IH2]; [done|]. change (join "/" (w :: w2 :: segs)) with (w +:+ String "/" (join "/" (w2 :: segs)))%string.
    split; [by destruct w|]. by rewrite ends_app, ends_cons.
Qed.

(** A path of such segments is clean, and has just those segments. *)
Lemma kept_path segs :
  segs <> [] -> Forall kept_segment segs ->
  let path := String "/" (join "/" segs) in
  cleanPath path = path /\ raw_segments path = segs /\ ends_in_slash path = false.
Proof.
  intros Hne Hs path. destruct (join_kept segs Hne Hs) as [Hj He].
  assert (Hsp : split "/" (join "/" segs) = segs).
  { apply split_join_segments; [done|]. eapply Forall_impl; [exact Hs|]. by intros w []. }
  assert (Hsplit : split "/" path = EmptyString :: segs) by (subst path; simpl; by rewrite Hsp).
  assert (Hclean : forall l acc, Forall kept_segment l -> clean_segments acc l = reverse acc ++ l).
  { induction l as [|w l IH]; intros acc Hl; simpl; [by rewrite app_nil_r|].
    apply Forall_cons in Hl as [(_ & H1 & H2 & H3) Hl].
    assert (str_is_empty w = false) as -> by (by destruct w).
    unfold str_eqb. rewrite !bool_decide_false by done. simpl. rewrite IH by done.
    by rewrite reverse_cons, <- app_assoc. }
  assert (He' : ends_in_slash path = false) by (subst path; by rewrite ends_cons).
  split_and!; [|by unfold raw_segments; rewrite Hsplit|done].
  unfold cleanPath. assert (has_prefix "/" path = true) as -> by (by apply bool_decide_eq_true).
  rewrite Hsplit, He'. cbn [clean_segments str_is_empty orb andb]. by rewrite Hclean.
Qed.

Lemma matchPath_cons {H} raw rest (n : node H) ms :
  matchPath (raw :: rest) n ms
  = or_else (matchPath rest (findChild (first_segment raw rest) n) ms)
      (or_else (if str_eqb (first_segment raw rest) "/" then None
                else matchPath rest (findChild EmptyString n) (ms ++ [first_segment raw rest]))
         ((fun ph => (ph, match last (pt_segments ph.1) with
                          | Some (SMulti EmptyString) => ms
                          | _ => ms ++ [path_unescape (join "/" (raw :: rest))]
                          end)) <$> multiChild n)).
Proof. done. Qed.

Section Routes.
Variables (w id : string).
Hypothesis Hw : names w id.

Lemma first_segment_names rest : first_segment w rest = id.
Proof.
  destruct Hw as [_ (Hne & _) Hid _]. unfold first_segment.
  assert (str_is_empty w = false) as -> by (by destruct w). exact Hid.
Qed.

(** What each pattern for one stream makes of its path. *)
Definition stream_routes : list (string * list string * (string -> handler)) :=
  [("GET", [], HGetStream); ("DELETE", [], HDeleteStream); ("PUT", ["pipeline"], HUpdatePipeline)]%string.

Lemma stream_match method rest h :
  (method, rest, h) ∈ stream_routes ->
  exists p f, matchPath ("v1" :: "streams" :: w :: rest)%string (root EmptyString method api_mux) []
              = Some (p, f, [id]) /\ last_multi (pt_segments p) = false /\ f (PathValue p [id]) = h id.
Proof.
  intros Hin. destruct Hw as [_ _ _ [Hne Hns]].
  assert (Hf : str_eqb id "/" = false) by (by apply bool_decide_eq_false).
  rewrite !matchPath_cons, first_segment_names, Hf. destruct id as [|c s]; [done|].
  unfold stream_routes in Hin. rewrite !elem_of_cons, elem_of_nil in Hin.
  destruct Hin as [[= -> -> ->]|[[= -> -> ->]|[[= -> -> ->]|[]]]];
    eexists _, _; (split; [vm_compute; reflexivity|]); split; vm_compute; reflexivity.
Qed.
End Routes.

Lemma name_char_plain c : name_char c = true -> c <> "/"%char /\ c <> "%"%char /\ raw_allowed c encodePath = true.
Proof. destruct c as [[] [] [] [] [] [] [] []]; try done; intros H; by vm_compute in H. Qed.

Lemma unescape_name s : str_forallb name_char s = true -> no_byte "/" s /\ unescape s encodePath = Some s.
Proof.
  induction s as [|c s IH]; [done|]. cbn [no_byte unescape str_forallb]. intros [Hc Hs]%andb_true_iff.
  destruct (name_char_plain c Hc) as (H1 & H2 & H3). destruct (IH Hs) as [IH1 IH2].
  split; [done|]. by rewrite bool_decide_false, H3, IH2.
Qed.

Lemma idPattern_names id : idPattern id = true -> names (escape_id id) id.
Proof.
  unfold idPattern, matches_name. intros [He Hc]%andb_true_iff. destruct (unescape_name id Hc) as [Hs Hu].
  unfold escape_id, str_eqb. repeat case_bool_decide; subst; [by repeat split..|].
  split; [done| |by unfold path_unescape; rewrite Hu|]; split_and!; try done; try (by intros ->).
Qed.

(** Every stream the validator accepts has its place in the API. *)
Lemma route_stream method rest h id auth body :
  idPattern id = true -> (method, rest, h) ∈ stream_routes ->
  route (mkRequest method (stream_path id rest) auth body) = Handled (h id).
Proof.
  intros Hid Hin. pose proof (idPattern_names id Hid) as Hw.
  assert (Hrest : Forall kept_segment rest /\ method <> "CONNECT"%string).
  { unfold stream_routes in Hin. rewrite !elem_of_cons, elem_of_nil in Hin.
    destruct Hin as [[= -> -> ->]|[[= -> -> ->]|[[= -> -> ->]|[]]]]; by repeat constructor. }
  destruct Hrest as [Hrest Hm].
  destruct (kept_path ("v1" :: "streams" :: escape_id id :: rest)%string) as (Hc & Hr & He); [done| |].
  { repeat constructor; try done; by destruct Hw as [? (? & ? & ?) _ _]. }
  destruct (stream_match _ _ Hw _ _ _ Hin) as (p & f & Hmatch & Hl & Hf).
  assert (mux_match EmptyString method (stream_path id rest) api_mux = Some (p, f, [id])) as Hmux.
  { unfold mux_match, match_method. cbn [str_is_empty or_else]. unfold stream_path. rewrite Hr, Hmatch. done. }
  unfold route, findHandler. cbn [rq_Method rq_Target].
  assert (str_eqb method "CONNECT" = false) as -> by (by apply bool_decide_eq_false).
  assert (cleanPath (stream_path id rest) = stream_path id rest) as -> by exact Hc.
  unfold redirects_to_tree. rewrite Hmux. cbn [exactMatch]. rewrite Hl. cbn [negb andb].
  unfold str_eqb. rewrite bool_decide_true by done. cbn [negb]. by rewrite Hf.
Qed.

(** Written as they are, the identifiers [.] and [..] are cleaned out of the path. *)
Lemma dot_ids_redirect :
  idPattern "." = true /\ idPattern ".." = true /\
  (fun mp => route (mkRequest mp.1 mp.2 "" "")) <$>
    [("GET", "/v1/streams/."); ("DELETE", "/v1/streams/.."); ("PUT", "/v1/streams/../pipeline")]%string
  = [Redirect; Redirect; Redirect].
Proof. vm_compute. done. Qed.

(** ** From a creation to a read *)

(** A transition that does not address the stream: it is not removed, the manager is
    not stopped, and no update of its pipeline commits.  Its own supervisor runs, and
    so does everything that concerns other streams. *)
Definition leaves (id : string) (a : m_action) (st : mstate) : Prop :=
  match a with
  | MRemove j _ _ _ => j <> id
  | MStopAll _ _ => False
  | MUpdateStep i _ _ => forall cfg next, updates st !! i <> Some (UCommit id cfg next)
  | _ => True
  end.

Section Reading.
Variables (error_text : mgr_error -> string) (open_text : open_error -> string) (token : string).

#[local] Abbreviation step := (mgr_step error_text).

Definition others (id : string) (st st' : mstate) : Prop :=
  exists a, leaves id a st /\ action_ok a st /\ m_exec error_text a st = Some st'.

Lemma others_step id st st' : others id st st' -> step st st'.
Proof. intros (a & _ & Ha & He). by exists a. Qed.

Lemma others_keep_config id c st st' :
  maps_inv st -> configs st !! id = Some c -> others id st st' -> configs st' !! id = Some c.
Proof.
  intros I Hc (a & Hl & Hok & H). assert (is_Some (runtimes st !! id)) as [rt Hrt] by (apply (mi_cfg _ I); eauto).
  assert (Hsame : forall st', same_maps st st' -> configs st' !! id = Some c) by (by intros st1 (_ & -> & _)).
  destruct a as [cfg opened put|j del ans fl|listed opened now|ans fl|j cfg|i put fl|j a]; cbn [m_exec] in H.
  - destruct (sourceFromConfig cfg) as [[source|e] cfg'] eqn:Hs; [|done]. injection H as <-.
    assert (ID source = sc_ID cfg') as Hid.
    { pose proof Hs as Hs'. unfold sourceFromConfig in Hs'. injection Hs' as _ <-.
      apply (sourceFromConfig_id cfg source). by rewrite Hs. }
    pose proof (admitLocked_cases source cfg' true opened put st Hid) as Hcases. unfold Register.
    destruct (admitLocked _ _ _ _ _ _) as [[[]|e] st1]; simpl; [|by apply Hsame].
    destruct Hcases as (Hr & _ & gen & ps & st2 & m & (_ & E & _) & ->). simpl. rewrite E.
    rewrite lookup_insert_ne; [done|]. intros Heq. rewrite Heq in Hr. congruence.
  - destruct (Remove j del ans fl st) as [[r st1]|] eqn:Hr; [|done]. injection H as <-.
    apply Remove_cases in Hr. destruct r as [u|e]; [|subst; by destruct e].
    destruct Hr as (_ & gens & m & _ & _ & ->). simpl. by rewrite lookup_delete_ne.
  - injection H as <-. unfold Restore. destruct (acked st); [|by apply Hsame].
    destruct listed as [cfgs|e]; [|by apply Hsame]. destruct Hok as (Hr & _). by rewrite Hr in Hrt.
  - destruct Hl.
  - injection H as <-. done.
  - unfold update_exec in H. apply bind_Some in H as (u & Hu & H). simpl in Hl. rewrite Hu in Hl.
    destruct u as [j cfg|j cfg|j cfg next|j next|j gen res|res]; try done; try (injection H as <-; by apply Hsame).
    + pose proof (NewGeneration_maps j cfg st) as Hm. destruct (NewGeneration j cfg st) as [g st1].
      injection H as <-. by apply Hsame.
    + assert (j <> id) as Hne by (intros ->; by apply (Hl cfg next)).
      destruct (generations st !! j) as [previous|] eqn:Hg; [|injection H as <-; by apply Hsame].
      destruct (acked st), put; injection H as <-; simpl; try done; by rewrite lookup_insert_ne.
  - unfold sup_tick in H. apply bind_Some in H as ([p s] & _ & H). destruct (is_cancel a); [done|].
    apply bind_Some in H as (s' & _ & H). injection H as <-. done.
Qed.

(** What a stream with that configuration answers. *)
Lemma described id c st :
  maps_inv st -> configs st !! id = Some c ->
  exists rt, runtime_of st id = Some rt /\
    Describe st id = Some (mkDetail (streamInfo id rt) (redactConfig c)) /\ forall rank, streamInfo id rt ∈ List_ rank st.
Proof.
  intros I Hc. assert (is_Some (runtimes st !! id)) as [r Hr] by (apply (mi_cfg _ I); eauto).
  assert (exists rt, runtime_of st id = Some rt) as [rt Hrt].
  { unfold runtime_of. rewrite Hr. simpl. destruct r as [|rt]; [|eauto].
    apply (mi_sup _ I) in Hr as [[p s] Hs]. rewrite Hs. simpl. eauto. }
  exists rt. split; [done|]. split; [unfold Describe; by rewrite Hrt, Hc|].
  intros rank. unfold List_. apply list_elem_of_omap. exists (id, r).
  split; [rewrite (merge_sort_Permutation (ranks rank)); by apply elem_of_map_to_list|].
  simpl. by rewrite Hrt.
Qed.

(** (C4) What was created can be read back.  When a POST has been answered 201, the
    document it carried is the configuration of the stream it names, and until
    somebody addresses that stream, whatever its sessions do and whatever happens to
    other streams, a GET of the stream's path answers 200 with that configuration,
    completed with its defaults and redacted, the stream is in the list under its
    present status, wherever the list comes to it, and that configuration is the one
    the store has acknowledged. *)
Theorem created_stream_is_served kv st e r resp st1 :
  reach step (NewStreamManager kv) st ->
  route r = Handled HCreateStream -> serve open_text token e r st = Some (resp, st1) ->
  rs_Status resp = StatusCreated ->
  exists cfg, limitBody DecodeStreamConfig (rq_Body r) = Some cfg /\
  forall st2, reach (others (sc_ID cfg)) st1 st2 ->
  (forall e2 auth body, authorised token (mkRequest "GET" (stream_path (sc_ID cfg) []) auth body) = true ->
     exists d, serve open_text token e2 (mkRequest "GET" (stream_path (sc_ID cfg) []) auth body) st2
               = Some (mkResp StatusOK (BDetail d), st2) /\
       sd_Config d = redactConfig (with_defaults cfg) /\
       si_ID (sd_Info d) = sc_ID cfg /\ sd_Info d ∈ List_ (e_rank e2) st2) /\
  (forall kv2, acked st2 = Some kv2 -> exists c, kv2 !! sc_ID cfg = Some c /\ with_defaults c = with_defaults cfg).
Proof.
  intros Hr Hroute Hs Hcode. unfold serve in Hs. destruct (bearerAuth token r) as [refused|] eqn:Hb.
  { injection Hs as <- <-. unfold bearerAuth in Hb. repeat case_match; by simplify_eq. }
  rewrite Hroute in Hs. cbn [dispatch] in Hs. injection Hs as Hs.
  destruct (creation_status open_text e (rq_Body r) st resp st1 Hs)
    as [(_ & cfg & Hd & Hv & (_ & _ & _ & Hcfg & _) & _)|[Hno _]]; [|done].
  pose proof (handleCreateStream_reach error_text open_text e _ _ _ _ Hs) as Hr1.
  exists cfg. split; [done|]. intros st2 H2.
  assert (Hc1 : configs st1 !! sc_ID cfg = Some (with_defaults cfg)) by (rewrite Hcfg; apply lookup_insert_eq).
  assert (mgr_inv st2 /\ configs st2 !! sc_ID cfg = Some (with_defaults cfg)) as [I2 Hc2].
  { assert (mgr_inv st1) as I1 by (eapply mgr_reach_inv, reach_trans; [exact Hr|exact Hr1]).
    clear Hcfg. induction H2 as [|s s' _ [I Hc] Hst]; [done|]. split.
    - eapply (mgr_reach_from error_text s); [done|]. apply reach_one. by eapply others_step.
    - eapply others_keep_config; [apply (inv_maps _ I)|done|done]. }
  destruct (described _ _ _ (inv_maps _ I2) Hc2) as (rt & Hrt & Hdesc & Hin). split.
  - intros e2 auth body Ha.
    assert (idPattern (sc_ID cfg) = true) as Hid by (by apply validateStreamConfig_ok in Hv as (? & _)).
    exists (mkDetail (streamInfo (sc_ID cfg) rt) (redactConfig (with_defaults cfg))). split; [|done].
    unfold serve. rewrite (bearerAuth_accepts token _ Ha), (route_stream _ _ HGetStream) by (done || by left).
    cbn [dispatch]. unfold handleGetStream. rewrite Hdesc.
    assert (str_is_empty (sc_ID cfg) = false) as -> by (destruct (sc_ID cfg); [by vm_compute in Hid|done]). done.
  - intros kv2 Hst. destruct (inv_store _ I2 kv2 (sc_ID cfg) (with_defaults cfg) Hst Hc2) as (c & Hk & Hdc).
    exists c. by rewrite Hdc, with_defaults_idem.
Qed.
End Reading.

(** ** Witness *)

(** Stream a is created; its session starts, and another stream is registered. *)
Definition after_create : mstate :=
  (default (mkResp 0 BText, fresh_manager)
     (serve no_open_text "secret" quiet_env (create_request "a") fresh_manager)).2.
Definition later_actions : list m_action :=
  [MSup "a" AStart; MRegister (webhook "b" "9002") None None; MSup "a" (AReady 5)].
Definition later : mstate := default after_create (m_run no_text later_actions after_create).

Definition leaves_all (a : m_action) : bool :=
  match a with MRegister _ _ _ | MSup _ _ => true | _ => false end.

Lemma m_run_others id sched st st' :
  forallb leaves_all sched = true -> m_run no_text sched st = Some st' -> reach (others no_text id) st st'.
Proof.
  revert st. induction sched as [|a sched IH]; simpl; intros st Hp H; [injection H as ->; auto|].
  apply andb_true_iff in Hp as [Ha Hp]. apply bind_Some in H as (st1 & H1 & H).
  eapply reach_trans; [|by apply IH]. apply reach_one. exists a. split; [|split; [|done]]; by destruct a.
Qed.

Lemma created_stream_is_served_witness :
  exists d, serve no_open_text "secret" quiet_env (mkRequest "GET" "/v1/streams/a" "Bearer secret" "") later
            = Some (mkResp StatusOK (BDetail d), later) /\
    si_ID (sd_Info d) = "a"%string /\ sd_Info d ∈ List_ (e_rank quiet_env) later.
Proof.
  destruct (created_stream_is_served no_text no_open_text "secret" (Some ∅) fresh_manager quiet_env
    (create_request "a") (mkResp StatusCreated (BFields [("id", "a"); ("status", "started"); ("state", "connecting")]%string))
    after_create) as (cfg & Hd & H).
  - constructor.
  - vm_compute. reflexivity.
  - vm_compute. reflexivity.
  - reflexivity.
  - assert (sc_ID cfg = "a"%string) as Hid.
    { assert (E : sc_ID <$> limitBody DecodeStreamConfig (rq_Body (create_request "a")) = Some "a"%string)
        by (vm_compute; reflexivity). rewrite Hd in E. injection E as E. exact E. }
    rewrite Hid in H. destruct (H later) as [Hget _].
    + apply (m_run_others "a" later_actions); [reflexivity|]. apply some_default. vm_compute. reflexivity.
    + destruct (Hget quiet_env "Bearer secret"%string EmptyString) as (d & Hs & _ & Hi & Hin); [vm_compute; reflexivity|].
      exists d. split; [exact Hs|]. split; [exact Hi|exact Hin].
Defined.
