(* ===== verification/Linked.v ===== *)
(** * The service over its bucket

    [Manager] takes the store's answers as arguments and keeps the map it has built
    up; [Store] implements that map by documents in a bucket.  Here the two are put
    together: every call the manager makes is made on the bucket, and the bucket's
    answer is the one the manager sees.  A call that is refused may have taken effect,
    or take effect later: in every state the service reaches, the bucket holds the
    documents of the manager's map, but for what the calls in doubt have done. *)

From Stdlib Require Import ZArith Lia.
From stdpp Require Import base tactics option strings gmap sorting list.
From S2P Require Import Prelude GoLib GoFloat GoJson GoJsonStruct GoJsonDecode Domain ConfigJson.
From S2P Require Import Store ConfigError PipelineConfig Pipeline Validate Supervisor Source ConfigSound.
From S2P Require Import Manager Handlers ManagerInv ManagerSpec RestoreSpec HandlersSpec Service.

#[local] Open Scope Z_scope.

(** ** The calls the manager makes on its store *)

(** [Put] is reached exactly when its refusal is what the registration reports. *)
Definition register_call (source : Source) (cfg : StreamSourceConfig) (opened : option string) (st : mstate)
  : option store_op :=
  match (Register source cfg opened (Some EmptyString) st).1 with
  | Err (EPersist _) => Some (OPut cfg)
  | _ => None
  end.

Definition remove_call (id : string) (st : mstate) : option store_op :=
  if bool_decide (is_Some (runtimes st !! id)) && is_some (acked st) then Some (ODelete id) else None.

Definition commit_call (id : string) (cfg : option PipelineConfig) (st : mstate) : option store_op :=
  if bool_decide (is_Some (generations st !! id)) && is_some (acked st)
  then Some (OPut (with_pipeline (default zero_config (configs st !! id)) cfg)) else None.

Definition update_step_call (i : nat) (st : mstate) : option store_op :=
  match updates st !! i with Some (UCommit id cfg _) => commit_call id cfg st | _ => None end.

(** The call of a whole update that nothing interferes with. *)
Definition update_call (id : string) (cfg : PipelineConfig) (st : mstate) : option store_op :=
  if is_ok (NewGeneration id (Some cfg) st).1 then commit_call id (Some cfg) st else None.

(** What the manager's map becomes: the call, when it was made and acknowledged; when it
    was refused it is in doubt. *)
Definition follows (call : option store_op) (answer : option string) (st st' : mstate) : Prop :=
  acked st' = match call, answer with
              | Some op, None => map_op op <$> acked st
              | _, _ => acked st
              end /\
  in_doubt st' = match call, answer with
                 | Some op, Some _ => in_doubt st ++ [op]
                 | _, _ => in_doubt st
                 end.

Lemma follows_nothing answer st st' : acked st' = acked st -> in_doubt st' = in_doubt st -> follows None answer st st'.
Proof. intros H1 H2. by split; destruct answer. Qed.

Lemma Register_follows source cfg opened answer st :
  follows (register_call source cfg opened st) answer st (Register source cfg opened answer st).2.
Proof.
  unfold register_call, Register, admitLocked. case_bool_decide; [by apply follows_nothing|].
  destruct (if str_is_empty (connectorPort cfg) then None else _) as [h|]; [by apply follows_nothing|].
  pose proof (NewGeneration_same (ID source) (sc_Pipeline cfg) st) as [Hs _].
  pose proof (NewGeneration_doubt (ID source) (sc_Pipeline cfg) st) as Hd.
  destruct (NewGeneration _ _ st) as [[gen|e] st1]; simpl in Hs, Hd; [|by apply follows_nothing].
  destruct opened as [e|]; [by apply follows_nothing|]. cbv zeta.
  change (acked (log_call (ID source) (KOpen true) st1)) with (acked st1). rewrite Hs.
  destruct (acked st) as [kv|] eqn:Hst, answer as [e|]; split; simpl; rewrite ?Hs, ?Hd, ?Hst; done.
Qed.

Lemma Remove_follows id answer answers flushed st r st' :
  Remove id answer answers flushed st = Some (r, st') -> follows (remove_call id st) answer st st'.
Proof.
  intros H. unfold remove_call. pose proof H as Hc. apply Remove_cases in Hc.
  unfold Remove in H. case_bool_decide as Hid; simpl in *; [|injection H as <- <-; by apply follows_nothing].
  destruct r as [[]|e].
  - destruct Hc as (_ & gens & m & _ & _ & ->).
    destruct (acked st) as [kv|] eqn:Hs, answer as [e|]; split; simpl; rewrite ?Hs; done.
  - destruct (acked st) as [kv|] eqn:Hs, answer as [e'|]; simpl; [by injection H as <- <-|..].
    all: apply bind_Some in H as (m & _ & H); discriminate H.
Qed.

Lemma update_exec_follows i answer flushed st st' :
  update_exec i answer flushed st = Some st' -> follows (update_step_call i st) answer st st'.
Proof.
  unfold update_exec, update_step_call. intros H. apply bind_Some in H as (u & -> & H).
  destruct u as [id cfg|id cfg|id cfg next|id next|id gen res|res]; [| | | | |done].
  - injection H as <-. by apply follows_nothing.
  - pose proof (NewGeneration_same id cfg st) as [E _]. pose proof (NewGeneration_doubt id cfg st) as Hd.
    destruct (NewGeneration id cfg st) as [g st1]. injection H as <-. by apply follows_nothing.
  - unfold commit_call. destruct (generations st !! id) as [previous|] eqn:Hg.
    2: { injection H as <-. rewrite bool_decide_false by (by intros []). by apply follows_nothing. }
    rewrite bool_decide_true by eauto.
    destruct (acked st) as [kv|] eqn:Hs, answer as [e|]; injection H as <-; split; simpl; rewrite ?Hs; done.
  - injection H as <-. by apply follows_nothing.
  - injection H as <-. by apply follows_nothing.
Qed.

Lemma UpdatePipeline_follows id cfg answer flushed st r st' :
  UpdatePipeline id (Some cfg) answer flushed st = Some (r, st') -> follows (update_call id cfg st) answer st st'.
Proof.
  destruct (UpdatePipeline_returns id (Some cfg) answer flushed st) as (r1 & st1 & -> & Ho & _).
  intros [= <- <-]. unfold update_call, commit_call. destruct r1 as [[]|why]; simpl in Ho.
  - destruct Ho as (previous & next & Hg & _ & _ & Ha & Hd & _ & -> & Hput). rewrite bool_decide_true by eauto.
    destruct (acked st) as [kv|] eqn:Hs; simpl; [|apply follows_nothing; by rewrite ?Hs].
    rewrite Hput by eauto. by split; rewrite ?Hs.
  - destruct Ho as (_ & Ha & Ho). destruct why; try done.
    + destruct Ho as (_ & Hg & Hd). rewrite Hg, bool_decide_false by (by intros []).
      destruct (is_ok (NewGeneration id (Some cfg) st).1); by apply follows_nothing.
    + destruct Ho as [-> Hd]. by apply follows_nothing.
    + destruct Ho as (_ & -> & [kv Hs] & Hg & -> & Hd). rewrite bool_decide_true by done.
      by split; rewrite ?Hs in Ha |- *.
Qed.

(** Nothing else leaves a write in doubt. *)
Lemma foldl_keeps {A B C} (f : B -> A -> B) (p : B -> C) l : (forall b a, p (f b a) = p b) -> forall b, p (foldl f b l) = p b.
Proof. intros Hf. induction l as [|a l IH]; intros b; [done|]. simpl. by rewrite IH, Hf. Qed.

Lemma StopAll_doubt answers flushed st st' : StopAll answers flushed st = Some st' -> in_doubt st' = in_doubt st.
Proof.
  unfold StopAll. intros H. apply bind_Some in H as (m & _ & [= <-]). simpl. by rewrite !foldl_keeps by done.
Qed.

Lemma admitLocked_doubt source cfg opened put st : in_doubt (admitLocked source cfg false opened put st).2 = in_doubt st.
Proof.
  unfold admitLocked. case_bool_decide; [done|]. destruct (if str_is_empty (connectorPort cfg) then None else _); [done|].
  pose proof (NewGeneration_doubt (ID source) (sc_Pipeline cfg) st) as Hd.
  destruct (NewGeneration _ _ st) as [[gen|e] st1]; [|done]. simpl in Hd. destruct opened; [done|]. cbv zeta. by destruct (acked _).
Qed.

Lemma restore_one_doubt txt opened now cfg st : in_doubt (restore_one txt opened now cfg st) = in_doubt st.
Proof.
  unfold restore_one. destruct (str_is_empty _); [done|]. destruct (validateStreamConfig cfg); [|done].
  destruct (sourceFromConfig cfg) as [[source|e] cfg']; [|done].
  pose proof (admitLocked_doubt source cfg' (opened (sc_ID cfg')) None st) as Hd.
  destruct (admitLocked _ _ _ _ _ _) as [[u|e] st1]; exact Hd.
Qed.

(** ** Documents that can be encoded *)

Definition update_valid (u : update_pc) : bool :=
  match u with
  | UCheck _ p | UBuild _ p | UCommit _ p _ => option_valid struct_valid p
  | _ => true
  end.

Record docs_valid (st : mstate) : Prop := {
  dv_configs : map_Forall (fun _ cfg => struct_valid cfg = true) (configs st);
  dv_updates : Forall (fun u => update_valid u = true) (updates st)
}.

Lemma docs_same st st' :
  configs st' = configs st -> updates st' = updates st -> docs_valid st -> docs_valid st'.
Proof. intros Hc Hu [H1 H2]. split; by rewrite ?Hc, ?Hu. Qed.

Lemma docs_insert id cfg st st' : struct_valid cfg = true ->
  configs st' = <[id := cfg]> (configs st) -> updates st' = updates st -> docs_valid st -> docs_valid st'.
Proof. intros Hv Hc Hu [H1 H2]. split; rewrite ?Hc, ?Hu; [by apply map_Forall_insert_2|done]. Qed.

Lemma docs_current id st : docs_valid st -> struct_valid (default zero_config (configs st !! id)) = true.
Proof. intros [H _]. destruct (configs st !! id) as [c|] eqn:E; [by apply (H id)|by vm_compute]. Qed.

Lemma admitLocked_docs source cfg persist opened put st :
  ID source = sc_ID cfg -> struct_valid cfg = true -> docs_valid st ->
  docs_valid (admitLocked source cfg persist opened put st).2.
Proof.
  intros Hid Hv H. pose proof (admitLocked_cases source cfg persist opened put st Hid) as Hc.
  assert (Hu : updates (admitLocked source cfg persist opened put st).2 = updates st).
  { unfold admitLocked. case_bool_decide; [done|]. destruct (if str_is_empty _ then None else _); [done|].
    pose proof (NewGeneration_same (ID source) (sc_Pipeline cfg) st) as [_ Hu].
    destruct (NewGeneration _ _ st) as [[gen|e] st1]; simpl in Hu; [|done].
    destruct opened; [done|]. cbv zeta. by destruct (acked _), persist, put. }
  destruct (admitLocked source cfg persist opened put st) as [[[]|e] st']; simpl in Hu |- *.
  - destruct Hc as (_ & _ & gen & ps & st1 & m & (_ & E2 & _) & ->).
    apply (docs_insert (sc_ID cfg) cfg st); try done. simpl. by rewrite E2.
  - destruct Hc as (_ & E2 & _). by apply (docs_same st).
Qed.

Lemma Register_docs source cfg opened put st :
  ID source = sc_ID cfg -> struct_valid cfg = true -> docs_valid st ->
  docs_valid (Register source cfg opened put st).2.
Proof. apply admitLocked_docs. Qed.

Lemma Remove_docs id deleted answers flushed st r st' :
  Remove id deleted answers flushed st = Some (r, st') -> docs_valid st -> docs_valid st'.
Proof.
  intros H [H1 H2]. apply Remove_cases in H. destruct r as [[]|e]; [|subst; by destruct e].
  destruct H as (_ & gens & m & _ & _ & ->). split; simpl; [by apply map_Forall_delete|done].
Qed.

Lemma update_exec_docs i put flushed st st' :
  update_exec i put flushed st = Some st' -> docs_valid st -> docs_valid st'.
Proof.
  intros H D. pose proof D as [H1 H2]. unfold update_exec in H. apply bind_Some in H as (u & Hu & H).
  assert (Hvu : update_valid u = true) by (by apply (Forall_lookup_1 _ _ i u H2)).
  assert (Hset : forall pc st1, update_valid pc = true -> configs st1 = configs st -> updates st1 = updates st ->
            docs_valid (set_update i pc st1)).
  { intros pc st1 Hpc Ec Eu. split; simpl; [by rewrite Ec|]. rewrite Eu. by apply Forall_insert. }
  destruct u as [id cfg|id cfg|id cfg next|id next|id gen res|res]; [| | | | |done].
  - injection H as <-. apply Hset; [by case_bool_decide|done..].
  - pose proof (NewGeneration_maps id cfg st) as (_ & E2 & _). pose proof (NewGeneration_same id cfg st) as [_ E3].
    destruct (NewGeneration id cfg st) as [[next|e] st1]; injection H as <-; by apply Hset.
  - destruct (generations st !! id) as [previous|]; [|injection H as <-; by apply Hset].
    assert (Hw : struct_valid (with_pipeline (default zero_config (configs st !! id)) cfg) = true).
    { apply with_pipeline_valid; [by apply docs_current|exact Hvu]. }
    assert (Hins : forall kv, docs_valid (set_update i (URetire id previous (Ok tt))
      (set_maps (<[id := next]> (generations st))
         (<[id := with_pipeline (default zero_config (configs st !! id)) cfg]> (configs st))
         (cancels st) (dones st) (runtimes st) (portClaims st) (set_acked kv st)))).
    { intros kv. split; simpl; [by apply map_Forall_insert_2|by apply Forall_insert]. }
    destruct (acked st) as [kv|] eqn:Hs, put as [e|]; injection H as <-; first [apply Hins|by apply Hset].
  - injection H as <-. by apply Hset.
  - injection H as <-. by apply Hset.
Qed.

Lemma UpdatePipeline_docs id cfg put flushed st r st' :
  UpdatePipeline id (Some cfg) put flushed st = Some (r, st') -> struct_valid cfg = true ->
  docs_valid st -> docs_valid st'.
Proof.
  destruct (UpdatePipeline_returns id (Some cfg) put flushed st) as (r1 & st1 & -> & Ho & Hu).
  intros [= <- <-] Hv D. pose proof D as [H1 H2].
  assert (Hups : Forall (fun u => update_valid u = true) (updates st1)).
  { rewrite Hu. apply Forall_app. split; [done|]. by repeat constructor. }
  destruct r1 as [[]|why]; simpl in Ho.
  - destruct Ho as (previous & next & _ & _ & Hc & _). split; [|done]. rewrite Hc.
    apply map_Forall_insert_2; [|done]. apply with_pipeline_valid; [by apply docs_current|done].
  - destruct Ho as ((_ & Hc & _) & _). split; [by rewrite Hc|done].
Qed.

Lemma restore_one_docs txt opened now cfg st :
  struct_valid cfg = true -> docs_valid st -> docs_valid (restore_one txt opened now cfg st).
Proof.
  intros Hv D. unfold restore_one. destruct (str_is_empty _); [done|].
  destruct (validateStreamConfig cfg) as [u|e]; [|by apply (docs_insert (sc_ID cfg) cfg st)].
  pose proof (with_defaults_valid cfg Hv) as Hv'. destruct (sourceFromConfig cfg) as [source cfg'] eqn:Hs.
  assert (cfg' = with_defaults cfg) as -> by (by unfold sourceFromConfig in Hs; simplify_eq).
  destruct source as [source|e]; [|by apply (docs_insert (sc_ID cfg) (with_defaults cfg) st)].
  assert (ID source = sc_ID (with_defaults cfg)) as HID by (apply (sourceFromConfig_id cfg source); by rewrite Hs).
  pose proof (admitLocked_docs source (with_defaults cfg) false (opened (sc_ID (with_defaults cfg))) None st HID Hv' D) as D'.
  destruct (admitLocked _ _ _ _ _ _) as [[u'|e] st']; [done|].
  by apply (docs_insert (sc_ID cfg) (with_defaults cfg) st').
Qed.

Lemma restore_loop_docs txt opened now cfgs : forall st,
  Forall (fun cfg => struct_valid cfg = true) cfgs -> docs_valid st ->
  docs_valid (foldl (fun st cfg => restore_one txt opened now cfg st) st cfgs).
Proof.
  induction cfgs as [|cfg cfgs IH]; intros st Hv D; [done|]. apply Forall_cons in Hv as [Hv1 Hv]. simpl.
  apply IH; [done|]. by apply restore_one_docs.
Qed.

(** ** Requests *)

(** No number of the text is a negative zero, which the store would read back as a
    zero. *)
Definition document_ok (text : string) : bool :=
  match parse_json text with Some t => no_negative_zero t | None => true end.

Lemma document_decodes {A} `{StructSound A} text (x : A) :
  document_ok text = true -> decode_struct true text = Some x -> struct_valid x = true.
Proof.
  unfold document_ok. intros Hok Hd. destruct (parse_json text) as [t|] eqn:E.
  - by apply (decoded_valid true text t).
  - unfold decode_struct, unmarshal_struct in Hd. by rewrite E in Hd.
Qed.

Lemma limitBody_some {A} (decode : string -> option A) body x : limitBody decode body = Some x -> decode body = Some x.
Proof. unfold limitBody. by case_match. Qed.

Section Requests.
Variables (open_text : open_error -> string) (token : string).

(** The same request, with the store's answer filled in. *)
Definition with_answer (answer : option string) (e : env) : env :=
  mkEnv (e_connected e) (e_conn e) (e_account e) (e_listen e) answer answer (e_answers e) (e_flushed e)
    (e_rank e) (e_later e).

Definition create_call (e : env) (body : string) (st : mstate) : option store_op :=
  cfg ← limitBody DecodeStreamConfig body;
  if is_ok (validateStreamConfig cfg) then
    match sourceFromConfig cfg with
    | (Ok source, cfg) => register_call source cfg (open_text <$> Open (e_listen e) source) st
    | (Err _, _) => None
    end
  else None.

Definition pipeline_call (id body : string) (st : mstate) : option store_op :=
  cfg ← limitBody DecodePipelineConfig body;
  if is_ok (ValidateConfig (Some cfg)) then update_call id cfg st else None.

Definition handler_call (e : env) (h : handler) (body : string) (st : mstate) : option store_op :=
  match h with
  | HCreateStream => create_call e body st
  | HDeleteStream id => if str_is_empty id then None else remove_call id st
  | HUpdatePipeline id => if str_is_empty id then None else pipeline_call id body st
  | _ => None
  end.

Definition request_call (e : env) (r : request) (st : mstate) : option store_op :=
  match bearerAuth token r, route r with
  | None, Handled h => handler_call e h (rq_Body r) st
  | _, _ => None
  end.

(** A call answered without an error is one whose handler reports success, and a call
    that is refused is reported unavailable. *)
Definition success (resp : response) : bool := (rs_Status resp =? StatusOK) || (rs_Status resp =? StatusCreated).

Record handled (call : option store_op) (answer : option string) (st : mstate) (resp : response) (st' : mstate) : Prop := {
  hd_follows : follows call answer st st';
  hd_docs : docs_valid st -> docs_valid st';
  hd_call : docs_valid st -> forall op, call = Some op -> op_valid op = true;
  hd_success : is_Some call -> answer = None -> success resp = true;
  hd_refused : is_Some call -> is_Some answer -> rs_Status resp = StatusServiceUnavailable
}.

Lemma handled_nothing resp st answer : handled None answer st resp st.
Proof. split; [by apply follows_nothing|done|done|by intros []..]. Qed.

(** A call of [Put] decides the registration, and a registration that succeeds has made
    it. *)
Lemma Register_answered source cfg opened st op :
  register_call source cfg opened st = Some op -> op = OPut cfg /\
  forall answer, (Register source cfg opened answer st).1 = from_option (Err ∘ EPersist) (Ok tt) answer.
Proof.
  unfold register_call, Register, admitLocked. case_bool_decide; [done|].
  destruct (if str_is_empty (connectorPort cfg) then None else _) as [h|]; [done|].
  destruct (NewGeneration _ _ st) as [[gen|e] st1]; [|done]. destruct opened as [e|]; [done|]. cbv zeta.
  destruct (acked _); [|done]. intros [= <-]. split; [done|]. by intros [e|].
Qed.

Lemma Register_made source cfg opened answer st st' :
  Register source cfg opened answer st = (Ok tt, st') -> is_Some (acked st) ->
  register_call source cfg opened st = Some (OPut cfg) /\ answer = None.
Proof.
  unfold register_call, Register, admitLocked. intros H [kv Hkv]. case_bool_decide; [done|].
  destruct (if str_is_empty (connectorPort cfg) then None else _) as [h|]; [done|].
  pose proof (NewGeneration_same (ID source) (sc_Pipeline cfg) st) as [Hs _].
  destruct (NewGeneration _ _ st) as [[gen|e] st1]; [|done]. simpl in Hs. destruct opened as [e|]; [done|]. cbv zeta in *.
  change (acked (log_call (ID source) (KOpen true) st1)) with (acked st1) in *. rewrite Hs, Hkv in *. by destruct answer.
Qed.

Lemma handleCreateStream_handled answer e body st resp st' :
  document_ok body = true -> handleCreateStream open_text (with_answer answer e) body st = (resp, st') ->
  handled (create_call e body st) answer st resp st'.
Proof.
  intros Hdoc. unfold handleCreateStream, create_call. destruct (limitBody _ body) as [cfg|] eqn:Hd; cbn [mbind option_bind].
  2: { intros [= <- <-]. apply handled_nothing. }
  apply limitBody_some in Hd. apply (document_decodes body cfg Hdoc) in Hd.
  destruct (validateStreamConfig cfg) as [u|why]; cbn [is_ok]; [|intros [= <- <-]; apply handled_nothing].
  destruct (sourceFromConfig cfg) as [source cfg'] eqn:Hs.
  assert (cfg' = with_defaults cfg) as -> by (by unfold sourceFromConfig in Hs; simplify_eq).
  apply with_defaults_valid in Hd. destruct source as [source|why]; [|intros [= <- <-]; apply handled_nothing].
  assert (ID source = sc_ID (with_defaults cfg)) as HID by (apply (sourceFromConfig_id cfg source); by rewrite Hs).
  cbn [with_answer e_listen e_put]. set (opened := open_text <$> _). intros H.
  pose proof (Register_follows source (with_defaults cfg) opened answer st) as Hf.
  pose proof (Register_docs source (with_defaults cfg) opened answer st HID Hd) as Hv.
  assert (st' = (Register source (with_defaults cfg) opened answer st).2) as ->.
  { destruct (Register source (with_defaults cfg) opened answer st) as [[[]|why] st1]; by injection H. }
  split; [done|done| | |].
  - intros _ op Hop. apply Register_answered in Hop as [-> _]. exact Hd.
  - intros [op Hop] ->. apply Register_answered in Hop as [_ Hop]. specialize (Hop None).
    destruct (Register source (with_defaults cfg) opened None st) as [[[]|why] st1]; [|done]. by injection H as <-.
  - intros [op Hop] [why ->]. apply Register_answered in Hop as [_ Hop]. specialize (Hop (Some why)).
    destruct (Register source (with_defaults cfg) opened (Some why) st) as [[[]|why'] st1]; [done|].
    injection Hop as ->. by injection H as <-.
Qed.

Lemma handleDeleteStream_handled answer e id st resp st' :
  handleDeleteStream (with_answer answer e) id st = Some (resp, st') ->
  handled (if str_is_empty id then None else remove_call id st) answer st resp st'.
Proof.
  unfold handleDeleteStream. destruct (str_is_empty id); [intros [= <- <-]; apply handled_nothing|].
  intros H. apply bind_Some in H as ([r st1] & Hr & H). injection H as <- <-. split.
  - by eapply Remove_follows.
  - intros D. by eapply Remove_docs.
  - intros _ op. unfold remove_call. case_match; [by intros [= <-]|done].
  - intros [op Hop] ->. unfold remove_call in Hop. unfold Remove in Hr. simpl in Hr.
    case_bool_decide; [|done]. simpl in Hr. destruct (acked st); [|done].
    by apply bind_Some in Hr as (m & _ & [= <- <-]).
  - intros [op Hop] [why ->]. unfold remove_call in Hop. unfold Remove in Hr. simpl in Hr.
    case_bool_decide; [|done]. simpl in Hr. destruct (acked st); [|done]. by injection Hr as <- <-.
Qed.

Lemma update_answered id cfg answer flushed st r st' :
  UpdatePipeline id (Some cfg) answer flushed st = Some (r, st') -> is_Some (update_call id cfg st) ->
  r = from_option (Err ∘ EPersistPipeline id) (Ok tt) answer.
Proof.
  unfold update_call, commit_call.
  destruct (UpdatePipeline_returns id (Some cfg) answer flushed st) as (r1 & st1 & Hr & Ho & _).
  rewrite Hr. intros [= -> ->] [op Hop]. destruct r as [[]|why]; simpl in Ho.
  - destruct Ho as (_ & _ & _ & _ & _ & _ & _ & _ & _ & Hput).
    destruct answer as [e|]; [|done]. destruct (acked st); [by discriminate Hput; eauto|by rewrite andb_false_r in Hop; destruct (is_ok _)].
  - destruct Ho as (_ & _ & Ho). destruct why; try done.
    + destruct Ho as (_ & Hg & _). rewrite Hg, (bool_decide_false (is_Some None)) in Hop by (by intros []). by destruct (is_ok _).
    + destruct Ho as [Ho _]. by rewrite Ho in Hop.
    + by destruct Ho as (-> & -> & _).
Qed.

Lemma handleUpdatePipeline_handled answer e id body st resp st' :
  document_ok body = true -> handleUpdatePipeline (with_answer answer e) id body st = Some (resp, st') ->
  handled (if str_is_empty id then None else pipeline_call id body st) answer st resp st'.
Proof.
  intros Hdoc. unfold handleUpdatePipeline, pipeline_call.
  destruct (str_is_empty id); [intros [= <- <-]; apply handled_nothing|].
  destruct (limitBody _ body) as [cfg|] eqn:Hd; cbn [mbind option_bind]; [|intros [= <- <-]; apply handled_nothing].
  apply limitBody_some in Hd. apply (document_decodes body cfg Hdoc) in Hd.
  destruct (ValidateConfig (Some cfg)) as [u|why]; cbn [is_ok]; [|intros [= <- <-]; apply handled_nothing].
  intros H. apply bind_Some in H as ([r st1] & Hu & H). injection H as <- <-. split.
  - by eapply UpdatePipeline_follows.
  - intros D. by eapply UpdatePipeline_docs.
  - intros D op. unfold update_call, commit_call. repeat case_match; try done. intros [= <-]. simpl.
    apply with_pipeline_valid; [by apply docs_current|exact Hd].
  - intros Hop ->. by apply (update_answered id cfg None) in Hu as ->.
  - intros Hop [why ->]. by apply (update_answered id cfg (Some why)) in Hu as ->.
Qed.

Lemma serve_handled answer e r st resp st' :
  document_ok (rq_Body r) = true -> serve open_text token (with_answer answer e) r st = Some (resp, st') ->
  handled (request_call e r st) answer st resp st'.
Proof.
  intros Hdoc. unfold serve, request_call. destruct (bearerAuth token r); [intros [= <- <-]; apply handled_nothing|].
  destruct (route r) as [| | |h]; try (intros [= <- <-]; apply handled_nothing).
  destruct h; cbn [dispatch handler_call]; try (intros [= <- <-]; apply handled_nothing).
  - intros H. injection H as H. by apply handleCreateStream_handled.
  - apply handleDeleteStream_handled.
  - by apply handleUpdatePipeline_handled.
Qed.
End Requests.

(** ** The service over a bucket *)

Section Linked.
Context {K : Type} {HK : KeyValue K} {HL : KeyValueLaws K}.
Variables (error_text : mgr_error -> string) (open_text : open_error -> string) (token : string).
(** [err.Error()] of the store. *)
Variable store_text : store_error -> string.

(** What the bucket answers to a call, and what it then holds. *)
Definition answers (call : option store_op) (s : K) : option string * K :=
  match call with
  | None => (None, s)
  | Some op => match run_op op s with
               | (Ok _, s') => (None, s')
               | (Err e, s') => (Some (store_text e), s')
               end
  end.

Definition linked_serve (e : env) (r : request) (ls : mstate * K) : option (response * (mstate * K)) :=
  let '(answer, s') := answers (request_call open_text token e r ls.1) ls.2 in
  '(resp, st') ← serve open_text token (with_answer answer e) r ls.1;
  Some (resp, (st', s')).

Definition linked_update (i : nat) (flushed : list StreamEvent) (ls : mstate * K) : option (mstate * K) :=
  let '(answer, s') := answers (update_step_call i ls.1) ls.2 in
  st' ← update_exec i answer flushed ls.1;
  Some (st', s').

(** What can happen while the service runs: a request is served, a supervisor
    moves, an update whose document was accepted starts and takes its steps between
    those of others, a signal stops the streams, or a write that was refused lands
    after all. *)
Inductive linked_step : mstate * K -> mstate * K -> Prop :=
| lk_request e r resp ls ls' :
    document_ok (rq_Body r) = true -> linked_serve e r ls = Some (resp, ls') -> linked_step ls ls'
| lk_supervisor id a st st' s : sup_tick id a st = Some st' -> linked_step (st, s) (st', s)
| lk_update_start id text cfg st s :
    document_ok text = true -> DecodePipelineConfig text = Some cfg -> ValidateConfig (Some cfg) = Ok tt ->
    linked_step (st, s) (set_updates (updates st ++ [UCheck id (Some cfg)]) st, s)
| lk_update_step i flushed ls ls' : linked_update i flushed ls = Some ls' -> linked_step ls ls'
| lk_stop answers flushed st st' s : StopAll answers flushed st = Some st' -> linked_step (st, s) (st', s)
| lk_lands op st s s' : op ∈ in_doubt st -> lands op s s' -> linked_step (st, s) (st, s').

Record linked_inv (ls : mstate * K) : Prop := {
  li_mgr : mgr_inv ls.1;
  li_docs : docs_valid ls.1;
  li_bucket : exists m, acked ls.1 = Some m /\ tracks ls.2 m (in_doubt ls.1)
}.

(** The bucket keeps up with the map. *)
Lemma answers_track call s answer s' st st' m :
  answers call s = (answer, s') -> (forall op, call = Some op -> op_valid op = true) ->
  follows call answer st st' -> acked st = Some m -> tracks s m (in_doubt st) ->
  exists m', acked st' = Some m' /\ tracks s' m' (in_doubt st').
Proof.
  unfold answers. intros Ha Hv [Hf Hd] Hst Ht. rewrite Hst in Hf. rewrite Hd. destruct call as [op|].
  - specialize (Hv op eq_refl). destruct (run_op op s) as [[[]|e] s1] eqn:Er; injection Ha as <- <-.
    + eexists. split; [exact Hf|]. by eapply tracks_acknowledged.
    + exists m. split; [done|]. by eapply tracks_refused.
  - injection Ha as <- <-. by exists m.
Qed.

Lemma linked_serve_inv e r resp ls ls' :
  document_ok (rq_Body r) = true -> linked_serve e r ls = Some (resp, ls') -> linked_inv ls -> linked_inv ls'.
Proof.
  intros Hdoc H [M D (m & Hst & Hr)]. unfold linked_serve in H.
  destruct (answers _ _) as [answer s'] eqn:Ea. apply bind_Some in H as ([resp1 st'] & Hs & H). injection H as <- <-.
  destruct (serve_handled open_text token answer e r ls.1 resp1 st' Hdoc Hs) as [Hf Hd Hc _ _]. split; simpl.
  - eapply (mgr_reach_from error_text ls.1); [exact M|]. by eapply serve_reach.
  - by apply Hd.
  - by eapply answers_track; [exact Ea|apply Hc| | |].
Qed.

Lemma linked_step_inv ls ls' : linked_step ls ls' -> linked_inv ls -> linked_inv ls'.
Proof.
  intros H I. pose proof I as [M D (m & Hst & Hr)].
  assert (Hreach : forall a st', action_ok a ls.1 -> m_exec error_text a ls.1 = Some st' -> mgr_inv st').
  { intros a st' Ha He. eapply (mgr_reach_from error_text ls.1); [exact M|]. by eapply exec_reach. }
  destruct H as [e r resp ls ls' Hdoc H|id a st st' s H|id text cfg st s Hdoc Hd Hv|i flushed ls ls' H|an fl st st' s H
    |op st s s' Hop Hl].
  - by eapply linked_serve_inv.
  - split; [by apply (Hreach (MSup id a))|..]; unfold sup_tick in H; simpl in *;
      apply bind_Some in H as ([p sp] & _ & H); destruct (is_cancel a); try done;
      apply bind_Some in H as (s' & _ & H); injection H as <-; [by apply (docs_same st)|eauto].
  - split; [by apply (Hreach (MUpdateCall id (Some cfg)))|..]; simpl in *; [|eauto]. destruct D as [D1 D2].
    split; simpl; [done|]. apply Forall_app. split; [done|]. repeat constructor. simpl.
    by apply (document_decodes text).
  - unfold linked_update in H. destruct (answers _ _) as [answer s'] eqn:Ea.
    apply bind_Some in H as (st' & Hu & H). injection H as <-. split; simpl.
    + by apply (Hreach (MUpdateStep i answer flushed)).
    + by eapply update_exec_docs.
    + eapply answers_track; [exact Ea| |by eapply update_exec_follows|done|done].
      intros op. unfold update_step_call, commit_call. destruct (updates ls.1 !! i) as [[| |id cfg n| | |]|] eqn:Eu; try done.
      case_match; [|done]. intros [= <-]. simpl. apply with_pipeline_valid; [by apply docs_current|].
      destruct D as [_ D2]. apply (Forall_lookup_1 _ _ i _ D2 Eu).
  - pose proof (StopAll_cases an fl st st' H) as (_ & E2 & _ & _ & _ & _ & _ & E8 & E9 & _).
    pose proof (StopAll_doubt an fl st st' H) as Ed.
    split; simpl in *; [by apply (Hreach (MStopAll an fl))| |rewrite E8, Ed; eauto].
    destruct D as [_ D2]. split; rewrite ?E2, ?E9; [apply map_Forall_empty|done].
  - split; simpl in *; [done..|]. exists m. split; [done|]. by eapply tracks_lands.
Qed.

(** ** Starting *)

Lemma boot_doubt bucket m listen now : in_doubt (boot error_text bucket m listen now) = [].
Proof.
  unfold boot, Restore. cbn [NewStreamManager acked]. destruct (List bucket) as [cfgs|why]; [|done].
  simpl. rewrite (foldl_keeps _ in_doubt); [done|]. intros st cfg. apply restore_one_doubt.
Qed.

Lemma boot_linked bucket m listen now : represents bucket m ->
  linked_inv (boot error_text bucket m listen now, bucket).
Proof.
  intros Hr. split; simpl.
  - apply (mgr_reach_inv error_text (Some m)). by apply boot_reach.
  - assert (D0 : docs_valid (NewStreamManager (Some m))) by (split; [apply map_Forall_empty|constructor]).
    unfold boot, Restore. cbn [NewStreamManager acked]. destruct (List bucket) as [cfgs|why] eqn:El; [|done].
    destruct (List_represents bucket m cfgs Hr El) as (_ & Hin & _). apply restore_loop_docs; [|done].
    rewrite (merge_sort_Permutation id_le). apply Forall_forall. intros cfg Hc. by apply (proj1 Hr (sc_ID cfg)), Hin.
  - exists m. rewrite boot_doubt. split; [|by apply tracks_represents]. unfold boot, Restore. cbn [NewStreamManager acked].
    destruct (List bucket) as [cfgs|why] eqn:El; [|done].
    destruct (List_represents bucket m cfgs Hr El) as (_ & Hin & _). apply restore_loop_store.
    + intros kv id cfg _. simpl. by rewrite lookup_empty.
    + intros kv [= <-] cfg Hc. apply Hin. by rewrite (merge_sort_Permutation id_le) in Hc.
Qed.

Lemma linked_reach_inv bucket m listen now ls : represents bucket m ->
  reach linked_step (boot error_text bucket m listen now, bucket) ls -> linked_inv ls.
Proof.
  intros Hr. apply reach_invariant; [by apply boot_linked|]. intros s s' I Hs. by apply (linked_step_inv s).
Qed.

(** What reading an entry of the map from the bucket gives. *)
Definition reads_as (s : K) (id : string) (cfg : StreamSourceConfig) : Prop :=
  is_Some (kv_content s !! id) /\ forall v, kv_Get s id = Ok v -> Get s id = Ok cfg.

Lemma represents_reads s m id cfg : represents s m -> m !! id = Some cfg -> reads_as s id cfg.
Proof.
  intros Hr Hm. destruct (represents_lookup s m id cfg Hr Hm) as (text & Hc & Hd). split; [by eexists|].
  intros v Hv. unfold Get. rewrite Hv. apply kv_Get_ok in Hv. assert (v = text) as -> by congruence. by rewrite Hd.
Qed.

(** (C3) The bucket holds what the manager thinks it holds, as far as it has answered.
    Start on a bucket of valid documents, each under its own id.  After any history of
    requests (with no negative zero in them), supervisors and interleaved updates, each
    of whose calls the bucket may refuse, and may carry out all the same, then or
    later: under every id there is the document the manager has had acknowledged, or
    what a refused call on that id would have left there.  So where no call on a stream
    has been refused, the bucket mirrors the manager exactly, and the stream, when it
    is listed, can be read back as a configuration that starts the same. *)
Theorem bucket_mirrors_manager bucket m listen now st s :
  represents bucket m -> reach linked_step (boot error_text bucket m listen now, bucket) (st, s) ->
  exists m', acked st = Some m' /\
  (forall id, kv_content s !! id = m' !! id ≫= marshal_struct \/
     exists op, op ∈ in_doubt st /\ op_id op = id /\ kv_content s !! id = op_cfg op ≫= marshal_struct) /\
  forall id, settled id (in_doubt st) ->
    kv_content s !! id = m' !! id ≫= marshal_struct /\
    forall cfg, configs st !! id = Some cfg -> exists c, reads_as s id c /\ with_defaults c = with_defaults cfg.
Proof.
  intros Hr Hs. apply (linked_reach_inv bucket m) in Hs as [[_ _ I] _ (m' & Hst & _ & m2 & Hr2 & Hw)]; [|done]. simpl in *.
  exists m'. split; [done|]. split; [|intros id Hset; pose proof (within_settled m2 m' _ id Hw Hset) as E; split].
  - intros id. rewrite (proj2 Hr2). destruct (Hw id) as [->|(op & Hin & Hid & ->)]; [by left|right]. by exists op.
  - by rewrite (proj2 Hr2), E.
  - intros cfg Hc. destruct (I m' id cfg Hst Hc) as (c & Hm & Hd). exists c. split; [|done].
    apply (represents_reads s m2); congruence.
Qed.

(** The stream is listed with that configuration, connecting or failed. *)
Definition recovered (st : mstate) (id : string) (c : StreamSourceConfig) : Prop :=
  exists cfg, configs st !! id = Some cfg /\ with_defaults cfg = with_defaults c /\
    (StatusOf st id = Some StatusConnecting \/
     StatusOf st id = Some StatusError /\
     exists rt, runtimes st !! id = Some (RtFailed rt) /\ is_Some (lastError rt)).

(** A stream that is stored comes back when a process starts on the bucket. *)
Lemma boot_recovers bucket m listen now id c :
  represents bucket m -> is_ok (List bucket) = true ->
  (forall id, is_Some (kv_content bucket !! id) -> is_ok (kv_Get bucket id) = true) ->
  m !! id = Some c -> id <> EmptyString -> recovered (boot error_text bucket m listen now) id c.
Proof.
  intros Hr Hlist Hreads Hm Hne. assert (sc_ID c = id) as <- by (by apply (proj1 Hr)).
  apply is_ok_true in Hlist as [cfgs Hl]. destruct (List_represents bucket m cfgs Hr Hl) as (Hnd & Hin & Hall).
  assert (Hcc : c ∈ merge_sort id_le cfgs).
  { rewrite (merge_sort_Permutation id_le). eapply Hall; [|exact Hm]. intros id [c' Hc']. apply Hreads.
    by apply (represents_reads bucket m id c'). }
  apply list_elem_of_split in Hcc as (l1 & l2 & El). set (st0 := NewStreamManager (Some m)).
  assert (boot error_text bucket m listen now = restore_loop error_text listen now (l1 ++ c :: l2) st0) as ->.
  { unfold boot, Restore. rewrite Hl. cbn [NewStreamManager acked snd]. by rewrite El. }
  destruct (restore_loop_restored error_text listen now l1 c l2 st0) as [[(cfg2 & H2 & Hd2) Hst2] _].
  - apply NewStreamManager_maps.
  - by rewrite <- El, (merge_sort_Permutation id_le).
  - intros; apply lookup_empty.
  - done.
  - by exists cfg2.
Qed.

(** (C7) A restart loses no stream.  Start the service on a bucket of valid documents,
    each under its own, non-empty id, let it serve any history of requests (with no
    negative zero in them), supervisors and interleaved updates, whatever the bucket
    refuses, and start a new process on the bucket the old one left, when it answers
    its reads.  Every stream the old process listed, the new one lists, either
    connecting or in error with the reason recorded, and with the same configuration;
    only where a call on the stream was refused may it come back as that call would
    have left it, with the configuration of a refused save, or not at all after a
    refused deletion. *)
Theorem restart_recovers_the_service bucket m listen now st bucket' listen' now'
    (Hboot : represents bucket m)
    (Hrun : reach linked_step (boot error_text bucket m listen now, bucket) (st, bucket'))
    (Hlist : is_ok (List bucket') = true)
    (Hreads : forall id, is_Some (kv_content bucket' !! id) -> is_ok (kv_Get bucket' id) = true) :
  exists m', represents bucket' m' /\
  let st2 := boot error_text bucket' m' listen' now' in
  mgr_inv st2 /\
  forall id cfg, configs st !! id = Some cfg -> id <> EmptyString ->
    (kv_content bucket' !! id = None /\ ODelete id ∈ in_doubt st) \/
    exists c, (with_defaults c = with_defaults cfg \/ OPut c ∈ in_doubt st /\ sc_ID c = id) /\ recovered st2 id c.
Proof.
  apply (linked_reach_inv bucket m) in Hrun as [[_ _ I] _ (m' & Hst & _ & m2 & Hr2 & Hw)]; [|done]. simpl in *.
  exists m2. split; [done|]. split; [by destruct (boot_linked bucket' m2 listen' now' Hr2) as [? _ _]|].
  intros id cfg Hc Hne. destruct (I m' id cfg Hst Hc) as (c & Hm & Hd).
  assert (Hback : forall c2, m2 !! id = Some c2 -> recovered (boot error_text bucket' m2 listen' now') id c2).
  { intros c2 Hm2. by apply boot_recovers. }
  destruct (Hw id) as [E|([c2|id2] & Hin & <- & E)].
  - right. exists c. split; [by left|]. apply Hback. congruence.
  - right. exists c2. split; [by right|]. by apply Hback.
  - left. by rewrite (proj2 Hr2), E.
Qed.

(** ** Requests *)

Lemma serve_success e r st resp st' : success resp = true -> serve open_text token e r st = Some (resp, st') ->
  bearerAuth token r = None /\
  exists h, route r = Handled h /\ dispatch open_text e h (rq_Body r) st = Some (resp, st').
Proof.
  unfold serve. intros Hs. destruct (bearerAuth token r) as [resp1|] eqn:Eb.
  - intros [= -> ->]. unfold bearerAuth in Eb. repeat case_match; simplify_eq; done.
  - destruct (route r) as [| | |h]; [by intros [= <- <-]..|]. intros H. split; [done|]. by exists h.
Qed.

(** A success has made the call the request stands for. *)
Lemma created_made answer e body st resp st' :
  handleCreateStream open_text (with_answer answer e) body st = (resp, st') -> success resp = true -> is_Some (acked st) ->
  answer = None /\ exists cfg, DecodeStreamConfig body = Some cfg /\
    create_call open_text e body st = Some (OPut (with_defaults cfg)).
Proof.
  unfold handleCreateStream, create_call. destruct (limitBody _ body) as [cfg|] eqn:Hd; cbn [mbind option_bind].
  2: by intros [= <- <-].
  apply limitBody_some in Hd. destruct (validateStreamConfig cfg) as [u|why]; [|by intros [= <- <-]]. cbn [is_ok].
  destruct (sourceFromConfig cfg) as [source cfg'] eqn:Hs.
  assert (cfg' = with_defaults cfg) as -> by (by unfold sourceFromConfig in Hs; simplify_eq).
  destruct source as [source|why]; [|by intros [= <- <-]]. cbn [with_answer e_listen e_put].
  destruct (Register _ _ _ _ st) as [[[]|why] st1] eqn:Hr; [|intros [= <- <-] Hc; by destruct why].
  intros _ _ Hst. apply Register_made in Hr as [-> ->]; [|done]. split; [done|]. by exists cfg.
Qed.

Lemma deleted_made answer e id st resp st' :
  handleDeleteStream (with_answer answer e) id st = Some (resp, st') -> success resp = true -> is_Some (acked st) ->
  answer = None /\ (if str_is_empty id then None else remove_call id st) = Some (ODelete id).
Proof.
  unfold handleDeleteStream. destruct (str_is_empty id); [by intros [= <- <-]|].
  intros H Hok [kv Hkv]. apply bind_Some in H as ([r st1] & Hr & H). injection H as <- <-.
  unfold Remove in Hr. unfold remove_call. case_bool_decide; simpl in *; [|by injection Hr as <- <-].
  rewrite Hkv in *. destruct answer; [by injection Hr as <- <-|done].
Qed.

Lemma updated_made answer e id body st resp st' :
  handleUpdatePipeline (with_answer answer e) id body st = Some (resp, st') -> success resp = true -> is_Some (acked st) ->
  answer = None /\ exists p, DecodePipelineConfig body = Some p /\
    let updated := with_pipeline (default zero_config (configs st !! id)) (Some p) in
    (if str_is_empty id then None else pipeline_call id body st) = Some (OPut updated) /\
    is_Some (generations st !! id) /\ configs st' = <[id := updated]> (configs st).
Proof.
  unfold handleUpdatePipeline, pipeline_call. destruct (str_is_empty id); [by intros [= <- <-]|].
  destruct (limitBody _ _) as [p|] eqn:Hd; cbn [mbind option_bind]; [|by intros [= <- <-]]. apply limitBody_some in Hd.
  destruct (ValidateConfig (Some p)) as [u|why]; [|by intros [= <- <-]]. cbn [is_ok].
  intros H Hok Hst. apply bind_Some in H as ([r st1] & Hu & H). injection H as <- <-.
  destruct (UpdatePipeline_returns id (Some p) answer (e_flushed e) st) as (r1 & st2 & Hr & Ho & _).
  change (e_put (with_answer answer e)) with answer in Hu. change (e_flushed (with_answer answer e)) with (e_flushed e) in Hu.
  rewrite Hr in Hu. injection Hu as -> ->. destruct r as [[]|why]; [|by destruct why]. simpl in Ho.
  destruct Ho as (previous & next & Hg & _ & Hc & _ & _ & _ & Hn & Hput). split; [by apply Hput|]. exists p. split; [done|].
  unfold update_call, commit_call. rewrite Hn, bool_decide_true by eauto. destruct Hst as [kv ->]. by split_and!; [|eauto|].
Qed.

(** A write that is acknowledged is there to be read. *)
Lemma acknowledged_reads s m doubts op s' :
  tracks s m doubts -> op_valid op = true -> run_op op s = (Ok tt, s') ->
  match op_cfg op with Some c => reads_as s' (op_id op) c | None => kv_content s' !! op_id op = None end.
Proof.
  intros (_ & m2 & Hr & _) Hv He. apply run_op_ok in He. pose proof (lands_represents op s s' m2 Hv Hr He) as Hr'.
  destruct op as [c|id]; simpl in *; [|by rewrite He, lookup_delete_eq].
  apply (represents_reads s' _ (sc_ID c) c Hr'). apply lookup_insert_eq.
Qed.

(** (C2) What a response says has happened to the store has happened in the bucket. In
    every state the service reaches on a bucket that held valid documents, each under
    its own id, when it started, for requests with no negative zero in them: a created
    stream can be read from the bucket as the configuration the request asked for,
    completed with its defaults; a deleted one is gone; an updated one is read with the
    pipeline the request asked for.  Any other response leaves the bucket as it was,
    unless it is a 503: then the call the request stands for was refused, and the
    bucket is as it was or as that call leaves it, which the manager remembers as being
    in doubt. *)
Theorem responses_are_durable bucket m listen now ls e r resp st' s' :
  represents bucket m -> reach linked_step (boot error_text bucket m listen now, bucket) ls ->
  document_ok (rq_Body r) = true -> linked_serve e r ls = Some (resp, (st', s')) ->
  (success resp = false -> s' = ls.2 \/
     rs_Status resp = StatusServiceUnavailable /\
     exists op, request_call open_text token e r ls.1 = Some op /\ in_doubt st' = in_doubt ls.1 ++ [op] /\
       (kv_content s' = kv_content ls.2 \/ lands op ls.2 s')) /\
  (route r = Handled HCreateStream -> success resp = true ->
     exists cfg, DecodeStreamConfig (rq_Body r) = Some cfg /\ reads_as s' (sc_ID cfg) (with_defaults cfg)) /\
  (forall id, route r = Handled (HDeleteStream id) -> success resp = true -> kv_content s' !! id = None) /\
  (forall id, route r = Handled (HUpdatePipeline id) -> success resp = true ->
     exists p c, DecodePipelineConfig (rq_Body r) = Some p /\ sc_Pipeline c = Some p /\
       configs st' !! id = Some c /\ reads_as s' id c).
Proof.
  intros Hr Hreach Hdoc Hserve. apply (linked_reach_inv bucket m) in Hreach as [[IM _ _] D (m0 & Hst & Ht)]; [|done].
  unfold linked_serve in Hserve. destruct (answers _ _) as [answer s1] eqn:Ea.
  apply bind_Some in Hserve as ([resp1 st1] & Hs & Hout). injection Hout as -> -> ->.
  destruct (serve_handled open_text token answer e r ls.1 resp st' Hdoc Hs) as [[_ Hdoubt] _ Hvalid Hsucc Hrefused].
  specialize (Hvalid D). unfold answers in Ea. split.
  { intros Hno. destruct (request_call _ _ _ _ _) as [op|]; [|injection Ea as <- <-; by left].
    destruct (run_op op ls.2) as [[[]|why] s2] eqn:Er; injection Ea as <- <-; [by rewrite Hsucc in Hno by eauto|].
    right. split; [by apply Hrefused|]. exists op. split; [done|]. split; [done|]. by eapply run_op_err. }
  assert (Hmade : forall h op, route r = Handled h -> success resp = true ->
            answer = None -> handler_call open_text e h (rq_Body r) ls.1 = Some op ->
            match op_cfg op with Some c => reads_as s' (op_id op) c | None => kv_content s' !! op_id op = None end).
  { intros h op Hroute Hok -> Hcall. apply serve_success in Hs as [Ha _]; [|done].
    assert (Hb : request_call open_text token e r ls.1 = Some op) by (unfold request_call; by rewrite Ha, Hroute).
    rewrite Hb in Ea. specialize (Hvalid op Hb). destruct (run_op op ls.2) as [[[]|why] s2] eqn:Er; [|done].
    injection Ea as ->. by eapply acknowledged_reads. }
  split; [|split].
  - intros Hroute Hok. apply serve_success in Hs as (Hb & h & Hh & Hs); [|done]. rewrite Hroute in Hh. injection Hh as <-.
    injection Hs as Hs. apply created_made in Hs as (-> & cfg & Hd & Hcall); [|done|eauto].
    exists cfg. split; [done|]. exact (Hmade _ _ Hroute Hok eq_refl Hcall).
  - intros id Hroute Hok. apply serve_success in Hs as (Hb & h & Hh & Hs); [|done]. rewrite Hroute in Hh. injection Hh as <-.
    apply deleted_made in Hs as (-> & Hcall); [|done|eauto]. exact (Hmade _ _ Hroute Hok eq_refl Hcall).
  - intros id Hroute Hok. apply serve_success in Hs as (Hb & h & Hh & Hs); [|done]. rewrite Hroute in Hh. injection Hh as <-.
    apply updated_made in Hs as (-> & p & Hd & Hcall & Hg & Hc); [|done|eauto].
    assert (is_Some (configs ls.1 !! id)) as [old Hold].
    { rewrite (mi_cfg _ IM), (proj2 (mi_sup _ IM id)); [eauto|]. apply (mi_gen _ IM). by destruct Hg; eauto. }
    pose proof (mi_ids _ IM id old Hold) as Hid. rewrite Hold in Hc, Hcall. simpl in Hc, Hcall.
    exists p, (with_pipeline old (Some p)). split; [done|]. split; [done|]. split; [by rewrite Hc, lookup_insert_eq|].
    pose proof (Hmade _ _ Hroute Hok eq_refl Hcall) as Hread. simpl in Hread. by rewrite Hid in Hread.
Qed.
End Linked.

(** ** Witnesses *)

Definition no_store_text (e : store_error) : string := EmptyString.

(** A service started on an empty bucket; one stream is then created. *)
Definition first_boot : mstate := boot no_text (∅ : gmap string string) ∅ (fun _ => None) 7.

Definition served : response * (mstate * gmap string string) :=
  default (mkResp 0 BText, (first_boot, ∅))
    (linked_serve no_open_text "secret" no_store_text quiet_env (create_request "a") (first_boot, ∅)).

Lemma empty_represents : represents (∅ : gmap string string) ∅.
Proof. split; [intros id c Hl; by rewrite lookup_empty in Hl|]. intros id. simpl. by rewrite !lookup_empty. Qed.

Lemma gmap_reads (s : gmap string string) id : is_Some (kv_content s !! id) -> is_ok (kv_Get s id) = true.
Proof. intros [v Hv]. simpl in *. by rewrite Hv. Qed.

Lemma served_eq :
  linked_serve no_open_text "secret" no_store_text quiet_env (create_request "a") (first_boot, ∅) = Some served.
Proof. apply some_default. vm_compute. reflexivity. Qed.

Lemma served_document : document_ok (rq_Body (create_request "a")) = true.
Proof. vm_compute. reflexivity. Qed.

Lemma served_reach : reach (linked_step no_open_text "secret" no_store_text) (first_boot, ∅) (served.2.1, served.2.2).
Proof.
  apply reach_one. apply (lk_request _ _ _ quiet_env (create_request "a") served.1); [exact served_document|].
  rewrite served_eq. by destruct served as [resp [st s]].
Qed.

(** A bucket that acknowledges one save, and whose answer to the next is lost: a second
    stream is refused, and its document is in the bucket all the same. *)
Definition second_request : request :=
  mkRequest "POST" "/v1/streams" "bearer secret"
    (js "{'id':'b','kind':'webhook','topic':'t','webhook':{'port':'9002','path':'/in'}}").

Definition no_response : response := mkResp 0 BText.
Definition once : flaky := mkFlaky [None; Some true] ∅.
Definition once_boot : mstate := boot no_text once ∅ (fun _ => None) 7.
Definition serve_once (r : request) (ls : mstate * flaky) : response * (mstate * flaky) :=
  default (no_response, ls) (linked_serve no_open_text "secret" no_store_text quiet_env r ls).
Definition once_first := serve_once (create_request "a") (once_boot, once).
Definition once_second := serve_once second_request once_first.2.

Lemma once_reach : reach (linked_step no_open_text "secret" no_store_text) (once_boot, once) (once_second.2.1, once_second.2.2).
Proof.
  assert (E1 : linked_serve no_open_text "secret" no_store_text quiet_env (create_request "a") (once_boot, once)
               = Some once_first) by (apply some_default; vm_compute; reflexivity).
  assert (E2 : linked_serve no_open_text "secret" no_store_text quiet_env second_request once_first.2
               = Some once_second) by (apply some_default; vm_compute; reflexivity).
  eapply reach_step; [eapply reach_step; [apply reach_refl|]|].
  - apply (lk_request _ _ _ quiet_env (create_request "a") once_first.1 _ once_first.2); [exact served_document|].
    rewrite E1. by destruct once_first.
  - apply (lk_request _ _ _ quiet_env second_request once_second.1); [vm_compute; reflexivity|].
    rewrite E2. by destruct once_second as [resp [st s]].
Qed.

Lemma once_represents : represents once ∅.
Proof. split; [intros id c Hl; by rewrite lookup_empty in Hl|]. intros id. simpl. by rewrite !lookup_empty. Qed.

Lemma bucket_mirrors_manager_witness :
  rs_Status once_second.1 = StatusServiceUnavailable /\
  is_some (kv_content once_second.2.2 !! "b"%string) = true /\ configs once_second.2.1 !! "b"%string = None /\
  exists cfg c, configs once_second.2.1 !! "a"%string = Some cfg /\ reads_as once_second.2.2 "a" c /\
    with_defaults c = with_defaults cfg.
Proof.
  split; [vm_compute; reflexivity|]. split; [vm_compute; reflexivity|]. split; [vm_compute; reflexivity|].
  assert (Hc : is_some (configs once_second.2.1 !! "a"%string) = true) by (vm_compute; reflexivity).
  destruct (configs once_second.2.1 !! "a"%string) as [cfg|] eqn:E; [|discriminate Hc].
  destruct (bucket_mirrors_manager no_text no_open_text "secret" no_store_text once ∅ (fun _ => None) 7
    once_second.2.1 once_second.2.2 once_represents once_reach) as (m' & _ & _ & H).
  destruct (H "a"%string) as [_ Ha].
  - assert (Ed : op_id <$> in_doubt once_second.2.1 = ["b"%string]) by (vm_compute; reflexivity).
    intros op Hop Hid. apply (list_elem_of_fmap_2 op_id) in Hop. rewrite Ed, Hid in Hop.
    apply list_elem_of_singleton in Hop. discriminate Hop.
  - destruct (Ha cfg E) as (c & H1 & H2). exists cfg, c. split; [reflexivity|]. split; assumption.
Defined.

(** The same bucket, but now the lost answer is that of a deletion. *)
Definition once_deleted := serve_once (mkRequest "DELETE" "/v1/streams/a" "bearer secret" "") once_first.2.

Lemma restart_recovers_the_service_witness :
  exists cfg m', configs served.2.1 !! "a"%string = Some cfg /\
  recovered (boot no_text served.2.2 m' (fun _ => Some "address in use"%string) 8) "a" cfg.
Proof.
  assert (Hc : is_some (configs served.2.1 !! "a"%string) = true) by (vm_compute; reflexivity).
  assert (Hd : in_doubt served.2.1 = []) by (vm_compute; reflexivity).
  destruct (configs served.2.1 !! "a"%string) as [cfg|] eqn:E; [|discriminate Hc].
  destruct (restart_recovers_the_service no_text no_open_text "secret" no_store_text ∅ ∅ (fun _ => None) 7
    served.2.1 served.2.2 (fun _ => Some "address in use"%string) 8 empty_represents served_reach) as (m' & _ & _ & H).
  - vm_compute. reflexivity.
  - apply gmap_reads.
  - exists cfg, m'. split; [reflexivity|]. rewrite Hd in H.
    destruct (H "a"%string cfg E) as [[_ Hin]|(c & [Hs|[Hin _]] & cfg2 & H2 & H3 & H4)]; [discriminate|..].
    + destruct (not_elem_of_nil _ Hin).
    + exists cfg2. split; [exact H2|]. split; [congruence|exact H4].
    + destruct (not_elem_of_nil _ Hin).
Defined.

(** A registration that is refused leaves nothing in the process, but its document may be
    stored. *)
Example refused_registration_may_be_stored :
  rs_Status once_second.1 = StatusServiceUnavailable /\ configs once_second.2.1 !! "b"%string = None /\
  is_some (kv_content once_second.2.2 !! "b"%string) = true.
Proof. split_and!; vm_compute; reflexivity. Qed.

(** A refused deletion that has landed is the one way a listed stream does not come
    back. *)
Example refused_deletion_may_land :
  rs_Status once_deleted.1 = StatusServiceUnavailable /\ is_some (configs once_deleted.2.1 !! "a"%string) = true /\
  kv_content once_deleted.2.2 !! "a"%string = None /\ in_doubt once_deleted.2.1 = [ODelete "a"].
Proof. split_and!; vm_compute; reflexivity. Qed.

Lemma responses_are_durable_witness :
  rs_Status served.1 = StatusCreated /\ exists cfg, reads_as served.2.2 (sc_ID cfg) (with_defaults cfg).
Proof.
  assert (Hs : rs_Status served.1 = StatusCreated) by (vm_compute; reflexivity). split; [exact Hs|].
  destruct (responses_are_durable no_text no_open_text "secret" no_store_text ∅ ∅ (fun _ => None) 7 (first_boot, ∅)
    quiet_env (create_request "a") served.1 served.2.1 served.2.2 empty_represents) as (_ & H & _).
  - apply reach_refl.
  - exact served_document.
  - rewrite served_eq. destruct served as [resp [st s]]. reflexivity.
  - destruct H as (cfg & _ & Hr).
    + vm_compute. reflexivity.
    + unfold success. rewrite Hs. reflexivity.
    + exists cfg. exact Hr.
Defined.
