(* ===== verification/Generation.v ===== *)
(** * internal/pipeline/generation.go and internal/pipeline/batch.go

    A pipeline generation and its batch worker as a concurrent system: any
    number of publisher goroutines inside [Publish], the worker goroutine of
    [NewBatch], and the goroutine running [Retire].  One action of [gen_exec] is
    one atomic step of one goroutine: a channel operation, a lock operation, or
    the code between two of them.  Interleavings are sequences of actions. *)

From Stdlib Require Import ZArith Lia.
From stdpp Require Import base tactics list strings.
From S2P Require Import Prelude GoLib Domain GoJson.

#[local] Open Scope nat_scope.

(** A value of the worker's channel: [topicEvent]. *)
Abbreviation topicEvent := (string * StreamEvent)%type.

(** Calls the batch middleware makes to the next handler, in order, and batches
    it gives up on because [json.Marshal] refused them. *)
Inductive emission : Type :=
| EDirect (topic : string) (event : StreamEvent)
| EBatch (topic : string) (members : list StreamEvent) (batched : StreamEvent)
| EDropped (members : list StreamEvent).

(** Where a publisher goroutine is. *)
Inductive ppc : Type :=
| PBefore (te : topicEvent)   (* about to take the read lock *)
| PChain (te : topicEvent)    (* inside the chain, before the batch handler *)
| PHandler (te : topicEvent)  (* at the batch handler's first line *)
| PCheck (te : topicEvent)    (* about to read gen.Err() *)
| PSelect (te : topicEvent)   (* at the select *)
| PForward (te : topicEvent)  (* about to call next directly *)
| PLeave                      (* the chain has returned, lock still held *)
| PGone.                      (* Publish has returned *)

(** Where [Retire] is. *)
Inductive rpc : Type :=
| RIdle | RCancelled | RPending | RLocked | RSealed | RWaiting | RDone.

(** Where the worker is: its main select, waiting for the seal, draining, gone. *)
Inductive wpc : Type := WLoop | WAwaitSeal | WDrain | WExited.

#[export] Instance rpc_eq_dec : EqDecision rpc.
Proof. solve_decision. Defined.
#[export] Instance wpc_eq_dec : EqDecision wpc.
Proof. solve_decision. Defined.

Record gstate : Type := mkG {
  pubs : list ppc;
  retirer : rpc;
  worker : wpc;
  eventCh : list topicEvent;
  batch : list StreamEvent;
  lastTopic : string;
  trace : list emission;
  accepted : list topicEvent;  (* ghost: every value ever sent on eventCh *)
  offered : list topicEvent    (* ghost: every event the batch handler was called with *)
}.

Definition set_pubs p s := mkG p (retirer s) (worker s) (eventCh s) (batch s) (lastTopic s)
  (trace s) (accepted s) (offered s).
Definition set_retirer r s := mkG (pubs s) r (worker s) (eventCh s) (batch s) (lastTopic s)
  (trace s) (accepted s) (offered s).
Definition set_worker w s := mkG (pubs s) (retirer s) w (eventCh s) (batch s) (lastTopic s)
  (trace s) (accepted s) (offered s).
Definition emit e s := mkG (pubs s) (retirer s) (worker s) (eventCh s) (batch s) (lastTopic s)
  (trace s ++ [e]) (accepted s) (offered s).

(** [newGeneration] with a batch middleware attached and no publisher yet. *)
Definition gen_init : gstate := mkG [] RIdle WLoop [] [] EmptyString [] [] [].

(** [gen.Err() != nil]: the context is cancelled by the first line of [Retire]. *)
Definition cancelled (s : gstate) : bool := negb (bool_decide (retirer s = RIdle)).

(** [sealed] has been closed. *)
Definition sealed (s : gstate) : bool :=
  match retirer s with RSealed | RWaiting | RDone => true | _ => false end.

(** The write lock is wanted or held: [RLock] blocks. *)
Definition writer_waits (s : gstate) : bool :=
  match retirer s with RPending | RLocked | RSealed => true | _ => false end.

(** The publisher holds the read lock. *)
Definition inside (p : ppc) : bool :=
  match p with PBefore _ | PGone => false | _ => true end.

Definition no_reader (s : gstate) : bool := forallb (fun p => negb (inside p)) (pubs s).

(** ** The worker's batch *)

(** The event [flush] builds from a non-empty batch and its marshalled array. *)
Definition batched_event (now : Z) (first : StreamEvent) (arrayPayload : string) : StreamEvent :=
  mkEvent (se_Source first) (se_Type first +:+ "_batch") now 0 EmptyString (Some arrayPayload)
    EmptyString.

Definition flush (now : Z) (s : gstate) : gstate :=
  match batch s with
  | [] => s
  | first :: _ =>
      let e := match marshal_raws (se_Payload <$> batch s) with
               | None => EDropped (batch s)
               | Some arrayPayload =>
                   EBatch (lastTopic s) (batch s) (batched_event now first arrayPayload)
               end in
      mkG (pubs s) (retirer s) (worker s) (eventCh s) [] (lastTopic s) (trace s ++ [e]) (accepted s)
        (offered s)
  end.

Section Batch.
(** [maxSize], resolved by [NewBatch]: the channel's capacity and the batch's. *)
Variable maxSize : nat.

(** One receive: append, remember the topic, flush when full. *)
Definition receive (now : Z) (s : gstate) : option gstate :=
  match eventCh s with
  | [] => None
  | (topic, event) :: rest =>
      let s := mkG (pubs s) (retirer s) (worker s) rest (batch s ++ [event]) topic (trace s)
                 (accepted s) (offered s) in
      Some (if maxSize <=? length (batch s) then flush now s else s)
  end.

Inductive action : Type :=
(* publishers: i is the goroutine *)
| AArrive (te : topicEvent)
| AEnter (i : nat)
| AUpstreamDrop (i : nat)
| AUpstreamPass (i : nat) (te : topicEvent)
| AHandler (i : nat)
| ACheck (i : nat)
| ASend (i : nat)
| AReleased (i : nat)
| AForward (i : nat)
| ALeave (i : nat)
(* Retire *)
| ACancel | ALockRequest | ALockAcquire | ASeal | AUnlock | AJoin
(* the worker; now is the clock its flush reads *)
| WReceive (now : Z)
| WTick (now : Z)
| WSeeDone
| WSeeSealed
| WDrainReceive (now : Z)
| WDrainEnd (now : Z).

(** The handler [NewBatch] returns, from one program point to the next. *)
Definition publisher_step (a : action) (s : gstate) : option gstate :=
  let at_ i f := p ← pubs s !! i; f p in
  let goto i p := Some (set_pubs (<[i := p]> (pubs s)) s) in
  match a with
  | AArrive te => Some (set_pubs (pubs s ++ [PBefore te]) s)
  | AEnter i => at_ i (fun p =>
      match p with
      | PBefore te => if writer_waits s then None else goto i (PChain te)
      | _ => None
      end)
  | AUpstreamDrop i => at_ i (fun p => match p with PChain _ => goto i PLeave | _ => None end)
  | AUpstreamPass i te => at_ i (fun p =>
      match p with
      | PChain _ =>
          Some (mkG (<[i := PHandler te]> (pubs s)) (retirer s) (worker s) (eventCh s) (batch s)
                  (lastTopic s) (trace s) (accepted s) (offered s ++ [te]))
      | _ => None
      end)
  | AHandler i => at_ i (fun p =>
      match p with
      | PHandler te => goto i (if IsBinary te.2 then PForward te else PCheck te)
      | _ => None
      end)
  | ACheck i => at_ i (fun p =>
      match p with
      | PCheck te => goto i (if cancelled s then PForward te else PSelect te)
      | _ => None
      end)
  | ASend i => at_ i (fun p =>
      match p with
      | PSelect te =>
          if length (eventCh s) <? maxSize then
            Some (mkG (<[i := PLeave]> (pubs s)) (retirer s) (worker s) (eventCh s ++ [te])
                    (batch s) (lastTopic s) (trace s) (accepted s ++ [te]) (offered s))
          else None
      | _ => None
      end)
  | AReleased i => at_ i (fun p =>
      match p with
      | PSelect te => if cancelled s then goto i (PForward te) else None
      | _ => None
      end)
  | AForward i => at_ i (fun p =>
      match p with
      | PForward te => Some (emit (EDirect te.1 te.2) (set_pubs (<[i := PLeave]> (pubs s)) s))
      | _ => None
      end)
  | ALeave i => at_ i (fun p => match p with PLeave => goto i PGone | _ => None end)
  | _ => None
  end.

(** The body of [Retire], one blocking point at a time. *)
Definition retire_step (a : action) (s : gstate) : option gstate :=
  match a, retirer s with
  | ACancel, RIdle => Some (set_retirer RCancelled s)
  | ALockRequest, RCancelled => Some (set_retirer RPending s)
  | ALockAcquire, RPending => if no_reader s then Some (set_retirer RLocked s) else None
  | ASeal, RLocked => Some (set_retirer RSealed s)
  | AUnlock, RSealed => Some (set_retirer RWaiting s)
  | AJoin, RWaiting =>
      if bool_decide (worker s = WExited) then Some (set_retirer RDone s) else None
  | _, _ => None
  end.

(** The worker's loop, its wait for the seal, and [drainAndFlush]. *)
Definition worker_step (a : action) (s : gstate) : option gstate :=
  match a, worker s with
  | WReceive now, WLoop => receive now s
  | WTick now, WLoop => Some (flush now s)
  | WSeeDone, WLoop => if cancelled s then Some (set_worker WAwaitSeal s) else None
  | WSeeSealed, WAwaitSeal => if sealed s then Some (set_worker WDrain s) else None
  | WDrainReceive now, WDrain => receive now s
  | WDrainEnd now, WDrain =>
      match eventCh s with
      | [] => Some (set_worker WExited (flush now s))
      | _ :: _ => None
      end
  | _, _ => None
  end.

Definition gen_exec (a : action) (s : gstate) : option gstate :=
  match a with
  | ACancel | ALockRequest | ALockAcquire | ASeal | AUnlock | AJoin => retire_step a s
  | WReceive _ | WTick _ | WSeeDone | WSeeSealed | WDrainReceive _ | WDrainEnd _ => worker_step a s
  | _ => publisher_step a s
  end.

Definition gstep (s s' : gstate) : Prop := exists a, gen_exec a s = Some s'.

(** A run over an explicit schedule. *)
Fixpoint gen_run (sched : list action) (s : gstate) : option gstate :=
  match sched with
  | [] => Some s
  | a :: sched' => s' ← gen_exec a s; gen_run sched' s'
  end.
End Batch.

Lemma flush_retirer now s : retirer (flush now s) = retirer s.
Proof. unfold flush. by destruct (batch s). Qed.

Lemma flush_accepted now s : accepted (flush now s) = accepted s.
Proof. unfold flush. by destruct (batch s). Qed.

Lemma receive_same m now s s' :
  receive m now s = Some s' -> accepted s' = accepted s /\ retirer s' = retirer s.
Proof.
  unfold receive. destruct (eventCh s) as [|[t e] rest]; [done|]. intros [= <-].
  case_match; [by rewrite flush_accepted, flush_retirer|done].
Qed.

(** ** The invariant *)

(** Events that left the batch with this emission. *)
Definition batched (e : emission) : list StreamEvent :=
  match e with EDirect _ _ => [] | EBatch _ ms _ => ms | EDropped ms => ms end.

Definition batched_all (t : list emission) : list StreamEvent := concat (batched <$> t).

Lemma batched_all_snoc t e : batched_all (t ++ [e]) = batched_all t ++ batched e.
Proof. unfold batched_all. rewrite fmap_app, concat_app. simpl. by rewrite app_nil_r. Qed.

Definition at_select (p : ppc) : bool := match p with PSelect _ => true | _ => false end.

Lemma forallb_insert {A} (f : A -> bool) (l : list A) i x :
  forallb f l = true -> f x = true -> forallb f (<[i := x]> l) = true.
Proof.
  rewrite !forallb_forall. intros Hl Hx y Hy.
  apply list_elem_of_In, list_elem_of_lookup in Hy as [j Hj].
  apply list_lookup_insert_Some in Hj as [(-> & <- & _)|[_ Hj]]; [done|].
  apply Hl, list_elem_of_In. by eapply list_elem_of_lookup_2.
Qed.

Lemma forallb_lookup {A} (f : A -> bool) (l : list A) i x :
  forallb f l = true -> l !! i = Some x -> f x = true.
Proof.
  rewrite forallb_forall. intros Hl Hx. apply Hl, list_elem_of_In. by eapply list_elem_of_lookup_2.
Qed.

Section Invariant.
Variable maxSize : nat.
Hypothesis maxSize_pos : 0 < maxSize.

Definition emission_ok (e : emission) : Prop :=
  match e with
  | EDirect _ _ => True
  | EBatch _ ms _ | EDropped ms => 0 < length ms <= maxSize
  end.

Record gen_inv (s : gstate) : Prop := {
  inv_account : snd <$> accepted s = batched_all (trace s) ++ batch s ++ (snd <$> eventCh s);
  inv_select : sealed s = true -> forallb (fun p => negb (at_select p)) (pubs s) = true;
  inv_excl : retirer s = RLocked \/ retirer s = RSealed -> no_reader s = true;
  inv_await : worker s = WAwaitSeal -> cancelled s = true;
  inv_drain : worker s = WDrain \/ worker s = WExited -> sealed s = true;
  inv_exit : worker s = WExited -> eventCh s = [] /\ batch s = [];
  inv_cap : length (eventCh s) <= maxSize;
  inv_batch : length (batch s) < maxSize;
  inv_done : retirer s = RDone -> worker s = WExited;
  inv_sizes : Forall emission_ok (trace s)
}.

(** The part of the invariant about the buffers, alone. *)
Record buf_inv (s : gstate) : Prop := {
  buf_account : snd <$> accepted s = batched_all (trace s) ++ batch s ++ (snd <$> eventCh s);
  buf_cap : length (eventCh s) <= maxSize;
  buf_batch : length (batch s) <= maxSize;
  buf_sizes : Forall emission_ok (trace s)
}.

Lemma flush_buf now s : buf_inv s -> buf_inv (flush now s) /\ batch (flush now s) = [].
Proof.
  intros B. pose proof B as [Ha Hc Hb Hs]. unfold flush.
  destruct (batch s) as [|x l] eqn:E; [done|].
  split; [|done]. split; simpl.
  - rewrite batched_all_snoc, Ha. rewrite <- app_assoc. f_equal. by destruct (marshal_raws _).
  - done.
  - lia.
  - apply Forall_app. split; [done|]. constructor; [|done].
    destruct (marshal_raws _); simpl in *; lia.
Qed.

Lemma flush_same now s :
  pubs (flush now s) = pubs s /\ retirer (flush now s) = retirer s /\
  worker (flush now s) = worker s /\ eventCh (flush now s) = eventCh s /\
  accepted (flush now s) = accepted s.
Proof. unfold flush. by destruct (batch s). Qed.

Lemma receive_spec now s s' :
  buf_inv s -> length (batch s) < maxSize -> receive maxSize now s = Some s' ->
  buf_inv s' /\ length (batch s') < maxSize /\ pubs s' = pubs s /\ retirer s' = retirer s /\
  worker s' = worker s /\ accepted s' = accepted s /\
  exists te, eventCh s = te :: eventCh s'.
Proof.
  intros [Ha Hc Hb Hs] Hlt H. unfold receive in H.
  destruct (eventCh s) as [|[t e] rest] eqn:E; [done|].
  set (s1 := mkG _ _ _ rest _ _ _ _ _) in H.
  assert (B1 : buf_inv s1).
  { split; simpl; try done.
    - rewrite Ha, ?E. simpl. by rewrite <- !app_assoc.
    - rewrite ?E in Hc. simpl in Hc. lia.
    - rewrite length_app. simpl. lia. }
  destruct (Nat.leb_spec maxSize (length (batch s1))) as [Hf|Hf]; injection H as <-.
  - destruct (flush_buf now s1 B1) as [B2 Hbatch].
    destruct (flush_same now s1) as (Hp & Hr & Hw & HeC & Hacc).
    rewrite Hbatch. split_and!; try done. exists (t, e). by rewrite HeC.
  - split; [done|]. split; [done|]. repeat (split; [done|]). by exists (t, e).
Qed.

Lemma gen_inv_buf s : gen_inv s -> buf_inv s.
Proof. intros []. split; auto. lia. Qed.

Lemma gen_init_inv : gen_inv gen_init.
Proof. split; simpl; try done; try (intros [?|?]; done); lia. Qed.

(** A publisher moving between two program points. *)
Lemma move_inv s i p p' :
  gen_inv s -> pubs s !! i = Some p ->
  inside p = true \/ writer_waits s = false ->
  at_select p' = false \/ sealed s = false ->
  gen_inv (set_pubs (<[i := p']> (pubs s)) s).
Proof.
  intros [Ha Hsel Hex Haw Hdr Hxt Hcap Hb Hdn Hsz] Hp Hin Hat. split; simpl; try done.
  - intros Hs. apply forallb_insert; [by apply Hsel|].
    unfold sealed in *; simpl in Hs. destruct Hat as [->|Hat]; [done|]. by rewrite Hs in Hat.
  - intros Hr. exfalso. specialize (Hex Hr).
    apply (forallb_lookup _ _ i _ Hex) in Hp. apply negb_true_iff in Hp.
    destruct Hin as [Hin|Hin]; [congruence|].
    unfold writer_waits in Hin. destruct Hr as [Hr|Hr]; by rewrite Hr in Hin.
Qed.

Lemma emit_direct_inv s t e : gen_inv s -> gen_inv (emit (EDirect t e) s).
Proof.
  intros [Ha Hsel Hex Haw Hdr Hxt Hcap Hb Hdn Hsz]. split; simpl; try done.
  - rewrite batched_all_snoc. simpl. by rewrite app_nil_r.
  - apply Forall_app. split; [done|]. by constructor.
Qed.

Lemma offer_inv s te :
  gen_inv s ->
  gen_inv (mkG (pubs s) (retirer s) (worker s) (eventCh s) (batch s) (lastTopic s) (trace s)
             (accepted s) (offered s ++ [te])).
Proof. intros [Ha Hsel Hex Haw Hdr Hxt Hcap Hb Hdn Hsz]. by split. Qed.

Lemma arrive_inv s te : gen_inv s -> gen_inv (set_pubs (pubs s ++ [PBefore te]) s).
Proof.
  intros [Ha Hsel Hex Haw Hdr Hxt Hcap Hb Hdn Hsz]. split; simpl; try done.
  - intros Hs. rewrite forallb_app, Hsel by done. done.
  - intros Hr. unfold no_reader in *. simpl. rewrite forallb_app. by rewrite Hex.
Qed.

(** Sending needs a publisher at the select, so it cannot happen once the
    generation is sealed, nor after the worker has left. *)
Lemma send_inv s i te :
  gen_inv s -> pubs s !! i = Some (PSelect te) -> length (eventCh s) < maxSize ->
  gen_inv (mkG (<[i := PLeave]> (pubs s)) (retirer s) (worker s) (eventCh s ++ [te])
             (batch s) (lastTopic s) (trace s) (accepted s ++ [te]) (offered s)).
Proof.
  intros I Hp Hlen.
  assert (Hns : sealed s = false).
  { destruct (sealed s) eqn:Hs; [|done].
    pose proof (forallb_lookup _ _ i _ (inv_select s I Hs) Hp). done. }
  destruct (move_inv s i _ PLeave I Hp) as [Ha Hsel Hex Haw Hdr Hxt Hcap Hb Hdn Hsz];
    [by left|by left|].
  split; simpl in *; try done.
  - rewrite !fmap_app, Ha. simpl. by rewrite <- !app_assoc.
  - intros Hw. specialize (Hdr (or_intror Hw)). unfold sealed in *. simpl in Hdr. congruence.
  - rewrite length_app. simpl. lia.
Qed.

Lemma publisher_inv a s s' : gen_inv s -> publisher_step maxSize a s = Some s' -> gen_inv s'.
Proof.
  intros I H.
  destruct a; simpl in H; try done; [simplify_eq; by apply arrive_inv|..].
  all: apply bind_Some in H as (p & Hp & H); destruct p; try done.
  - destruct (writer_waits s) eqn:Hw; simplify_eq.
    eapply move_inv; eauto.
  - simplify_eq. eapply move_inv; eauto.
  - simplify_eq. eapply (offer_inv (set_pubs _ s)), move_inv; eauto.
  - simplify_eq. eapply move_inv; eauto. left. by destruct (IsBinary _).
  - simplify_eq. eapply move_inv; eauto.
    destruct (cancelled s) eqn:Hc; [by left|right].
    unfold cancelled, sealed in *. by destruct (retirer s).
  - destruct (Nat.ltb_spec (length (eventCh s)) maxSize); simplify_eq. by apply send_inv.
  - destruct (cancelled s); simplify_eq. eapply move_inv; eauto.
  - simplify_eq. apply emit_direct_inv. eapply move_inv; eauto.
  - simplify_eq. eapply move_inv; eauto.
Qed.

(** Moves of [Retire]: each keeps the buffers and the publishers. *)
Lemma set_retirer_inv s r :
  gen_inv s ->
  (sealed (set_retirer r s) = true -> forallb (fun p => negb (at_select p)) (pubs s) = true) ->
  (r = RLocked \/ r = RSealed -> no_reader s = true) ->
  (cancelled s = true -> cancelled (set_retirer r s) = true) ->
  (sealed s = true -> sealed (set_retirer r s) = true) ->
  (r = RDone -> worker s = WExited) ->
  gen_inv (set_retirer r s).
Proof.
  intros [Ha Hsel Hex Haw Hdr Hxt Hcap Hb Hdn Hsz] H1 H2 H3 H4 H5.
  split; simpl; auto.
Qed.

Lemma no_reader_no_select s :
  no_reader s = true -> forallb (fun p => negb (at_select p)) (pubs s) = true.
Proof.
  unfold no_reader. rewrite !forallb_forall. intros H x Hx. specialize (H x Hx).
  by destruct x.
Qed.

Lemma retire_inv a s s' : gen_inv s -> retire_step a s = Some s' -> gen_inv s'.
Proof.
  intros I H. unfold retire_step in H.
  pose proof (inv_select s I) as Hsel. pose proof (inv_excl s I) as Hex.
  destruct a; try done; destruct (retirer s) eqn:E; try done.
  all: repeat (case_match; try done); simplify_eq.
  all: apply set_retirer_inv; [done|..]; unfold cancelled, sealed in *; simpl; rewrite ?E in *;
    try done; auto using no_reader_no_select; try (by intros [?|?]).
  by rewrite bool_decide_eq_true in *.
Qed.

(** Steps of the worker that change only the buffers. *)
Lemma buffers_inv s s' :
  gen_inv s -> worker s <> WExited ->
  buf_inv s' -> length (batch s') < maxSize ->
  pubs s' = pubs s -> retirer s' = retirer s -> worker s' = worker s -> gen_inv s'.
Proof.
  intros [Ha Hsel Hex Haw Hdr Hxt Hcap Hb Hdn Hsz] Hne [Ha' Hc' _ Hs'] Hlt Hp Hr Hw.
  assert (sealed s' = sealed s) as Hse by (unfold sealed; by rewrite Hr).
  assert (cancelled s' = cancelled s) as Hca by (unfold cancelled; by rewrite Hr).
  assert (no_reader s' = no_reader s) as Hnr by (unfold no_reader; by rewrite Hp).
  split; rewrite ?Hse, ?Hca, ?Hnr, ?Hp, ?Hr, ?Hw; try done.
Qed.

Lemma flush_inv now s : gen_inv s -> worker s <> WExited -> gen_inv (flush now s).
Proof.
  intros I Hne. destruct (flush_buf now s (gen_inv_buf s I)) as [B Hb].
  destruct (flush_same now s) as (Hp & Hr & Hw & _ & _).
  eapply buffers_inv; eauto. rewrite Hb. simpl. lia.
Qed.

Lemma receive_inv now s s' :
  gen_inv s -> worker s <> WExited -> receive maxSize now s = Some s' -> gen_inv s'.
Proof.
  intros I Hne H. apply receive_spec in H as (B & Hlt & Hp & Hr & Hw & _ & _);
    [|by apply gen_inv_buf|by apply inv_batch].
  by eapply buffers_inv.
Qed.

Lemma set_worker_inv s w :
  gen_inv s ->
  (w = WAwaitSeal -> cancelled s = true) ->
  (w = WDrain \/ w = WExited -> sealed s = true) ->
  (w = WExited -> eventCh s = [] /\ batch s = []) ->
  (retirer s = RDone -> w = WExited) ->
  gen_inv (set_worker w s).
Proof.
  intros [Ha Hsel Hex Haw Hdr Hxt Hcap Hb Hdn Hsz] H1 H2 H3 H4. split; simpl; auto.
Qed.

Lemma worker_inv a s s' : gen_inv s -> worker_step maxSize a s = Some s' -> gen_inv s'.
Proof.
  intros I H. unfold worker_step in H. pose proof (inv_done s I) as Hdn.
  destruct a; try done; destruct (worker s) eqn:E; try done.
  - eapply receive_inv; [done| |done]. by rewrite E.
  - simplify_eq. apply flush_inv; [done|]. by rewrite E.
  - destruct (cancelled s) eqn:Hc; simplify_eq.
    apply set_worker_inv; try done; [by intros [?|?]|]. intros HR. by specialize (Hdn HR).
  - destruct (sealed s) eqn:Hc; simplify_eq.
    apply set_worker_inv; try done. intros HR. by specialize (Hdn HR).
  - eapply receive_inv; [done| |done]. by rewrite E.
  - destruct (eventCh s) eqn:Ech; simplify_eq.
    destruct (flush_same now s) as (_ & Hr & _ & Hch & _).
    destruct (flush_buf now s (gen_inv_buf s I)) as [_ Hb].
    apply set_worker_inv; try done.
    + apply flush_inv; [done|]. by rewrite E.
    + intros _. unfold sealed. rewrite Hr. apply (inv_drain s I). by left.
    + intros _. rewrite Hch, Ech. done.
Qed.

Lemma gstep_inv s s' : gen_inv s -> gstep maxSize s s' -> gen_inv s'.
Proof.
  intros I [a H].
  destruct a;
    first [exact (publisher_inv _ _ _ I H)|exact (retire_inv _ _ _ I H)
          |exact (worker_inv _ _ _ I H)].
Qed.

Lemma gen_reach_inv s : reach (gstep maxSize) gen_init s -> gen_inv s.
Proof. apply reach_invariant; [apply gen_init_inv|apply gstep_inv]. Qed.
End Invariant.

(** ** Losing nothing *)

(** The events published in batches, in the order they were published. *)
Definition published_batched (t : list emission) : list StreamEvent :=
  concat ((fun e => match e with EBatch _ ms _ => ms | _ => [] end) <$> t).

Definition payload_valid (e : StreamEvent) : Prop :=
  forall s, se_Payload e = Some s -> json_valid s = true.

Section Lossless.
Variable maxSize : nat.
Hypothesis maxSize_pos : 0 < maxSize.

(** A batch is given up only if one of its members is not valid JSON. *)
Definition drop_justified (e : emission) : Prop :=
  match e with EDropped ms => ~ Forall payload_valid ms | _ => True end.

Lemma flush_justified now s :
  Forall drop_justified (trace s) -> Forall drop_justified (trace (flush now s)).
Proof.
  intros H. unfold flush. destruct (batch s) as [|x l] eqn:E; [done|]. simpl.
  apply Forall_app. split; [done|]. constructor; [|done].
  destruct (marshal_raws _) eqn:Em; simpl; [done|]. intros Hv.
  assert (Hs : is_Some (marshal_raws (se_Payload <$> x :: l))).
  { apply marshal_raws_some. rewrite Forall_fmap. by eapply Forall_impl. }
  simpl in Hs. rewrite Em in Hs. by destruct Hs.
Qed.

Lemma receive_justified now s s' :
  Forall drop_justified (trace s) -> receive maxSize now s = Some s' ->
  Forall drop_justified (trace s').
Proof.
  intros H Hr. unfold receive in Hr. destruct (eventCh s) as [|[t e] rest]; [done|].
  injection Hr as <-. case_match; [|done]. by apply flush_justified.
Qed.

Lemma gen_justified s : reach (gstep maxSize) gen_init s -> Forall drop_justified (trace s).
Proof.
  apply (reach_invariant _ (fun s => Forall drop_justified (trace s))); [constructor|].
  clear s. intros s s' H [a Ha].
  destruct a; cbn [gen_exec publisher_step retire_step worker_step] in Ha;
    try (apply bind_Some in Ha as (p & _ & Ha));
    repeat (case_match; try done); simplify_eq; simpl; try done;
    eauto using receive_justified, flush_justified.
  all: apply Forall_app; split; [done|by repeat constructor].
Qed.

Lemma batched_published t :
  Forall drop_justified t -> Forall payload_valid (batched_all t) ->
  batched_all t = published_batched t.
Proof.
  unfold batched_all, published_batched. induction t as [|e t IH]; [done|]. csimpl.
  rewrite Forall_cons, Forall_app. intros [Hj Hjs] [Hv Hvs]. rewrite <- (IH Hjs Hvs).
  f_equal. destruct e; [done..|]. by destruct Hj.
Qed.
End Lossless.

(** ** Retirement ends

    Two kinds of action need not happen: a new publisher arriving, and a tick on
    an empty batch.  Every other action makes progress, and the measure below
    bounds how many of them there can be. *)

Definition ppc_weight (p : ppc) : nat :=
  match p with
  | PBefore _ => 8 | PChain _ => 7 | PHandler _ => 6 | PCheck _ => 5 | PSelect _ => 4
  | PForward _ => 2 | PLeave => 1 | PGone => 0
  end.

Definition rpc_weight (r : rpc) : nat :=
  match r with
  | RIdle => 6 | RCancelled => 5 | RPending => 4 | RLocked => 3 | RSealed => 2 | RWaiting => 1
  | RDone => 0
  end.

Definition wpc_weight (w : wpc) : nat :=
  match w with WLoop => 3 | WAwaitSeal => 2 | WDrain => 1 | WExited => 0 end.

Definition gen_measure (s : gstate) : nat :=
  sum_list_with ppc_weight (pubs s) + 2 * length (eventCh s) + length (batch s)
  + wpc_weight (worker s) + rpc_weight (retirer s).

Definition makes_progress (a : action) (s : gstate) : bool :=
  match a with
  | AArrive _ => false
  | WTick _ => negb (bool_decide (batch s = []))
  | _ => true
  end.

Lemma sum_list_insert (l : list ppc) i p p' :
  l !! i = Some p ->
  sum_list_with ppc_weight (<[i := p']> l) + ppc_weight p
  = sum_list_with ppc_weight l + ppc_weight p'.
Proof.
  revert i. induction l as [|x l IH]; intros [|i] H; simplify_eq/=; [lia|].
  specialize (IH i H). lia.
Qed.

(** Brings in the weight of the publisher a step moves. *)
Ltac weigh_move Hi :=
  match type of Hi with
  | ?l !! ?i = Some ?p =>
      match goal with
      | |- context [<[i := ?q]> l] =>
          let Hs := fresh in pose proof (sum_list_insert l i p q Hi) as Hs; simpl in Hs
      end
  end.

Section Liveness.
Variable maxSize : nat.
Hypothesis maxSize_pos : 0 < maxSize.

Definition progress_step (s s' : gstate) : Prop :=
  exists a, makes_progress a s = true /\ gen_exec maxSize a s = Some s'.

Lemma flush_measure now s :
  gen_measure (flush now s) + length (batch s) = gen_measure s.
Proof. unfold flush. destruct (batch s) eqn:E; unfold gen_measure; simpl; rewrite ?E; simpl; lia. Qed.

Lemma receive_measure now s s' :
  receive maxSize now s = Some s' -> gen_measure s' < gen_measure s.
Proof.
  unfold receive. destruct (eventCh s) as [|[t e] rest] eqn:E; [done|].
  set (s1 := mkG _ _ _ rest _ _ _ _ _). intros H.
  assert (Hm : gen_measure s1 < gen_measure s).
  { unfold gen_measure. simpl. rewrite length_app, E. simpl. lia. }
  destruct (maxSize <=? length (batch s1)); injection H as <-; [|done].
  pose proof (flush_measure now s1). lia.
Qed.

Lemma progress_measure s s' : progress_step s s' -> gen_measure s' < gen_measure s.
Proof.
  intros (a & Hp & H).
  destruct a; cbn [gen_exec publisher_step retire_step worker_step] in H; try done;
    try (apply bind_Some in H as (p & Hi & H)).
  (* publishers *)
  1-9: destruct p; try done; repeat (case_match; try done); simplify_eq;
    unfold gen_measure; simpl; weigh_move Hi; rewrite ?length_app; simpl; lia.
  (* Retire *)
  1-6: destruct (retirer s) eqn:E; try done; repeat (case_match; try done); simplify_eq;
    unfold gen_measure; simpl; rewrite E; simpl; lia.
  (* the worker *)
  all: destruct (worker s) eqn:E; try done; eauto using receive_measure.
  - simplify_eq. pose proof (flush_measure now s). simpl in Hp.
    rewrite negb_true_iff, bool_decide_eq_false in Hp.
    destruct (batch s); [done|simpl in *; lia].
  - case_match; simplify_eq. unfold gen_measure. simpl. rewrite E. simpl. lia.
  - case_match; simplify_eq. unfold gen_measure. simpl. rewrite E. simpl. lia.
  - destruct (eventCh s) eqn:Ech; simplify_eq. pose proof (flush_measure now s) as Hf.
    destruct (flush_same now s) as (Hp' & Hr & Hw & Hch & _).
    unfold gen_measure in *. simpl in *. rewrite ?Hw, ?E in *. simpl in *. lia.
Qed.

Lemma inside_moves s i p :
  pubs s !! i = Some p -> inside p = true -> cancelled s = true ->
  exists s', progress_step s s'.
Proof.
  intros Hp Hin Hc. unfold progress_step.
  destruct p; try done.
  1: eexists _, (AUpstreamDrop i). 2: eexists _, (AHandler i). 3: eexists _, (ACheck i).
  4: eexists _, (AReleased i). 5: eexists _, (AForward i). 6: eexists _, (ALeave i).
  all: (split; [done|]); cbn [gen_exec publisher_step]; rewrite Hp; cbn [mbind option_bind];
    rewrite ?Hc; done.
Qed.

Lemma retire_not_stuck s :
  gen_inv maxSize s -> retirer s <> RIdle -> retirer s <> RDone ->
  exists s', progress_step s s'.
Proof.
  intros I Hi Hd.
  assert (Hc : cancelled s = true) by (unfold cancelled; by rewrite bool_decide_false).
  destruct (retirer s) eqn:E; try done.
  - eexists _, ALockRequest. split; [done|]. cbn [gen_exec retire_step]. by rewrite E.
  - destruct (no_reader s) eqn:Hn.
    + eexists _, ALockAcquire. split; [done|]. cbn [gen_exec retire_step]. by rewrite E, Hn.
    + unfold no_reader in Hn. apply not_true_iff_false in Hn. rewrite forallb_forall in Hn.
      destruct (decide (Exists (fun p => inside p = true) (pubs s))) as [Hex|Hnex].
      * apply Exists_exists in Hex as (p & Hp & Hin).
        apply list_elem_of_lookup in Hp as [i Hp]. by eapply inside_moves.
      * destruct Hn. intros p Hp. apply negb_true_iff, not_true_iff_false. intros Hin.
        apply Hnex, Exists_exists. exists p. split; [by apply list_elem_of_In|done].
  - eexists _, ASeal. split; [done|]. cbn [gen_exec retire_step]. by rewrite E.
  - eexists _, AUnlock. split; [done|]. cbn [gen_exec retire_step]. by rewrite E.
  - assert (Hs : sealed s = true) by (unfold sealed; by rewrite E).
    destruct (worker s) eqn:Ew.
    + eexists _, WSeeDone. split; [done|]. cbn [gen_exec worker_step]. by rewrite Ew, Hc.
    + eexists _, WSeeSealed. split; [done|]. cbn [gen_exec worker_step]. by rewrite Ew, Hs.
    + destruct (eventCh s) as [|[t e] rest] eqn:Ech.
      * eexists _, (WDrainEnd 0%Z). split; [done|]. cbn [gen_exec worker_step].
        by rewrite Ew, Ech.
      * eexists _, (WDrainReceive 0%Z). split; [done|]. cbn [gen_exec worker_step].
        rewrite Ew. unfold receive. by rewrite Ech.
    + eexists _, AJoin. split; [done|]. cbn [gen_exec retire_step].
      rewrite E. by rewrite bool_decide_true.
Qed.

Lemma progress_gstep s s' : progress_step s s' -> gstep maxSize s s'.
Proof. intros (a & _ & H). by exists a. Qed.

Lemma retirer_started s s' :
  gstep maxSize s s' -> retirer s <> RIdle -> retirer s' <> RIdle.
Proof.
  intros [a H] Hr.
  destruct a; cbn [gen_exec publisher_step retire_step worker_step] in H;
    try (apply bind_Some in H as (p & _ & H)).
  all: repeat (case_match; try done); simplify_eq; simpl; try done;
    try (destruct (flush_same now s) as (_ & -> & _); done).
  all: unfold receive in H; destruct (eventCh s) as [|[t e] rest]; [done|]; injection H as <-;
    case_match; try done;
    match goal with |- retirer (flush ?n ?x) <> _ => destruct (flush_same n x) as (_ & -> & _) end;
    done.
Qed.

Lemma progress_acc s : Acc (fun b a => progress_step a b) s.
Proof.
  induction s as [s IH] using (induction_ltof1 _ gen_measure). constructor.
  intros s' Hs. apply IH. unfold ltof. by apply progress_measure.
Qed.
End Liveness.

(** ** Conservation: nothing offered to the batch handler disappears *)

(** The event a publisher still carries past the handler's first line. *)
Definition carried (p : ppc) : list topicEvent :=
  match p with PHandler te | PCheck te | PSelect te | PForward te => [te] | _ => [] end.

Definition carried_all (ps : list ppc) : list topicEvent := concat (carried <$> ps).

(** Events handed to the next handler one by one. *)
Definition forwarded (t : list emission) : list topicEvent :=
  omap (fun e => match e with EDirect topic ev => Some (topic, ev) | _ => None end) t.

Lemma carried_insert ps i p p' :
  ps !! i = Some p -> carried p' ++ carried_all ps ≡ₚ carried p ++ carried_all (<[i := p']> ps).
Proof.
  unfold carried_all. revert i. induction ps as [|x ps IH]; intros [|i] H; simplify_eq/=.
  - rewrite !app_assoc. apply Permutation_app_tail, Permutation_app_comm.
  - rewrite (app_assoc (carried p')), (Permutation_app_comm (carried p')), <- app_assoc.
    rewrite (IH i H). rewrite !app_assoc. apply Permutation_app_tail, Permutation_app_comm.
Qed.

Definition conserved (s : gstate) : Prop :=
  offered s ≡ₚ accepted s ++ forwarded (trace s) ++ carried_all (pubs s).

Lemma forwarded_flush now s : forwarded (trace (flush now s)) = forwarded (trace s).
Proof.
  unfold flush. destruct (batch s); [done|]. simpl. unfold forwarded.
  rewrite omap_app. simpl. destruct (marshal_raws _); by rewrite app_nil_r.
Qed.

Lemma flush_offered now s : offered (flush now s) = offered s.
Proof. unfold flush. by destruct (batch s). Qed.

Lemma conserved_flush now s : conserved s -> conserved (flush now s).
Proof.
  unfold conserved. rewrite forwarded_flush, flush_offered.
  by destruct (flush_same now s) as (-> & _ & _ & _ & ->).
Qed.

Lemma conserved_receive m now s s' : conserved s -> receive m now s = Some s' -> conserved s'.
Proof.
  unfold receive. intros H Hr. destruct (eventCh s) as [|[t e] rest]; [done|].
  injection Hr as <-. case_match; [by apply conserved_flush|done].
Qed.

(** A publisher's move keeps the account when it carries the same events. *)
Lemma conserved_move s i p p' :
  conserved s -> pubs s !! i = Some p -> carried p' = carried p ->
  conserved (set_pubs (<[i := p']> (pubs s)) s).
Proof.
  unfold conserved. simpl. intros H Hp Hc.
  pose proof (carried_insert _ _ _ p' Hp) as Hi. rewrite Hc in Hi.
  apply Permutation_app_inv_l in Hi. by rewrite <- Hi.
Qed.

Lemma conserved_publisher m a s s' :
  conserved s -> publisher_step m a s = Some s' -> conserved s'.
Proof.
  intros C H. destruct a; cbn [publisher_step] in H; try done.
  { simplify_eq. unfold conserved, carried_all in *. simpl.
    rewrite fmap_app, concat_app. simpl. by rewrite app_nil_r. }
  all: apply bind_Some in H as (p & Hp & H); destruct p; try done.
  1,2,4,5,7,9: repeat (case_match; try done); simplify_eq;
    first [by eapply conserved_move|done].
  all: repeat (case_match; try done); simplify_eq; unfold conserved in *; simpl.
  - pose proof (carried_insert _ _ _ (PHandler te) Hp) as Hi. simpl in Hi.
    rewrite <- Hi, C. solve_Permutation.
  - pose proof (carried_insert _ _ _ PLeave Hp) as Hi. simpl in Hi. rewrite C, Hi.
    solve_Permutation.
  - pose proof (carried_insert _ _ _ PLeave Hp) as Hi. simpl in Hi. rewrite C, Hi.
    unfold forwarded. rewrite omap_app. simpl. destruct te. solve_Permutation.
Qed.

Lemma gen_conserved m s : reach (gstep m) gen_init s -> conserved s.
Proof.
  apply (reach_invariant _ conserved); [by unfold conserved|]. clear s. intros s s' C [a H].
  destruct a; try exact (conserved_publisher _ _ _ _ C H);
    cbn [gen_exec retire_step worker_step] in H; repeat (case_match; try done); simplify_eq;
    eauto using conserved_receive, conserved_flush.
  by apply (conserved_flush now) in C.
Qed.

(** A schedule that runs is a path. *)
Lemma gen_run_reach m sched s s' : gen_run m sched s = Some s' -> reach (gstep m) s s'.
Proof.
  revert s. induction sched as [|a sched IH]; simpl; intros s H; [by simplify_eq|].
  apply bind_Some in H as (s1 & Ha & H). eapply reach_trans; [|by apply IH].
  apply reach_one. by exists a.
Qed.

(** ** Properties *)

(** (C8) Retiring a generation loses nothing: once [Retire] has returned, the
    worker's channel and batch are empty, the events that were accepted into the
    buffer have been published in batches, each exactly once and in the order
    they were accepted, and every event the batch handler was ever called with
    was either accepted, forwarded on its own, or is still in the hands of a late
    publisher that can only forward it: such an event is published unbatched, not
    dropped, whatever a comment in webhook.go says of a late handler's.  Holds for
    every interleaving of any number of publishers, the worker and the retirement;
    the one condition is that accepted payloads are valid JSON, which is what every
    connector produces. *)
Theorem retirement_loses_nothing (maxSize : nat) (s : gstate) :
  0 < maxSize ->
  reach (gstep maxSize) gen_init s ->
  retirer s = RDone ->
  Forall payload_valid (snd <$> accepted s) ->
  eventCh s = [] /\ batch s = [] /\
  published_batched (trace s) = snd <$> accepted s /\
  offered s ≡ₚ accepted s ++ forwarded (trace s) ++ carried_all (pubs s) /\
  Forall (fun p => at_select p = false) (pubs s).
Proof.
  intros Hm Hr Hd Hv. pose proof (gen_reach_inv maxSize Hm s Hr) as I.
  destruct (inv_exit _ _ I (inv_done _ _ I Hd)) as [Hch Hb].
  pose proof (inv_account _ _ I) as Ha. rewrite Hch, Hb in Ha. rewrite !app_nil_r in Ha.
  split_and!; [done|done| |by eapply gen_conserved|].
  - rewrite Ha in *. symmetry. apply batched_published; [by eapply gen_justified|done].
  - assert (Hs : sealed s = true) by (unfold sealed; by rewrite Hd).
    pose proof (inv_select _ _ I Hs) as Hsel. rewrite forallb_forall in Hsel.
    apply Forall_forall. intros p Hp. apply list_elem_of_In in Hp.
    by apply Hsel, negb_true_iff in Hp.
Qed.

(** (C16) [Retire] ends: from any reachable state in which it has started, every
    run that takes only progress steps (no new publisher, no tick on an empty
    batch) is finite, and where such a run can go no further [Retire] has
    returned.  In particular no lock, channel or wait of the handshake can
    deadlock. *)
Theorem retirement_terminates (maxSize : nat) (s : gstate) :
  0 < maxSize ->
  reach (gstep maxSize) gen_init s ->
  retirer s <> RIdle ->
  Acc (fun b a => progress_step maxSize a b) s /\
  forall s', reach (progress_step maxSize) s s' ->
    (exists s'', progress_step maxSize s' s'') \/ retirer s' = RDone.
Proof.
  intros Hm Hr Hi. split; [by apply progress_acc|]. intros s' Hr'.
  assert (Hg : reach (gstep maxSize) gen_init s' /\ retirer s' <> RIdle).
  { clear -Hr Hi Hr' Hm. induction Hr' as [|s1 s2 _ IH Hs]; [done|].
    destruct IH as [Hr1 Hi1]. pose proof (progress_gstep _ _ _ Hs) as Hg.
    split; [by eapply reach_step|by eapply retirer_started; eauto]. }
  destruct Hg as [Hg Hi'].
  destruct (decide (retirer s' = RDone)); [by right|left].
  eapply retire_not_stuck; eauto using gen_reach_inv.
Qed.

(** Sealing is final: once a generation is sealed no publisher is at the
    select, and no step of any goroutine puts an event into the buffer, so a
    drain that finds the buffer empty means it is empty for good. *)
Theorem sealed_accepts_nothing (maxSize : nat) (s s' : gstate) (a : action) :
  0 < maxSize ->
  reach (gstep maxSize) gen_init s ->
  sealed s = true ->
  gen_exec maxSize a s = Some s' ->
  accepted s' = accepted s /\ sealed s' = true.
Proof.
  intros Hm Hr Hs H. pose proof (gen_reach_inv maxSize Hm s Hr) as I.
  pose proof (inv_select _ _ I Hs) as Hsel.
  destruct a; cbn [gen_exec publisher_step retire_step worker_step] in H;
    try (apply bind_Some in H as (p & Hp & H); destruct p); try done.
  7: { pose proof (forallb_lookup _ _ _ _ Hsel Hp). done. }
  all: unfold sealed in Hs; destruct (retirer s) eqn:Er, (worker s) eqn:Ew; try done.
  all: try (eapply receive_same in H as [-> Hr']; unfold sealed; rewrite Hr', Er; done).
  all: repeat (case_match; try done); simplify_eq; unfold sealed; simpl;
    rewrite ?flush_accepted, ?flush_retirer, ?Er; done.
Qed.

(** (C39) Batches are bounded: the buffer never exceeds its capacity, and a
    published batch has at least one and at most [maxSize] members. *)
Theorem batches_bounded (maxSize : nat) (s : gstate) :
  0 < maxSize ->
  reach (gstep maxSize) gen_init s ->
  length (eventCh s) <= maxSize /\ length (batch s) < maxSize /\
  forall topic ms ev, EBatch topic ms ev ∈ trace s -> 0 < length ms <= maxSize.
Proof.
  intros Hm Hr. pose proof (gen_reach_inv maxSize Hm s Hr) as I.
  split_and!; [apply I|apply I|]. intros topic ms ev Hin.
  pose proof (inv_sizes _ _ I) as Hs. rewrite Forall_forall in Hs. apply (Hs _ Hin).
Qed.

(** *** Concrete runs *)

Definition demo_event (n : string) : StreamEvent :=
  mkEvent "s" "t" 0 0 EmptyString (Some n) EmptyString.

(** One publisher's whole visit: it finds room in the buffer. *)
Definition visit (i : nat) (te : topicEvent) : list action :=
  [AArrive te; AEnter i; AUpstreamPass i te; AHandler i; ACheck i; ASend i; ALeave i].

(** Three accepted events, a size-triggered flush, a publisher released from the
    select by cancellation, the handshake, and the final drain. *)
Definition demo_schedule : list action :=
  visit 0 ("a", demo_event "1") ++ visit 1 ("a", demo_event "2") ++ [WReceive 5; WReceive 6]
  ++ visit 2 ("a", demo_event "3")
  ++ [AArrive ("a", demo_event "4"); AEnter 3; AUpstreamPass 3 ("a", demo_event "4");
      AHandler 3; ACheck 3; ACancel; AReleased 3; ALockRequest; AForward 3; ALeave 3;
      WSeeDone; ALockAcquire; ASeal; AUnlock; WSeeSealed; WDrainReceive 7; WDrainEnd 8; AJoin]%Z.

Definition demo_final : gstate := default gen_init (gen_run 2 demo_schedule gen_init).

Definition demo_sealed : gstate := default gen_init (gen_run 2 (take 36 demo_schedule) gen_init).

Lemma demo_final_reach : reach (gstep 2) gen_init demo_final.
Proof. apply (gen_run_reach 2 demo_schedule). vm_compute. reflexivity. Qed.

Lemma demo_sealed_reach : reach (gstep 2) gen_init demo_sealed.
Proof. apply (gen_run_reach 2 (take 36 demo_schedule)). vm_compute. reflexivity. Qed.

Lemma demo_valid : Forall payload_valid (snd <$> accepted demo_final).
Proof.
  replace (snd <$> accepted demo_final) with [demo_event "1"; demo_event "2"; demo_event "3"]
    by (vm_compute; reflexivity).
  repeat constructor; intros ? [= <-]; vm_compute; reflexivity.
Qed.

Lemma retirement_loses_nothing_witness :
  published_batched (trace demo_final) = [demo_event "1"; demo_event "2"; demo_event "3"] /\
  forwarded (trace demo_final) = [("a"%string, demo_event "4")].
Proof.
  destruct (retirement_loses_nothing 2 demo_final ltac:(lia) demo_final_reach
              ltac:(vm_compute; reflexivity) demo_valid) as (_ & _ & H & _).
  split; [rewrite H; vm_compute; reflexivity|vm_compute; reflexivity].
Defined.

Lemma retirement_terminates_witness :
  exists s'', progress_step 2 demo_sealed s''.
Proof.
  destruct (retirement_terminates 2 demo_sealed ltac:(lia) demo_sealed_reach
              ltac:(vm_compute; done)) as [_ H].
  destruct (H demo_sealed (reach_refl _ _)) as [H1|H1]; [exact H1|vm_compute in H1; done].
Defined.

Lemma sealed_accepts_nothing_witness :
  sealed demo_sealed = true /\
  exists s', gen_exec 2 AUnlock demo_sealed = Some s' /\ accepted s' = accepted demo_sealed.
Proof.
  split; [vm_compute; reflexivity|].
  eexists. split; [vm_compute; reflexivity|].
  refine (proj1 (sealed_accepts_nothing 2 demo_sealed _ AUnlock ltac:(lia) demo_sealed_reach
           ltac:(vm_compute; reflexivity) _)).
  vm_compute. reflexivity.
Defined.

Lemma batches_bounded_witness : length (eventCh demo_sealed) <= 2.
Proof. exact (proj1 (batches_bounded 2 demo_sealed ltac:(lia) demo_sealed_reach)). Defined.
